(* ===== verification/_CoqProject ===== *)
-Q . S2P
Prelude.v
GoStrings.v
GoPath.v
JsonKeys.v
StoreTypes.v
StorePlans.v
StorePlansSpec.v
StoreOps.v
StoreOpsSpec.v
BackfillSpec.v
Watch.v
Forward.v
ForwardSpec.v
ForwardStartSpec.v
Producer.v
ProducerSpec.v
ForwardEligibility.v
AtomicFile.v
UploadQueue.v
UploadQueueSpec.v
CursorState.v
Sha256.v
Durable.v
DurableSpec.v
DurableWindows.v
WatchRoot.v
WatchRootSpec.v
WatchRootWindows.v
Base64.v
Auth.v
AuthSpec.v
GoTime.v
SplitContent.v
SourceText.v
GoStream.v
Regex.v
ClaudeSource.v
ClaudeSourceSpec.v
CodexSource.v
CodexSourceSpec.v
SourceJson.v
GoStreamSpec.v
JsonCanon.v
SourceShape.v
GeminiSource.v
ChatGptSource.v
ClaudeAppSource.v
AntigravitySource.v
SourceStreams.v
SourceInstances.v
GoJson.v
Rfc3339.v
Ingest.v
IngestSpec.v
RegexSpec.v
GoFile.v
GoUrl.v
GcpAuth.v
GcpAuthSpec.v
SpannerExec.v
SpannerExecSpec.v
SpannerClient.v
RuntimeConfig.v
GoScan.v
Process.v
ProcessSpec.v
ProcessSystem.v
HistoryConfig.v
WindowsAccess.v
TestIntegrity.v
Compat.v
Api.v
ApiSpec.v
Wiring.v
Daemon.v
ClientSurface.v
