(* ===== verification/Prelude.v ===== *)
(** * AI Agent History RAG: a verification development

    The repository is a Go daemon, [history-ragd], that watches the transcript
    files of AI coding agents, turns them into chunks and keeps them searchable
    in a Spanner database. This library models its core in Rocq and proves what
    makes it correct. Paths below are relative to [src/].

    ** The program and its parts

    A watcher ([internal/history/watch]) scans pinned directories, decides which
    transcripts may be uploaded, lets a source parser ([internal/history/source])
    turn one into chunks and hands them to a sink, in production the Spanner store
    ([internal/history/store]). The store plans SQL statements and mutations,
    runs them through an executor, embeds deferred chunks in a backfill, and
    answers searches. Beside it stand a durable upload queue and a checkpoint file
    ([uploadqueue], [cursor]), the client registry that opens them, the ingestion
    client, the MCP tools and the status reporter. [cmd/history-ragd] wires the
    parts: it loads the configuration, takes over from an earlier daemon
    ([process]), opens the production store with a Google identity
    ([runtimeconfig], [gcpauth], [spannerexec]) and serves HTTP ([api], [auth],
    [durable]). [ingest] encodes the requests of the ingestion protocol.

    ** Files

    A file [XSpec] holds the properties of the model in [X]; where there is none, they
    are in the second part of [X].

    Shared ground:
    - [Prelude]: errors, results, the state-passing notation, machine integers,
      times, tactics and the hint databases [go];
    - [GoStrings], [GoPath], [GoTime], [Rfc3339], [Sha256], [Base64], [GoJson],
      [GoUrl], [GoFile], [GoScan], [Regex], [RegexSpec]: what the code uses of Go's
      [strings], [utf8], [hex], [path/filepath], [time], [crypto/sha256],
      [encoding/base64], [encoding/json] (the encoder), [net/url], [os],
      [bufio.Scanner], [flag] and [regexp], whose matcher [RegexSpec] relates to the
      language of a pattern;
    - [JsonKeys]: the duplicate-key walks of [watch/forward.go],
      [config/config.go] and [gcpauth/selector.go] over a token stream;
    - [AtomicFile]: write, sync, rename, sync, as [queue.go] and [state.go] do it.

    The store:
    - [StoreTypes]: [store/types.go] and [store/config.go], and
      [productionStoreConfig] of [cmd/history-ragd/main.go];
    - [StorePlans], [StorePlansSpec]: [store/plans.go];
    - [StoreOps], [StoreOpsSpec], [BackfillSpec]: [store/store.go],
      [store/retrieval.go] and [store/backfill.go].

    The watcher:
    - [Watch]: [watch/registry.go], the roots of [watch/root.go] as the watcher
      sees them, and the environment;
    - [WatchRoot], [WatchRootSpec]: the platform behind a root,
      [watch/root_unix.go], [watch/forward_identity_unix.go] and the private
      snapshots of [watch/root.go], over a tree of objects, descriptors and
      temporary files;
    - [WatchRootWindows]: the same on Windows,
      [watch/root_windows.go] and [watch/forward_identity_windows.go], over the same
      tree with handles and reparse points;
    - [Forward], [ForwardSpec], [ForwardStartSpec], [ForwardEligibility]:
      [watch/forward.go], the forward-only upload policy with its persisted state;
    - [Producer], [ProducerSpec]: [watch/producer.go] and the debounce loop of
      [watch/loop.go].

    The sources:
    - [SplitContent]: [splitContent] of the parsers;
    - [SourceText]: JSON values, the line reader, chunk identifiers, part numbers;
    - [ClaudeSource], [ClaudeSourceSpec]: [source/claude/claude.go];
    - [CodexSource], [CodexSourceSpec]: [source/codex/codex.go];
    - [SourceJson], [JsonCanon], [SourceShape]: objects as the other parsers read
      them, the pairing of questions with answers, canonical JSON documents, and
      the shape of the chunks a parser promises;
    - [GeminiSource], [ChatGptSource], [ClaudeAppSource], [AntigravitySource]:
      the parsers of the same names under [source/];
    - [GoStream], [GoStreamSpec], [SourceStreams]: the bounded readers, [bufio] and
      the line loops of the six packages, which feed the parsers piece by piece;
    - [SourceInstances]: the six models as the parsers behind [Watch.Sources].

    The server side:
    - [Durable], [DurableSpec]: [durable/durable.go], a held directory with atomic
      replacement of owner-only files;
    - [DurableWindows]: [durable/durable_windows.go], the same
      contract on Windows;
    - [Auth], [AuthSpec]: [auth/auth.go], the credential file and key rotation;
    - [Api], [ApiSpec]: [api/server.go] and [api/retrieval.go];
    - [Wiring]: the servers as [cmd/history-ragd/main.go] builds them, the API over
      the credential file, the store and, when sources are watched, the producer;
    - [GcpAuth], [GcpAuthSpec]: [gcpauth/selector.go] with its Unix file checks,
      the choice of a Google identity; [auth/google_selector.go] is the Module
      [GoogleSelector] of [Auth];
    - [WindowsAccess]: [gcpauth/file_access_windows.go] and
      [config/config_file_identity_windows.go];
    - [SpannerExec], [SpannerExecSpec]: [spannerexec/executor.go] and
      [spannerexec/decode.go] with the client library as answers of an environment;
    - [SpannerClient]: the writes and transactions of [spannerexec/executor.go] over
      a client library that works on a table, and what the store of [StoreOps]
      leaves in that table;
    - [HistoryConfig], [RuntimeConfig], [Compat]:
      [config/config.go], [runtimeconfig] and [compat];
    - [Process], [ProcessSpec]: [process/process.go];
    - [ProcessSystem]: [process/system_unix.go], Linux and macOS,
      and [process/system_windows.go];
    - [Daemon]: [run] and [openProductionStore] of
      [cmd/history-ragd/main.go].

    The client side:
    - [UploadQueue], [UploadQueueSpec]: [uploadqueue/queue.go];
    - [CursorState]: [cursor/state.go];
    - [Ingest], [IngestSpec]: [ingest/encode.go];
    - [ClientSurface]: [mcptools], [statusmetrics], [apiclient], [clientregistry].

    The repository's own check:
    - [TestIntegrity]: [scripts/go-test-integrity/main.go].

    ** How code is modelled

    Definitions keep the source's names; a Go name that is taken in Rocq gets a
    trailing underscore or the prefix of its parser. Strings are byte strings,
    [int] and [int64] are [Z] with [wrap64] where they can overflow, floats are
    IEEE [spec_float], maps are [gmap] (an [option] of one where nil matters), a
    pointer that may be nil is an [option]. A fallible function returns [result];
    an error keeps its sentinel or its format, arguments and cause, so that
    [errors.Is] is decidable. A [Time] is an instant and a representation tag
    (location and monotonic reading), because [==] on times sees both.

    A stateful operation is a function from the state, and from a log of the calls
    that left the package, to a result and the new state and log. What answers
    those calls, the Spanner executor, the operating system, the sink, the clock
    and the caller's context, is an environment whose every answer may depend on
    the whole log ([StoreOps.Env], [Watch.WEnv], [Process.Ops], [Daemon.DEnv],
    [SpannerExec.XEnv]); theorems hold for all environments. [ReadWrite] may abort
    and rerun its body any number of times. A
    directory walk is the list of visits the environment reports; the debounce
    loop takes the list of outcomes of its [select]. Concurrent backfill workers
    are one run per shard with an environment each and an arbitrary order of
    arrival.

    In [Durable] the file system is explicit, entries and inodes; any call may
    fail and other processes may change the file system before any call. The
    theorems assume that they do not ([undisturbed]) and let every call fail.
    [DurableWindows] runs on the same file system with Windows attributes, and
    [WatchRootWindows] on the tree of [WatchRoot]; the descent and the bracket around
    a source ([WatchRoot.walk], [WatchRoot.around_source]) are shared by the two
    builds. A reader of [GoStream] gives its data in pieces of its own choice.

    Libraries that are not modelled are classes. Decoding and encoding:
    [ForwardCodec], [QueueCodec], [CursorCodec], [Auth.AuthCodec], [Api.ApiCodec],
    [GoDecode], [GoDecodeError], [CallsMarshal], [CredentialCodec], [GoogleCodec],
    [RecordCodec], [ConfigCodec], [ContractCodec], [ColumnDecode]. Other
    behaviour: [TestIntegrity.GoTools] (parser and type checker of Go),
    [DurableWindows.WinPath] and [WatchRootWindows.WinNames] (names and attributes on
    Windows), [SpannerClient.Client] and [SpannerClient.Mutations] (the Spanner
    library, whose documented laws are [lawful] and [overwrites]), [Auth.Pbkdf2],
    [UnicodeTables] (case mapping and classes beyond ASCII), [GoFloat] (conversion of an out-of-range float), [UrlHosts] (hosts with
    brackets or several colons), [ApiClient.ApiEnv] (URL and HTTP). What a theorem needs
    of them, that decoding gives back what was encoded, is a named hypothesis, and
    its witness supplies a concrete instance. [Watch.Sources] is the interface
    between the watcher and the parsers; [SourceInstances] discharges it with
    the six models. The Go interfaces of the API are
    records of operations on a world ([Api.Retrieval], [Api.Authority],
    [Api.Verifier], [Api.Readiness]), which [Wiring] fills with the models of the
    store and of the credential file.

    Loops that are not structural take fuel: [walk] in [JsonKeys] twice the number
    of tokens and two, since every step consumes a token; [backfill_loop] exactly
    the configured number of batches, as the code; the [splitContent] loops one
    step for each byte and one more, since every step moves forward
    ([claude_split_cuts] and [codex_split_claude] show that it is enough); [star]
    in [Regex] the length of what is left; [wait_loop] in [Process] a round per
    poll interval of the timeout and two more, which [wait_terminates] shows to be
    enough and without effect on the answer; [copy] in [WatchRoot] a round per byte
    and one more, since a round that copies nothing is the last ([copy_keeps]);
    the loops of [GoStream] a round per byte and piece that is left and two more,
    since each consumes one or is the last ([streams_refine] shows that no loop runs
    out).

    ** What is proved

    - The forward watcher: no file that existed at the baseline is ever uploaded,
      under any name ([baseline_never_uploaded]); everything uploaded is lawful,
      after the cutoff and outside every exclusion ([uploads_are_lawful]);
      exclusions are permanent, scans keep the state valid and the memory equal to
      the disk, a restart resumes it, a scan is bounded, an unchanged source is
      not uploaded again, and eligibility is characterised exactly.
    - The pinned roots: a snapshot holds what one regular file held at one time,
      reached from the pinned directory without following a link, whatever calls
      fail and whatever others do to the tree ([snapshot_consistent]); nothing
      leaks when one is refused ([snapshot_released]), and without interference
      one is taken exactly when the source is there ([snapshot_exact]). The Windows
      build keeps the same promise without passing a reparse point
      ([windows_snapshot_consistent]).
    - The producer: its roots are sorted and distinct or all released, and the
      debounce loop refines a specification by timers with bounded memory.
    - The store: SQL never depends on caller-supplied values
      ([search_sql_is_value_free]); an upsert plan exists exactly for lawful
      batches and is committed once ([upsert_plan_exact], [upsert_commits_once]);
      every reachable store state satisfies its invariant, in particular the
      statistics cache never survives a committed write ([reachable_store_inv]);
      approximate search is used only when lawful; a backfill shard reports
      exactly what it committed, the shards partition the identifiers, rows
      survive the round trip, and the order of workers does not matter. In the table
      a successful upsert leaves exactly the rows of the last chunk of each
      identifier ([upsert_stored]), which under the deferred strategy keep an old
      vector beside new content ([deferred_keeps_vector]).
    - The queue and the checkpoints: an item stays until it is acknowledged,
      generations never go back, and both survive a restart.
    - The sources: whatever a file of any of the six kinds holds, the chunks made
      from it have the shape the store requires and closed references
      ([dispatched_chunks_storable]); however a reader cuts a transcript into pieces,
      the packages read exactly its text and its lines ([streams_refine]);
      ChatGPT and Claude-app chunks are exactly the turns of the export, and the
      order of members in a ChatGPT document does not matter ([chatgpt_turns_exact], [chatgpt_order_free]). Claude's splitting
      loses nothing and is bounded. The other version of the splitting equals Claude's
      followed by 1500 superfluous parts, which makes long messages impossible to
      store ([codex_split_tail], [codex_long_message_refused]).
    - The server side: replacing a durable file is atomic whatever calls fail
      ([durable_write_atomic], [windows_write_atomic]); initialisation,
      rotation and promotion refine a two-key machine ([rotation_refined]) and verification fails closed
      ([verify_fails_closed]); a refused request runs nothing but the verifier
      ([api_auth_gate]), so it never reaches the store
      ([unauthenticated_never_reaches_store]); readiness is exact, and a watching
      daemon is healthy only with a store that answers and verified roots
      ([watching_health_verified]); and every
      accepted retrieval request can be planned by the store
      ([accepted_requests_plannable]).
    - Credentials: a token source is handed out only for the declared identity
      after the environment was sealed ([token_source_bound], [sealing_exact]); the
      accepted carrier documents and files are characterised exactly
      ([impersonated_carrier_exact], [owner_only_exact]); on Windows an accepted file
      is closed to all but its owner and the administrators
      ([credential_dacl_private]).
    - Process control: a signal goes only to a process that was just verified
      ([prepare_signals_verified]), the daemon runs only when its predecessor is
      proven gone ([prepare_true_proven]), on Linux and macOS by what the operating
      system itself said ([takeover_grounds]) or, a flaw, by a failure of [ps]
      ([ps_failure_takes_over]); waiting ends, and an exit within the
      timeout is seen ([wait_terminates], [exit_observed]).
    - Configuration and start: the accepted configurations and production
      environments are characterised exactly ([config_exact], [production_exact]);
      the executor and the daemon release what they acquired, in reverse order,
      whichever step fails ([open_store_released], [run_brackets]), and the daemon
      serves only after every configured step succeeded ([serves_only_ready]).
    - The ingestion protocol: requests are accepted exactly when lawful and their
      body is a document a JSON reader reads back whole ([encode_request_exact]);
      record and chunk identifiers identify what they name, up to a collision of
      SHA-256 ([record_id_identifies], [chunk_id_identifies]).
    - The test-integrity script: its findings are exactly the tests that cannot fail
      ([inspectAST_exact]), and it passes exactly when there is none ([run_passes]).
    - The client side: an opened registry supports exactly the six source kinds;
      the MCP search tools always fail ([mcp_search_always_fails]).

    ** What is not modelled

    In the model of the watcher a snapshot is a value; [WatchRoot] has its file and
    its removal, and [platform_digests] connects the two. Mutexes are not modelled:
    every operation runs under its lock. Contexts are their errors: the executor
    passes the context of a transaction on, which the model does not tell apart from
    that of the caller. Response headers of the API and the timeouts of its HTTP
    server are not modelled either, nor are the shell and JavaScript scripts and the
    build and deployment files of the repository, which hold no Go code. The effect
    of an SQL statement on the table is the parameter [effect] of [SpannerClient]:
    only the database knows it. *)
From Stdlib Require Import ZArith Lia Bool.
From Stdlib Require Import String Ascii.
From stdpp Require Import base tactics option list gmap strings sorting.

#[global] Open Scope Z_scope.

(** ** Notation scope of the development *)

Declare Scope go_scope.
Delimit Scope go_scope with go.

(** Go's [==] on strings. *)
Notation "a ==s b" := (String.eqb a b) (at level 70) : go_scope.
Notation "a !=s b" := (negb (String.eqb a b)) (at level 70) : go_scope.
#[global] Open Scope go_scope.

(** ** Errors

    A Go [error] value is a package sentinel, or a value made by [fmt.Errorf];
    the latter keeps its format, its non-error arguments and the error wrapped
    by a [%w] verb. *)

Inductive fmtarg : Type :=
| FStr (s : string)
| FInt (z : Z).

Inductive error : Type :=
| Sentinel (name : string)
| Errorf (format : string) (args : list fmtarg)
| Wrapf (format : string) (args : list fmtarg) (cause : error).

#[global] Instance fmtarg_eq_dec : EqDecision fmtarg.
Proof. solve_decision. Defined.
#[global] Instance error_eq_dec : EqDecision error.
Proof. solve_decision. Defined.

(** [errors.New("...")] outside a package-level variable. *)
Abbreviation errors_New msg := (Errorf msg []).

(** [errors.Is(err, target)]. *)
Fixpoint errors_Is (err target : error) : bool :=
  bool_decide (err = target) ||
  match err with
  | Wrapf _ _ cause => errors_Is cause target
  | _ => false
  end.

Definition context_Canceled : error := Sentinel "context.Canceled".
Definition context_DeadlineExceeded : error := Sentinel "context.DeadlineExceeded".
Definition io_EOF : error := Sentinel "io.EOF".
Definition os_ErrClosed : error := Sentinel "os.ErrClosed".
Definition os_ErrNotExist : error := Sentinel "os.ErrNotExist".

(** ** Results: a value or an error *)

Inductive result (A : Type) : Type :=
| Ok (a : A)
| Fail (e : error).
Arguments Ok {A} a.
Arguments Fail {A} e.

#[global] Instance result_ret : MRet result := fun A a => Ok a.
#[global] Instance result_bind : MBind result := fun A B f m =>
  match m with Ok a => f a | Fail e => Fail e end.
#[global] Instance result_fmap : FMap result := fun A B f m =>
  match m with Ok a => Ok (f a) | Fail e => Fail e end.

Definition is_Ok {A} (r : result A) : Prop := exists a, r = Ok a.
Definition is_ok {A} (r : result A) : bool := match r with Ok _ => true | Fail _ => false end.

(** A call whose only result is an error, with [nil] as [None]. *)
Definition err_result (e : option error) : result unit :=
  match e with None => Ok tt | Some e => Fail e end.

(** ** State passing

    A stateful Go function is a function of the state. [let?] propagates the
    error of a fallible call the way [if err != nil { return err }] does. *)

Definition st (S A : Type) : Type := S -> A * S.

Definition st_ret {S A} (a : A) : st S A := fun s => (a, s).
Definition st_bind {S A B} (m : st S A) (f : A -> st S B) : st S B :=
  fun s => let '(a, s') := m s in f a s'.
Definition st_try {S A B} (m : st S (result A)) (f : A -> st S (result B)) : st S (result B) :=
  fun s => match m s with
           | (Ok a, s') => f a s'
           | (Fail e, s') => (Fail e, s')
           end.

Notation "'let*' x ':=' m 'in' k" := (st_bind m (fun x => k))
  (at level 10, x pattern, m at level 100, k at level 200) : go_scope.
Notation "'let?' x ':=' m 'in' k" := (st_try m (fun x => k))
  (at level 10, x pattern, m at level 100, k at level 200) : go_scope.

(** ** Machine integers *)

Definition max_int64 : Z := 9223372036854775807.
Definition wrap64 (z : Z) : Z := (z + 9223372036854775808) mod 18446744073709551616 - 9223372036854775808.
Definition is_int64 (z : Z) : Prop := - 9223372036854775808 <= z <= 9223372036854775807.

Lemma wrap64_id z : is_int64 z -> wrap64 z = z.
Proof. unfold is_int64, wrap64. intros H. rewrite Z.mod_small; lia. Qed.

Lemma wrap64_range z : is_int64 (wrap64 z).
Proof.
  unfold is_int64, wrap64.
  pose proof (Z.mod_pos_bound (z + 9223372036854775808) 18446744073709551616). lia.
Qed.

(** ** Time

    A [time.Time] is an instant, in nanoseconds since the zero time (January 1,
    year 1, UTC), and a representation tag that stands for its location and
    monotonic reading: tag 0 is the canonical UTC form that [UTC()] returns.
    [==] on [time.Time] compares both; [After], [Before] and [Equal] compare the
    instants. *)

Record Time : Type := mkTime { instant : Z; repr : Z }.
#[global] Instance Time_eq_dec : EqDecision Time.
Proof. solve_decision. Defined.

Definition IsZero (t : Time) : bool := instant t =? 0.
Definition After (t u : Time) : bool := instant u <? instant t.
Definition Before (t u : Time) : bool := instant t <? instant u.
Definition time_Equal (t u : Time) : bool := instant t =? instant u.
Definition UTC (t : Time) : Time := mkTime (instant t) 0.
Definition zero_time : Time := mkTime 0 0.
(** [t.Add(d)]. *)
Definition time_Add (t : Time) (d : Z) : Time := mkTime (instant t + d) (repr t).
(** [t.Sub(u)] saturates at the ends of [time.Duration]. *)
Definition time_Sub (t u : Time) : Z :=
  Z.max (- 9223372036854775808) (Z.min 9223372036854775807 (instant t - instant u)).

(** Nanoseconds between the zero time and the Unix epoch. *)
Definition unix_epoch : Z := 62135596800 * 1000000000.
(** [time.Unix(0, nsec).UTC()]. *)
Definition time_Unix_UTC (nsec : Z) : Time := mkTime (unix_epoch + nsec) 0.

Definition nanosecond : Z := 1.
Definition millisecond : Z := 1000000.
Definition second : Z := 1000000000.
Definition minute : Z := 60 * second.
Definition hour : Z := 60 * minute.

Lemma UTC_idemp t : UTC (UTC t) = UTC t.
Proof. done. Qed.
Lemma instant_UTC t : instant (UTC t) = instant t.
Proof. done. Qed.
Lemma IsZero_UTC t : IsZero (UTC t) = IsZero t.
Proof. done. Qed.

(** ** Go maps with string keys, and the [nil] map *)

(** A read of a Go [map[string]bool]; absent keys give [false]. *)
Definition mget (m : option (gmap string bool)) (k : string) : bool :=
  match m with
  | None => false
  | Some m => default false (m !! k)
  end.

(** ** Tactics *)

(** Splits every [match] and [if] of the goal or of a hypothesis, discarding the
    branches that contradict the context. *)
Ltac break_match :=
  match goal with
  | |- context [match ?x with _ => _ end] => destruct x eqn:?
  end.
Ltac break_match_hyp H :=
  match type of H with
  | context [match ?x with _ => _ end] => destruct x eqn:?
  end.
Ltac break_all H := repeat (break_match_hyp H; simplify_eq).

(** Turns boolean tests in hypotheses into propositions. *)
Ltac to_prop :=
  repeat match goal with
  | H : (_ && _)%bool = true |- _ => apply andb_true_iff in H; destruct H
  | H : (_ && _)%bool = false |- _ => apply andb_false_iff in H
  | H : (_ || _)%bool = false |- _ => apply orb_false_iff in H; destruct H
  | H : (_ || _)%bool = true |- _ => apply orb_true_iff in H
  | H : negb _ = true |- _ => apply negb_true_iff in H
  | H : negb _ = false |- _ => apply negb_false_iff in H
  | H : (_ ==s _) = true |- _ => apply String.eqb_eq in H
  | H : (_ ==s _) = false |- _ => apply String.eqb_neq in H
  | H : (_ =? _)%Z = true |- _ => apply Z.eqb_eq in H
  | H : (_ =? _)%Z = false |- _ => apply Z.eqb_neq in H
  | H : (_ <? _)%Z = true |- _ => apply Z.ltb_lt in H
  | H : (_ <? _)%Z = false |- _ => apply Z.ltb_ge in H
  | H : (_ <=? _)%Z = true |- _ => apply Z.leb_le in H
  | H : (_ <=? _)%Z = false |- _ => apply Z.leb_gt in H
  | H : bool_decide _ = true |- _ => apply bool_decide_eq_true in H
  | H : bool_decide _ = false |- _ => apply bool_decide_eq_false in H
  end.

(** ** Shared lemmas *)

Lemma errors_Is_refl e : errors_Is e e = true.
Proof. destruct e; simpl; by rewrite bool_decide_true. Qed.

Lemma forallb_Forall {A} (f : A -> bool) (l : list A) :
  forallb f l = true <-> Forall (fun x => f x = true) l.
Proof.
  induction l as [|x l IH]; simpl; [done|].
  rewrite andb_true_iff, IH, Forall_cons. done.
Qed.

Lemma existsb_false_Forall {A} (f : A -> bool) (l : list A) :
  existsb f l = false <-> Forall (fun x => f x = false) l.
Proof.
  induction l as [|x l IH]; simpl; [done|].
  rewrite orb_false_iff, IH, Forall_cons. done.
Qed.

Lemma bind_ok {A B} (m : result A) (f : A -> result B) b :
  (m ≫= f) = Ok b <-> exists a, m = Ok a /\ f a = Ok b.
Proof. destruct m; simpl; split; [eauto|intros (?&[=->]&?); done|done|intros (?&?&?); done]. Qed.

Lemma bind_ok_unit {B} (m : result unit) (f : unit -> result B) b :
  (m ≫= f) = Ok b <-> m = Ok tt /\ f tt = Ok b.
Proof. rewrite bind_ok. split; [intros ([]&?&?)|intros []]; eauto. Qed.

Lemma is_ok_elim {A} (r : result A) : is_ok r = true -> exists a, r = Ok a.
Proof. destruct r; [eauto|done]. Qed.

Lemma if_fail_ok {A} (c : bool) e (k : result A) a :
  (if c then Fail e else k) = Ok a <-> c = false /\ k = Ok a.
Proof. destruct c; split; intros H; [done|by destruct H|done|by destruct H]. Qed.

Create HintDb go discriminated.
Create Rewrite HintDb go.
#[export] Hint Resolve wrap64_id wrap64_range errors_Is_refl : go.
#[export] Hint Rewrite @bind_ok_unit @if_fail_ok : go.
#[export] Hint Rewrite instant_UTC IsZero_UTC UTC_idemp : go.
