(* ===== verification/GoStrings.v ===== *)
(** * The parts of Go's [strings], [bytes], [strconv], [fmt], [encoding/hex],
    [unicode/utf8] and [sort] packages that the daemon uses

    Go strings are byte sequences; they are modelled by [string], whose
    characters are bytes. Lengths and indices are [Z], as Go's [int]. *)
From Stdlib Require Import ZArith Lia Bool.
From Stdlib Require Import String Ascii.
From stdpp Require Import base tactics option list gmap strings pretty sorting.
From S2P Require Import Prelude.
Open Scope Z_scope.

#[global] Arguments String.append : simpl nomatch.

(** ** Bytes and lengths *)

Definition code (c : ascii) : Z := Z.of_N (N_of_ascii c).
Definition len (s : string) : Z := Z.of_nat (String.length s).

Definition is_lower (c : ascii) : bool := (97 <=? code c) && (code c <=? 122).
Definition is_upper (c : ascii) : bool := (65 <=? code c) && (code c <=? 90).
Definition is_digit (c : ascii) : bool := (48 <=? code c) && (code c <=? 57).
Definition is_lower_hex (c : ascii) : bool :=
  is_digit c || ((97 <=? code c) && (code c <=? 102)).
Definition is_hex (c : ascii) : bool :=
  is_lower_hex c || ((65 <=? code c) && (code c <=? 70)).

Fixpoint sforall (p : ascii -> bool) (s : string) : bool :=
  match s with
  | EmptyString => true
  | String c r => p c && sforall p r
  end.

Fixpoint smap (f : ascii -> ascii) (s : string) : string :=
  match s with
  | EmptyString => EmptyString
  | String c r => String (f c) (smap f r)
  end.

Fixpoint srev_app (s acc : string) : string :=
  match s with
  | EmptyString => acc
  | String c r => srev_app r (String c acc)
  end.
Definition srev (s : string) : string := srev_app s EmptyString.

(** [s[i:j]]. *)
Definition slice (s : string) (i j : Z) : string :=
  String.substring (Z.to_nat i) (Z.to_nat (j - i)) s.
(** [s[i:]]. *)
Definition slice_from (s : string) (i : Z) : string := slice s i (len s).

(** ** Searching *)

Definition HasPrefix (s p : string) : bool := String.prefix p s.
Definition HasSuffix (s p : string) : bool := String.prefix (srev p) (srev s).

(** [strings.LastIndex(s, sub)], [-1] when absent. *)
Fixpoint LastIndex (s sub : string) : Z :=
  match s with
  | EmptyString => if sub ==s "" then 0 else -1
  | String _ r =>
      let k := LastIndex r sub in
      if 0 <=? k then k + 1
      else if String.prefix sub s then 0 else -1
  end.

Fixpoint Contains (s sub : string) : bool :=
  String.prefix sub s ||
  match s with
  | EmptyString => false
  | String _ r => Contains r sub
  end.

Fixpoint has_byte (c : ascii) (s : string) : bool :=
  match s with
  | EmptyString => false
  | String d r => Ascii.eqb c d || has_byte c r
  end.

(** [strings.ContainsAny(s, chars)] for ASCII [chars]. *)
Fixpoint ContainsAny (s chars : string) : bool :=
  match s with
  | EmptyString => false
  | String c r => has_byte c chars || ContainsAny r chars
  end.

Definition TrimPrefix (s p : string) : string :=
  if HasPrefix s p then slice_from s (len p) else s.
Definition TrimSuffix (s p : string) : string :=
  if HasSuffix s p then slice s 0 (len s - len p) else s.

(** ** Splitting and joining *)

(** [strings.Split(s, sep)] for a one-byte separator. *)
Fixpoint Split (sep : ascii) (s : string) : list string :=
  match s with
  | EmptyString => [EmptyString]
  | String c r =>
      if Ascii.eqb c sep then EmptyString :: Split sep r
      else match Split sep r with
           | [] => [String c EmptyString]
           | w :: ws => String c w :: ws
           end
  end.

Fixpoint Join (l : list string) (sep : string) : string :=
  match l with
  | [] => EmptyString
  | [s] => s
  | s :: r => s +:+ sep +:+ Join r sep
  end.

(** ** UTF-8 *)

Definition cont (c : ascii) : bool := (128 <=? code c) && (code c <=? 191).
Definition second_of_three (b0 : Z) (b : ascii) : bool :=
  if b0 =? 224 then (160 <=? code b) && (code b <=? 191)
  else if b0 =? 237 then (128 <=? code b) && (code b <=? 159)
  else ((225 <=? b0) && (b0 <=? 239)) && cont b.
Definition second_of_four (b0 : Z) (b : ascii) : bool :=
  if b0 =? 240 then (144 <=? code b) && (code b <=? 191)
  else if b0 =? 244 then (128 <=? code b) && (code b <=? 143)
  else ((241 <=? b0) && (b0 <=? 243)) && cont b.

Definition RuneError : Z := 65533.

(** The runes of a string in the order [range] visits them, each with whether
    its encoding was valid; an invalid byte gives [RuneError] and is consumed
    alone. *)
Fixpoint runes (s : string) : list (Z * bool) :=
  match s with
  | EmptyString => []
  | String a r1 =>
      if code a <? 128 then (code a, true) :: runes r1
      else match r1 with
      | EmptyString => [(RuneError, false)]
      | String b r2 =>
          if ((194 <=? code a) && (code a <=? 223)) && cont b
          then ((code a - 192) * 64 + (code b - 128), true) :: runes r2
          else match r2 with
          | EmptyString => (RuneError, false) :: runes r1
          | String c r3 =>
              if second_of_three (code a) b && cont c
              then ((code a - 224) * 4096 + (code b - 128) * 64 + (code c - 128), true) :: runes r3
              else match r3 with
              | EmptyString => (RuneError, false) :: runes r1
              | String d r4 =>
                  if (second_of_four (code a) b && cont c) && cont d
                  then ((code a - 240) * 262144 + (code b - 128) * 4096
                        + (code c - 128) * 64 + (code d - 128), true) :: runes r4
                  else (RuneError, false) :: runes r1
              end
          end
      end
  end.

Definition ValidString (s : string) : bool := forallb snd (runes s).
Definition RuneCountInString (s : string) : Z := Z.of_nat (length (runes s)).

(** ** [strings.TrimSpace]

    The runes of [unicode.IsSpace], as byte patterns: the ASCII spaces, the
    two-byte U+0085 and U+00A0, and the three-byte U+1680, U+2000 to U+200A,
    U+2028, U+2029, U+202F, U+205F and U+3000. *)

Definition space1 (a : ascii) : bool :=
  ((9 <=? code a) && (code a <=? 13)) || (code a =? 32).
Definition space2 (a b : ascii) : bool :=
  (code a =? 194) && ((code b =? 133) || (code b =? 160)).
Definition space3 (a b c : ascii) : bool :=
  ((code a =? 225) && (code b =? 154) && (code c =? 128)) ||
  ((code a =? 226) && (code b =? 128) &&
     (((128 <=? code c) && (code c <=? 138)) || (code c =? 168) || (code c =? 169) || (code c =? 175))) ||
  ((code a =? 226) && (code b =? 129) && (code c =? 159)) ||
  ((code a =? 227) && (code b =? 128) && (code c =? 128)).

(** Drops leading space runes; with [rv], the string is reversed and so are the
    byte patterns. *)
Fixpoint trim_left (rv : bool) (s : string) : string :=
  match s with
  | EmptyString => EmptyString
  | String a r1 =>
      if space1 a then trim_left rv r1
      else match r1 with
      | EmptyString => s
      | String b r2 =>
          if (if rv then space2 b a else space2 a b) then trim_left rv r2
          else match r2 with
          | EmptyString => s
          | String c r3 =>
              if (if rv then space3 c b a else space3 a b c) then trim_left rv r3 else s
          end
      end
  end.
Definition TrimSpace (s : string) : string := srev (trim_left true (srev (trim_left false s))).

(** ** Lower case

    Go lowers an ASCII string byte by byte; any other string goes through the
    Unicode tables, which are an argument of the model. *)

Class UnicodeTables : Type := unicode_to_lower : string -> string.

Definition lower_byte (c : ascii) : ascii :=
  if is_upper c then ascii_of_N (Z.to_N (code c + 32)) else c.
Definition is_ascii (s : string) : bool := sforall (fun c => code c <? 128) s.
Definition ToLower `{UnicodeTables} (s : string) : string :=
  if is_ascii s then smap lower_byte s else unicode_to_lower s.

(** ** Numbers and hexadecimal *)

Definition Itoa (z : Z) : string := pretty z.

(** The value of decimal digits after [acc]; [None] at any other byte. *)
Fixpoint decimal (acc : Z) (s : string) : option Z :=
  match s with
  | EmptyString => Some acc
  | String c r => if is_digit c then decimal (acc * 10 + (code c - 48)) r else None
  end.

Definition hex_digit (d : Z) : ascii :=
  ascii_of_N (Z.to_N (if d <? 10 then 48 + d else 87 + d)).
(** [fmt.Sprintf("%0<w>x", z)] for [z < 16^w]. *)
Fixpoint hex_fixed (w : nat) (z : Z) : string :=
  match w with
  | O => EmptyString
  | S w => hex_fixed w (z / 16) +:+ String (hex_digit (z mod 16)) EmptyString
  end.

(** [hex.EncodeToString]. *)
Fixpoint hex_encode (bytes : string) : string :=
  match bytes with
  | EmptyString => EmptyString
  | String c r => hex_fixed 2 (code c) +:+ hex_encode r
  end.

Definition hex_value (c : ascii) : Z :=
  if is_digit c then code c - 48
  else if is_lower c then code c - 87 else code c - 55.
(** [hex.DecodeString]; [None] is an error. *)
Fixpoint hex_decode (s : string) : option string :=
  match s with
  | EmptyString => Some EmptyString
  | String _ EmptyString => None
  | String a (String b r) =>
      if is_hex a && is_hex b then
        String (ascii_of_N (Z.to_N (hex_value a * 16 + hex_value b))) <$> hex_decode r
      else None
  end.

(** ** Sorting strings *)

Definition str_le (a b : string) : Prop := String.leb a b = true.
#[global] Instance str_le_dec : RelDecision str_le.
Proof. intros a b. unfold str_le. apply _. Defined.

(** [sort.Strings]. *)
Definition sort_Strings (l : list string) : list string := merge_sort str_le l.

(** [slices.Compact]: drops consecutive duplicates. *)
Fixpoint Compact (l : list string) : list string :=
  match l with
  | [] => []
  | x :: r => match Compact r with
              | [] => [x]
              | y :: r' => if x ==s y then y :: r' else x :: y :: r'
              end
  end.

(** First non-empty string, as the [firstNonEmpty] helpers of the parsers. *)
Fixpoint first_nonempty (l : list string) : string :=
  match l with
  | [] => EmptyString
  | s :: r => if s ==s "" then first_nonempty r else s
  end.

(** ** The byte order of strings is a total order *)

Lemma str_compare_trans (a b c : string) :
  String.compare a b <> Gt -> String.compare b c <> Gt -> String.compare a c <> Gt.
Proof.
  revert b c. induction a as [|x a IH]; intros [|y b] [|z c]; simpl; try done.
  unfold Ascii.compare.
  destruct (N.compare_spec (N_of_ascii x) (N_of_ascii y)) as [Hxy|?|?];
  destruct (N.compare_spec (N_of_ascii y) (N_of_ascii z)) as [Hyz|?|?];
  destruct (N.compare_spec (N_of_ascii x) (N_of_ascii z)); try done; try lia.
  apply IH.
Qed.

Lemma str_le_compare a b : str_le a b <-> String.compare a b <> Gt.
Proof. unfold str_le, String.leb. by destruct (String.compare a b). Qed.

#[global] Instance str_le_trans : Transitive str_le.
Proof. intros a b c. rewrite !str_le_compare. apply str_compare_trans. Qed.
#[global] Instance str_le_total : Total str_le.
Proof. intros a b. apply String.leb_total. Qed.
#[global] Instance str_le_antisymm : AntiSymm eq str_le.
Proof. intros a b. apply String.leb_antisym. Qed.

Lemma str_le_refl a : str_le a a.
Proof. destruct (str_le_total a a); done. Qed.

(** Go's [a < b] on strings is the strict part. *)
Lemma str_ltb_le a b : String.ltb a b = true -> str_le a b.
Proof. unfold str_le, String.ltb, String.leb. by destruct (String.compare a b). Qed.

Lemma str_ltb_irrefl a : String.ltb a a = false.
Proof.
  unfold String.ltb. pose proof (String.compare_antisym a a) as H.
  by destruct (String.compare a a).
Qed.

Lemma sort_Strings_sorted l : StronglySorted str_le (sort_Strings l).
Proof. apply StronglySorted_merge_sort; apply _. Qed.
Lemma sort_Strings_perm l : sort_Strings l ≡ₚ l.
Proof. apply merge_sort_Permutation. Qed.

(** ** Lengths, slices and concatenation *)

Lemma len_nonneg s : 0 <= len s.
Proof. unfold len. lia. Qed.
Lemma str_length_app a b : String.length (a +:+ b) = (String.length a + String.length b)%nat.
Proof. induction a; simpl; congruence. Qed.
Lemma len_app a b : len (a +:+ b) = len a + len b.
Proof. unfold len. rewrite str_length_app. lia. Qed.
Lemma len_empty s : len s = 0 <-> s = "".
Proof. unfold len. destruct s; simpl; split; try done; lia. Qed.
Lemma app_empty_r s : s +:+ "" = s.
Proof. induction s; simpl; congruence. Qed.
Lemma str_app_assoc a b c : (a +:+ b) +:+ c = a +:+ (b +:+ c).
Proof. induction a; simpl; congruence. Qed.

Lemma substring_length n m s :
  String.length (String.substring n m s) = Nat.min m (String.length s - n).
Proof.
  revert n m. induction s as [|c s IH]; intros [|n] [|m]; simpl; try done.
  all: by rewrite IH, ?Nat.sub_0_r.
Qed.

Lemma substring_app_split n m k s :
  String.substring n (m + k) s = String.substring n m s +:+ String.substring (n + m) k s.
Proof.
  revert n m. induction s as [|c s IH]; intros [|n] [|m]; simpl; try done.
  all: try by destruct k.
  all: rewrite ?IH; try done.
  - by rewrite <- (IH n 0%nat).
  - by rewrite <- (IH n (S m)).
Qed.

Lemma len_slice s i j : 0 <= i <= j -> j <= len s -> len (slice s i j) = j - i.
Proof. unfold len, slice. intros. rewrite substring_length. lia. Qed.

Lemma slice_split s i j k :
  0 <= i <= j -> j <= k -> slice s i k = slice s i j +:+ slice s j k.
Proof.
  intros. unfold slice.
  replace (Z.to_nat (k - i)) with (Z.to_nat (j - i) + Z.to_nat (k - j))%nat by lia.
  rewrite substring_app_split. by replace (Z.to_nat i + Z.to_nat (j - i))%nat with (Z.to_nat j) by lia.
Qed.

Lemma slice_full s : slice s 0 (len s) = s.
Proof.
  unfold slice, len. rewrite Z.sub_0_r, Nat2Z.id. change (Z.to_nat 0) with 0%nat.
  induction s as [|c s IH]; [done|]. cbn. by rewrite IH.
Qed.

(** A slice that reaches past the end, or that is shorter than its bounds ask
    for, is the whole string. *)
Lemma slice_past s n : len s <= n -> slice s 0 n = s.
Proof.
  unfold slice, len. rewrite Z.sub_0_r. change (Z.to_nat 0) with 0%nat. intros H.
  assert (String.length s <= Z.to_nat n)%nat as Hn by lia. clear H. revert Hn. generalize (Z.to_nat n).
  induction s as [|c s IH]; intros [|m] H; simpl in *; try done; try lia. rewrite IH; [done|lia].
Qed.
Lemma slice_whole s n : 0 <= n -> len (slice s 0 (n + 1)) <= n -> slice s 0 (n + 1) = s.
Proof.
  intros Hn Hl. apply slice_past. destruct (Z.le_gt_cases (len s) (n + 1)) as [|Hg]; [done|].
  rewrite len_slice in Hl by lia. lia.
Qed.

Lemma prefix_split p s : HasPrefix s p = true -> s = p +:+ slice_from s (len p).
Proof.
  unfold HasPrefix, slice_from, slice, len. rewrite Nat2Z.id. revert s.
  induction p as [|c p IH]; intros [|d s] H; cbn [String.prefix] in H; try done.
  - cbn [String.length]. change (Z.of_nat 0) with 0. rewrite Z.sub_0_r, Nat2Z.id. symmetry.
    pose proof (slice_full (String d s)) as F. unfold slice, len in F. by rewrite Z.sub_0_r, Nat2Z.id in F.
  - destruct (ascii_dec c d) as [->|]; [|done]. cbn [String.append String.length String.substring]. f_equal.
    rewrite (IH s H) at 1. f_equal. f_equal. lia.
Qed.

Lemma slice_empty s i : slice s i i = "".
Proof.
  unfold slice. replace (Z.to_nat (i - i)) with 0%nat by lia.
  generalize (Z.to_nat i). induction s; intros [|n]; simpl; done || eauto.
Qed.

(** ** [LastIndex] *)

Lemma LastIndex_lower s sub : -1 <= LastIndex s sub.
Proof.
  induction s as [|c s IH]; cbn [LastIndex].
  - destruct (sub ==s ""); lia.
  - destruct (0 <=? LastIndex s sub) eqn:E; [lia|]. destruct (String.prefix sub (String c s)); lia.
Qed.

Lemma prefix_length p s : String.prefix p s = true -> (String.length p <= String.length s)%nat.
Proof.
  revert s. induction p as [|c p IH]; intros [|d s]; simpl; try done; try lia.
  destruct (ascii_dec c d); [|done]. intros H. apply IH in H. lia.
Qed.

Lemma LastIndex_upper s sub : LastIndex s sub <= len s - len sub \/ LastIndex s sub = -1.
Proof.
  unfold len. induction s as [|c s IH]; cbn [LastIndex].
  - destruct (sub ==s "") eqn:E; to_prop; subst; simpl; lia.
  - destruct (0 <=? LastIndex s sub) eqn:E; to_prop.
    + cbn [String.length]. lia.
    + destruct (String.prefix sub (String c s)) eqn:P; [|lia].
      apply prefix_length in P. lia.
Qed.

(** ** Hexadecimal *)

Lemma code_range c : 0 <= code c < 256.
Proof.
  unfold code. assert (N_of_ascii c < 256)%N; [|lia].
  destruct c as [[][][][][][][][]]; vm_compute; reflexivity.
Qed.

Lemma code_ascii_of n : 0 <= n < 256 -> code (ascii_of_N (Z.to_N n)) = n.
Proof. intros H. unfold code. rewrite N_ascii_embedding; lia. Qed.

Lemma hex_digit_code d : 0 <= d < 16 -> code (hex_digit d) = if d <? 10 then 48 + d else 87 + d.
Proof. intros H. unfold hex_digit. destruct (d <? 10) eqn:E; to_prop; apply code_ascii_of; lia. Qed.

Lemma hex_digit_lower_hex d : 0 <= d < 16 -> is_lower_hex (hex_digit d) = true.
Proof.
  intros H. unfold is_lower_hex, is_digit. rewrite hex_digit_code by done.
  destruct (d <? 10) eqn:E; to_prop.
  - rewrite (proj2 (Z.leb_le 48 _)), (proj2 (Z.leb_le _ 57)) by lia. done.
  - rewrite (proj2 (Z.leb_le 97 _)), (proj2 (Z.leb_le _ 102)) by lia. by rewrite orb_true_r.
Qed.

Lemma hex_digit_inj a b : 0 <= a < 16 -> 0 <= b < 16 -> hex_digit a = hex_digit b -> a = b.
Proof.
  intros Ha Hb H. apply (f_equal code) in H. rewrite !hex_digit_code in H by done.
  destruct (a <? 10) eqn:E1, (b <? 10) eqn:E2; to_prop; lia.
Qed.

Lemma sforall_app p a b : sforall p (a +:+ b) = sforall p a && sforall p b.
Proof. induction a; simpl; [done|]. rewrite IHa. by rewrite andb_assoc. Qed.

Lemma hex_fixed_length w z : String.length (hex_fixed w z) = w.
Proof.
  revert z. induction w as [|w IH]; intros z; simpl; [done|].
  rewrite str_length_app, IH. simpl. lia.
Qed.

Lemma hex_fixed_lower_hex w z : sforall is_lower_hex (hex_fixed w z) = true.
Proof.
  revert z. induction w as [|w IH]; intros z; simpl; [done|].
  rewrite sforall_app, IH. simpl. rewrite hex_digit_lower_hex; [done|].
  apply Z.mod_pos_bound. lia.
Qed.

Lemma app_last_inj a b x y :
  a +:+ String x "" = b +:+ String y "" -> a = b /\ x = y.
Proof.
  revert b. induction a as [|c a IH]; intros [|d b]; simpl; intros H.
  - by inversion H.
  - inversion H as [[E1 E2]]. by destruct b.
  - inversion H as [[E1 E2]]. by destruct a.
  - inversion H as [[E1 E2]]. apply IH in E2 as [-> ->]. done.
Qed.

(** [%0<w>x] is injective on the values it can print in [w] digits. *)
Lemma hex_fixed_inj w a b :
  0 <= a < 16 ^ Z.of_nat w -> 0 <= b < 16 ^ Z.of_nat w ->
  hex_fixed w a = hex_fixed w b -> a = b.
Proof.
  revert a b. induction w as [|w IH]; intros a b Ha Hb; cbn [hex_fixed].
  - simpl in *. lia.
  - rewrite Nat2Z.inj_succ, Z.pow_succ_r in Ha, Hb by lia.
    intros [H1 H2]%app_last_inj.
    apply IH in H1;
      [|split; [apply Z.div_pos|apply Z.div_lt_upper_bound]; lia..].
    apply hex_digit_inj in H2; [|apply Z.mod_pos_bound; lia..].
    rewrite (Z.div_mod a 16), (Z.div_mod b 16) by lia. congruence.
Qed.

Lemma hex_digit_value d : 0 <= d < 16 -> is_hex (hex_digit d) = true /\ hex_value (hex_digit d) = d.
Proof.
  intros Hd. split; [unfold is_hex; by rewrite hex_digit_lower_hex|].
  unfold hex_value, is_digit, is_lower. rewrite hex_digit_code by done.
  destruct (d <? 10) eqn:E; to_prop; repeat (case_match; to_prop); try lia;
    repeat match goal with Hc : _ \/ _ |- _ => destruct Hc; to_prop end; lia.
Qed.

(** Decoding inverts encoding. *)
Lemma hex_decode_encode bytes : hex_decode (hex_encode bytes) = Some bytes.
Proof.
  induction bytes as [|c r IH]; [done|]. cbn [hex_encode hex_fixed].
  pose proof (code_range c).
  destruct (hex_digit_value (code c / 16 mod 16)) as [H1 V1]; [apply Z.mod_pos_bound; lia|].
  destruct (hex_digit_value (code c mod 16)) as [H2 V2]; [apply Z.mod_pos_bound; lia|].
  cbn [String.append hex_decode]. rewrite H1, H2, IH, V1, V2. simpl. f_equal. f_equal.
  rewrite (Z.mod_small (code c / 16)) by (split; [apply Z.div_pos; lia|apply Z.div_lt_upper_bound; lia]).
  assert (code c / 16 * 16 + code c mod 16 = code c) as -> by (pose proof (Z.div_mod (code c) 16); lia).
  unfold code. rewrite N2Z.id. apply ascii_N_embedding.
Qed.

(** *** Reversal, prefixes and suffixes *)

Lemma srev_app_acc a acc : srev_app a acc = srev a +:+ acc.
Proof.
  unfold srev. revert acc. induction a as [|c a IH]; intros acc; [done|].
  simpl. rewrite IH, (IH (String c "")), str_app_assoc. done.
Qed.
Lemma srev_cons c a : srev (String c a) = srev a +:+ String c "".
Proof. unfold srev at 1. simpl. apply srev_app_acc. Qed.
Lemma srev_append a b : srev (a +:+ b) = srev b +:+ srev a.
Proof.
  induction a as [|c a IH]; simpl; [by rewrite app_empty_r|].
  by rewrite !srev_cons, IH, str_app_assoc.
Qed.
Lemma prefix_append a b : String.prefix a (a +:+ b) = true.
Proof. induction a as [|c a IH]; simpl; [by destruct b|]. by destruct (ascii_dec c c). Qed.
Lemma HasSuffix_append a b : HasSuffix (a +:+ b) b = true.
Proof. unfold HasSuffix. rewrite srev_append. apply prefix_append. Qed.

Lemma srev_invol s : srev (srev s) = s.
Proof. induction s as [|c s IH]; [done|]. by rewrite srev_cons, srev_append, IH. Qed.
Lemma srev_nil s : srev s = "" <-> s = "".
Proof. split; [intros H|by intros ->]. by rewrite <- (srev_invol s), H. Qed.

Lemma smap_append f a b : smap f (a +:+ b) = smap f a +:+ smap f b.
Proof. induction a as [|c a IH]; [done|]. simpl. by rewrite IH. Qed.
Lemma smap_srev f s : smap f (srev s) = srev (smap f s).
Proof. induction s as [|c s IH]; [done|]. simpl. rewrite !srev_cons, smap_append, IH. done. Qed.
Lemma smap_nil f s : smap f s = "" <-> s = "".
Proof. by destruct s. Qed.
Lemma sforall_srev p s : sforall p (srev s) = sforall p s.
Proof.
  induction s as [|c s IH]; [done|]. rewrite srev_cons, sforall_app, IH. simpl.
  destruct (p c), (sforall p s); done.
Qed.

(** *** Trimming *)

(** What [trim_left] returns is trimmed, and is what it was given or shorter. *)
Lemma trim_left_cases rv s :
  trim_left rv s = "" \/ exists a r, trim_left rv s = String a r /\ space1 a = false /\
    (forall b r2, r = String b r2 -> (if rv then space2 b a else space2 a b) = false /\
       forall c r3, r2 = String c r3 -> (if rv then space3 c b a else space3 a b c) = false).
Proof.
  remember (String.length s) as n eqn:En. revert s En.
  induction (lt_wf n) as [n _ IH]. intros s ->.
  destruct s as [|a s]; [by left|]. cbn [trim_left].
  destruct (space1 a) eqn:E1; [apply (IH (String.length s) ltac:(simpl; lia) s eq_refl)|].
  destruct s as [|b s]; [right; by exists a, EmptyString|].
  destruct (if rv then space2 b a else space2 a b) eqn:E2; [apply (IH (String.length s) ltac:(simpl; lia) s eq_refl)|].
  destruct s as [|c s].
  - right. exists a, (String b EmptyString). split_and!; try done.
    intros b' r2 [= <- <-]. done.
  - destruct (if rv then space3 c b a else space3 a b c) eqn:E3; [apply (IH (String.length s) ltac:(simpl; lia) s eq_refl)|].
    right. exists a, (String b (String c s)). split_and!; try done.
    intros ? ? [= <- <-]. split; [done|]. by intros ? ? [= <- <-].
Qed.

Lemma trim_left_fixed (rv : bool) a r :
  space1 a = false ->
  (forall b r2, r = String b r2 -> (if rv then space2 b a else space2 a b) = false /\
     forall c r3, r2 = String c r3 -> (if rv then space3 c b a else space3 a b c) = false) ->
  trim_left rv (String a r) = String a r.
Proof.
  intros H1 H2. cbn [trim_left]. rewrite H1. destruct r as [|b r]; [done|].
  destruct (H2 b r eq_refl) as [-> H3]. destruct r as [|c r]; [done|]. by rewrite (H3 c r eq_refl).
Qed.

(** Trimming what starts with a trimmed nonempty string changes nothing. *)
Lemma trim_left_prefix rv s x y :
  trim_left rv s = x +:+ y -> x <> "" -> trim_left rv x = x.
Proof.
  intros E Hx. destruct x as [|a x]; [done|].
  destruct (trim_left_cases rv s) as [H|(a'&r&H&H1&H2)]; [by rewrite H in E|].
  rewrite H in E. injection E as -> ->. apply trim_left_fixed; [done|].
  intros b r2 ->. destruct (H2 b (r2 +:+ y) eq_refl) as [? H3]. split; [done|].
  intros c r3 ->. by apply (H3 c (r3 +:+ y)).
Qed.

Lemma trim_left_suffix rv s : exists p, s = p +:+ trim_left rv s.
Proof.
  remember (String.length s) as n eqn:En. revert s En.
  induction (lt_wf n) as [n _ IH]. intros s ->.
  destruct s as [|a s]; [by exists ""|]. cbn [trim_left].
  destruct (space1 a) eqn:E1.
  { destruct (IH (String.length s) ltac:(simpl; lia) s eq_refl) as [p Hp]. exists (String a p). simpl. by rewrite <- Hp. }
  destruct s as [|b s]; [by exists ""|].
  destruct (if rv then space2 b a else space2 a b) eqn:E2.
  { destruct (IH (String.length s) ltac:(simpl; lia) s eq_refl) as [p Hp]. exists (String a (String b p)). simpl. by rewrite <- Hp. }
  destruct s as [|c s]; [by exists ""|].
  destruct (if rv then space3 c b a else space3 a b c) eqn:E3; [|by exists ""].
  destruct (IH (String.length s) ltac:(simpl; lia) s eq_refl) as [p Hp]. exists (String a (String b (String c p))).
  simpl. by rewrite <- Hp.
Qed.

(** Trimming is idempotent. *)
Lemma TrimSpace_idemp s : TrimSpace (TrimSpace s) = TrimSpace s.
Proof.
  unfold TrimSpace. set (t := trim_left false s). set (u := trim_left true (srev t)).
  destruct (decide (srev u = "")) as [->|Hne]; [done|].
  destruct (trim_left_suffix true (srev t)) as [p Hp]. fold u in Hp.
  assert (t = srev u +:+ srev p) as Ht by (by rewrite <- srev_append, <- Hp, srev_invol).
  rewrite (trim_left_prefix false s (srev u) (srev p)) by done.
  rewrite srev_invol. f_equal. unfold u at 1.
  apply (trim_left_prefix true (srev t) u ""); [by rewrite app_empty_r|]. by rewrite srev_nil in Hne.
Qed.

Lemma ascii_no_space2 a b : code a < 128 -> space2 a b = false.
Proof. unfold space2. lia. Qed.
Lemma ascii_no_space3 a b c : code a < 128 -> space3 a b c = false.
Proof. unfold space3. lia. Qed.

(** An ASCII character that is not a space stops trimming from the right. *)
Lemma trim_left_stops a x :
  code a < 128 -> space1 a = false -> trim_left true (x +:+ String a "") <> "".
Proof.
  intros Ha Hs. remember (String.length x) as n eqn:En. revert x En.
  induction (lt_wf n) as [n _ IH]. intros x ->.
  destruct x as [|b x]; cbn [String.append trim_left]; [by rewrite Hs|].
  destruct (space1 b); [apply (IH (String.length x)); simpl; [lia|done]|].
  destruct x as [|c x]; cbn [String.append]; [by rewrite ascii_no_space2|].
  destruct (space2 c b); [apply (IH (String.length x)); simpl; [lia|done]|].
  destruct x as [|d x]; cbn [String.append]; [by rewrite ascii_no_space3|].
  destruct (space3 d c b); [apply (IH (String.length x)); simpl; [lia|done]|done].
Qed.

Lemma TrimSpace_not_blank a r : code a < 128 -> space1 a = false -> TrimSpace (String a r) <> "".
Proof.
  intros Ha Hs. unfold TrimSpace. rewrite srev_nil.
  rewrite (trim_left_fixed false a r Hs); [rewrite srev_cons; by apply trim_left_stops|].
  intros b r2 _. split; [by apply ascii_no_space2|]. intros c r3 _. by apply ascii_no_space3.
Qed.

(** *** Lower case of blank text *)

Lemma lower_byte_space c : space1 (lower_byte c) = space1 c.
Proof.
  unfold lower_byte. destruct (is_upper c) eqn:E; [|done]. unfold is_upper in E. to_prop.
  unfold space1. rewrite code_ascii_of by lia. lia.
Qed.

(** On ASCII text only the ASCII spaces are dropped. *)
Lemma trim_left_ascii rv s : is_ascii s = true ->
  trim_left rv s = (fix go s := match s with
                                | String a r => if space1 a then go r else s
                                | EmptyString => EmptyString end) s.
Proof.
  induction s as [|a s IH]; intros H; [done|]. unfold is_ascii in H. simpl in H. to_prop.
  cbn [trim_left]. destruct (space1 a); [by apply IH|].
  destruct s as [|b s]; [done|]. simpl in *. to_prop.
  destruct rv; rewrite ascii_no_space2 by done; (destruct s as [|c s]; [done|]); simpl in *; to_prop;
    by rewrite ascii_no_space3.
Qed.

Lemma lower_byte_ascii c : code c < 128 -> code (lower_byte c) < 128.
Proof.
  unfold lower_byte. destruct (is_upper c) eqn:E; [|done]. unfold is_upper in E. to_prop.
  rewrite code_ascii_of by lia. lia.
Qed.
Lemma sforall_impl (p q : ascii -> bool) s : (forall c, p c = true -> q c = true) -> sforall p s = true -> sforall q s = true.
Proof. intros Hpq. induction s as [|c s IH]; [done|]. simpl. rewrite !andb_true_iff. intros []. auto. Qed.

Lemma ascii_valid s : is_ascii s = true -> ValidString s = true.
Proof.
  unfold is_ascii, ValidString. induction s as [|c s IH]; [done|]. simpl. intros H. to_prop.
  destruct (Z.ltb_spec (code c) 128); [|lia]. simpl. by apply IH.
Qed.

Lemma is_ascii_lower s : is_ascii s = true -> is_ascii (smap lower_byte s) = true.
Proof.
  unfold is_ascii. induction s as [|c s IH]; [done|]. simpl. intros H. to_prop.
  rewrite IH by done. pose proof (lower_byte_ascii c). destruct (code (lower_byte c) <? 128) eqn:?; [done|lia].
Qed.

Lemma trim_left_lower rv s : is_ascii s = true ->
  trim_left rv (smap lower_byte s) = smap lower_byte (trim_left rv s).
Proof.
  intros H. rewrite !trim_left_ascii by (done || by apply is_ascii_lower).
  clear H. induction s as [|a s IH]; [done|]. simpl. rewrite lower_byte_space.
  by destruct (space1 a).
Qed.

Lemma is_ascii_trim rv s : is_ascii s = true -> is_ascii (trim_left rv s) = true.
Proof.
  destruct (trim_left_suffix rv s) as [p Hp]. intros H. rewrite Hp in H. unfold is_ascii in *.
  rewrite sforall_app in H. by to_prop.
Qed.

Lemma TrimSpace_lower s : is_ascii s = true ->
  TrimSpace (smap lower_byte s) = smap lower_byte (TrimSpace s).
Proof.
  intros H. unfold TrimSpace. rewrite trim_left_lower by done.
  rewrite <- smap_srev, trim_left_lower, <- smap_srev; [done|].
  unfold is_ascii. rewrite sforall_srev. by apply is_ascii_trim.
Qed.

(** What the Unicode tables are relied on for: lowering text that is not blank
    does not make it blank. *)
Definition tables_keep_text (tables : UnicodeTables) : Prop :=
  forall s, is_ascii s = false -> TrimSpace (unicode_to_lower s) = "" -> TrimSpace s = "".

Lemma ToLower_keeps_text `{T : UnicodeTables} s :
  tables_keep_text T -> TrimSpace (ToLower s) = "" -> TrimSpace s = "".
Proof.
  intros HT. unfold ToLower. destruct (is_ascii s) eqn:E; [|by apply HT].
  rewrite TrimSpace_lower by done. apply smap_nil.
Qed.

#[export] Hint Resolve len_nonneg str_le_refl hex_fixed_lower_hex : go.
#[export] Hint Rewrite len_app hex_fixed_length app_empty_r slice_empty slice_full : go.
