(* ===== verification/GoPath.v ===== *)
(** * Go's [path/filepath] on Unix

    [Clean], [Base], [Dir], [Ext], [Join], [IsAbs] and [Rel], by the component
    rules their documentation states. *)
From Stdlib Require Import ZArith Lia Bool.
From Stdlib Require Import String Ascii.
From stdpp Require Import base tactics option list gmap strings.
From S2P Require Import Prelude GoStrings.
Open Scope Z_scope.

Definition slash : ascii := "/"%char.

Definition IsAbs (path : string) : bool := HasPrefix path "/".

(** The elements [Clean] keeps, most recent first: empty and [.] elements are
    dropped, [..] removes the element before it, and at the root it is dropped. *)
Fixpoint clean_stack (rooted : bool) (elems stack : list string) : list string :=
  match elems with
  | [] => stack
  | e :: rest =>
      let stack' :=
        if (e ==s "") || (e ==s ".") then stack
        else if e ==s ".." then
          match stack with
          | top :: below => if top ==s ".." then ".." :: stack else below
          | [] => if rooted then [] else [".."]
          end
        else e :: stack in
      clean_stack rooted rest stack'
  end.

Definition clean_elems (path : string) : list string :=
  rev (clean_stack (IsAbs path) (Split slash path) []).

Definition Clean (path : string) : string :=
  if path ==s "" then "."
  else let body := Join (clean_elems path) "/" in
       if IsAbs path then "/" +:+ body
       else if body ==s "" then "." else body.

(** An absolute path that [Clean] leaves alone. *)
Definition abs_clean (path : string) : bool := IsAbs path && (Clean path ==s path).

Fixpoint strip_slashes (s : string) : string :=
  match s with
  | String c r => if Ascii.eqb c slash then strip_slashes r else s
  | EmptyString => s
  end.

Definition Base (path : string) : string :=
  if path ==s "" then "."
  else let stripped := srev (strip_slashes (srev path)) in
       if stripped ==s "" then "/"
       else default "" (last (Split slash stripped)).

Definition Dir (path : string) : string :=
  Clean (slice path 0 (LastIndex path "/" + 1)).

(** The suffix from the last dot of the final element. *)
Definition Ext (path : string) : string :=
  let final := default "" (last (Split slash path)) in
  let dot := LastIndex final "." in
  if dot <? 0 then "" else slice_from final dot.

(** [filepath.Join(a, b)]. *)
Definition Join2 (a b : string) : string :=
  let parts := filter (fun s => s <> "") [a; b] in
  match parts with
  | [] => ""
  | _ => Clean (Join parts "/")
  end.

Fixpoint strip_common (a b : list string) : list string * list string :=
  match a, b with
  | x :: a', y :: b' => if x ==s y then strip_common a' b' else (a, b)
  | _, _ => (a, b)
  end.

(** [filepath.Rel(base, targ)]; [None] is an error. *)
Definition Rel (base targ : string) : option string :=
  let b := Clean base in
  let t := Clean targ in
  if b ==s t then Some "."
  else
    let be := if b ==s "." then [] else clean_elems b in
    let te := if t ==s "." then [] else clean_elems t in
    if negb (Bool.eqb (IsAbs b) (IsAbs t)) then None
    else
      let '(rb, rt) := strip_common be te in
      match rb with
      | e :: _ => if e ==s ".." then None
                  else Some (Join (map (fun _ => "..") rb ++ rt) "/")
      | [] => Some (Join rt "/")
      end.

(** The check that [filepath.Rel] gave a path strictly beneath the base, as in
    [process.validateRecord] and [config.validate]. *)
Definition beneath (base target : string) : bool :=
  match Rel base target with
  | None => false
  | Some relative =>
      negb ((relative ==s ".") || (relative ==s "..") || IsAbs relative ||
            (3 <=? len relative) && (slice relative 0 3 ==s "../"))
  end.

(** ** Lemmas *)

Lemma Split_not_nil sep s : Split sep s <> [].
Proof.
  destruct s as [|c s]; simpl; [done|].
  destruct (Ascii.eqb c sep); [done|]. by destruct (Split sep s).
Qed.

(** Splitting and joining at the separator are inverse. *)
Lemma Join_Split sep s : Join (Split sep s) (String sep "") = s.
Proof.
  induction s as [|c s IH]; simpl; [done|].
  destruct (Ascii.eqb_spec c sep) as [->|Hne].
  - destruct (Split sep s) as [|w ws] eqn:E; [by destruct (Split_not_nil sep s)|].
    cbn. by rewrite <- IH.
  - destruct (Split sep s) as [|w ws] eqn:E; [by destruct (Split_not_nil sep s)|].
    destruct ws as [|w' ws]; cbn in *; by rewrite <- IH.
Qed.

Lemma abs_clean_spec p : abs_clean p = true <-> IsAbs p = true /\ Clean p = p.
Proof. unfold abs_clean. rewrite andb_true_iff, String.eqb_eq. done. Qed.

Example clean_examples :
  map Clean [""; "/a/./b/../c/"; "a//b"; "/.."; "../x"; "a/.."] =
  ["."; "/a/c"; "a/b"; "/"; "../x"; "."].
Proof. vm_compute. reflexivity. Qed.

Example base_dir_ext_examples :
  (Base "/a/b.txt", Base "/", Base "a/", Dir "/a/b", Dir "/a", Ext "/x/y.tar.gz", Ext "/x.d/y") =
  ("b.txt", "/", "a", "/a", "/", ".gz", "").
Proof. vm_compute. reflexivity. Qed.

Example rel_examples :
  (Rel "/a/b" "/a/b/c/d", Rel "/a/b" "/a/x", Rel "/a" "/a", Rel "/a" "b") =
  (Some "c/d", Some "../x", Some ".", None).
Proof. vm_compute. reflexivity. Qed.
