(* ===== verification/JsonKeys.v ===== *)
(** * Duplicate-key rejection in JSON documents

    [walkForwardJSON] (watch/forward.go), [walkJSON] (config/config.go) and
    [consumeJSONValue] (gcpauth/selector.go) are the same recursive walk over the
    tokens of a [json.Decoder], with different messages. The walk is defined once
    over the messages and instantiated three times. *)
From Stdlib Require Import ZArith Lia Bool.
From Stdlib Require Import String Ascii.
From stdpp Require Import base tactics option list gmap strings.
From S2P Require Import Prelude.
Open Scope Z_scope.

(** ** Decoders *)

(** A [json.Token]: a delimiter, a string, or another scalar. *)
Inductive token : Type :=
| TDelim (c : ascii)
| TString (s : string)
| TScalar.

(** What a decoder has left: the tokens of its input and, where the input is not
    JSON, the error that reading on gives. After the last token it is at EOF. *)
Definition decoder : Type := list (result token).

Definition Token (d : decoder) : result token * decoder :=
  match d with
  | [] => (Fail io_EOF, [])
  | Ok t :: d' => (Ok t, d')
  | Fail e :: _ => (Fail e, d)
  end.

(** [decoder.More()]: there is another element before the closing delimiter. *)
Definition More (d : decoder) : bool :=
  match d with
  | [] => false
  | Ok (TDelim c) :: _ => negb (Ascii.eqb c "]" || Ascii.eqb c "}")
  | _ => true
  end.

(** ** The walk *)

(** The messages in which the three copies differ. *)
Record walk_errors : Type := mkWalkErrors {
  we_token : error -> error;
  we_key_token : error -> error;
  we_not_string : error;
  we_duplicate : string -> error;
  we_object : error;
  we_array : error;
  we_delim : ascii -> error
}.

Section Walk.
Context (m : walk_errors).

(** [decoder.Token()] must give the closing delimiter. *)
Definition closing (c : ascii) (e : error) (d : decoder) : result decoder :=
  match Token d with
  | (Ok (TDelim c'), d') => if Ascii.eqb c' c then Ok d' else Fail e
  | _ => Fail e
  end.

(** The recursive walk, its loop over object members and its loop over array
    elements. *)
Fixpoint walk (fuel : nat) (d : decoder) : result decoder :=
  match fuel with
  | O => Fail (errors_New "fuel")
  | S n =>
      match Token d with
      | (Fail e, _) => Fail (we_token m e)
      | (Ok (TDelim c), d') =>
          if Ascii.eqb c "{" then members n [] d'
          else if Ascii.eqb c "[" then elements n d'
          else Fail (we_delim m c)
      | (Ok _, d') => Ok d'
      end
  end
with members (fuel : nat) (seen : list string) (d : decoder) : result decoder :=
  match fuel with
  | O => Fail (errors_New "fuel")
  | S n =>
      if More d then
        match Token d with
        | (Fail e, _) => Fail (we_key_token m e)
        | (Ok (TString key), d') =>
            if existsb (String.eqb key) seen then Fail (we_duplicate m key)
            else d'' ← walk n d'; members n (key :: seen) d''
        | (Ok _, _) => Fail (we_not_string m)
        end
      else closing "}" (we_object m) d
  end
with elements (fuel : nat) (d : decoder) : result decoder :=
  match fuel with
  | O => Fail (errors_New "fuel")
  | S n =>
      if More d then d' ← walk n d; elements n d'
      else closing "]" (we_array m) d
  end.

End Walk.

(** Each walk consumes a token at every step of its recursion or ends, so twice
    the number of tokens is enough. *)
Definition walk_all (m : walk_errors) (d : decoder) : result decoder :=
  walk m (2 * length d + 2) d.

Definition forward_errors : walk_errors :=
  mkWalkErrors (fun e => e) (fun e => e) (errors_New "duplicate or invalid object key")
    (fun _ => errors_New "duplicate or invalid object key") (errors_New "unterminated object")
    (errors_New "unterminated array") (fun _ => errors_New "unexpected delimiter").
Definition walkForwardJSON : decoder -> result decoder := walk_all forward_errors.

Definition config_errors : walk_errors :=
  mkWalkErrors (fun e => e) (fun e => e) (errors_New "object key is not a string")
    (fun _ => errors_New "duplicate object key") (errors_New "unterminated object")
    (errors_New "unterminated array") (fun _ => errors_New "unexpected delimiter").
Definition walkJSON : decoder -> result decoder := walk_all config_errors.

Definition credential_errors : walk_errors :=
  mkWalkErrors (Wrapf "decode credential JSON: %w" []) (Wrapf "decode credential JSON key: %w" [])
    (errors_New "credential JSON object key is not a string")
    (fun key => Errorf "duplicate JSON key %q" [FStr key])
    (errors_New "credential JSON object is not closed") (errors_New "credential JSON array is not closed")
    (fun c => Errorf "unexpected credential JSON delimiter %q" [FStr (String c "")]).
Definition consumeJSONValue : decoder -> result decoder := walk_all credential_errors.

(** [rejectDuplicateForwardKeys]. *)
Definition rejectDuplicateForwardKeys (d : decoder) : result unit :=
  rest ← walkForwardJSON d;
  match rest with
  | [] => Ok tt
  | _ => Fail (errors_New "trailing data")
  end.

(** [expectEOF] and [rejectDuplicateKeys]; decoding the value that follows fails
    with the error of its tokens, if they have one. *)
Fixpoint first_error (d : decoder) : option error :=
  match d with
  | [] => None
  | Fail e :: _ => Some e
  | Ok _ :: d' => first_error d'
  end.
Definition expectEOF (d : decoder) : result unit :=
  match d with
  | [] => Ok tt
  | _ => match first_error d with
         | Some e => Fail e
         | None => Fail (errors_New "trailing JSON value")
         end
  end.
Definition rejectDuplicateKeys (d : decoder) : result unit :=
  rest ← walkJSON d; expectEOF rest.

Definition rejectDuplicateJSONKeys (d : decoder) : result unit :=
  rest ← consumeJSONValue d;
  match Token rest with
  | (Ok _, _) => Fail (errors_New "credential JSON contains trailing data")
  | (Fail e, _) =>
      if errors_Is e io_EOF then Ok tt else Fail (Wrapf "credential JSON trailing data: %w" [] e)
  end.

(** ** Documents *)

#[local] Set Warnings "-register-all".
Inductive json : Type :=
| JScalar
| JString (s : string)
| JArr (l : list json)
| JObj (l : list (string * json)).

Section JsonInd.
Context (P : json -> Prop) (Hs : P JScalar) (Ht : forall s, P (JString s))
  (Ha : forall l, Forall P l -> P (JArr l)) (Ho : forall l, Forall (fun kv => P (snd kv)) l -> P (JObj l)).
Fixpoint json_ind' (v : json) : P v :=
  match v with
  | JScalar => Hs
  | JString s => Ht s
  | JArr l => Ha l ((fix go l : Forall P l := match l with [] => List.Forall_nil _ | x :: l => List.Forall_cons _ _ _ (json_ind' x) (go l) end) l)
  | JObj l => Ho l ((fix go l : Forall (fun kv => P (snd kv)) l :=
      match l with [] => List.Forall_nil _ | x :: l => List.Forall_cons _ _ _ (json_ind' (snd x)) (go l) end) l)
  end.
End JsonInd.

(** The tokens of a document. *)
Fixpoint tokens (v : json) : decoder :=
  match v with
  | JScalar => [Ok TScalar]
  | JString s => [Ok (TString s)]
  | JArr l => Ok (TDelim "[") :: concat (map tokens l) ++ [Ok (TDelim "]")]
  | JObj l => Ok (TDelim "{") :: concat (map (fun kv => Ok (TString (fst kv)) :: tokens (snd kv)) l) ++ [Ok (TDelim "}")]
  end.

(** No object of the document has two members with one key. *)
Fixpoint unique_keys (v : json) : bool :=
  match v with
  | JScalar | JString _ => true
  | JArr l => forallb unique_keys l
  | JObj l => bool_decide (NoDup (map fst l)) && forallb (fun kv => unique_keys (snd kv)) l
  end.

(** ** The walk accepts exactly the documents with unique keys *)

Lemma tokens_head v : exists t d, tokens v = Ok t :: d /\ forall c, t = TDelim c -> c <> "]"%char /\ c <> "}"%char.
Proof. destruct v; simpl; eexists _, _; (split; [done|]); intros c; by intros [= <-] || done. Qed.

Lemma More_tokens v rest : More (tokens v ++ rest) = true.
Proof.
  destruct (tokens_head v) as (t&d&->&H). simpl. destruct t as [c|s|]; try done.
  destruct (H c eq_refl). by rewrite (proj2 (Ascii.eqb_neq c "]")), (proj2 (Ascii.eqb_neq c "}")).
Qed.

Definition tsize (v : json) : nat := length (tokens v).
Lemma tsize_pos v : (1 <= tsize v)%nat.
Proof. unfold tsize. destruct (tokens_head v) as (t&d&->&_). simpl. lia. Qed.

(** What the walk does on the tokens of [v]: consume them, or fail. *)
Definition walks (m : walk_errors) (v : json) : Prop := forall fuel rest,
  (2 * tsize v <= fuel)%nat ->
  if unique_keys v then walk m fuel (tokens v ++ rest) = Ok rest
  else exists e, walk m fuel (tokens v ++ rest) = Fail e.

Lemma elements_spec m l : Forall (walks m) l -> forall fuel rest,
  (2 * length (concat (map tokens l)) + 1 <= fuel)%nat ->
  if forallb unique_keys l
  then elements m fuel (concat (map tokens l) ++ Ok (TDelim "]") :: rest) = Ok rest
  else exists e, elements m fuel (concat (map tokens l) ++ Ok (TDelim "]") :: rest) = Fail e.
Proof.
  induction 1 as [|v l Hv Hl IH]; intros fuel rest Hf; cbn [map concat forallb].
  - destruct fuel as [|fuel]; [simpl in Hf; lia|]. done.
  - cbn [map concat] in Hf. rewrite length_app in Hf. pose proof (tsize_pos v). fold (tsize v) in Hf.
    destruct fuel as [|fuel]; [lia|]. cbn [elements]. rewrite <- app_assoc, More_tokens.
    specialize (Hv fuel (concat (map tokens l) ++ Ok (TDelim "]") :: rest) ltac:(lia)).
    destruct (unique_keys v); cbn [andb].
    + rewrite Hv. cbn [mbind result_bind]. apply IH. lia.
    + destruct Hv as [e ->]. by exists e.
Qed.

Definition member_tokens (kv : string * json) : decoder := Ok (TString (fst kv)) :: tokens (snd kv).

Lemma existsb_eqb_elem key seen : existsb (String.eqb key) seen = bool_decide (key ∈ seen).
Proof.
  apply eq_true_iff_eq. rewrite existsb_exists, bool_decide_eq_true, list_elem_of_In.
  split; [intros (x&?&->%String.eqb_eq); done|intros ?; exists key; by rewrite String.eqb_refl].
Qed.

Lemma members_spec m l : Forall (fun kv => walks m (snd kv)) l -> forall fuel seen rest,
  NoDup seen ->
  (2 * length (concat (map member_tokens l)) + 1 <= fuel)%nat ->
  if bool_decide (NoDup (map fst l ++ seen)) && forallb (fun kv => unique_keys (snd kv)) l
  then members m fuel seen (concat (map member_tokens l) ++ Ok (TDelim "}") :: rest) = Ok rest
  else exists e, members m fuel seen (concat (map member_tokens l) ++ Ok (TDelim "}") :: rest) = Fail e.
Proof.
  induction 1 as [|[k v] l Hv Hl IH]; intros fuel seen rest Hnd Hf; cbn [map concat forallb fst snd app].
  - rewrite bool_decide_true by done. destruct fuel as [|fuel]; [simpl in Hf; lia|]. done.
  - cbn [map concat] in Hf. change (member_tokens (k, v)) with (Ok (TString k) :: tokens v) in *.
    rewrite length_app in Hf. cbn [length] in Hf. fold (tsize v) in Hf.
    destruct fuel as [|fuel]; [lia|]. cbn [members app More Token].
    rewrite <- !app_assoc, existsb_eqb_elem.
    assert (bool_decide (NoDup (k :: map fst l ++ seen)) =
            negb (bool_decide (k ∈ seen)) && bool_decide (NoDup (map fst l ++ k :: seen))) as ->.
    { apply eq_true_iff_eq. rewrite andb_true_iff, negb_true_iff, bool_decide_eq_false, !bool_decide_eq_true.
      rewrite <- Permutation_middle, !NoDup_cons, elem_of_app. tauto. }
    destruct (decide (k ∈ seen)) as [Hk|Hk].
    { rewrite (bool_decide_true (k ∈ seen)) by done. cbn [negb andb]. by eexists. }
    rewrite (bool_decide_false (k ∈ seen)) by done. cbn [negb andb].
    specialize (Hv fuel (concat (map member_tokens l) ++ Ok (TDelim "}") :: rest) ltac:(simpl; lia)).
    cbn [snd] in Hv. destruct (unique_keys v); cbn [andb].
    + rewrite Hv. cbn [mbind result_bind]. apply IH; [by constructor|lia].
    + rewrite andb_false_r. destruct Hv as [e ->]. by exists e.
Qed.

Lemma walk_spec m v : walks m v.
Proof.
  induction v as [|s|l IH|l IH] using json_ind'; intros fuel rest Hf; unfold tsize in Hf.
  - destruct fuel; [simpl in Hf; lia|done].
  - destruct fuel; [simpl in Hf; lia|done].
  - cbn [tokens] in Hf. cbn [length] in Hf. rewrite length_app in Hf. cbn [length] in Hf.
    destruct fuel as [|fuel]; [lia|]. cbn [tokens unique_keys]. cbn [app]. rewrite <- app_assoc. cbn [app].
    apply (elements_spec m l IH fuel rest). lia.
  - cbn [tokens] in Hf. cbn [length] in Hf. rewrite length_app in Hf. cbn [length] in Hf.
    destruct fuel as [|fuel]; [lia|]. cbn [tokens unique_keys]. cbn [app]. rewrite <- app_assoc. cbn [app].
    pose proof (members_spec m l IH fuel [] rest ltac:(constructor)) as Hm. rewrite app_nil_r in Hm.
    apply Hm. match type of Hf with context [length ?x] => change x with (concat (map member_tokens l)) in Hf end. lia.
Qed.

Lemma walk_all_spec m v rest :
  if unique_keys v then walk_all m (tokens v ++ rest) = Ok rest
  else exists e, walk_all m (tokens v ++ rest) = Fail e.
Proof. apply walk_spec. rewrite length_app. unfold tsize. lia. Qed.

(** On the tokens of any JSON document, each of the three duplicate-key
    checks succeeds exactly when no object of the document, at any depth,
    repeats a key and nothing follows the document; the walk always terminates. *)
Theorem duplicate_keys_rejected (v : json) (rest : json) :
  (rejectDuplicateForwardKeys (tokens v) = Ok tt <-> unique_keys v = true) /\
  (rejectDuplicateKeys (tokens v) = Ok tt <-> unique_keys v = true) /\
  (rejectDuplicateJSONKeys (tokens v) = Ok tt <-> unique_keys v = true) /\
  rejectDuplicateForwardKeys (tokens v ++ tokens rest) <> Ok tt /\
  rejectDuplicateKeys (tokens v ++ tokens rest) <> Ok tt /\
  rejectDuplicateJSONKeys (tokens v ++ tokens rest) <> Ok tt.
Proof.
  unfold rejectDuplicateForwardKeys, rejectDuplicateKeys, rejectDuplicateJSONKeys,
    walkForwardJSON, walkJSON, consumeJSONValue.
  assert (forall m, if unique_keys v then walk_all m (tokens v) = Ok []
                    else exists e, walk_all m (tokens v) = Fail e) as Ha.
  { intros m. pose proof (walk_all_spec m v []) as H. by rewrite app_nil_r in H. }
  pose proof (fun m => walk_all_spec m v (tokens rest)) as Hb.
  destruct (tokens_head rest) as (t&d&Ed&_). rewrite Ed in *.
  destruct (unique_keys v).
  - rewrite !Ha, !Hb. cbn [mbind result_bind expectEOF Token]. split_and!; try done.
    by destruct (first_error _).
  - destruct (Ha forward_errors) as [e1 ->], (Ha config_errors) as [e2 ->], (Ha credential_errors) as [e3 ->].
    destruct (Hb forward_errors) as [e4 ->], (Hb config_errors) as [e5 ->], (Hb credential_errors) as [e6 ->].
    split_and!; done.
Qed.
