(* ===== verification/StoreTypes.v ===== *)
(** * The store's data model and configuration

    [internal/history/store/types.go] and [config.go]: the records the store
    exchanges with its callers and with its executor, and [Config.Validate]. *)
From Stdlib Require Import ZArith Lia Bool SpecFloat.
From Stdlib Require Import String Ascii.
From stdpp Require Import base tactics option list gmap strings.
From S2P Require Import Prelude GoStrings.
Open Scope Z_scope.

(** ** types.go *)

Definition TableName : string := "ConversationChunks".
Definition VectorIndexName : string := "ConversationChunksVectorIndex".
Definition RemoteModelName : string := "ConversationEmbeddingModel".
Definition EmbeddingModelName : string := "gemini-embedding-001".
Definition VectorDimension : Z := 3072.
Definition VectorIndexThreshold : Z := 10000.
Definition TaskRetrievalQuery : string := "RETRIEVAL_QUERY".
Definition TaskRetrievalDocument : string := "RETRIEVAL_DOCUMENT".

(** [EmbeddingStrategy], [SearchMode] and [SearchType] are strings in Go, so a
    value outside the declared constants is possible and is checked for. *)
Definition EmbeddingRemoteModel : string := "remote_model".
Definition EmbeddingDeferred : string := "deferred".
Definition SearchAuto : string := "auto".
Definition SearchExact : string := "exact".
Definition SearchANN : string := "ann".
Definition SearchTypeExact : string := "exact".
Definition SearchTypeANN : string := "ann".
Definition SearchTypeFullText : string := "full_text".
Definition SearchTypeHybrid : string := "hybrid".

(** A [float32] or [float64] value. *)
Abbreviation float := spec_float.

Record Chunk : Type := mkChunk {
  c_ID : string;
  c_Content : string;
  c_Vector : list float;
  c_ChunkType : string;
  c_SessionID : string;
  c_ProjectPath : string;
  c_ProjectName : string;
  c_Timestamp : Time;
  c_UserUUID : string;
  c_AssistantUUID : string;
  c_FilePath : string;
  c_Operation : string;
  c_Model : string;
  c_SourceFile : string;
  c_SourceLine : Z;
  c_ParentChunkID : string;
  c_ChildChunkIDs : list string;
  c_MachineID : string
}.

(** [*string] fields are options. *)
Record RemoteEmbeddingRow : Type := mkRemoteEmbeddingRow {
  rr_ID : string;
  rr_Content : string;
  rr_ChunkType : string;
  rr_SessionID : string;
  rr_ProjectPath : string;
  rr_ProjectName : string;
  rr_Timestamp : Time;
  rr_UserUUID : option string;
  rr_AssistantUUID : option string;
  rr_FilePath : option string;
  rr_Operation : option string;
  rr_Model : option string;
  rr_SourceFile : string;
  rr_SourceLine : Z;
  rr_ParentChunkID : option string;
  rr_ChildChunkIDs : list string;
  rr_MachineID : option string
}.

Record Filter : Type := mkFilter {
  f_ProjectPath : string;
  f_ChunkType : string;
  f_SessionID : string;
  f_ProjectName : string;
  f_MachineID : string;
  f_FilePath : string;
  f_Operation : string;
  f_DateFrom : Time;
  f_DateTo : Time
}.

Definition empty_filter : Filter :=
  mkFilter "" "" "" "" "" "" "" zero_time zero_time.

Record Query : Type := mkQuery {
  q_Text : string;
  q_Vector : list float;
  q_Limit : Z;
  q_Mode : string;
  q_Filter : Filter
}.

Record Result : Type := mkResult {
  r_ID : string;
  r_Content : string;
  r_ChunkType : string;
  r_SessionID : string;
  r_ProjectPath : string;
  r_ProjectName : string;
  r_Timestamp : Time;
  r_FilePath : string;
  r_Operation : string;
  r_MachineID : string;
  r_Distance : float;
  r_SearchType : string
}.

Record Stats : Type := mkStats {
  s_TotalChunks : Z;
  s_EmbeddedChunks : Z;
  s_AwaitingEmbedding : Z;
  s_BackfillRatePerMinute : float;
  s_BackfillETASeconds : option float;
  s_Backend : string;
  s_Project : string;
  s_Instance : string;
  s_Database : string;
  s_Dimension : Z;
  s_FullTextEnabled : bool;
  s_VectorIndexEnabled : bool;
  s_VectorSearchMode : string;
  s_EmbeddingStrategy : string;
  s_EmbeddingModel : string
}.

Record BackfillReport : Type := mkBackfillReport {
  b_Embedded : Z;
  b_Failures : gmap string error
}.

(** The dynamic types an [any] of this package takes. *)
Inductive value : Type :=
| VNil
| VString (s : string)
| VInt (z : Z)
| VInt64 (z : Z)
| VInt32 (z : Z)
| VBool (b : bool)
| VFloat64 (f : float)
| VFloat32 (f : float)
| VTime (t : Time)
| VStrings (l : list string)
| VFloat32s (l : list float)
| VFloat64s (l : list float)
| VBytes (s : string)
| VRemoteRows (l : list RemoteEmbeddingRow).

Record Statement : Type := mkStatement {
  SQL : string;
  Params : gmap string value
}.

Definition Row : Type := list value.

Record Mutation : Type := mkMutation {
  m_Table : string;
  m_Columns : list string;
  m_Values : list (list value)
}.

Record DDLStatement : Type := mkDDL {
  d_SQL : string;
  d_AlreadyExistsOK : bool
}.

(** A Go [UpsertPlan] holds two pointers; both or neither may be nil. *)
Record UpsertPlan : Type := mkUpsertPlan {
  p_Statement : option Statement;
  p_Mutation : option Mutation
}.

Record SearchPlan : Type := mkSearchPlan {
  sp_Statement : Statement;
  sp_Mode : string;
  sp_Type : string
}.

(** ** config.go *)

Record Config : Type := mkConfig {
  Project : string;
  Instance_ : string;
  Database : string;
  ModelProject : string;
  ModelLocation : string;
  EmbeddingStrategy : string;
  RemoteModel : string;
  EmbeddingModel : string;
  EmbeddingDimension : Z;
  DocumentTaskType : string;
  QueryTaskType : string;
  RemoteRPCBatch : Z;
  EnableFullText : bool;
  EnableANN : bool;
  UseANN : bool;
  VectorIndexLeaves : Z;
  NumLeavesToSearch : Z;
  HybridCandidateLimit : Z;
  RRFK : Z;
  MaxSearchLimit : Z;
  BackfillConcurrency : Z;
  BackfillBatch : Z;
  BackfillInterval : Z;
  BackfillMaxBatchesPerShard : Z;
  StatsCacheTTL : Z
}.

Definition ident_char (c : ascii) : bool := is_lower c || is_digit c || Ascii.eqb c "-"%char.

(** [^[a-z][a-z0-9-]{0,62}[a-z0-9]$|^[a-z]$] *)
Definition identifierPart (s : string) : bool :=
  match s with
  | EmptyString => false
  | String c EmptyString => is_lower c
  | String c rest =>
      is_lower c && (len s <=? 64) && sforall ident_char rest &&
      match srev rest with
      | String e _ => is_lower e || is_digit e
      | EmptyString => false
      end
  end.

(** [[a-z]+[0-9]$], entered after at least one letter when [seen]. *)
Fixpoint region_tail (seen : bool) (s : string) : bool :=
  match s with
  | EmptyString => false
  | String c r => if is_lower c then region_tail true r
                  else seen && is_digit c && (r ==s "")
  end.
Fixpoint region_head (seen : bool) (s : string) : bool :=
  match s with
  | EmptyString => false
  | String c r => if is_lower c then region_head true r
                  else seen && Ascii.eqb c "-"%char && region_tail false r
  end.
(** [^[a-z]+-[a-z]+[0-9]$] *)
Definition locationPart (s : string) : bool := region_head false s.

Definition bounded (name : string) (value minimum maximum : Z) : result unit :=
  if (value <? minimum) || (maximum <? value)
  then Fail (Errorf "%s must be in [%d,%d]" [FStr name; FInt minimum; FInt maximum])
  else Ok tt.

Fixpoint validate_identifiers (fields : list (string * string)) : result unit :=
  match fields with
  | [] => Ok tt
  | (name, v) :: rest =>
      let trimmed := TrimSpace v in
      if (trimmed ==s "") || (64 <? len trimmed) || negb (identifierPart trimmed)
      then Fail (Errorf "%s must be a nonempty bounded Google resource identifier" [FStr name])
      else validate_identifiers rest
  end.

(** [Config.Validate]. *)
Definition Validate (c : Config) : result unit :=
  _ ← validate_identifiers [("project", Project c); ("instance", Instance_ c);
                            ("database", Database c); ("model project", ModelProject c)];
  if negb (locationPart (ModelLocation c)) then
    Fail (errors_New "model location must be a valid Google Cloud region")
  else if (EmbeddingStrategy c !=s EmbeddingRemoteModel) && (EmbeddingStrategy c !=s EmbeddingDeferred) then
    Fail (Errorf "embedding strategy must be explicitly %q or %q" [FStr EmbeddingRemoteModel; FStr EmbeddingDeferred])
  else if RemoteModel c !=s RemoteModelName then
    Fail (Errorf "remote model must be %q" [FStr RemoteModelName])
  else if EmbeddingModel c !=s EmbeddingModelName then
    Fail (Errorf "embedding model must be %q" [FStr EmbeddingModelName])
  else if negb (EmbeddingDimension c =? VectorDimension) then
    Fail (Errorf "embedding dimension must be exactly %d" [FInt VectorDimension])
  else if DocumentTaskType c !=s TaskRetrievalDocument then
    Fail (Errorf "document embedding task type must be %q" [FStr TaskRetrievalDocument])
  else if QueryTaskType c !=s TaskRetrievalQuery then
    Fail (Errorf "query embedding task type must be %q" [FStr TaskRetrievalQuery])
  else if negb (RemoteRPCBatch c =? 1) then
    Fail (Errorf "remote RPC batch must be exactly 1 for %s" [FStr EmbeddingModelName])
  else
    _ ← bounded "vector index leaves" (VectorIndexLeaves c) 1 1000000;
    _ ← bounded "leaves to search" (NumLeavesToSearch c) 1 1000000;
    _ ← bounded "hybrid candidate limit" (HybridCandidateLimit c) 1 10000;
    _ ← bounded "RRF k" (RRFK c) 1 10000;
    _ ← bounded "maximum search limit" (MaxSearchLimit c) 1 1000;
    _ ← bounded "backfill concurrency" (BackfillConcurrency c) 1 256;
    _ ← bounded "backfill batch" (BackfillBatch c) 1 2000;
    if (BackfillInterval c <? 10 * second) || (hour <? BackfillInterval c) then
      Fail (errors_New "backfill interval must be between 10 seconds and 1 hour")
    else
      _ ← bounded "backfill batches per shard" (BackfillMaxBatchesPerShard c) 1 1000000;
      if (StatsCacheTTL c <? second) || (minute <? StatsCacheTTL c) then
        Fail (errors_New "stats cache TTL must be between 1 second and 1 minute")
      else if UseANN c && negb (EnableANN c) then
        Fail (errors_New "ANN use requires ANN to be enabled")
      else Ok tt.

(** [productionStoreConfig] of [cmd/history-ragd/main.go], of the Spanner
    coordinates in the runtime configuration. *)
Definition productionStoreConfig (project instance database : string) : Config :=
  {| Project := project; Instance_ := instance; Database := database; ModelProject := project;
     ModelLocation := "us-central1"; EmbeddingStrategy := EmbeddingRemoteModel;
     RemoteModel := RemoteModelName; EmbeddingModel := EmbeddingModelName;
     EmbeddingDimension := VectorDimension; DocumentTaskType := TaskRetrievalDocument;
     QueryTaskType := TaskRetrievalQuery; RemoteRPCBatch := 1; EnableFullText := true;
     EnableANN := true; UseANN := true; VectorIndexLeaves := 1000; NumLeavesToSearch := 50;
     HybridCandidateLimit := 100; RRFK := 60; MaxSearchLimit := 100; BackfillConcurrency := 8;
     BackfillBatch := 200; BackfillInterval := minute; BackfillMaxBatchesPerShard := 1000;
     StatsCacheTTL := 10 * second |}.

(** ** What a validated configuration guarantees *)

Lemma bounded_ok name v lo hi : bounded name v lo hi = Ok tt <-> lo <= v <= hi.
Proof.
  unfold bounded. destruct ((v <? lo) || (hi <? v)) eqn:E; split; intros H; try done.
  - exfalso. apply orb_true_iff in E as [?|?]; to_prop; lia.
  - to_prop. lia.
Qed.

Record config_ok (c : Config) : Prop := mk_config_ok {
  ok_strategy : EmbeddingStrategy c = EmbeddingRemoteModel \/ EmbeddingStrategy c = EmbeddingDeferred;
  ok_remote_model : RemoteModel c = RemoteModelName;
  ok_embedding_model : EmbeddingModel c = EmbeddingModelName;
  ok_dimension : EmbeddingDimension c = VectorDimension;
  ok_document_task : DocumentTaskType c = TaskRetrievalDocument;
  ok_query_task : QueryTaskType c = TaskRetrievalQuery;
  ok_rpc_batch : RemoteRPCBatch c = 1;
  ok_leaves : 1 <= VectorIndexLeaves c <= 1000000;
  ok_search_leaves : 1 <= NumLeavesToSearch c <= 1000000;
  ok_candidates : 1 <= HybridCandidateLimit c <= 10000;
  ok_rrf : 1 <= RRFK c <= 10000;
  ok_limit : 1 <= MaxSearchLimit c <= 1000;
  ok_concurrency : 1 <= BackfillConcurrency c <= 256;
  ok_batch : 1 <= BackfillBatch c <= 2000;
  ok_interval : 10 * second <= BackfillInterval c <= hour;
  ok_batches : 1 <= BackfillMaxBatchesPerShard c <= 1000000;
  ok_ttl : second <= StatsCacheTTL c <= minute;
  ok_ann : UseANN c = true -> EnableANN c = true
}.

#[export] Hint Rewrite bounded_ok : go.

(** A validated configuration satisfies [config_ok]. *)
Lemma Validate_ok c : Validate c = Ok tt -> config_ok c.
Proof.
  unfold Validate. autorewrite with go.
  intros (?&?&H1&?&?&?&?&?&?&?&?&?&?&?&?&?&?&?&?&H26&_). to_prop.
  constructor; try done; try lia.
  - destruct H1; to_prop; auto.
  - intros Hu. destruct H26; to_prop; congruence.
Qed.

(** The production configuration is valid for every valid set of coordinates. *)
Lemma productionStoreConfig_ok p i d :
  Validate (productionStoreConfig p i d) = Ok tt <->
  validate_identifiers [("project", p); ("instance", i); ("database", d); ("model project", p)] = Ok tt.
Proof.
  unfold Validate. cbn [productionStoreConfig Project Instance_ Database ModelProject].
  destruct (validate_identifiers _) as [[]|]; split; intros; done.
Qed.
