(* ===== verification/StorePlans.v ===== *)
(** * Statement planning of the Spanner store

    [internal/history/store/plans.go]: pure functions that validate chunks and
    queries and turn them into SQL statements, mutations and typed rows. *)
From Stdlib Require Import ZArith Lia Bool SpecFloat.
From Stdlib Require Import String Ascii.
From stdpp Require Import base tactics option list gmap strings.
From S2P Require Import Prelude GoStrings StoreTypes.
Open Scope Z_scope.

Definition allColumns : list string :=
  ["Id"; "Content"; "Vector"; "ChunkType"; "SessionId"; "ProjectPath";
   "ProjectName"; "Timestamp"; "UserUuid"; "AssistantUuid"; "FilePath";
   "Operation"; "Model"; "SourceFile"; "SourceLine"; "ParentChunkId";
   "ChildChunkIds"; "MachineId"].

Definition columnsWithoutVector : list string :=
  ["Id"; "Content"; "ChunkType"; "SessionId"; "ProjectPath"; "ProjectName";
   "Timestamp"; "UserUuid"; "AssistantUuid"; "FilePath"; "Operation"; "Model";
   "SourceFile"; "SourceLine"; "ParentChunkId"; "ChildChunkIds"; "MachineId"].

Definition maxQueryTextBytes : Z := 16384.

(** ** Floating point *)

(** [m1 * 2^e1 <= m2 * 2^e2], exactly. *)
Definition mag_leb (m1 e1 m2 e2 : Z) : bool :=
  let e := Z.min e1 e2 in m1 * 2 ^ (e1 - e) <=? m2 * 2 ^ (e2 - e).

Definition isFinite (f : float) : bool :=
  match f with
  | S754_nan | S754_infinity _ => false
  | _ => true
  end.

(** [math.Abs(float64(value)) >= 1e-10]; the float64 nearest to 1e-10 is
    [7737125245533627 * 2^-86]. *)
Definition not_tiny (f : float) : bool :=
  match f with
  | S754_finite _ m e => mag_leb 7737125245533627 (-86) (Z.pos m) e
  | S754_infinity _ => true
  | _ => false
  end.

(** [value > math.MaxFloat32 || value < -math.MaxFloat32] is false. *)
Definition fits_float32 (f : float) : bool :=
  match f with
  | S754_finite _ m e => mag_leb (Z.pos m) e 16777215 104
  | S754_infinity _ => false
  | _ => true
  end.

(** [float32(value)], rounding to nearest even. *)
Definition to_float32 (f : float) : float :=
  match f with
  | S754_finite s m e => binary_round 24 128 s m e
  | _ => f
  end.

(** ** Validation *)

Definition validateLimit (limit maximum : Z) : result unit :=
  if (limit <? 1) || (maximum <? limit)
  then Fail (Errorf "limit must be in [1,%d]" [FInt maximum]) else Ok tt.

Definition validateQueryText (text : string) : result unit :=
  if (TrimSpace text ==s "") || (maxQueryTextBytes <? len text)
  then Fail (Errorf "must be nonempty and at most %d bytes" [FInt maxQueryTextBytes]) else Ok tt.

Fixpoint scan_vector (index : Z) (nonZero : bool) (vector : list float) : result bool :=
  match vector with
  | [] => Ok nonZero
  | value :: rest =>
      if negb (isFinite value) then Fail (Errorf "vector value %d is not finite" [FInt index])
      else scan_vector (index + 1) (not_tiny value || nonZero) rest
  end.

Definition validateVector (vector : list float) : result unit :=
  if negb (Z.of_nat (length vector) =? VectorDimension) then
    Fail (Errorf "vector dimension must be exactly %d, got %d"
            [FInt VectorDimension; FInt (Z.of_nat (length vector))])
  else
    nonZero ← scan_vector 0 false vector;
    if negb nonZero then Fail (errors_New "vector must not be zero") else Ok tt.

Fixpoint check_required (fields : list (string * string * Z)) : result unit :=
  match fields with
  | [] => Ok tt
  | (name, value, maximum) :: rest =>
      if (value ==s "") || (maximum <? len value)
      then Fail (Errorf "%s must be nonempty and at most %d bytes" [FStr name; FInt maximum])
      else check_required rest
  end.

Fixpoint check_optional (fields : list (string * string * Z)) : result unit :=
  match fields with
  | [] => Ok tt
  | (name, value, maximum) :: rest =>
      if maximum <? len value
      then Fail (Errorf "%s exceeds %d bytes" [FStr name; FInt maximum])
      else check_optional rest
  end.

Fixpoint check_children (ids : list string) : result unit :=
  match ids with
  | [] => Ok tt
  | id :: rest =>
      if (id ==s "") || (64 <? len id)
      then Fail (errors_New "child chunk id must be nonempty and at most 64 bytes")
      else check_children rest
  end.

Definition validateChunk (c : Chunk) : result unit :=
  _ ← check_required
    [("id", c_ID c, 64); ("content", c_Content c, 8388608);
     ("chunk_type", c_ChunkType c, 32); ("session_id", c_SessionID c, 128);
     ("project_path", c_ProjectPath c, 8192); ("project_name", c_ProjectName c, 256);
     ("source_file", c_SourceFile c, 8192)];
  _ ← check_optional
    [("user_uuid", c_UserUUID c, 128); ("assistant_uuid", c_AssistantUUID c, 128);
     ("file_path", c_FilePath c, 8192); ("operation", c_Operation c, 32);
     ("model", c_Model c, 256); ("parent_chunk_id", c_ParentChunkID c, 64);
     ("machine_id", c_MachineID c, 256)];
  if IsZero (c_Timestamp c) then Fail (errors_New "timestamp is required")
  else if c_SourceLine c <? 0 then Fail (errors_New "source line must not be negative")
  else if 10000 <? Z.of_nat (length (c_ChildChunkIDs c)) then
    Fail (errors_New "child chunk ids exceed 10000 entries")
  else check_children (c_ChildChunkIDs c).

(** [strings.ContainsRune("0123456789abcdef", r)] on the first two bytes: a
    byte that is not a one-byte rune is not in the set. *)
Definition hasLowerHexShardPrefix (id : string) : bool :=
  match id with
  | String a (String b _) => is_lower_hex a && is_lower_hex b
  | _ => false
  end.

(** ** Rows *)

Definition nullable (value : string) : StoreTypes.value :=
  if value ==s "" then VNil else VString value.

Definition optionalString (value : string) : option string :=
  if value ==s "" then None else Some value.

Definition chunkValues (c : Chunk) (includeVector : bool) : list StoreTypes.value :=
  [VString (c_ID c); VString (c_Content c)] ++
  (if includeVector then [VFloat32s (c_Vector c)] else []) ++
  [VString (c_ChunkType c); VString (c_SessionID c); VString (c_ProjectPath c);
   VString (c_ProjectName c); VTime (UTC (c_Timestamp c)); nullable (c_UserUUID c);
   nullable (c_AssistantUUID c); nullable (c_FilePath c); nullable (c_Operation c);
   nullable (c_Model c); VString (c_SourceFile c); VInt64 (c_SourceLine c);
   nullable (c_ParentChunkID c); VStrings (c_ChildChunkIDs c); nullable (c_MachineID c)].

Definition chunkRow (c : Chunk) : RemoteEmbeddingRow :=
  {| rr_ID := c_ID c; rr_Content := c_Content c; rr_ChunkType := c_ChunkType c;
     rr_SessionID := c_SessionID c; rr_ProjectPath := c_ProjectPath c;
     rr_ProjectName := c_ProjectName c; rr_Timestamp := UTC (c_Timestamp c);
     rr_UserUUID := optionalString (c_UserUUID c);
     rr_AssistantUUID := optionalString (c_AssistantUUID c);
     rr_FilePath := optionalString (c_FilePath c);
     rr_Operation := optionalString (c_Operation c);
     rr_Model := optionalString (c_Model c); rr_SourceFile := c_SourceFile c;
     rr_SourceLine := c_SourceLine c;
     rr_ParentChunkID := optionalString (c_ParentChunkID c);
     rr_ChildChunkIDs := c_ChildChunkIDs c;
     rr_MachineID := optionalString (c_MachineID c) |}.

Definition requiredRowString (v : StoreTypes.value) (name : string) : result string :=
  match v with
  | VString s => if s ==s "" then Fail (Errorf "%s is not a nonempty string" [FStr name]) else Ok s
  | _ => Fail (Errorf "%s is not a nonempty string" [FStr name])
  end.

Definition optionalRowString (v : StoreTypes.value) (name : string) : result string :=
  match v with
  | VNil => Ok ""
  | VString s => Ok s
  | _ => Fail (Errorf "%s is neither string nor NULL" [FStr name])
  end.

Definition wrap_row {A} (format : string) (index : Z) (r : result A) : result A :=
  match r with
  | Ok a => Ok a
  | Fail e => Fail (Wrapf format [FInt index] e)
  end.

Definition parse_result_row (searchType : string) (index : Z) (row : Row) : result Result :=
  match row with
  | [v0; v1; v2; v3; v4; v5; v6; v7; v8; v9; v10] =>
      id ← wrap_row "result row %d: %w" index (requiredRowString v0 "id");
      content ← wrap_row "result row %d: %w" index (requiredRowString v1 "content");
      chunkType ← wrap_row "result row %d: %w" index (requiredRowString v2 "chunk_type");
      session ← wrap_row "result row %d: %w" index (requiredRowString v3 "session_id");
      path ← wrap_row "result row %d: %w" index (requiredRowString v4 "project_path");
      name ← wrap_row "result row %d: %w" index (requiredRowString v5 "project_name");
      timestamp ← match v6 with
                  | VTime t => if IsZero t then Fail (Errorf "result row %d: timestamp is invalid" [FInt index]) else Ok t
                  | _ => Fail (Errorf "result row %d: timestamp is invalid" [FInt index])
                  end;
      filePath ← wrap_row "result row %d: %w" index (optionalRowString v7 "file_path");
      operation ← wrap_row "result row %d: %w" index (optionalRowString v8 "operation");
      machine ← wrap_row "result row %d: %w" index (optionalRowString v9 "machine_id");
      distance ← match v10 with
                 | VFloat64 f | VFloat32 f => Ok f
                 | _ => Fail (Errorf "result row %d distance is not numeric" [FInt index])
                 end;
      if negb (isFinite distance) then Fail (Errorf "result row %d distance is not finite" [FInt index])
      else Ok (mkResult id content chunkType session path name timestamp filePath operation machine
                 distance searchType)
  | _ => Fail (Errorf "result row %d has %d columns, want 11" [FInt index; FInt (Z.of_nat (length row))])
  end.

Fixpoint parse_rows_from (searchType : string) (index : Z) (rows : list Row) : result (list Result) :=
  match rows with
  | [] => Ok []
  | row :: rest =>
      r ← parse_result_row searchType index row;
      rs ← parse_rows_from searchType (index + 1) rest;
      Ok (r :: rs)
  end.
Definition parseResultRows (rows : list Row) (searchType : string) : result (list Result) :=
  parse_rows_from searchType 0 rows.

Fixpoint narrow_values (index : Z) (values : list float) : result (list float) :=
  match values with
  | [] => Ok []
  | value :: rest =>
      if negb (isFinite value) || negb (fits_float32 value)
      then Fail (Errorf "query embedding value %d is invalid" [FInt index])
      else vs ← narrow_values (index + 1) rest; Ok (to_float32 value :: vs)
  end.

Definition parseEmbeddingRows (rows : list Row) : result (list float) :=
  match rows with
  | [[cell]] =>
      vector ← match cell with
               | VFloat32s values => Ok values
               | VFloat64s values => narrow_values 0 values
               | _ => Fail (errors_New "query embedding vector has an invalid type")
               end;
      match validateVector vector with
      | Fail e => Fail (Wrapf "query embedding: %w" [] e)
      | Ok _ => Ok vector
      end
  | _ => Fail (errors_New "query embedding returned an invalid row shape")
  end.

(** ** Schema statements *)

(** A double quote and a line break inside generated SQL. *)
Definition dq : string := String (ascii_of_N 34) "".
Definition nl : string := String (ascii_of_N 10) "".

Definition create_table_sql : string :=
  "CREATE TABLE ConversationChunks (
  Id STRING(64) NOT NULL,
  Content STRING(MAX) NOT NULL,
  ContentTokens TOKENLIST AS (TOKENIZE_FULLTEXT(Content)) HIDDEN,
  Vector ARRAY<FLOAT32>(vector_length=>3072),
  ChunkType STRING(32) NOT NULL,
  SessionId STRING(128) NOT NULL,
  ProjectPath STRING(MAX) NOT NULL,
  ProjectName STRING(256) NOT NULL,
  Timestamp TIMESTAMP NOT NULL,
  UserUuid STRING(128),
  AssistantUuid STRING(128),
  FilePath STRING(MAX),
  Operation STRING(32),
  Model STRING(256),
  SourceFile STRING(MAX) NOT NULL,
  SourceLine INT64 NOT NULL,
  ParentChunkId STRING(64),
  ChildChunkIds ARRAY<STRING(64)>,
  MachineId STRING(256)
) PRIMARY KEY (Id)".

Definition BuildInitializationDDL (config : Config) : result (list DDLStatement) :=
  _ ← Validate config;
  let statements :=
    [mkDDL create_table_sql true;
     mkDDL "CREATE INDEX ConversationChunksByProject ON ConversationChunks(ProjectPath)" true;
     mkDDL "CREATE INDEX ConversationChunksByMachine ON ConversationChunks(MachineId)" true;
     mkDDL "CREATE INDEX ConversationChunksByTimestamp ON ConversationChunks(Timestamp)" true;
     mkDDL "CREATE INDEX ConversationChunksByProjectTimestamp ON ConversationChunks(ProjectPath, Timestamp)" true] in
  let statements :=
    if EnableFullText config
    then statements ++ [mkDDL "CREATE SEARCH INDEX ConversationChunksContentSearch ON ConversationChunks(ContentTokens)" true]
    else statements in
  let endpoint := "//aiplatform.googleapis.com/projects/" +:+ ModelProject config +:+ "/locations/"
                  +:+ ModelLocation config +:+ "/publishers/google/models/" +:+ EmbeddingModelName in
  Ok (statements ++
      [mkDDL ("CREATE MODEL IF NOT EXISTS " +:+ RemoteModelName +:+ "
INPUT(content STRING(MAX), task_type STRING(MAX))
OUTPUT(embeddings STRUCT<statistics STRUCT<truncated BOOL, token_count FLOAT64>, values ARRAY<FLOAT64>>)
REMOTE OPTIONS (endpoint = '" +:+ endpoint +:+ "', default_batch_size = " +:+ Itoa (RemoteRPCBatch config) +:+ ")") true]).

Definition BuildVectorIndexDDL (config : Config) : result DDLStatement :=
  _ ← Validate config;
  Ok (mkDDL ("CREATE VECTOR INDEX ConversationChunksVectorIndex
ON ConversationChunks(Vector)
STORING (ChunkType, SessionId, ProjectName, MachineId)
WHERE Vector IS NOT NULL
OPTIONS (distance_type = 'COSINE', tree_depth = 2, num_leaves = " +:+ Itoa (VectorIndexLeaves config) +:+ ")") true).

(** ** Writes *)

Definition buildRemoteModelStatement (config : Config) (chunks : list Chunk) : Statement :=
  mkStatement ("INSERT OR UPDATE INTO ConversationChunks (
  Id, Content, Vector, ChunkType, SessionId, ProjectPath, ProjectName, Timestamp,
  UserUuid, AssistantUuid, FilePath, Operation, Model, SourceFile, SourceLine,
  ParentChunkId, ChildChunkIds, MachineId
)
SELECT pred.id, pred.content,
  ARRAY(SELECT CAST(value AS FLOAT32) FROM UNNEST(pred.embeddings.values) AS value),
  pred.chunk_type, pred.session_id, pred.project_path, pred.project_name, pred.timestamp,
  pred.user_uuid, pred.assistant_uuid, pred.file_path, pred.operation, pred.model,
  pred.source_file, pred.source_line, pred.parent_chunk_id, pred.child_chunk_ids,
  pred.machine_id
FROM ML.PREDICT(
  MODEL ConversationEmbeddingModel,
  (SELECT r.*, @task_type AS task_type FROM UNNEST(@rows) AS r),
  STRUCT(3072 AS outputDimensionality)
) @{remote_udf_max_rows_per_rpc=" +:+ Itoa (RemoteRPCBatch config) +:+ "} AS pred")
    (<["task_type" := VString (DocumentTaskType config)]>
     (<["rows" := VRemoteRows (map chunkRow chunks)]> ∅)).

(** The validation loop of [BuildUpsertPlan]: the counts of embedded and
    unembedded chunks. *)
Fixpoint check_batch (config : Config) (index embedded unembedded : Z) (chunks : list Chunk)
  : result (Z * Z) :=
  match chunks with
  | [] => Ok (embedded, unembedded)
  | c :: rest =>
      match validateChunk c with
      | Fail e => Fail (Wrapf "chunk %d: %w" [FInt index] e)
      | Ok _ =>
          if (EmbeddingStrategy config ==s EmbeddingDeferred) && bool_decide (c_Vector c = [])
             && negb (hasLowerHexShardPrefix (c_ID c))
          then Fail (Errorf "chunk %d: deferred id must begin with two lowercase hexadecimal characters" [FInt index])
          else match c_Vector c with
               | [] => check_batch config (index + 1) embedded (unembedded + 1) rest
               | v => match validateVector v with
                      | Fail e => Fail (Wrapf "chunk %q: %w" [FStr (c_ID c)] e)
                      | Ok _ => check_batch config (index + 1) (embedded + 1) unembedded rest
                      end
               end
      end
  end.

Definition BuildUpsertPlan (config : Config) (chunks : list Chunk) : result UpsertPlan :=
  _ ← Validate config;
  if bool_decide (chunks = []) then Fail (errors_New "upsert batch must not be empty")
  else if 500 <? Z.of_nat (length chunks) then Fail (errors_New "upsert batch exceeds 500 chunks")
  else
    counts ← check_batch config 0 0 0 chunks;
    let '(embedded, unembedded) := counts in
    if negb (embedded =? 0) && negb (unembedded =? 0) then
      Fail (errors_New "cannot mix embedded and unembedded chunks in one batch")
    else if negb (embedded =? 0) then
      Ok (mkUpsertPlan None (Some (mkMutation TableName allColumns (map (fun c => chunkValues c true) chunks))))
    else if EmbeddingStrategy config ==s EmbeddingDeferred then
      Ok (mkUpsertPlan None (Some (mkMutation TableName columnsWithoutVector (map (fun c => chunkValues c false) chunks))))
    else Ok (mkUpsertPlan (Some (buildRemoteModelStatement config chunks)) None).

(** ** Reads *)

Definition BuildQueryEmbeddingPlan (config : Config) (text : string) : result Statement :=
  _ ← Validate config;
  _ ← validateQueryText text;
  Ok (mkStatement "SELECT ARRAY(
  SELECT CAST(value AS FLOAT32) FROM UNNEST(embeddings.values) AS value
) AS Vector
FROM ML.PREDICT(
  MODEL ConversationEmbeddingModel,
  (SELECT @content AS content, @task_type AS task_type),
  STRUCT(3072 AS outputDimensionality)
) @{remote_udf_max_rows_per_rpc=1}"
    (<["task_type" := VString (QueryTaskType config)]> (<["content" := VString text]> ∅))).

Definition hasUnstoredFilters (f : Filter) : bool :=
  (f_ProjectPath f !=s "") || (f_FilePath f !=s "") || (f_Operation f !=s "")
  || negb (IsZero (f_DateFrom f)) || negb (IsZero (f_DateTo f)).

Definition chooseVectorMode (config : Config) (query : Query) (vectorIndexAvailable : bool) : result string :=
  if (q_Mode query !=s SearchAuto) && (q_Mode query !=s SearchExact) && (q_Mode query !=s SearchANN) then
    Fail (errors_New "search mode must be explicitly auto, exact, or ann")
  else
    let annReady := EnableANN config && UseANN config && vectorIndexAvailable in
    if hasUnstoredFilters (q_Filter query) then
      if q_Mode query ==s SearchANN
      then Fail (errors_New "ANN is not lawful with filters absent from stored index columns")
      else Ok SearchExact
    else if q_Mode query ==s SearchANN then
      if negb annReady then Fail (errors_New "ANN was requested but the vector index is unavailable")
      else Ok SearchANN
    else if (q_Mode query ==s SearchAuto) && annReady then Ok SearchANN
    else Ok SearchExact.

(** The [add] closure of [buildFilters], run over its table. *)
Fixpoint add_filters (items : list (string * string * string * Z))
    (filters : list string) (params : gmap string value) : result (list string * gmap string value) :=
  match items with
  | [] => Ok (filters, params)
  | (column, parameter, v, limit) :: rest =>
      if v ==s "" then add_filters rest filters params
      else if limit <? len v then
        Fail (Errorf "%s filter exceeds %d bytes" [FStr parameter; FInt limit])
      else add_filters rest (filters ++ [column +:+ " = @" +:+ parameter])
             (<[parameter := VString v]> params)
  end.

Definition filter_items (f : Filter) : list (string * string * string * Z) :=
  [("ProjectPath", "project_path", f_ProjectPath f, 8192);
   ("ChunkType", "chunk_type", f_ChunkType f, 32);
   ("SessionId", "session_id", f_SessionID f, 128);
   ("ProjectName", "project_name", f_ProjectName f, 256);
   ("MachineId", "machine_id", f_MachineID f, 256);
   ("Operation", "operation", f_Operation f, 32)].

Definition buildFilters (f : Filter) (vector : bool) : result (list string * gmap string value) :=
  if negb (IsZero (f_DateFrom f)) && negb (IsZero (f_DateTo f)) && After (f_DateFrom f) (f_DateTo f) then
    Fail (errors_New "date_from must not be after date_to")
  else
    let filters := if vector then ["Vector IS NOT NULL"] else [] in
    fp ← add_filters (filter_items f) filters ∅;
    let '(filters, params) := fp in
    fp ← (if f_FilePath f ==s "" then Ok (filters, params)
          else if 8192 <? len (f_FilePath f) then
            Fail (errors_New "file_path filter exceeds 8192 bytes")
          else Ok (filters ++ ["FilePath LIKE @file_path"],
                   <["file_path" := VString ("%" +:+ f_FilePath f +:+ "%")]> params));
    let '(filters, params) := fp in
    let '(filters, params) :=
      if IsZero (f_DateFrom f) then (filters, params)
      else (filters ++ ["Timestamp >= @date_from"], <["date_from" := VTime (f_DateFrom f)]> params) in
    let '(filters, params) :=
      if IsZero (f_DateTo f) then (filters, params)
      else (filters ++ ["Timestamp <= @date_to"], <["date_to" := VTime (f_DateTo f)]> params) in
    let filters := match filters with [] => ["TRUE"] | _ => filters end in
    Ok (filters, params).

Definition ann_table : string := TableName +:+ "@{FORCE_INDEX=" +:+ VectorIndexName +:+ "}".
Definition ann_distance (config : Config) : string :=
  "APPROX_COSINE_DISTANCE(Vector, @query_vector, options => JSON '{" +:+ dq +:+ "num_leaves_to_search"
  +:+ dq +:+ ": " +:+ Itoa (NumLeavesToSearch config) +:+ "}')".
Definition exact_distance : string := "COSINE_DISTANCE(Vector, @query_vector)".

Definition BuildSearchPlan (config : Config) (query : Query) (vectorIndexAvailable : bool) : result SearchPlan :=
  _ ← Validate config;
  _ ← validateLimit (q_Limit query) (MaxSearchLimit config);
  _ ← match validateVector (q_Vector query) with
      | Fail e => Fail (Wrapf "query vector: %w" [] e)
      | Ok _ => Ok tt
      end;
  mode ← chooseVectorMode config query vectorIndexAvailable;
  fp ← buildFilters (q_Filter query) true;
  let '(filters, params) := fp in
  let params := <["query_vector" := VFloat32s (q_Vector query)]> params in
  let ann := mode ==s SearchANN in
  let table := if ann then ann_table else TableName in
  let distance := if ann then ann_distance config else exact_distance in
  let searchType := if ann then SearchTypeANN else SearchTypeExact in
  let sql := "SELECT Id, Content, ChunkType, SessionId, ProjectPath, ProjectName,
  Timestamp, FilePath, Operation, MachineId, " +:+ distance +:+ " AS Distance
FROM " +:+ table +:+ "
WHERE " +:+ Join filters " AND " +:+ "
ORDER BY Distance ASC
LIMIT " +:+ Itoa (q_Limit query) in
  Ok (mkSearchPlan (mkStatement sql params) mode searchType).

Definition BuildFullTextPlan (config : Config) (query : Query) : result SearchPlan :=
  _ ← Validate config;
  if negb (EnableFullText config) then Fail (errors_New "full-text search is disabled")
  else
    _ ← validateLimit (q_Limit query) (MaxSearchLimit config);
    _ ← match validateQueryText (q_Text query) with
        | Fail e => Fail (Wrapf "full-text query: %w" [] e)
        | Ok _ => Ok tt
        end;
    fp ← buildFilters (q_Filter query) false;
    let '(filters, params) := fp in
    let filters := "SEARCH(ContentTokens, @query)" :: filters in
    let params := <["query" := VString (q_Text query)]> params in
    let sql := "SELECT Id, Content, ChunkType, SessionId, ProjectPath, ProjectName,
  Timestamp, FilePath, Operation, MachineId,
  1.0 - SCORE(ContentTokens, @query) AS Distance
FROM ConversationChunks
WHERE " +:+ Join filters " AND " +:+ "
ORDER BY SCORE(ContentTokens, @query) DESC
LIMIT " +:+ Itoa (q_Limit query) in
    Ok (mkSearchPlan (mkStatement sql params) SearchExact SearchTypeFullText).

(** [float64(n)] for a small nonnegative integer. *)
Definition float_of_int (n : Z) : float := binary_normalize 53 1024 n 0 false.

Definition BuildHybridPlan (config : Config) (query : Query) (vectorIndexAvailable : bool) : result SearchPlan :=
  _ ← Validate config;
  if negb (EnableFullText config) then Fail (errors_New "hybrid search requires full-text search")
  else
    _ ← match validateQueryText (q_Text query) with
        | Fail e => Fail (Wrapf "hybrid query text: %w" [] e)
        | Ok _ => Ok tt
        end;
    _ ← validateLimit (q_Limit query) (MaxSearchLimit config);
    _ ← match validateVector (q_Vector query) with
        | Fail e => Fail (Wrapf "query vector: %w" [] e)
        | Ok _ => Ok tt
        end;
    mode ← chooseVectorMode config query vectorIndexAvailable;
    fp ← buildFilters (q_Filter query) true;
    let '(vectorFilters, params) := fp in
    tp ← buildFilters (q_Filter query) false;
    let textFilters := "SEARCH(ContentTokens, @query)" :: fst tp in
    let params := <["query" := VString (q_Text query)]> params in
    let params := <["query_vector" := VFloat32s (q_Vector query)]> params in
    let params := <["rrf_k" := VFloat64 (float_of_int (RRFK config))]> params in
    let ann := mode ==s SearchANN in
    let table := if ann then ann_table else TableName in
    let distance := if ann then ann_distance config else exact_distance in
    let candidateLimit := Z.max (q_Limit query) (HybridCandidateLimit config) in
    let sql := "WITH VectorCandidates AS (
  SELECT rank, chunk_id AS Id FROM UNNEST(ARRAY(
    SELECT Id FROM " +:+ table +:+ " WHERE " +:+ Join vectorFilters " AND " +:+ " ORDER BY " +:+ distance
      +:+ " ASC LIMIT " +:+ Itoa candidateLimit +:+ "
  )) AS chunk_id WITH OFFSET AS rank
), TextCandidates AS (
  SELECT rank, chunk_id AS Id FROM UNNEST(ARRAY(
    SELECT Id FROM ConversationChunks WHERE " +:+ Join textFilters " AND " +:+ "
    ORDER BY SCORE(ContentTokens, @query) DESC LIMIT " +:+ Itoa candidateLimit +:+ "
  )) AS chunk_id WITH OFFSET AS rank
), FusedCandidates AS (
  SELECT Id, SUM(1.0 / (@rrf_k + rank + 1)) AS Score
  FROM (SELECT Id, rank FROM VectorCandidates UNION ALL SELECT Id, rank FROM TextCandidates)
  GROUP BY Id
)
SELECT c.Id, c.Content, c.ChunkType, c.SessionId, c.ProjectPath, c.ProjectName,
  c.Timestamp, c.FilePath, c.Operation, c.MachineId,
  1.0 - LEAST(1.0, f.Score / (2.0 / (@rrf_k + 1))) AS Distance
FROM FusedCandidates f JOIN ConversationChunks c ON c.Id = f.Id
ORDER BY f.Score DESC LIMIT " +:+ Itoa (q_Limit query) in
    Ok (mkSearchPlan (mkStatement sql params) mode SearchTypeHybrid).

Definition BuildBackfillReadPlan `{UnicodeTables} (config : Config) (prefix : string) : result Statement :=
  _ ← Validate config;
  if negb (len prefix =? 2) || (ToLower prefix !=s prefix) || negb (sforall is_lower_hex prefix) then
    Fail (errors_New "backfill prefix must be exactly two lowercase hexadecimal characters")
  else
    Ok (mkStatement ("SELECT Id, Content, ChunkType, SessionId, ProjectPath, ProjectName,
  Timestamp, UserUuid, AssistantUuid, FilePath, Operation, Model, SourceFile,
  SourceLine, ParentChunkId, ChildChunkIds, MachineId
FROM ConversationChunks
WHERE Vector IS NULL AND STARTS_WITH(Id, @prefix)
LIMIT " +:+ Itoa (BackfillBatch config)) (<["prefix" := VString prefix]> ∅)).
