(* ===== verification/StorePlansSpec.v ===== *)
(** * Properties of the statement planner ([StorePlans])

    Chunk validation is characterised exactly; the upsert plan is the mutation or
    statement the batch calls for; SQL text never depends on user-supplied filter
    values, which reach Spanner only as bound parameters; approximate search is
    planned only where it is lawful; and every clause is bound. *)
From Stdlib Require Import ZArith Lia Bool SpecFloat.
From Stdlib Require Import String Ascii.
From stdpp Require Import base tactics option list gmap strings.
From S2P Require Import Prelude GoStrings StoreTypes StorePlans.
Open Scope Z_scope.

(** ** Chunks *)

Definition nonempty_upto (n : Z) (s : string) : Prop := s <> "" /\ len s <= n.

(** The chunks the store accepts. *)
Record chunk_ok (c : Chunk) : Prop := mk_chunk_ok {
  ok_id : nonempty_upto 64 (c_ID c);
  ok_content : nonempty_upto 8388608 (c_Content c);
  ok_type : nonempty_upto 32 (c_ChunkType c);
  ok_session : nonempty_upto 128 (c_SessionID c);
  ok_project_path : nonempty_upto 8192 (c_ProjectPath c);
  ok_project_name : nonempty_upto 256 (c_ProjectName c);
  ok_source_file : nonempty_upto 8192 (c_SourceFile c);
  ok_user : len (c_UserUUID c) <= 128;
  ok_assistant : len (c_AssistantUUID c) <= 128;
  ok_file : len (c_FilePath c) <= 8192;
  ok_operation : len (c_Operation c) <= 32;
  ok_model : len (c_Model c) <= 256;
  ok_parent : len (c_ParentChunkID c) <= 64;
  ok_machine : len (c_MachineID c) <= 256;
  ok_timestamp : instant (c_Timestamp c) <> 0;
  ok_line : 0 <= c_SourceLine c;
  ok_children_count : Z.of_nat (length (c_ChildChunkIDs c)) <= 10000;
  ok_children : Forall (nonempty_upto 64) (c_ChildChunkIDs c)
}.

Lemma nonempty_test n s : (s ==s "") || (n <? len s) = false <-> nonempty_upto n s.
Proof.
  unfold nonempty_upto. rewrite orb_false_iff, String.eqb_neq, Z.ltb_ge. done.
Qed.

Lemma check_required_ok fields :
  check_required fields = Ok tt <-> Forall (fun '(_, v, n) => nonempty_upto n v) fields.
Proof.
  induction fields as [|[[name v] n] fields IH]; simpl; [done|].
  rewrite if_fail_ok, nonempty_test, IH, Forall_cons. done.
Qed.

Lemma check_optional_ok fields :
  check_optional fields = Ok tt <-> Forall (fun '(_, v, n) => len v <= n) fields.
Proof.
  induction fields as [|[[name v] n] fields IH]; simpl; [done|].
  rewrite if_fail_ok, Z.ltb_ge, IH, Forall_cons. done.
Qed.

Lemma check_children_ok ids : check_children ids = Ok tt <-> Forall (nonempty_upto 64) ids.
Proof.
  induction ids as [|id ids IH]; simpl; [done|].
  rewrite if_fail_ok, nonempty_test, IH, Forall_cons. done.
Qed.

Lemma validateChunk_iff c : validateChunk c = Ok tt <-> chunk_ok c.
Proof.
  unfold validateChunk. autorewrite with go.
  rewrite check_required_ok, check_optional_ok, check_children_ok.
  rewrite !Forall_cons. unfold IsZero. rewrite Z.eqb_neq, !Z.ltb_ge.
  split; [intros H; decompose [and] H; by constructor|intros []; split_and!; try done; apply Forall_nil].
Qed.

Lemma validateChunk_cases c : validateChunk c = Ok tt \/ exists e, validateChunk c = Fail e.
Proof. destruct (validateChunk c) as [[]|e]; eauto. Qed.

(** ** Vectors *)

Definition vector_ok (v : list float) : Prop :=
  Z.of_nat (length v) = VectorDimension /\ Forall (fun f => isFinite f = true) v /\
  Exists (fun f => not_tiny f = true) v.

Lemma scan_vector_ok i nz v b :
  scan_vector i nz v = Ok b <->
  Forall (fun f => isFinite f = true) v /\ b = nz || existsb not_tiny v.
Proof.
  revert i nz. induction v as [|f v IH]; intros i nz; simpl.
  - rewrite orb_false_r. split; [intros [= ->]|intros [_ ->]]; done.
  - rewrite if_fail_ok, IH, Forall_cons, negb_false_iff.
    assert (not_tiny f || nz || existsb not_tiny v = nz || (not_tiny f || existsb not_tiny v)) as ->
      by (destruct nz, (not_tiny f); done).
    tauto.
Qed.

Lemma validateVector_iff v : validateVector v = Ok tt <-> vector_ok v.
Proof.
  unfold validateVector, vector_ok. rewrite if_fail_ok, negb_false_iff, Z.eqb_eq, bind_ok.
  setoid_rewrite scan_vector_ok. setoid_rewrite if_fail_ok.
  assert (existsb not_tiny v = true <-> Exists (fun f => not_tiny f = true) v) as <-.
  { rewrite existsb_exists, Exists_exists. setoid_rewrite list_elem_of_In. done. }
  split.
  - intros (?&b&(?&->)&?&_). to_prop.
    match goal with H : _ \/ _ |- _ => by destruct H end.
  - intros (?&?&E). split; [done|]. exists true. simpl. rewrite E. done.
Qed.

(** ** The upsert plan *)

Definition embedded_chunk (c : Chunk) : bool := match c_Vector c with [] => false | _ => true end.

(** What [check_batch] accepts, chunk by chunk. *)
Definition batch_chunk_ok (config : Config) (c : Chunk) : Prop :=
  chunk_ok c /\
  (c_Vector c = [] -> EmbeddingStrategy config = EmbeddingDeferred -> hasLowerHexShardPrefix (c_ID c) = true) /\
  (c_Vector c <> [] -> vector_ok (c_Vector c)).

Definition count_embedded (b : bool) (chunks : list Chunk) : Z :=
  Z.of_nat (length (filter (fun c => embedded_chunk c = b) chunks)).

Lemma count_embedded_cons b c chunks :
  count_embedded b (c :: chunks) =
  (if bool_decide (embedded_chunk c = b) then 1 else 0) + count_embedded b chunks.
Proof.
  unfold count_embedded. rewrite filter_cons.
  case_bool_decide; case_decide; try done; simpl length; lia.
Qed.

Lemma check_batch_ok config i e u chunks e' u' :
  check_batch config i e u chunks = Ok (e', u') <->
  Forall (batch_chunk_ok config) chunks /\
  e' = e + count_embedded true chunks /\ u' = u + count_embedded false chunks.
Proof.
  revert i e u. induction chunks as [|c chunks IH]; intros i e u.
  - simpl. unfold count_embedded. simpl. rewrite !Z.add_0_r.
    split; [intros [= -> ->]|intros (_&->&->)]; done.
  - cbn [check_batch]. rewrite Forall_cons, !count_embedded_cons. unfold batch_chunk_ok at 1, embedded_chunk.
    rewrite <- validateChunk_iff.
    destruct (validateChunk c) as [[]|err]; [|split; [done|intros (((?&_)&_)&_); done]].
    rewrite if_fail_ok. destruct (c_Vector c) as [|f v] eqn:Ev.
    + rewrite IH, (bool_decide_true ([] = [])) by done.
      rewrite andb_true_r, andb_false_iff, negb_false_iff, String.eqb_neq.
      rewrite bool_decide_false, bool_decide_true by done.
      rewrite !Z.add_assoc, Z.add_0_r.
      assert ((EmbeddingStrategy config <> EmbeddingDeferred \/ hasLowerHexShardPrefix (c_ID c) = true) <->
              (EmbeddingStrategy config = EmbeddingDeferred -> hasLowerHexShardPrefix (c_ID c) = true)) as ->.
      { destruct (decide (EmbeddingStrategy config = EmbeddingDeferred)); tauto. }
      intuition congruence.
    + rewrite (bool_decide_false (f :: v = [])), andb_false_r by done. simpl andb.
      rewrite (bool_decide_true (true = true)), (bool_decide_false (true = false)) by done.
      rewrite <- validateVector_iff. destruct (validateVector (f :: v)) as [[]|err].
      * rewrite IH, !Z.add_assoc, Z.add_0_r. intuition congruence.
      * split; [intros [_ ?]; done|intros (((?&?&Hv)&_)&_)]. by specialize (Hv ltac:(done)).
Qed.

Lemma count_embedded_zero b chunks :
  count_embedded b chunks = 0 <-> forallb (fun c => Bool.eqb (embedded_chunk c) (negb b)) chunks = true.
Proof.
  unfold count_embedded. rewrite forallb_Forall.
  induction chunks as [|c chunks IH]; [done|].
  rewrite filter_cons, Forall_cons, <- IH.
  case_decide as E; simpl length.
  - split; [lia|]. intros [Hc _]. rewrite E in Hc. by destruct b.
  - assert (Bool.eqb (embedded_chunk c) (negb b) = true); [|tauto].
    by destruct (embedded_chunk c), b.
Qed.

(** The plan a batch calls for: full rows when every chunk is embedded, rows
    without a vector when none is and embedding is deferred, and the remote-model
    statement when none is and embedding is remote. A mixed batch has none. *)
Definition expected_plan (config : Config) (chunks : list Chunk) : option UpsertPlan :=
  if forallb embedded_chunk chunks then
    Some (mkUpsertPlan None (Some (mkMutation TableName allColumns (map (fun c => chunkValues c true) chunks))))
  else if forallb (fun c => negb (embedded_chunk c)) chunks then
    if EmbeddingStrategy config ==s EmbeddingDeferred then
      Some (mkUpsertPlan None (Some (mkMutation TableName columnsWithoutVector (map (fun c => chunkValues c false) chunks))))
    else Some (mkUpsertPlan (Some (buildRemoteModelStatement config chunks)) None)
  else None.

Lemma all_embedded_iff chunks :
  forallb embedded_chunk chunks = true <-> count_embedded false chunks = 0.
Proof.
  rewrite count_embedded_zero, !forallb_Forall. apply Forall_iff.
  intros c. by destruct (embedded_chunk c).
Qed.
Lemma none_embedded_iff chunks :
  forallb (fun c => negb (embedded_chunk c)) chunks = true <-> count_embedded true chunks = 0.
Proof.
  rewrite count_embedded_zero, !forallb_Forall. apply Forall_iff.
  intros c. by destruct (embedded_chunk c).
Qed.

Lemma count_embedded_total chunks :
  count_embedded true chunks + count_embedded false chunks = Z.of_nat (length chunks).
Proof.
  induction chunks as [|c chunks IH]; [done|].
  rewrite !count_embedded_cons. simpl length.
  destruct (embedded_chunk c); repeat case_bool_decide; try done; lia.
Qed.

Lemma count_embedded_nonneg b chunks : 0 <= count_embedded b chunks.
Proof. unfold count_embedded. lia. Qed.

Lemma forallb_as_eqb (p : Chunk -> bool) chunks n :
  (forallb p chunks = true <-> n = 0) -> forallb p chunks = (n =? 0).
Proof.
  intros H. apply eq_true_iff_eq. by rewrite H, Z.eqb_eq.
Qed.

(** The branch [BuildUpsertPlan] takes on its counters, as [expected_plan]. *)
Lemma plan_branch config chunks plan :
  1 <= Z.of_nat (length chunks) ->
  (if negb (count_embedded true chunks =? 0) && negb (count_embedded false chunks =? 0) then
     Fail (errors_New "cannot mix embedded and unembedded chunks in one batch")
   else if negb (count_embedded true chunks =? 0) then
     Ok (mkUpsertPlan None (Some (mkMutation TableName allColumns (map (fun c => chunkValues c true) chunks))))
   else if EmbeddingStrategy config ==s EmbeddingDeferred then
     Ok (mkUpsertPlan None (Some (mkMutation TableName columnsWithoutVector (map (fun c => chunkValues c false) chunks))))
   else Ok (mkUpsertPlan (Some (buildRemoteModelStatement config chunks)) None)) = Ok plan <->
  expected_plan config chunks = Some plan.
Proof.
  intros Hl. unfold expected_plan. pose proof (count_embedded_total chunks).
  rewrite (forallb_as_eqb _ _ _ (all_embedded_iff chunks)), (forallb_as_eqb _ _ _ (none_embedded_iff chunks)).
  destruct (count_embedded true chunks =? 0) eqn:E1, (count_embedded false chunks =? 0) eqn:E2;
    simpl; to_prop; try lia; try done; try case_match; split; congruence.
Qed.

Lemma BuildUpsertPlan_iff config chunks plan :
  BuildUpsertPlan config chunks = Ok plan <->
  Validate config = Ok tt /\ 1 <= Z.of_nat (length chunks) <= 500 /\
  Forall (batch_chunk_ok config) chunks /\ expected_plan config chunks = Some plan.
Proof.
  unfold BuildUpsertPlan.
  rewrite bind_ok_unit, !if_fail_ok, bool_decide_eq_false, Z.ltb_ge, bind_ok.
  assert (chunks <> [] <-> 1 <= Z.of_nat (length chunks)) as ->
    by (destruct chunks; simpl; split; try done; lia).
  split.
  - intros (?&?&?&[e u]&(?&->&->)%check_batch_ok&Hplan). rewrite !Z.add_0_l in Hplan.
    split_and!; try done. by apply plan_branch.
  - intros (?&[]&?&Hplan). split_and!; try done.
    exists (0 + count_embedded true chunks, 0 + count_embedded false chunks).
    rewrite check_batch_ok, !Z.add_0_l. split; [done|]. by apply plan_branch.
Qed.

(** C27: [BuildUpsertPlan] succeeds exactly on the batches of 1 to 500 chunks
    that are valid under a valid configuration and are not mixed, and then
    returns the plan the batch calls for; every other batch is refused. *)
Theorem upsert_plan_exact (config : Config) (chunks : list Chunk) (plan : UpsertPlan) :
  BuildUpsertPlan config chunks = Ok plan <->
  Validate config = Ok tt /\ 1 <= Z.of_nat (length chunks) <= 500 /\
  Forall (batch_chunk_ok config) chunks /\ expected_plan config chunks = Some plan.
Proof. apply BuildUpsertPlan_iff. Qed.

(** ** Filters *)

(** Two filters constrain the same columns. *)
Definition same_shape (f g : Filter) : Prop :=
  (f_ProjectPath f ==s "") = (f_ProjectPath g ==s "") /\
  (f_ChunkType f ==s "") = (f_ChunkType g ==s "") /\
  (f_SessionID f ==s "") = (f_SessionID g ==s "") /\
  (f_ProjectName f ==s "") = (f_ProjectName g ==s "") /\
  (f_MachineID f ==s "") = (f_MachineID g ==s "") /\
  (f_FilePath f ==s "") = (f_FilePath g ==s "") /\
  (f_Operation f ==s "") = (f_Operation g ==s "") /\
  IsZero (f_DateFrom f) = IsZero (f_DateFrom g) /\
  IsZero (f_DateTo f) = IsZero (f_DateTo g).

Definition same_item (i j : string * string * string * Z) : Prop :=
  let '(c1, p1, v1, _) := i in let '(c2, p2, v2, _) := j in
  c1 = c2 /\ p1 = p2 /\ (v1 ==s "") = (v2 ==s "").

Lemma add_filters_shape items1 items2 fs ps1 ps2 r1 r2 :
  Forall2 same_item items1 items2 ->
  add_filters items1 fs ps1 = Ok r1 -> add_filters items2 fs ps2 = Ok r2 -> fst r1 = fst r2.
Proof.
  intros H. revert fs ps1 ps2.
  induction H as [|[[[c1 p1] v1] l1] [[[c2 p2] v2] l2] its1 its2 (->&->&Hv) _ IH]; simpl; intros fs ps1 ps2.
  - intros [= <-] [= <-]. done.
  - rewrite Hv. destruct (v2 ==s ""); [apply IH|].
    rewrite !if_fail_ok. intros [_ H1] [_ H2]. eauto.
Qed.

Lemma buildFilters_shape f g v r1 r2 :
  same_shape f g -> buildFilters f v = Ok r1 -> buildFilters g v = Ok r2 -> fst r1 = fst r2.
Proof.
  intros (H1&H2&H3&H4&H5&H6&H7&H8&H9). unfold buildFilters.
  rewrite !if_fail_ok, !bind_ok. intros (_&[fs1 ps1]&Ha&Hb) (_&[fs2 ps2]&Hc&Hd).
  assert (fs1 = fs2) as ->.
  { eapply (add_filters_shape (filter_items f) (filter_items g)) with (r1 := (fs1, ps1)) (r2 := (fs2, ps2)); eauto.
    repeat constructor; simpl; eauto. }
  rewrite bind_ok in Hb, Hd. destruct Hb as ([fs3 ps3]&He&Hb), Hd as ([fs4 ps4]&Hf&Hd).
  assert (fs3 = fs4) as ->.
  { rewrite H6 in He. destruct (f_FilePath g ==s ""); [congruence|].
    rewrite if_fail_ok in He, Hf. destruct He as [_ ?], Hf as [_ ?]. congruence. }
  rewrite H8, H9 in Hb. destruct (IsZero (f_DateFrom g)), (IsZero (f_DateTo g));
    injection Hb as <-; injection Hd as <-; done.
Qed.

Lemma hasUnstoredFilters_shape f g : same_shape f g -> hasUnstoredFilters f = hasUnstoredFilters g.
Proof.
  intros (H1&H2&H3&H4&H5&H6&H7&H8&H9). unfold hasUnstoredFilters. by rewrite H1, H6, H7, H8, H9.
Qed.

Lemma chooseVectorMode_shape config q1 q2 ready :
  same_shape (q_Filter q1) (q_Filter q2) -> q_Mode q1 = q_Mode q2 ->
  chooseVectorMode config q1 ready = chooseVectorMode config q2 ready.
Proof.
  intros Hs Hm. unfold chooseVectorMode. by rewrite (hasUnstoredFilters_shape _ _ Hs), Hm.
Qed.

(** C8: the SQL text of vector and of hybrid searches depends on the query only
    through its limit, its mode and which filters are set: two queries that
    agree on these give the same SQL and differ at most in bound parameters, so
    no text, vector or filter value of a caller is ever part of a statement. *)
Theorem search_sql_is_value_free (config : Config) (ready : bool) (q1 q2 : Query)
    (Hshape : same_shape (q_Filter q1) (q_Filter q2))
    (Hmode : q_Mode q1 = q_Mode q2) (Hlimit : q_Limit q1 = q_Limit q2) :
  (forall p1 p2, BuildSearchPlan config q1 ready = Ok p1 -> BuildSearchPlan config q2 ready = Ok p2 ->
     SQL (sp_Statement p1) = SQL (sp_Statement p2) /\ sp_Mode p1 = sp_Mode p2 /\ sp_Type p1 = sp_Type p2) /\
  (forall p1 p2, BuildHybridPlan config q1 ready = Ok p1 -> BuildHybridPlan config q2 ready = Ok p2 ->
     SQL (sp_Statement p1) = SQL (sp_Statement p2) /\ sp_Mode p1 = sp_Mode p2 /\ sp_Type p1 = sp_Type p2).
Proof.
  split; intros p1 p2; unfold BuildSearchPlan, BuildHybridPlan;
    rewrite <- (chooseVectorMode_shape config q1 q2 ready Hshape Hmode), <- Hlimit;
    rewrite !bind_ok_unit, ?if_fail_ok, ?bind_ok_unit, !bind_ok.
  - intros (_&_&_&mode&Hm&H1) (_&_&_&mode'&Hm'&H2). rewrite Hm in Hm'. injection Hm' as <-.
    rewrite !bind_ok in H1, H2. destruct H1 as ([fs1 ps1]&Hf1&H1), H2 as ([fs2 ps2]&Hf2&H2).
    pose proof (buildFilters_shape _ _ _ _ _ Hshape Hf1 Hf2) as E. simpl in E. subst fs2.
    injection H1 as <-. injection H2 as <-. done.
  - intros (_&_&_&_&_&mode&Hm&H1) (_&_&_&_&_&mode'&Hm'&H2). rewrite Hm in Hm'. injection Hm' as <-.
    rewrite !bind_ok in H1, H2. destruct H1 as ([fs1 ps1]&Hf1&H1), H2 as ([fs2 ps2]&Hf2&H2).
    rewrite !bind_ok in H1, H2. destruct H1 as ([ts1 tp1]&Ht1&H1), H2 as ([ts2 tp2]&Ht2&H2).
    pose proof (buildFilters_shape _ _ _ _ _ Hshape Hf1 Hf2) as E.
    pose proof (buildFilters_shape _ _ _ _ _ Hshape Ht1 Ht2) as E'. simpl in E, E'. subst fs2 ts2.
    injection H1 as <-. injection H2 as <-. done.
Qed.

(** A search plan uses the approximate index only when the configuration
    enables and selects it, the index is available, and every filter is on a
    column stored in the index; then the plan's type, mode and forced index agree. *)
Theorem ann_plan_is_lawful (config : Config) (q : Query) (ready : bool) (plan : SearchPlan)
    (Hplan : BuildSearchPlan config q ready = Ok plan) (Hann : sp_Mode plan = SearchANN) :
  EnableANN config = true /\ UseANN config = true /\ ready = true /\
  hasUnstoredFilters (q_Filter q) = false /\
  (q_Mode q = SearchANN \/ q_Mode q = SearchAuto) /\ sp_Type plan = SearchTypeANN.
Proof.
  unfold BuildSearchPlan in Hplan. rewrite !bind_ok_unit, bind_ok in Hplan.
  destruct Hplan as (_&_&_&mode&Hm&Hrest). rewrite bind_ok in Hrest.
  destruct Hrest as ([fs ps]&_&Hrest). injection Hrest as <-. simpl in Hann. subst mode.
  unfold chooseVectorMode in Hm. break_all Hm; to_prop; split_and!; auto.
Qed.

(** *** Every parameter is bound by a clause and every clause is bound *)

(** A clause refers to the parameter [p]. *)
Definition mentions (clause p : string) : Prop := HasSuffix clause ("@" +:+ p) = true.

(** The clauses that need no parameter. *)
Definition closed_clause (clause : string) : Prop := clause = "Vector IS NOT NULL" \/ clause = "TRUE".

Definition bound_filters (filters : list string) (params : gmap string value) : Prop :=
  (forall p, is_Some (params !! p) -> exists clause, clause ∈ filters /\ mentions clause p) /\
  (forall clause, clause ∈ filters ->
     closed_clause clause \/ exists p, mentions clause p /\ is_Some (params !! p)).

Lemma bound_filters_add filters params clause p v :
  mentions clause p -> bound_filters filters params ->
  bound_filters (filters ++ [clause]) (<[p := v]> params).
Proof.
  intros Hm [H1 H2]. split.
  - intros p' Hp. destruct (decide (p = p')) as [<-|Hne].
    + exists clause. split; [|done]. apply elem_of_app. right. by apply list_elem_of_singleton.
    + rewrite lookup_insert_ne in Hp by done. destruct (H1 _ Hp) as (cl&?&?).
      exists cl. rewrite elem_of_app. auto.
  - intros cl [Hc|Hc%list_elem_of_singleton]%elem_of_app.
    + destruct (H2 _ Hc) as [|(p'&?&?)]; [by left|right; exists p'; split; [done|]].
      destruct (decide (p = p')) as [<-|]; [rewrite lookup_insert_eq; eauto|by rewrite lookup_insert_ne].
    + subst cl. right. exists p. rewrite lookup_insert_eq. eauto.
Qed.

(** [bound_filters], with the initial clauses kept. *)
Definition filters_inv (base filters : list string) (params : gmap string value) : Prop :=
  bound_filters filters params /\ base ⊆ filters.

Lemma filters_inv_add base filters params clause p v :
  mentions clause p -> filters_inv base filters params ->
  filters_inv base (filters ++ [clause]) (<[p := v]> params).
Proof.
  intros Hm [Hb Hs]. split; [by apply bound_filters_add|].
  intros x Hx. apply elem_of_app. auto.
Qed.

Lemma add_filters_inv base items filters params filters' params' :
  filters_inv base filters params -> add_filters items filters params = Ok (filters', params') ->
  filters_inv base filters' params'.
Proof.
  revert filters params.
  induction items as [|[[[c p] v] l] items IH]; cbn [add_filters]; intros filters params Hb H; [by simplify_eq|].
  destruct (v ==s ""); [eauto|]. rewrite if_fail_ok in H. destruct H as [_ H].
  eapply IH; [|done]. apply filters_inv_add; [|done].
  pose proof (HasSuffix_append (c +:+ " = ") ("@" +:+ p)) as Hs.
  by rewrite str_app_assoc in Hs.
Qed.

Lemma filters_inv_final base filters params :
  filters_inv base filters params ->
  let filters' := match filters with [] => ["TRUE"] | _ => filters end in
  bound_filters filters' params /\ filters' <> [] /\ base ⊆ filters'.
Proof.
  intros [[Hb1 Hb2] Hs] filters'. subst filters'. destruct filters as [|x l]; [|done || (split; [by split|by split])].
  split; [split|split; [done|]].
  - intros p Hp. destruct (Hb1 _ Hp) as (?&?%elem_of_nil&_). done.
  - intros cl ->%list_elem_of_singleton. left. by right.
  - intros x Hx. by apply Hs in Hx as ?%elem_of_nil.
Qed.

(** The clauses and the parameters that [buildFilters] returns match:
    every parameter it binds is referred to by a clause, and every clause other
    than the two closed ones refers to a parameter that is bound. The vector
    clause is present exactly when asked for, and the clause list is never empty. *)
Theorem filters_are_bound (f : Filter) (vector : bool) (filters : list string) (params : gmap string value)
    (Hb : buildFilters f vector = Ok (filters, params)) :
  bound_filters filters params /\ filters <> [] /\
  (vector = true -> "Vector IS NOT NULL" ∈ filters).
Proof.
  unfold buildFilters in Hb. rewrite if_fail_ok, bind_ok in Hb. destruct Hb as (_&[fs1 ps1]&H1&Hb).
  rewrite bind_ok in Hb. destruct Hb as ([fs2 ps2]&H2&Hb).
  set (base := if vector then ["Vector IS NOT NULL"] else []) in *.
  assert (filters_inv base fs1 ps1) as I1.
  { eapply add_filters_inv; [|done]. split; [split|done].
    - intros p [? Hp]. by rewrite lookup_empty in Hp.
    - intros cl Hcl. left. left. unfold base in Hcl.
      destruct vector; [by apply list_elem_of_singleton in Hcl|by apply elem_of_nil in Hcl]. }
  assert (filters_inv base fs2 ps2) as I2.
  { destruct (f_FilePath f ==s ""); [by injection H2 as <- <-|].
    rewrite if_fail_ok in H2. destruct H2 as [_ [= <- <-]]. by apply filters_inv_add. }
  assert (exists fs3 ps3, filters_inv base fs3 ps3 /\
            Ok (match fs3 with [] => ["TRUE"] | _ => fs3 end, ps3) = Ok (filters, params)) as (fs3&ps3&I3&He).
  { destruct (IsZero (f_DateFrom f)), (IsZero (f_DateTo f)); eexists _, _; (split; [|exact Hb]);
      repeat apply filters_inv_add; done. }
  injection He as <- <-. destruct (filters_inv_final _ _ _ I3) as (?&?&Hs).
  split_and!; try done. intros ->. apply Hs. by apply list_elem_of_singleton.
Qed.

(** ** Concrete inputs *)

Definition sample_config : Config := productionStoreConfig "history-prod" "rag" "conversations".
Definition sample_vector : list float := replicate 3072 (S754_finite false 1 (-1)).
Definition sample_filter (project machine : string) : Filter :=
  mkFilter "" "" "" project machine "" "" zero_time zero_time.
Definition sample_query (text mode project machine : string) : Query :=
  mkQuery text sample_vector 10 mode (sample_filter project machine).

Lemma search_sql_is_value_free_witness :
  exists p1 p2,
    BuildSearchPlan sample_config (sample_query "a" SearchAuto "x' OR TRUE --" "m") true = Ok p1 /\
    BuildSearchPlan sample_config (sample_query "b" SearchAuto "y" "n") true = Ok p2 /\
    SQL (sp_Statement p1) = SQL (sp_Statement p2).
Proof.
  destruct (is_ok_elim (BuildSearchPlan sample_config (sample_query "a" SearchAuto "x' OR TRUE --" "m") true))
    as [p1 H1]; [vm_compute; reflexivity|].
  destruct (is_ok_elim (BuildSearchPlan sample_config (sample_query "b" SearchAuto "y" "n") true))
    as [p2 H2]; [vm_compute; reflexivity|].
  exists p1, p2. split; [exact H1|]. split; [exact H2|].
  refine (proj1 (proj1 (search_sql_is_value_free _ _ _ _ _ _ _) p1 p2 H1 H2)); vm_compute; auto 20.
Defined.

Lemma ann_plan_is_lawful_witness :
  exists plan,
    BuildSearchPlan sample_config (sample_query "a" SearchANN "x" "m") true = Ok plan /\
    sp_Type plan = SearchTypeANN.
Proof.
  destruct (is_ok_elim (BuildSearchPlan sample_config (sample_query "a" SearchANN "x" "m") true))
    as [plan H]; [vm_compute; reflexivity|].
  exists plan. split; [exact H|].
  apply (ann_plan_is_lawful _ _ _ _ H).
  revert H. unfold BuildSearchPlan. rewrite !bind_ok_unit, bind_ok.
  intros (_&_&_&mode&Hm&H). vm_compute in Hm. injection Hm as <-.
  rewrite bind_ok in H. destruct H as ([fs ps]&_&H). injection H as <-. reflexivity.
Defined.

Lemma filters_are_bound_witness :
  exists filters params,
    buildFilters (sample_filter "x" "m") true = Ok (filters, params) /\ bound_filters filters params.
Proof.
  destruct (is_ok_elim (buildFilters (sample_filter "x" "m") true)) as [[fs ps] H]; [vm_compute; reflexivity|].
  exists fs, ps. split; [exact H|]. apply (filters_are_bound _ _ _ _ H).
Defined.
