(* ===== verification/StoreOps.v ===== *)
(** * The Spanner store

    [internal/history/store/store.go], [retrieval.go] and [backfill.go]: the
    operations of [SpannerStore] over its executor. The executor, the caller's
    context and the clock are an environment: every answer they give may depend
    on everything that happened before, so it is a function of the log of calls.
    Each operation runs under the store's mutexes and is modelled as one
    sequential computation on the store and the log. *)
From Stdlib Require Import ZArith Lia Bool SpecFloat.
From Stdlib Require Import String Ascii.
From stdpp Require Import base tactics option list gmap strings.
From S2P Require Import Prelude GoStrings StoreTypes StorePlans.
Open Scope Z_scope.

(** ** State, events and environment *)

Record cachedStats : Type := mkCached { cs_at : Time; cs_value : Stats }.
Record embeddingStatsSample : Type := mkSample { es_at : Time; es_embedded : Z }.

(** [SpannerStore]; [closeDone] is the state of [closeOnce]. *)
Record SpannerStore : Type := mkStore {
  config : Config;
  initialized : bool;
  closeDone : bool;
  closeErr : option error;
  vectorIndexAvailable : bool;
  statsCache : option cachedStats;
  statsSample : option embeddingStatsSample
}.

(** Calls that leave the package, with their outcomes. *)
Inductive event : Type :=
| EvCtx (err : option error)
| EvNow (t : Time)
| EvQuery (s : Statement) (r : result (list Row))
| EvExecute (s : Statement) (r : result Z)
| EvApply (m : Mutation) (err : option error)
| EvBegin (err : option error)
| EvTxExecute (s : Statement) (r : result Z)
| EvAborted
| EvRollback
| EvCommit (err : option error)
| EvDDL (l : list DDLStatement) (err : option error)
| EvClose (err : option error).

(** The store and the log, newest call first. *)
Record W : Type := mkW { ws : SpannerStore; log : list event }.

(** The environment. [Executor.ReadWrite] may fail to begin, runs its callback
    once for each aborted attempt and once more, and reports the callback's error
    (in the form [rw_Rollback] gives it) or the outcome of the commit. *)
Record Env : Type := mkEnv {
  ctx_nil : bool;
  ctx_Err : list event -> option error;
  time_Now : list event -> Time;
  exec_Query : list event -> Statement -> result (list Row);
  exec_Execute : list event -> Statement -> result Z;
  exec_Apply : list event -> Mutation -> option error;
  rw_Begin : list event -> option error;
  rw_Aborts : list event -> nat;
  tx_Execute : list event -> Statement -> result Z;
  rw_Rollback : list event -> error -> error;
  rw_Commit : list event -> option error;
  exec_UpdateDDL : list event -> list DDLStatement -> option error;
  exec_Close : list event -> option error
}.

Definition M (A : Type) : Type := st W (result A).

Definition record (e : event) (w : W) : W := mkW (ws w) (e :: log w).

(** [fmt.Errorf(format, ..., err)] around a failing call. *)
Definition wrapping {A} (format : string) (args : list fmtarg) (m : M A) : M A := fun w =>
  match m w with
  | (Ok a, w') => (Ok a, w')
  | (Fail e, w') => (Fail (Wrapf format args e), w')
  end.

Definition ret {A} (a : A) : M A := fun w => (Ok a, w).
Definition fail {A} (e : error) : M A := fun w => (Fail e, w).
Definition lift {A} (r : result A) : M A := fun w => (r, w).
Definition get_store : st W SpannerStore := fun w => (ws w, w).
Definition put_store (s : SpannerStore) : st W unit := fun w => (tt, mkW s (log w)).

Definition set_cache (c : option cachedStats) (s : SpannerStore) : SpannerStore :=
  mkStore (config s) (initialized s) (closeDone s) (closeErr s) (vectorIndexAvailable s) c (statsSample s).
Definition set_sample (c : option embeddingStatsSample) (s : SpannerStore) : SpannerStore :=
  mkStore (config s) (initialized s) (closeDone s) (closeErr s) (vectorIndexAvailable s) (statsCache s) c.
Definition set_index (b : bool) (s : SpannerStore) : SpannerStore :=
  mkStore (config s) (initialized s) (closeDone s) (closeErr s) b (statsCache s) (statsSample s).
Definition set_initialized (s : SpannerStore) : SpannerStore :=
  mkStore (config s) true (closeDone s) (closeErr s) (vectorIndexAvailable s) (statsCache s) (statsSample s).
Definition set_closed (e : option error) (s : SpannerStore) : SpannerStore :=
  mkStore (config s) (initialized s) true e (vectorIndexAvailable s) (statsCache s) (statsSample s).

(** [New], with [false] for a nil executor. *)
Definition New (c : Config) (executor : bool) : result SpannerStore :=
  _ ← Validate c;
  if negb executor then Fail (errors_New "executor is required")
  else Ok (mkStore c false false None false None None).

Definition toInt64 (v : value) : option Z :=
  match v with
  | VInt z | VInt64 z | VInt32 z => Some z
  | _ => None
  end.

(** [d.Minutes()]. *)
Definition Minutes (d : Z) : float :=
  SFadd 53 1024 (float_of_int (Z.quot d minute))
    (SFdiv 53 1024 (float_of_int (Z.rem d minute)) (float_of_int minute)).

Definition stats_statement : Statement :=
  mkStatement "SELECT COUNT(*), COUNTIF(Vector IS NOT NULL) FROM ConversationChunks" ∅.
Definition clear_statement : Statement := mkStatement "DELETE FROM ConversationChunks WHERE TRUE" ∅.
Definition delete_machine_statement (machineID : string) : Statement :=
  mkStatement "DELETE FROM ConversationChunks WHERE MachineId = @machine_id"
    (<["machine_id" := VString machineID]> ∅).
Definition count_statement : Statement := mkStatement "SELECT COUNT(*) FROM ConversationChunks" ∅.
Definition exists_statement (id : string) : Statement :=
  mkStatement "SELECT EXISTS(SELECT 1 FROM ConversationChunks WHERE Id = @id)" (<["id" := VString id]> ∅).
Definition discover_statement : Statement :=
  mkStatement "SELECT EXISTS(SELECT 1 FROM INFORMATION_SCHEMA.INDEXES WHERE TABLE_NAME = @table AND INDEX_NAME = @index AND INDEX_STATE = 'READ_WRITE')"
    (<["table" := VString TableName]> (<["index" := VString VectorIndexName]> ∅)).

(** The rate and the ETA that [Stats] derives from the previous sample. *)
Definition backfill_rate (sample : option embeddingStatsSample) (now : Time) (embedded awaiting : Z)
  : float * option float :=
  match sample with
  | Some p =>
      if After now (es_at p) && (es_embedded p <=? embedded) then
        let elapsedMinutes := Minutes (time_Sub now (es_at p)) in
        if SFltb (S754_zero false) elapsedMinutes then
          let ratePerMinute := SFdiv 53 1024 (float_of_int (embedded - es_embedded p)) elapsedMinutes in
          (ratePerMinute,
           if SFltb (S754_zero false) ratePerMinute && (0 <? awaiting)
           then Some (SFdiv 53 1024 (float_of_int awaiting) (SFdiv 53 1024 ratePerMinute (float_of_int 60)))
           else None)
        else (S754_zero false, None)
      else (S754_zero false, None)
  | None => (S754_zero false, None)
  end.

(** The [Stats] value for the counts read from Spanner. *)
Definition make_stats (c : Config) (ready : bool) (total embedded : Z) (rate : float * option float) : Stats :=
  {| s_TotalChunks := total; s_EmbeddedChunks := embedded; s_AwaitingEmbedding := total - embedded;
     s_BackfillRatePerMinute := fst rate; s_BackfillETASeconds := snd rate;
     s_Backend := "spanner"; s_Project := Project c; s_Instance := Instance_ c;
     s_Database := Database c; s_Dimension := VectorDimension;
     s_FullTextEnabled := EnableFullText c; s_VectorIndexEnabled := ready;
     s_VectorSearchMode := if UseANN c && ready then SearchANN else SearchExact;
     s_EmbeddingStrategy := EmbeddingStrategy c; s_EmbeddingModel := EmbeddingModelName |}.

Section Operations.
Context (E : Env).

(** ** Calls of the environment *)

Definition contextError : M unit := fun w =>
  if ctx_nil E then (Fail (errors_New "context is required"), w)
  else let e := ctx_Err E (log w) in (err_result e, record (EvCtx e) w).
Definition now : st W Time := fun w => let t := time_Now E (log w) in (t, record (EvNow t) w).
Definition Query_ (s : Statement) : M (list Row) := fun w =>
  let r := exec_Query E (log w) s in (r, record (EvQuery s r) w).
Definition Execute (s : Statement) : M Z := fun w =>
  let r := exec_Execute E (log w) s in (r, record (EvExecute s r) w).
Definition Apply (m : Mutation) : M unit := fun w =>
  let e := exec_Apply E (log w) m in (err_result e, record (EvApply m e) w).
Definition TxExecute (s : Statement) : M Z := fun w =>
  let r := tx_Execute E (log w) s in (r, record (EvTxExecute s r) w).
Definition UpdateDDL (l : list DDLStatement) : M unit := fun w =>
  let e := exec_UpdateDDL E (log w) l in (err_result e, record (EvDDL l e) w).

Fixpoint rw_loop {A} (aborts : nat) (body : M A) : M A := fun w =>
  match aborts with
  | O => body w
  | S n => let '(_, w') := body w in rw_loop n body (record EvAborted w')
  end.
Definition ReadWrite {A} (body : M A) : M A := fun w =>
  match rw_Begin E (log w) with
  | Some e => (Fail e, record (EvBegin (Some e)) w)
  | None =>
      let w := record (EvBegin None) w in
      match rw_loop (rw_Aborts E (log w)) body w with
      | (Fail e, w') => (Fail (rw_Rollback E (log w') e), record EvRollback w')
      | (Ok a, w') =>
          let c := rw_Commit E (log w') in
          (match c with None => Ok a | Some e => Fail e end, record (EvCommit c) w')
      end
  end.

(** ** store.go *)

Definition vectorIndexReady : st W bool := fun w => (vectorIndexAvailable (ws w), w).

Definition invalidateStats : st W unit := fun w => (tt, mkW (set_cache None (ws w)) (log w)).

Definition Initialize : M unit :=
  let? _ := contextError in
  let* s := get_store in
  if initialized s then ret tt
  else
    let? statements := lift (BuildInitializationDDL (config s)) in
    let? _ := contextError in
    let? _ := wrapping "initialize Spanner schema: %w" [] (UpdateDDL statements) in
    let* s := get_store in
    let* _ := put_store (set_initialized s) in
    ret tt.

Definition Upsert (chunks : list Chunk) : M unit :=
  let? _ := contextError in
  let* s := get_store in
  let? plan := lift (BuildUpsertPlan (config s) chunks) in
  let? _ := contextError in
  match p_Mutation plan with
  | Some m =>
      let? _ := wrapping "apply chunk mutation: %w" [] (Apply m) in
      let* _ := invalidateStats in
      ret tt
  | None =>
      match p_Statement plan with
      | None => fail (errors_New "upsert plan has no operation")
      | Some statement =>
          let? _ := wrapping "execute remote-model upsert: %w" []
            (ReadWrite (
              let? _ := contextError in
              let? affected := TxExecute statement in
              if negb (affected =? Z.of_nat (length chunks))
              then fail (Errorf "remote-model affected count %d does not match batch %d"
                           [FInt affected; FInt (Z.of_nat (length chunks))])
              else ret tt)) in
          let* _ := invalidateStats in
          ret tt
      end
  end.

Definition runSearch (plan : SearchPlan) : M (list Result) :=
  let? _ := contextError in
  let? rows := wrapping "execute %s search: %w" [FStr (sp_Type plan)] (Query_ (sp_Statement plan)) in
  lift (parseResultRows rows (sp_Type plan)).

Definition with_vector (q : Query) (v : list float) : Query :=
  mkQuery (q_Text q) v (q_Limit q) (q_Mode q) (q_Filter q).

Definition ensureQueryVector (q : Query) : M Query :=
  match q_Vector q with
  | _ :: _ => ret q
  | [] =>
      let* s := get_store in
      let? statement := lift (BuildQueryEmbeddingPlan (config s) (q_Text q)) in
      let? rows := wrapping "execute query-task embedding: %w" [] (Query_ statement) in
      let? vector := lift (parseEmbeddingRows rows) in
      ret (with_vector q vector)
  end.

Definition runVectorFallback (q : Query) : M (list Result) :=
  let* s := get_store in
  let* ready := vectorIndexReady in
  let? plan := lift (BuildSearchPlan (config s) q ready) in
  runSearch plan.

Definition Search (q : Query) : M (list Result) :=
  let? _ := contextError in
  let? q := ensureQueryVector q in
  let* s := get_store in
  let* ready := vectorIndexReady in
  let? plan := lift (BuildSearchPlan (config s) q ready) in
  runSearch plan.

Definition HybridSearch (q : Query) : M (list Result) :=
  let? _ := contextError in
  let? q := ensureQueryVector q in
  let* s := get_store in
  if (TrimSpace (q_Text q) ==s "") || negb (EnableFullText (config s)) then runVectorFallback q
  else
    let* ready := vectorIndexReady in
    let? plan := lift (BuildHybridPlan (config s) q ready) in
    let* r := Query_ (sp_Statement plan) in
    match r with
    | Fail err =>
        if errors_Is err context_Canceled || errors_Is err context_DeadlineExceeded then fail err
        else
          let? _ := contextError in
          runVectorFallback q
    | Ok rows => lift (parseResultRows rows (sp_Type plan))
    end.

(** The counts of the row that the stats query returns. *)
Definition stats_counts (rows : list Row) : result (Z * Z) :=
  match rows with
  | [[c0; c1]] =>
      match toInt64 c0 with
      | None => Fail (errors_New "stats total is not a nonnegative integer")
      | Some total =>
          if total <? 0 then Fail (errors_New "stats total is not a nonnegative integer")
          else
            match toInt64 c1 with
            | None => Fail (errors_New "stats embedded count is invalid")
            | Some embedded =>
                if (embedded <? 0) || (total <? embedded)
                then Fail (errors_New "stats embedded count is invalid")
                else Ok (total, embedded)
            end
      end
  | _ => Fail (errors_New "stats query returned an invalid row shape")
  end.

(** The cached value, if [now] is after it was taken and within the TTL. *)
Definition cached_at (s : SpannerStore) (now : Time) : option Stats :=
  match statsCache s with
  | Some c =>
      if After now (cs_at c) && (time_Sub now (cs_at c) <? StatsCacheTTL (config s))
      then Some (cs_value c) else None
  | None => None
  end.

Definition Stats_ : M Stats :=
  let? _ := contextError in
  let* now := now in
  let* s := get_store in
  match cached_at s now with
  | Some v => ret v
  | None =>
      let? _ := contextError in
      let? rows := wrapping "query store stats: %w" [] (Query_ stats_statement) in
      let? counts := lift (stats_counts rows) in
      let '(total, embedded) := counts in
      let* ready := vectorIndexReady in
      let rate := backfill_rate (statsSample s) now embedded (total - embedded) in
      let stats := make_stats (config s) ready total embedded rate in
      let* s := get_store in
      let* _ := put_store (set_cache (Some (mkCached now stats))
                             (set_sample (Some (mkSample now embedded)) s)) in
      ret stats
  end.

Definition ChunkExists (id : string) : M bool :=
  let? _ := contextError in
  if (id ==s "") || (TrimSpace id !=s id) || (64 <? len id)
  then fail (errors_New "chunk id must be nonempty and at most 64 bytes")
  else
    let? rows := wrapping "query chunk existence: %w" [] (Query_ (exists_statement id)) in
    match rows with
    | [[VBool b]] => ret b
    | [[_]] => fail (errors_New "chunk existence query returned a non-boolean value")
    | _ => fail (errors_New "chunk existence query returned an invalid row shape")
    end.

Definition DeleteMachine (machineID : string) : M Z :=
  let? _ := contextError in
  let machineID := TrimSpace machineID in
  if (machineID ==s "") || (256 <? len machineID)
  then fail (errors_New "machine id must be nonempty and at most 256 bytes")
  else
    let? _ := contextError in
    let? count := wrapping "delete machine chunks: %w" [] (Execute (delete_machine_statement machineID)) in
    if count <? 0 then fail (errors_New "delete machine returned negative affected count")
    else let* _ := invalidateStats in ret count.

Definition Clear : M Z :=
  let? _ := contextError in
  let? count := wrapping "clear chunks: %w" [] (Execute clear_statement) in
  if count <? 0 then fail (errors_New "clear returned negative affected count")
  else let* _ := invalidateStats in ret count.

Definition Optimize : M unit :=
  let? _ := contextError in
  let* s := get_store in
  let* ready := vectorIndexReady in
  if negb (EnableANN (config s)) || ready then ret tt
  else
    let? rows := wrapping "count chunks before vector-index optimization: %w" [] (Query_ count_statement) in
    match rows with
    | [[cell]] =>
        match toInt64 cell with
        | None => fail (errors_New "optimization count is invalid")
        | Some count =>
            if count <? 0 then fail (errors_New "optimization count is invalid")
            else if count <? VectorIndexThreshold then ret tt
            else
              let? ddl := lift (BuildVectorIndexDDL (config s)) in
              let? _ := contextError in
              let? _ := wrapping "create vector index: %w" [] (UpdateDDL [ddl]) in
              let* s := get_store in
              let* _ := put_store (set_index true s) in
              ret tt
        end
    | _ => fail (errors_New "optimization count returned an invalid row shape")
    end.

Definition Close : st W (option error) := fun w =>
  if closeDone (ws w) then (closeErr (ws w), w)
  else let e := exec_Close E (log w) in
       (e, record (EvClose e) (mkW (set_closed e (ws w)) (log w))).

(** ** retrieval.go *)

Definition Ready : M unit :=
  let? _ := contextError in
  let? _ := Query_ (mkStatement "SELECT Id FROM ConversationChunks LIMIT 1" ∅) in
  ret tt.

Definition DiscoverIndexes : M unit :=
  let? _ := contextError in
  let? rows := Query_ discover_statement in
  match rows with
  | [[VBool ready]] =>
      let* s := get_store in
      let* _ := put_store (set_index ready s) in
      ret tt
  | [[_]] => fail (errors_New "invalid index discovery type")
  | _ => fail (errors_New "invalid index discovery response")
  end.

Definition with_chunk_type (f : Filter) (t : string) : Filter :=
  mkFilter (f_ProjectPath f) t (f_SessionID f) (f_ProjectName f) (f_MachineID f) (f_FilePath f)
    (f_Operation f) (f_DateFrom f) (f_DateTo f).

Definition Summaries (filter : Filter) (limit : Z) : M (list Result) :=
  let? _ := contextError in
  let? _ := lift (validateLimit limit 20) in
  let? fp := lift (buildFilters (with_chunk_type filter "summary") false) in
  let '(clauses, params) := fp in
  let statement := mkStatement ("WITH Latest AS (
 SELECT ARRAY_AGG(STRUCT(Id, Timestamp)
 ORDER BY Timestamp DESC, Id LIMIT 1)[OFFSET(0)] AS summary
 FROM ConversationChunks WHERE " +:+ Join clauses " AND " +:+ " GROUP BY SessionId), Recent AS (
 SELECT summary.Id AS Id, summary.Timestamp AS Timestamp FROM Latest
 ORDER BY summary.Timestamp DESC, summary.Id LIMIT " +:+ Itoa limit +:+ ")
 SELECT c.Id, c.Content, c.ChunkType, c.SessionId, c.ProjectPath, c.ProjectName,
 c.Timestamp, c.FilePath, c.Operation, c.MachineId, CAST(0 AS FLOAT64) AS Distance
 FROM Recent r JOIN ConversationChunks c ON c.Id=r.Id
 ORDER BY r.Timestamp DESC,r.Id") params in
  let? rows := Query_ statement in
  lift (parseResultRows rows "recent").

End Operations.

(** ** backfill.go *)

Definition BackfillShards : list string := map (fun v => hex_fixed 2 (Z.of_nat v)) (seq 0 256).

Definition backfill_row (index : Z) (row : Row) : result Chunk :=
  let req v name := wrap_row "backfill row %d: %w" index (requiredRowString v name) in
  let opt v name := wrap_row "backfill row %d: %w" index (optionalRowString v name) in
  match row with
  | [v0; v1; v2; v3; v4; v5; v6; v7; v8; v9; v10; v11; v12; v13; v14; v15; v16] =>
      id ← req v0 "id";
      content ← req v1 "content";
      chunkType ← req v2 "chunk_type";
      session ← req v3 "session_id";
      path ← req v4 "project_path";
      name ← req v5 "project_name";
      timestamp ← match v6 with
                  | VTime t => Ok t
                  | _ => Fail (Errorf "backfill row %d timestamp is invalid" [FInt index])
                  end;
      user ← opt v7 "user_uuid";
      assistant ← opt v8 "assistant_uuid";
      file ← opt v9 "file_path";
      operation ← opt v10 "operation";
      model ← opt v11 "model";
      source ← req v12 "source_file";
      line ← match toInt64 v13 with
             | Some z => Ok z
             | None => Fail (Errorf "backfill row %d source line is invalid" [FInt index])
             end;
      parent ← opt v14 "parent_chunk_id";
      children ← match v15 with
                 | VNil => Ok []
                 | VStrings l => Ok l
                 | _ => Fail (Errorf "backfill row %d child_chunk_ids is neither string array nor NULL" [FInt index])
                 end;
      machine ← opt v16 "machine_id";
      let chunk := mkChunk id content [] chunkType session path name timestamp user assistant file
                     operation model source line parent children machine in
      _ ← wrap_row "backfill row %d: %w" index (validateChunk chunk);
      if negb (hasLowerHexShardPrefix (c_ID chunk))
      then Fail (Errorf "backfill row %d id lacks a lowercase hexadecimal shard prefix" [FInt index])
      else Ok chunk
  | _ => Fail (Errorf "backfill row %d has %d columns, want 17" [FInt index; FInt (Z.of_nat (length row))])
  end.

Fixpoint backfill_rows_from (index : Z) (rows : list Row) : result (list Chunk) :=
  match rows with
  | [] => Ok []
  | row :: rest =>
      chunk ← backfill_row index row;
      chunks ← backfill_rows_from (index + 1) rest;
      Ok (chunk :: chunks)
  end.
Definition backfillRows (rows : list Row) : result (list Chunk) := backfill_rows_from 0 rows.

(** [remoteConfig]: the configuration with the remote-model strategy. *)
Definition with_remote_strategy (c : Config) : Config :=
  mkConfig (Project c) (Instance_ c) (Database c) (ModelProject c) (ModelLocation c)
    EmbeddingRemoteModel (RemoteModel c) (EmbeddingModel c) (EmbeddingDimension c)
    (DocumentTaskType c) (QueryTaskType c) (RemoteRPCBatch c) (EnableFullText c) (EnableANN c)
    (UseANN c) (VectorIndexLeaves c) (NumLeavesToSearch c) (HybridCandidateLimit c) (RRFK c)
    (MaxSearchLimit c) (BackfillConcurrency c) (BackfillBatch c) (BackfillInterval c)
    (BackfillMaxBatchesPerShard c) (StatsCacheTTL c).

Section Backfill.
Context `{UnicodeTables} (E : Env).

(** One iteration of the shard loop: [None] when no row is left, the number of
    rows embedded otherwise. *)
Definition backfill_batch (prefix : string) : M (option Z) :=
  let? _ := contextError E in
  let* s := get_store in
  let? statement := lift (BuildBackfillReadPlan (config s) prefix) in
  let? rows := wrapping "read NULL-vector batch: %w" [] (Query_ E statement) in
  match rows with
  | [] => ret None
  | _ =>
      let? chunks := lift (backfillRows rows) in
      let? plan := lift (BuildUpsertPlan (with_remote_strategy (config s)) chunks) in
      match p_Statement plan with
      | None => fail (errors_New "backfill remote-model plan is missing")
      | Some statement =>
          let? count := wrapping "embed NULL-vector batch: %w" [] (ReadWrite E (TxExecute E statement)) in
          if negb (count =? Z.of_nat (length chunks))
          then fail (Errorf "remote-model affected count %d does not match batch %d"
                       [FInt count; FInt (Z.of_nat (length chunks))])
          else ret (Some count)
      end
  end.

Fixpoint backfill_loop (batches : nat) (prefix : string) (embedded : Z) : st W (Z * option error) := fun w =>
  match batches with
  | O => ((embedded, Some (Errorf "backfill shard exceeded %d batches; remaining rows stay NULL"
                             [FInt (BackfillMaxBatchesPerShard (config (ws w)))])), w)
  | S n =>
      match backfill_batch prefix w with
      | (Fail e, w') => ((embedded, Some e), w')
      | (Ok None, w') => ((embedded, None), w')
      | (Ok (Some count), w') => backfill_loop n prefix (wrap64 (embedded + count)) w'
      end
  end.

Definition runBackfillShard (prefix : string) : st W (Z * option error) := fun w =>
  backfill_loop (Z.to_nat (BackfillMaxBatchesPerShard (config (ws w)))) prefix 0 w.

End Backfill.

Definition shardResult : Type := string * (Z * option error).

(** The loop that collects the results, in their order of arrival. *)
Fixpoint collect (results : list shardResult) (completed : Z) (report : BackfillReport) : Z * BackfillReport :=
  match results with
  | [] => (completed, report)
  | (prefix, (count, err)) :: rest =>
      let failures := match err with
                      | Some e => <[prefix := e]> (b_Failures report)
                      | None => b_Failures report
                      end in
      collect rest (completed + 1) (mkBackfillReport (wrap64 (b_Embedded report + count)) failures)
  end.

(** [Backfill]. The workers run shards concurrently; a shard run reads the store
    only for its configuration, so each run has an environment of its own and
    the worker's own context poll is the first call in it. [arrivals] is the
    order in which results reach the collecting loop. *)
Section BackfillAll.
Context `{UnicodeTables} (E : Env) (shard_env : string -> Env).

(** A worker's handling of one job. *)
Definition shard_job (s : SpannerStore) (prefix : string) : shardResult :=
  (prefix,
   match contextError (shard_env prefix) (mkW s []) with
   | (Fail e, _) => (0, Some e)
   | (Ok _, w) => fst (runBackfillShard (shard_env prefix) prefix w)
   end).

Definition Backfill (arrivals : list string) : st W (BackfillReport * option error) := fun w =>
  let empty := mkBackfillReport 0 ∅ in
  match contextError E w with
  | (Fail e, w) => ((empty, Some e), w)
  | (Ok _, w) =>
      if EmbeddingStrategy (config (ws w)) !=s EmbeddingDeferred
      then ((empty, Some (errors_New "backfill requires deferred embedding strategy")), w)
      else
        let '(completed, report) := collect (map (shard_job (ws w)) arrivals) 0 empty in
        match contextError E w with
        | (Fail e, w) => ((report, Some e), w)
        | (Ok _, w) =>
            if negb (completed =? 256)
            then ((report, Some (Errorf "backfill completed %d of 256 shards" [FInt completed])), w)
            else if 0 <? b_Embedded report then ((report, None), snd (invalidateStats w))
            else ((report, None), w)
        end
  end.
End BackfillAll.
