(* ===== verification/StoreOpsSpec.v ===== *)
(** * Properties of the Spanner store ([StoreOps])

    A write commits exactly the planned statement or mutation once, or nothing;
    every reachable store satisfies the store invariant, in particular cached
    statistics are never older than a committed write; backfill counts what it
    embedded and stays within its bounds. *)
From Stdlib Require Import ZArith Lia Bool SpecFloat.
From Stdlib Require Import String Ascii.
From stdpp Require Import base tactics option list gmap strings relations sorting.
From S2P Require Import Prelude GoStrings StoreTypes StorePlans StorePlansSpec StoreOps.
Open Scope Z_scope.

(** ** What a log has committed *)

Inductive write : Type :=
| WStmt (s : Statement)
| WMut (m : Mutation).

(** The committed writes of a log, oldest first, and the statements executed in
    the transaction attempt that is under way. A statement of an attempt counts
    only when that attempt commits. *)
Fixpoint effects (l : list event) : list write * list Statement :=
  match l with
  | [] => ([], [])
  | e :: l =>
      let '(done, pending) := effects l in
      match e with
      | EvBegin _ | EvAborted | EvRollback => (done, [])
      | EvTxExecute s (Ok _) => (done, pending ++ [s])
      | EvCommit None => (done ++ map WStmt pending, [])
      | EvCommit (Some _) => (done, [])
      | EvApply m None => (done ++ [WMut m], pending)
      | EvExecute s (Ok n) => if 0 <=? n then (done ++ [WStmt s], pending) else (done, pending)
      | _ => (done, pending)
      end
  end.
Definition committed (l : list event) : list write := fst (effects l).
Definition pending (l : list event) : list Statement := snd (effects l).

Definition is_close (e : event) : bool := match e with EvClose _ => true | _ => false end.
Definition closes (l : list event) : nat := length (filter (fun e => is_close e = true) l).

Lemma closes_cons e l : closes (e :: l) = ((if is_close e then 1 else 0) + closes l)%nat.
Proof. unfold closes. rewrite filter_cons. destruct (is_close e); by case_decide. Qed.

(** ** Computations that leave the store and the table alone *)

Record quiet (w w' : W) : Prop := mk_quiet {
  quiet_ws : ws w' = ws w;
  quiet_committed : committed (log w') = committed (log w);
  quiet_closes : closes (log w') = closes (log w);
  quiet_extends : exists new, log w' = new ++ log w
}.

#[global] Instance quiet_preorder : PreOrder quiet.
Proof.
  split.
  - intros w. split; try done. by exists [].
  - intros w1 w2 w3 [? ? ? [n1 H1]] [? ? ? [n2 H2]]. split; try congruence.
    exists (n2 ++ n1). by rewrite H2, H1, app_assoc.
Qed.

Definition quiet_m {A} (m : st W A) : Prop := forall w, quiet w (snd (m w)).

Lemma quiet_record e w :
  committed (e :: log w) = committed (log w) -> is_close e = false -> quiet w (record e w).
Proof.
  intros H1 H2. split; simpl; [done|done| |by exists [e]].
  rewrite closes_cons, H2. done.
Qed.

Lemma quiet_try {A B} (m : M A) (f : A -> M B) :
  quiet_m m -> (forall a, quiet_m (f a)) -> quiet_m (st_try m f).
Proof.
  intros Hm Hf w. unfold st_try. specialize (Hm w). destruct (m w) as [[a|e] w1]; simpl in *; [|done].
  etransitivity; [exact Hm|apply Hf].
Qed.
Lemma quiet_bind {A B} (m : st W A) (f : A -> st W B) :
  quiet_m m -> (forall a, quiet_m (f a)) -> quiet_m (st_bind m f).
Proof.
  intros Hm Hf w. unfold st_bind. specialize (Hm w). destruct (m w) as [a w1]; simpl in *.
  etransitivity; [exact Hm|apply Hf].
Qed.
Lemma quiet_wrapping {A} f args (m : M A) : quiet_m m -> quiet_m (wrapping f args m).
Proof. intros Hm w. unfold wrapping. specialize (Hm w). by destruct (m w) as [[a|e] w1]. Qed.

Lemma quiet_lift {A} (r : result A) : quiet_m (lift r).
Proof. intros w. reflexivity. Qed.
Lemma quiet_ret {A} (a : A) : quiet_m (ret a).
Proof. intros w. reflexivity. Qed.
Lemma quiet_fail {A} e : quiet_m (@fail A e).
Proof. intros w. reflexivity. Qed.
Lemma quiet_get : quiet_m get_store.
Proof. intros w. reflexivity. Qed.
Lemma quiet_ready : quiet_m vectorIndexReady.
Proof. intros w. reflexivity. Qed.

Ltac quiet_call := apply quiet_record; [unfold committed; simpl; by repeat case_match|done].

Lemma quiet_contextError E : quiet_m (contextError E).
Proof. intros w. unfold contextError. case_match; [reflexivity|]. quiet_call. Qed.
Lemma quiet_now E : quiet_m (now E).
Proof. intros w. quiet_call. Qed.
Lemma quiet_Query E s : quiet_m (Query_ E s).
Proof. intros w. quiet_call. Qed.
Lemma quiet_UpdateDDL E l : quiet_m (UpdateDDL E l).
Proof. intros w. quiet_call. Qed.
Lemma quiet_TxExecute E s : quiet_m (TxExecute E s).
Proof. intros w. quiet_call. Qed.

Create HintDb store discriminated.
#[export] Hint Resolve quiet_try quiet_bind quiet_wrapping quiet_lift quiet_ret quiet_fail quiet_get
  quiet_ready quiet_contextError quiet_now quiet_Query quiet_UpdateDDL quiet_TxExecute : store.

(** Proves [quiet_m] of a computation built from quiet calls. *)
Ltac quiet_tac :=
  repeat first
    [ progress intros
    | apply quiet_try | apply quiet_bind | apply quiet_wrapping
    | solve [auto with store nocore]
    | case_match ].

Lemma quiet_runSearch E plan : quiet_m (runSearch E plan).
Proof. unfold runSearch. quiet_tac. Qed.
#[export] Hint Resolve quiet_runSearch : store.
Lemma quiet_ensureQueryVector E q : quiet_m (ensureQueryVector E q).
Proof. unfold ensureQueryVector. quiet_tac. Qed.
Lemma quiet_runVectorFallback E q : quiet_m (runVectorFallback E q).
Proof. unfold runVectorFallback. quiet_tac. Qed.
#[export] Hint Resolve quiet_ensureQueryVector quiet_runVectorFallback : store.
Lemma quiet_Search E q : quiet_m (Search E q).
Proof. unfold Search. quiet_tac. Qed.
Lemma quiet_HybridSearch E q : quiet_m (HybridSearch E q).
Proof. unfold HybridSearch. quiet_tac. Qed.
Lemma quiet_ChunkExists E id : quiet_m (ChunkExists E id).
Proof. unfold ChunkExists. quiet_tac. Qed.
Lemma quiet_Ready E : quiet_m (Ready E).
Proof. unfold Ready. quiet_tac. Qed.
Lemma quiet_Summaries E f n : quiet_m (Summaries E f n).
Proof. unfold Summaries. quiet_tac. Qed.

(** ** Transactions *)

(** [w'] extends [w] by the committed writes [ws], leaving the store alone. *)
Record commits (l : list write) (w w' : W) : Prop := mk_commits {
  commits_ws : ws w' = ws w;
  commits_committed : committed (log w') = committed (log w) ++ l;
  commits_closes : closes (log w') = closes (log w);
  commits_extends : exists new, log w' = new ++ log w
}.

Lemma quiet_commits l w1 w2 w3 : quiet w1 w2 -> commits l w2 w3 -> commits l w1 w3.
Proof.
  intros [? ? ? [n1 H1]] [? ? ? [n2 H2]]. split; try congruence.
  exists (n2 ++ n1). by rewrite H2, H1, app_assoc.
Qed.

(** A transaction body that executes [s] as its last successful statement. *)
Definition executes {A} (s : Statement) (body : M A) : Prop := forall w,
  let '(r, w') := body w in
  quiet w w' /\ (is_Ok r -> pending (log w') = pending (log w) ++ [s]).

Lemma pending_begin w e : pending (EvBegin e :: log w) = [].
Proof. unfold pending. simpl. by destruct (effects (log w)). Qed.

Lemma rw_loop_executes {A} s (body : M A) n w :
  executes s body -> pending (log w) = [] ->
  let '(r, w') := rw_loop n body w in
  quiet w w' /\ (is_Ok r -> pending (log w') = [s]).
Proof.
  intros Hb. revert w. induction n as [|n IH]; intros w Hp; simpl; specialize (Hb w);
    destruct (body w) as [r1 w1], Hb as [Hq Hr].
  - split; [done|]. rewrite Hp in Hr. done.
  - assert (quiet w1 (record EvAborted w1)) as Hq1
      by (apply quiet_record; [unfold committed; simpl; by destruct (effects (log w1))|done]).
    specialize (IH (record EvAborted w1)). destruct (rw_loop n body (record EvAborted w1)) as [r2 w2].
    destruct IH as [IH1 IH2]; [unfold pending; simpl; by destruct (effects (log w1))|].
    split; [|done]. etransitivity; [exact Hq|]. etransitivity; [exact Hq1|exact IH1].
Qed.

Lemma ReadWrite_commits {A} E s (body : M A) w :
  executes s body ->
  match ReadWrite E body w with
  | (Ok _, w') => commits [WStmt s] w w'
  | (Fail _, w') => quiet w w'
  end.
Proof.
  intros Hb. unfold ReadWrite. destruct (rw_Begin E (log w)) as [e|] eqn:Eb.
  { quiet_call. }
  set (w0 := record (EvBegin None) w).
  assert (quiet w w0) as Hq0 by (unfold w0; quiet_call).
  pose proof (rw_loop_executes s body (rw_Aborts E (log w0)) w0 Hb (pending_begin w None)) as Hl.
  destruct (rw_loop _ body w0) as [[a|e] w1], Hl as [Hq1 Hp].
  - specialize (Hp (ex_intro _ a eq_refl)).
    unfold pending in Hp. destruct (rw_Commit E (log w1)) as [e|].
    + etransitivity; [exact Hq0|]. etransitivity; [exact Hq1|]. quiet_call.
    + eapply quiet_commits; [exact Hq0|]. eapply quiet_commits; [exact Hq1|].
      split; [done| |done|by exists [EvCommit None]].
      unfold committed. simpl. destruct (effects (log w1)); simpl in *. by subst.
  - etransitivity; [exact Hq0|]. etransitivity; [exact Hq1|]. quiet_call.
Qed.

(** A quiet computation followed by one that executes [s]. *)
Lemma executes_after {A B} s (m : M A) (f : A -> M B) :
  quiet_m m -> (forall w, pending (log (snd (m w))) = pending (log w)) ->
  (forall a, executes s (f a)) -> executes s (st_try m f).
Proof.
  intros Hm Hp Hf w. unfold st_try. specialize (Hm w). specialize (Hp w).
  destruct (m w) as [[a|e] w1]; simpl in *.
  - specialize (Hf a w1). destruct (f a w1) as [r w2], Hf as [Hq Hr].
    split; [by etransitivity|]. intros Hok. rewrite (Hr Hok), Hp. done.
  - split; [done|]. by intros [? ?].
Qed.

Lemma executes_then {A} s E (f : Z -> M A) :
  (forall n w, snd (f n w) = w) -> executes s (st_try (TxExecute E s) f).
Proof.
  intros Hf w. unfold st_try, TxExecute. destruct (tx_Execute E (log w) s) as [n|e] eqn:Er.
  - specialize (Hf n (record (EvTxExecute s (Ok n)) w)).
    destruct (f n _) as [r w']. simpl in Hf. subst w'. split; [quiet_call|].
    intros _. unfold pending. simpl. by destruct (effects (log w)).
  - split; [quiet_call|]. by intros [? ?].
Qed.

Lemma executes_self s E : executes s (TxExecute E s).
Proof.
  intros w. unfold TxExecute. split; [quiet_call|].
  intros [n Hn]. unfold pending. simpl. rewrite Hn. by destruct (effects (log w)).
Qed.

Lemma pending_contextError E w : pending (log (snd (contextError E w))) = pending (log w).
Proof.
  unfold contextError. case_match; [done|]. unfold pending. simpl. by destruct (effects (log w)).
Qed.

(** The writes a plan stands for. *)
Definition plan_writes (plan : UpsertPlan) : list write :=
  match p_Mutation plan, p_Statement plan with
  | Some m, _ => [WMut m]
  | None, Some s => [WStmt s]
  | None, None => []
  end.

(** The body of the transaction that [Upsert] runs. *)
Lemma upsert_body_executes E s n :
  executes s (let? _ := contextError E in
              let? affected := TxExecute E s in
              if negb (affected =? n)
              then fail (Errorf "remote-model affected count %d does not match batch %d" [FInt affected; FInt n])
              else ret tt).
Proof.
  apply executes_after; [auto with store|apply pending_contextError|intros _].
  apply executes_then. intros k w'. by case_match.
Qed.

Lemma Upsert_cases E chunks w :
  match Upsert E chunks w with
  | (Ok _, w') =>
      exists plan w1, BuildUpsertPlan (config (ws w)) chunks = Ok plan /\ plan_writes plan <> [] /\ commits (plan_writes plan) w w1 /\ ws w' = set_cache None (ws w) /\ log w' = log w1
  | (Fail _, w') => quiet w w'
  end.
Proof.
  unfold Upsert, st_try at 1. pose proof (quiet_contextError E w) as H1.
  destruct (contextError E w) as [[[]|e] w1]; simpl in H1; [|done].
  unfold st_bind at 1, get_store, st_try at 1, lift at 1.
  rewrite (quiet_ws _ _ H1). destruct (BuildUpsertPlan (config (ws w)) chunks) as [plan|e] eqn:Ep; [|done].
  unfold st_try at 1. pose proof (quiet_contextError E w1) as H2.
  destruct (contextError E w1) as [[[]|e] w2]; simpl in H2; [|by etransitivity].
  pose proof (transitivity H1 H2) as H12. clear H1 H2.
  unfold st_try at 1, plan_writes. destruct (p_Mutation plan) as [m|] eqn:Em.
  - unfold wrapping, Apply. destruct (exec_Apply E (log w2) m); simpl.
    + etransitivity; [exact H12|]. quiet_call.
    + exists plan, (record (EvApply m None) w2). rewrite Em, (quiet_ws _ _ H12). split_and!; try done.
      eapply quiet_commits; [exact H12|]. split; [done| |done|by exists [EvApply m None]].
      unfold committed. simpl. by destruct (effects (log w2)).
  - destruct (p_Statement plan) as [s|] eqn:Es; [|done].
    unfold st_try at 1, wrapping at 1.
    match goal with |- context [ReadWrite E ?b w2] =>
      pose proof (ReadWrite_commits E s b w2 (upsert_body_executes E s _)) as Hrw;
      destruct (ReadWrite E b w2) as [[[]|e] w3] end.
    + exists plan, w3. simpl. rewrite Em, Es, (commits_ws _ _ _ Hrw), (quiet_ws _ _ H12).
      split_and!; try done. by eapply quiet_commits.
    + by etransitivity.
Qed.


(** ** The operations of the store *)

Inductive op : Type :=
| OpInitialize | OpUpsert (chunks : list Chunk) | OpSearch (q : Query) | OpHybridSearch (q : Query)
| OpStats | OpChunkExists (id : string) | OpDeleteMachine (id : string) | OpClear | OpOptimize | OpClose
| OpReady | OpDiscoverIndexes | OpSummaries (f : Filter) (limit : Z)
| OpBackfill (shard_env : string -> Env) (arrivals : list string).

Definition run `{UnicodeTables} (E : Env) (o : op) (w : W) : W :=
  match o with
  | OpInitialize => snd (Initialize E w)
  | OpUpsert chunks => snd (Upsert E chunks w)
  | OpSearch q => snd (Search E q w)
  | OpHybridSearch q => snd (HybridSearch E q w)
  | OpStats => snd (Stats_ E w)
  | OpChunkExists id => snd (ChunkExists E id w)
  | OpDeleteMachine id => snd (DeleteMachine E id w)
  | OpClear => snd (Clear E w)
  | OpOptimize => snd (Optimize E w)
  | OpClose => snd (Close E w)
  | OpReady => snd (Ready E w)
  | OpDiscoverIndexes => snd (DiscoverIndexes E w)
  | OpSummaries f n => snd (Summaries E f n w)
  | OpBackfill shard_env arrivals => snd (Backfill E shard_env arrivals w)
  end.

(** Any operation, in any environment. *)
Inductive store_step `{UnicodeTables} : W -> W -> Prop :=
| store_step_op E o w : store_step w (run E o w).

Inductive reachable `{UnicodeTables} (c : Config) : W -> Prop :=
| reach_new s : New c true = Ok s -> reachable c (mkW s [])
| reach_step w w' : reachable c w -> store_step w w' -> reachable c w'.

(** *** What each operation does to the store *)

(** What a computation may do to the store, apart from reading: nothing, or the
    update [f] together with the writes [l]. *)
Definition updates (f : SpannerStore -> SpannerStore) (l : list write) (w w' : W) : Prop :=
  quiet w w' \/ exists w1, commits l w w1 /\ ws w' = f (ws w) /\ log w' = log w1.

Lemma commits_nil w w' : quiet w w' -> commits [] w w'.
Proof. intros []. split; try done. by rewrite app_nil_r. Qed.

Lemma quiet_updates f l w w1 w2 : quiet w w1 -> updates f l w1 w2 -> updates f l w w2.
Proof.
  intros Hq [H2|(w3&H3&H4&H5)]; [left; by etransitivity|].
  right. exists w3. split; [by eapply quiet_commits|]. by rewrite H4, (quiet_ws _ _ Hq).
Qed.

Lemma try_updates {A B} f l (m : M A) (k : A -> M B) w :
  quiet_m m -> (forall a w, updates f l w (snd (k a w))) -> updates f l w (snd (st_try m k w)).
Proof.
  intros Hm Hk. unfold st_try. specialize (Hm w). destruct (m w) as [[a|e] w1]; simpl in *; [|by left].
  eapply quiet_updates; [exact Hm|apply Hk].
Qed.

Lemma bind_updates {A B} f l (m : st W A) (k : A -> st W B) w :
  quiet_m m -> (forall a w, updates f l w (snd (k a w))) -> updates f l w (snd (st_bind m k w)).
Proof.
  intros Hm Hk. unfold st_bind. specialize (Hm w). destruct (m w) as [a w1]; simpl in *.
  eapply quiet_updates; [exact Hm|apply Hk].
Qed.

Lemma put_updates g w :
  updates g [] w (snd ((let* s := get_store in let* _ := put_store (g s) in ret tt) w)).
Proof. right. exists w. split; [by apply commits_nil|done]. Qed.

Lemma left_quiet {A} f l (m : st W A) w : quiet_m m -> updates f l w (snd (m w)).
Proof. by left. Qed.

Ltac updates_tac :=
  repeat first
    [ apply left_quiet; solve [auto with store nocore]
    | apply put_updates
    | apply try_updates; [solve [quiet_tac]|intros]
    | apply bind_updates; [solve [quiet_tac]|intros]
    | case_match ].

Lemma Initialize_updates E w : updates set_initialized [] w (snd (Initialize E w)).
Proof. unfold Initialize. updates_tac. Qed.
Lemma Optimize_updates E w : updates (set_index true) [] w (snd (Optimize E w)).
Proof. unfold Optimize. updates_tac. Qed.

Lemma DiscoverIndexes_updates E w :
  exists b, updates (set_index b) [] w (snd (DiscoverIndexes E w)).
Proof.
  unfold DiscoverIndexes, st_try. pose proof (quiet_contextError E w) as H1.
  destruct (contextError E w) as [[[]|e] w1]; simpl in H1; [|by exists true; left].
  pose proof (quiet_Query E discover_statement w1) as H2.
  destruct (Query_ E discover_statement w1) as [[rows|e] w2]; simpl in H2;
    [|exists true; left; by etransitivity].
  pose proof (transitivity H1 H2) as H12.
  assert (forall e, exists b, updates (set_index b) [] w (snd (fail (A:=unit) e w2))) as Hf
    by (intros e; exists true; by left).
  repeat case_match; subst; try apply Hf.
  eexists. eapply quiet_updates; [exact H12|apply put_updates].
Qed.

Lemma Execute_updates E s f (e : error) w :
  updates (set_cache None) [WStmt s] w
    (snd (st_try (wrapping f [] (Execute E s))
            (fun count => if count <? 0 then fail e
                          else let* _ := invalidateStats in ret count) w)).
Proof.
  unfold st_try, wrapping, Execute. destruct (exec_Execute E (log w) s) as [n|x]; simpl.
  - destruct (n <? 0) eqn:En.
    + left. simpl. apply quiet_record; [|done]. unfold committed. simpl.
      destruct (effects (log w)). destruct (0 <=? n) eqn:?; [lia|done].
    + right. exists (record (EvExecute s (Ok n)) w). split; [|done].
      split; [done| |done|by exists [EvExecute s (Ok n)]].
      unfold committed. simpl. destruct (effects (log w)). destruct (0 <=? n) eqn:?; [done|lia].
  - left. quiet_call.
Qed.

Lemma Clear_updates E w : updates (set_cache None) [WStmt clear_statement] w (snd (Clear E w)).
Proof. unfold Clear. apply try_updates; [auto with store|intros]. apply Execute_updates. Qed.

Lemma DeleteMachine_updates E id w :
  updates (set_cache None) [WStmt (delete_machine_statement (TrimSpace id))] w (snd (DeleteMachine E id w)).
Proof.
  unfold DeleteMachine. apply try_updates; [auto with store|intros].
  case_match; [by left|]. apply try_updates; [auto with store|intros]. apply Execute_updates.
Qed.

Lemma Upsert_updates E chunks w : exists l, updates (set_cache None) l w (snd (Upsert E chunks w)).
Proof.
  pose proof (Upsert_cases E chunks w) as H. destruct (Upsert E chunks w) as [[u|e] w']; simpl.
  - destruct H as (plan&w1&_&_&?&?&?). exists (plan_writes plan). right. by exists w1.
  - exists []. by left.
Qed.

Lemma Backfill_updates `{UnicodeTables} E shard_env arrivals w :
  updates (set_cache None) [] w (snd (Backfill E shard_env arrivals w)).
Proof.
  unfold Backfill. pose proof (quiet_contextError E w) as Hq1.
  destruct (contextError E w) as [[[]|e] w1]; simpl in Hq1; [|by left].
  case_match; [by left|]. case_match.
  pose proof (quiet_contextError E w1) as Hq2.
  destruct (contextError E w1) as [[[]|e] w2]; simpl in Hq2; [|left; by etransitivity].
  pose proof (transitivity Hq1 Hq2) as H12.
  case_match; [by left|]. case_match; [|by left].
  right. exists w2. simpl. rewrite (quiet_ws _ _ H12). split; [by apply commits_nil|done].
Qed.

(** *** Statistics *)

(** The statistics a store with configuration [c] may report. *)
Record stats_wf (c : Config) (v : Stats) : Prop := mk_stats_wf {
  wf_embedded : 0 <= s_EmbeddedChunks v <= s_TotalChunks v;
  wf_awaiting : s_AwaitingEmbedding v = s_TotalChunks v - s_EmbeddedChunks v;
  wf_identity : (s_Project v, s_Instance v, s_Database v) = (Project c, Instance_ c, Database c);
  wf_mode : s_VectorSearchMode v = if UseANN c && s_VectorIndexEnabled v then SearchANN else SearchExact
}.

Lemma stats_counts_ok rows total embedded :
  stats_counts rows = Ok (total, embedded) ->
  0 <= embedded <= total /\
  exists c0 c1, rows = [[c0; c1]] /\ toInt64 c0 = Some total /\ toInt64 c1 = Some embedded.
Proof.
  unfold stats_counts. intros H. break_all H. to_prop. split; [lia|]. eauto.
Qed.

(** The statistics [v] were read from Spanner after every write that [l] commits. *)
Definition read_after_writes (l : list event) (v : Stats) : Prop :=
  exists newer older rows, l = newer ++ EvQuery stats_statement (Ok rows) :: older /\
    stats_counts rows = Ok (s_TotalChunks v, s_EmbeddedChunks v) /\
    committed l = committed older.

Lemma Stats_cases E w :
  match Stats_ E w with
  | (Ok v, w') =>
      (exists t, cached_at (ws w) t = Some v /\ quiet w w') \/
      (exists t, quiet w (mkW (ws w) (log w')) /\
         stats_wf (config (ws w)) v /\ read_after_writes (log w') v /\
         ws w' = set_cache (Some (mkCached t v))
                   (set_sample (Some (mkSample t (s_EmbeddedChunks v))) (ws w)))
  | (Fail _, w') => quiet w w'
  end.
Proof.
  unfold Stats_, st_try at 1. pose proof (quiet_contextError E w) as H1.
  destruct (contextError E w) as [[[]|e] w1]; simpl in H1; [|done].
  unfold st_bind at 1. pose proof (quiet_now E w1) as H2. destruct (now E w1) as [t w2]. simpl in H2.
  pose proof (transitivity H1 H2) as H12. unfold st_bind at 1, get_store at 1.
  destruct (cached_at (ws w2) t) as [v|] eqn:Ec.
  { left. exists t. by rewrite <- (quiet_ws _ _ H12). }
  clear H1 H2. unfold st_try at 1. pose proof (quiet_contextError E w2) as H3.
  destruct (contextError E w2) as [[[]|e] w3]; simpl in H3; [|by etransitivity].
  pose proof (transitivity H12 H3) as H13. unfold st_try at 1, wrapping at 1, Query_.
  destruct (exec_Query E (log w3) stats_statement) as [rows|e]; simpl; [|etransitivity; [exact H13|quiet_call]].
  unfold st_try, lift. destruct (stats_counts rows) as [[total embedded]|e] eqn:Es.
  2: { etransitivity; [exact H13|quiet_call]. }
  set (w4 := record (EvQuery stats_statement (Ok rows)) w3).
  assert (quiet w w4) as H4 by (etransitivity; [exact H13|unfold w4; quiet_call]).
  simpl. right. exists t. pose proof (quiet_ws _ _ H3) as Ew. rewrite (quiet_ws _ _ H12) in *.
  split_and!.
  - destruct H4. by split.
  - apply stats_counts_ok in Es as [? _]. by split.
  - exists [], (log w3), rows. split_and!; try done. unfold committed. simpl. by destruct (effects (log w3)).
  - by rewrite Ew.
Qed.

(** *** The store invariant *)

Record store_inv (c : Config) (w : W) : Prop := mk_store_inv {
  inv_config : config (ws w) = c;
  inv_valid : Validate c = Ok tt;
  inv_closed : closes (log w) = if closeDone (ws w) then 1%nat else 0%nat;
  inv_cache : forall cs, statsCache (ws w) = Some cs ->
    stats_wf c (cs_value cs) /\ read_after_writes (log w) (cs_value cs);
  inv_sample : forall p, statsSample (ws w) = Some p -> 0 <= es_embedded p;
  inv_initialized : initialized (ws w) = true ->
    exists ddl, BuildInitializationDDL c = Ok ddl /\ EvDDL ddl None ∈ log w
}.

Lemma read_after_quiet l l' v :
  committed l' = committed l -> (exists new, l' = new ++ l) ->
  read_after_writes l v -> read_after_writes l' v.
Proof.
  intros Hc [new ->] (n&o&rows&->&?&?). exists (new ++ n), o, rows.
  rewrite <- app_assoc. split_and!; try done. congruence.
Qed.

(** An update that only extends the log keeps the invariant; the cache must be
    kept only if nothing was committed. *)
Lemma inv_updates c f l w w' :
  (forall s, config (f s) = config s /\ closeDone (f s) = closeDone s /\
             initialized (f s) = initialized s /\ statsSample (f s) = statsSample s /\
             (statsCache (f s) = None \/ statsCache (f s) = statsCache s /\ l = [])) ->
  store_inv c w -> updates f l w w' -> store_inv c w'.
Proof.
  intros Hf [Hc Hv Hcl Hca Hs Hi] Hu.
  assert (exists new, log w' = new ++ log w) as Hext.
  { destruct Hu as [[]|(w1&[? ? ? ?]&_&->)]; done. }
  assert (closes (log w') = closes (log w)) as Hcloses.
  { destruct Hu as [[]|(w1&[? ? ? ?]&_&->)]; done. }
  assert (forall ddl, EvDDL ddl None ∈ log w -> EvDDL ddl None ∈ log w') as Hddl.
  { intros ddl ?. destruct Hext as [new ->]. apply elem_of_app. by right. }
  destruct Hu as [[Ews Ecom _ _]|(w1&[_ Hcom _ _]&Ews&Elog)]; rewrite ?Ews in *.
  - split; rewrite ?Ews, ?Hcloses; try done; try (by intros Hx; destruct (Hi Hx) as (?&?&?); eauto).
    intros cs Hcs. destruct (Hca _ Hcs). split; [done|]. by eapply read_after_quiet.
  - destruct (Hf (ws w)) as (H1&H2&H3&H4&H5).
    split; rewrite ?Ews, ?Hcloses, ?H1, ?H2, ?H3, ?H4; try done;
      try (by intros Hx; destruct (Hi Hx) as (?&?&?); eauto).
    intros cs Hcs. destruct H5 as [H5|[H5 ->]]; [congruence|].
    rewrite H5 in Hcs. destruct (Hca _ Hcs). split; [done|]. eapply read_after_quiet; [|done|done].
    by rewrite Elog, Hcom, app_nil_r.
Qed.

Lemma inv_quiet c w w' : store_inv c w -> quiet w w' -> store_inv c w'.
Proof.
  intros Hi Hq. apply (inv_updates c (set_cache None) [] w); [|done|by left].
  intros s. simpl. split_and!; auto.
Qed.

Lemma inv_Stats c E w : store_inv c w -> store_inv c (snd (Stats_ E w)).
Proof.
  intros Hinv. pose proof (Stats_cases E w) as H. destruct (Stats_ E w) as [[v|e] w']; simpl.
  2: { by eapply inv_quiet. }
  destruct H as [(t&_&Hq)|(t&Hq&Hwf&Hr&Ews)]; [by eapply inv_quiet|].
  pose proof (inv_quiet _ _ _ Hinv Hq) as [Hc Hv Hcl Hca Hs Hi]. simpl in *.
  split; rewrite ?Ews; try done; simpl.
  - intros cs [= <-]. simpl. by rewrite <- Hc.
  - intros p [= <-]. simpl. apply (wf_embedded _ _ Hwf).
Qed.

Lemma inv_Close c E w : store_inv c w -> store_inv c (snd (Close E w)).
Proof.
  intros Hinv. unfold Close. destruct (closeDone (ws w)) eqn:Ed; [done|].
  destruct Hinv as [Hc Hv Hcl Hca Hs Hi]. rewrite Ed in Hcl. split; simpl; try done.
  - by rewrite closes_cons, Hcl.
  - intros cs Hcs. destruct (Hca _ Hcs). split; [done|]. eapply read_after_quiet; [|by eexists [_]|done].
    unfold committed. simpl. by destruct (effects (log w)).
  - intros Hi'. destruct (Hi Hi') as (ddl&?&?). exists ddl. split; [done|]. by right.
Qed.

Lemma Initialize_cases E w w' :
  snd (Initialize E w) = w' ->
  quiet w w' \/
  exists ddl w1, BuildInitializationDDL (config (ws w)) = Ok ddl /\ quiet w w1 /\
    EvDDL ddl None ∈ log w1 /\ log w' = log w1 /\ ws w' = set_initialized (ws w).
Proof.
  unfold Initialize, st_try at 1. pose proof (quiet_contextError E w) as H1.
  destruct (contextError E w) as [[[]|e] w1]; simpl in H1; [|intros <-; by left].
  unfold st_bind at 1, get_store at 1. rewrite (quiet_ws _ _ H1).
  destruct (initialized (ws w)); [intros <-; by left|].
  unfold st_try at 1, lift at 1.
  destruct (BuildInitializationDDL (config (ws w))) as [ddl|]; [|intros <-; by left].
  unfold st_try at 1. pose proof (quiet_contextError E w1) as H2.
  destruct (contextError E w1) as [[[]|e] w2]; simpl in H2; [|intros <-; left; by etransitivity].
  unfold st_try, wrapping, UpdateDDL. pose proof (quiet_UpdateDDL E ddl w2) as H3. unfold UpdateDDL in H3.
  pose proof (transitivity (transitivity H1 H2) H3) as H13.
  destruct (exec_UpdateDDL E (log w2) ddl) as [e|]; simpl in *; intros <-; [by left|].
  right. exists ddl, (record (EvDDL ddl None) w2). simpl.
  rewrite <- (quiet_ws _ _ H13). split_and!; try done. by left.
Qed.

Lemma inv_Initialize c E w : store_inv c w -> store_inv c (snd (Initialize E w)).
Proof.
  intros Hinv. destruct (Initialize_cases E w _ eq_refl) as [Hq|(ddl&w1&Hd&Hq&Hin&Elog&Ews)]; [by eapply inv_quiet|].
  rewrite (inv_config _ _ Hinv) in Hd. pose proof (quiet_ws _ _ Hq) as Ew1.
  destruct (inv_quiet _ _ _ Hinv Hq) as [Hc Hv Hcl Hca Hs Hi]. rewrite Ew1 in *.
  split; rewrite ?Elog, ?Ews; simpl; try done. by exists ddl.
Qed.

Lemma inv_run `{UnicodeTables} c E o w : store_inv c w -> store_inv c (run E o w).
Proof.
  intros Hinv. destruct o; simpl;
    try (eapply inv_quiet; [done|]; first
      [ apply quiet_Search | apply quiet_HybridSearch | apply quiet_ChunkExists
      | apply quiet_Ready | apply quiet_Summaries ]).
  - by apply inv_Initialize.
  - destruct (Upsert_updates E chunks w) as [l Hu]. eapply inv_updates; [|done|done]. naive_solver.
  - by apply inv_Stats.
  - eapply inv_updates; [|done|apply DeleteMachine_updates]. naive_solver.
  - eapply inv_updates; [|done|apply Clear_updates]. naive_solver.
  - eapply inv_updates; [|done|apply Optimize_updates]. naive_solver.
  - by apply inv_Close.
  - destruct (DiscoverIndexes_updates E w) as [b Hu]. eapply inv_updates; [|done|done]. naive_solver.
  - eapply inv_updates; [|done|apply Backfill_updates]. naive_solver.
Qed.

