(* ===== verification/BackfillSpec.v ===== *)
(** * Properties of backfill ([StoreOps.Backfill])

    A row read back is the chunk that was written; a shard run embeds what it
    counts, in lawful batches, within its bounds; the report does not depend on
    the order in which the workers finish. *)
From Stdlib Require Import ZArith Lia Bool SpecFloat.
From Stdlib Require Import String Ascii.
From stdpp Require Import base tactics option list gmap strings sorting.
From S2P Require Import Prelude GoStrings StoreTypes StorePlans StorePlansSpec StoreOps StoreOpsSpec.
Open Scope Z_scope.

(** ** Rows *)

(** The chunk as the table holds it while its vector is NULL. *)
Definition stored_form (c : Chunk) : Chunk :=
  mkChunk (c_ID c) (c_Content c) [] (c_ChunkType c) (c_SessionID c) (c_ProjectPath c) (c_ProjectName c)
    (UTC (c_Timestamp c)) (c_UserUUID c) (c_AssistantUUID c) (c_FilePath c) (c_Operation c) (c_Model c)
    (c_SourceFile c) (c_SourceLine c) (c_ParentChunkID c) (c_ChildChunkIDs c) (c_MachineID c).

Lemma required_string s name : s <> "" -> requiredRowString (VString s) name = Ok s.
Proof. intros H. simpl. destruct (s ==s "") eqn:E; [by to_prop|done]. Qed.

Lemma optional_nullable s name : optionalRowString (nullable s) name = Ok s.
Proof. unfold nullable. destruct (s ==s "") eqn:E; [by to_prop; subst|done]. Qed.

Lemma stored_form_valid c : chunk_ok c -> validateChunk (stored_form c) = Ok tt.
Proof. intros []. apply validateChunk_iff. by constructor. Qed.

Lemma backfill_row_chunk i c :
  chunk_ok c -> hasLowerHexShardPrefix (c_ID c) = true ->
  backfill_row i (chunkValues c false) = Ok (stored_form c).
Proof.
  intros Hok Hhex. pose proof (stored_form_valid c Hok) as Hv. destruct Hok.
  repeat match goal with H : nonempty_upto _ _ |- _ => destruct H as [H _] end.
  unfold backfill_row, chunkValues. cbn [app].
  rewrite !required_string, !optional_nullable by done. cbn [wrap_row mbind result_bind toInt64].
  unfold stored_form in Hv. rewrite Hv. cbn [wrap_row mbind result_bind c_ID]. by rewrite Hhex.
Qed.

(** Reading back the rows of a deferred write gives the chunks that were
    written, without a vector and with their timestamps in UTC. *)
Theorem backfill_rows_roundtrip (chunks : list Chunk)
    (Hok : Forall (fun c => chunk_ok c /\ hasLowerHexShardPrefix (c_ID c) = true) chunks) :
  backfillRows (map (fun c => chunkValues c false) chunks) = Ok (map stored_form chunks).
Proof.
  unfold backfillRows. generalize 0 as i.
  induction Hok as [|c chunks [Hc Hh] _ IH]; intros i; [done|].
  cbn [map backfill_rows_from]. rewrite backfill_row_chunk by done.
  cbn [mbind result_bind]. by rewrite IH.
Qed.

(** Every chunk that [backfillRows] returns is valid, unembedded and sharded. *)
Definition backfill_chunk_ok (c : Chunk) : Prop :=
  chunk_ok c /\ c_Vector c = [] /\ hasLowerHexShardPrefix (c_ID c) = true.

Lemma wrap_row_ok {A} f i (r : result A) a : wrap_row f i r = Ok a <-> r = Ok a.
Proof. destruct r; simpl; split; congruence. Qed.

Lemma backfill_row_ok i row c : backfill_row i row = Ok c -> backfill_chunk_ok c.
Proof.
  unfold backfill_row. intros H.
  do 17 (destruct row as [|? row]; [done|]). destruct row; [|done].
  do 17 (rewrite bind_ok in H; destruct H as (?&_&H)).
  rewrite bind_ok_unit, wrap_row_ok, validateChunk_iff, if_fail_ok in H.
  destruct H as (?&?&[= <-]). split_and!; try done. by to_prop.
Qed.

Lemma backfill_rows_ok i rows chunks :
  backfill_rows_from i rows = Ok chunks ->
  length chunks = length rows /\ Forall backfill_chunk_ok chunks.
Proof.
  revert i chunks. induction rows as [|row rows IH]; intros i chunks; cbn [backfill_rows_from].
  - by intros [= <-].
  - rewrite bind_ok. intros (c&Hc%backfill_row_ok&H). rewrite bind_ok in H.
    destruct H as (cs&(?&?)%IH&[= <-]). split; [simpl; lia|by constructor].
Qed.

(** ** One batch *)

Definition batch_write (c : Config) (chunks : list Chunk) : write :=
  WStmt (buildRemoteModelStatement (with_remote_strategy c) chunks).

(** A batch that backfill may send. *)
Definition lawful_batch (chunks : list Chunk) : Prop :=
  1 <= Z.of_nat (length chunks) <= 500 /\ Forall backfill_chunk_ok chunks.

Lemma backfill_plan c chunks plan :
  Forall backfill_chunk_ok chunks -> BuildUpsertPlan (with_remote_strategy c) chunks = Ok plan ->
  lawful_batch chunks /\ plan = mkUpsertPlan (Some (buildRemoteModelStatement (with_remote_strategy c) chunks)) None.
Proof.
  intros Hc (_&Hl&_&He)%BuildUpsertPlan_iff. split; [done|].
  unfold expected_plan in He.
  assert (forallb (fun c => negb (embedded_chunk c)) chunks = true) as Hnone.
  { apply forallb_Forall. eapply Forall_impl; [exact Hc|]. intros x (_&Hx&_).
    unfold embedded_chunk. by rewrite Hx. }
  destruct (forallb embedded_chunk chunks) eqn:Eall.
  - exfalso. apply forallb_Forall in Eall. destruct chunks as [|x chunks]; [simpl in Hl; lia|].
    inversion Eall as [|? ? Hx _]; subst. simpl in Hnone. by rewrite Hx in Hnone.
  - rewrite Hnone in He. by injection He as <-.
Qed.

Lemma backfill_batch_cases `{UnicodeTables} E prefix w :
  match backfill_batch E prefix w with
  | (Ok None, w') => quiet w w'
  | (Ok (Some n), w') =>
      exists chunks, lawful_batch chunks /\ n = Z.of_nat (length chunks) /\
        commits [batch_write (config (ws w)) chunks] w w'
  | (Fail _, w') =>
      quiet w w' \/
      exists chunks, lawful_batch chunks /\ commits [batch_write (config (ws w)) chunks] w w'
  end.
Proof.
  unfold backfill_batch, st_try at 1. pose proof (quiet_contextError E w) as H1.
  destruct (contextError E w) as [[[]|e] w1]; simpl in H1; [|by left].
  unfold st_bind at 1, get_store, st_try at 1, lift at 1. rewrite (quiet_ws _ _ H1).
  destruct (BuildBackfillReadPlan (config (ws w)) prefix) as [stm|e]; [|by left].
  unfold st_try at 1, wrapping at 1. pose proof (quiet_Query E stm w1) as H2.
  destruct (Query_ E stm w1) as [[rows|e] w2]; simpl in H2; [|left; by etransitivity].
  pose proof (transitivity H1 H2) as H12. clear H1 H2.
  destruct rows as [|row rows]; [done|]. unfold st_try at 1, lift at 1.
  destruct (backfillRows (row :: rows)) as [chunks|e] eqn:Er; [|by left].
  apply backfill_rows_ok in Er as [_ Hc]. unfold st_try at 1, lift at 1.
  destruct (BuildUpsertPlan _ chunks) as [plan|e] eqn:Ep; [|by left].
  destruct (backfill_plan _ _ _ Hc Ep) as [Hl ->]. cbn [p_Statement].
  unfold st_try at 1, wrapping at 1.
  pose proof (ReadWrite_commits E _ _ w2 (executes_self (buildRemoteModelStatement (with_remote_strategy (config (ws w))) chunks) E)) as Hrw.
  destruct (ReadWrite E _ w2) as [[n|e] w3].
  - pose proof (quiet_commits _ _ _ _ H12 Hrw) as Hcm.
    destruct (n =? Z.of_nat (length chunks)) eqn:En; simpl; to_prop; [by exists chunks|].
    right. by exists chunks.
  - left. by etransitivity.
Qed.

(** ** A shard *)

Definition batch_rows (batches : list (list Chunk)) : Z := Z.of_nat (length (concat batches)).

Lemma batch_rows_cons b l : batch_rows (b :: l) = Z.of_nat (length b) + batch_rows l.
Proof. unfold batch_rows. simpl. rewrite length_app. lia. Qed.

Lemma commits_app l1 l2 w1 w2 w3 : commits l1 w1 w2 -> commits l2 w2 w3 -> commits (l1 ++ l2) w1 w3.
Proof.
  intros [? H1 ? [n1 ?]] [? H2 ? [n2 ?]]. split; try congruence.
  - by rewrite H2, H1, app_assoc.
  - exists (n2 ++ n1). rewrite <- app_assoc. congruence.
Qed.

(** What a run of the shard loop with [n] batches left does, starting from the
    count [embedded]. *)
Definition shard_outcome (c : Config) (n : nat) (embedded : Z) (r : Z * option error) (w w' : W) : Prop :=
  exists batches extra,
    Forall lawful_batch (batches ++ extra) /\ (length batches <= n)%nat /\
    fst r = embedded + batch_rows batches /\
    commits (map (batch_write c) (batches ++ extra)) w w' /\
    (length extra <= 1)%nat /\ (extra <> [] -> snd r <> None).

Lemma batch_rows_bound n batches :
  Forall lawful_batch batches -> (length batches <= n)%nat -> 0 <= batch_rows batches <= 500 * Z.of_nat n.
Proof.
  revert n. induction batches as [|b batches IH]; intros n Hf Hn; [unfold batch_rows; simpl; lia|].
  inversion Hf as [|? ? [Hb _] Hf']; subst. rewrite batch_rows_cons. destruct n as [|n]; [simpl in Hn; lia|].
  specialize (IH n Hf' ltac:(simpl in Hn; lia)). lia.
Qed.

Lemma outcome_quiet c n embedded err w w' :
  quiet w w' -> shard_outcome c n embedded (embedded, err) w w'.
Proof.
  intros Hq. exists [], []. simpl. rewrite Z.add_0_r.
  repeat split; try done; try lia; apply Hq || (by apply commits_nil).
Qed.

Lemma outcome_uncounted c n embedded e chunks w w' :
  lawful_batch chunks -> commits [batch_write c chunks] w w' ->
  shard_outcome c n embedded (embedded, Some e) w w'.
Proof.
  intros Hl Hc. exists [], [chunks]. simpl. rewrite Z.add_0_r.
  split; [by constructor|]. split; [lia|]. split; [done|]. split; [done|]. split; [lia|done].
Qed.

Lemma backfill_loop_outcome `{UnicodeTables} E prefix n embedded w :
  0 <= embedded -> embedded + 500 * Z.of_nat n <= max_int64 ->
  let '(r, w') := backfill_loop E n prefix embedded w in
  shard_outcome (config (ws w)) n embedded r w w'.
Proof.
  revert embedded w. induction n as [|n IH]; intros embedded w He Hb; cbn [backfill_loop].
  - by apply outcome_quiet.
  - pose proof (backfill_batch_cases E prefix w) as Hc.
    destruct (backfill_batch E prefix w) as [[[k|]|e] w1].
    + destruct Hc as (chunks&Hl&->&Hcm). pose proof Hl as [Hlen _].
      rewrite wrap64_id by (unfold is_int64; unfold max_int64 in *; lia).
      specialize (IH (embedded + Z.of_nat (length chunks)) w1 ltac:(lia) ltac:(lia)).
      destruct (backfill_loop E n prefix _ w1) as [r w'].
      destruct IH as (bs&ex&Hf&Hn&Hr&Hc2&Hx). rewrite (commits_ws _ _ _ Hcm) in Hc2.
      exists (chunks :: bs), ex. split; [by constructor|]. split; [simpl; lia|].
      split; [rewrite Hr, batch_rows_cons; lia|]. split; [|exact Hx].
      exact (commits_app _ _ _ _ _ Hcm Hc2).
    + by apply outcome_quiet.
    + destruct Hc as [Hq|(chunks&Hl&Hcm)]; [by apply outcome_quiet|by eapply outcome_uncounted].
Qed.

(** C35: a shard run reports exactly the rows of the batches it embedded and
    counted, each of them a lawful batch of at most 500 valid, unembedded
    chunks whose statement was committed once; it sends no more batches than
    configured; at most one further batch is committed without being counted,
    and then the run reports an error. *)
Theorem backfill_shard_outcome `{UnicodeTables} (E : Env) (prefix : string) (w : W)
    (Hvalid : Validate (config (ws w)) = Ok tt) :
  let '(r, w') := runBackfillShard E prefix w in
  shard_outcome (config (ws w)) (Z.to_nat (BackfillMaxBatchesPerShard (config (ws w)))) 0 r w w' /\
  0 <= fst r <= 500 * BackfillMaxBatchesPerShard (config (ws w)).
Proof.
  unfold runBackfillShard. apply Validate_ok in Hvalid. destruct Hvalid.
  pose proof (backfill_loop_outcome E prefix (Z.to_nat (BackfillMaxBatchesPerShard (config (ws w)))) 0 w) as Hl.
  destruct (backfill_loop E _ prefix 0 w) as [r w'].
  specialize (Hl ltac:(lia) ltac:(unfold max_int64; lia)). split; [done|].
  destruct Hl as (bs&ex&Hf&Hn&Hr&_). rewrite Hr. apply Forall_app in Hf as [Hf _].
  pose proof (batch_rows_bound _ _ Hf Hn). lia.
Qed.

(** ** The report *)

Lemma wrap64_add_l a b : wrap64 (wrap64 a + b) = wrap64 (a + b).
Proof.
  unfold wrap64.
  set (m := 18446744073709551616). set (h := 9223372036854775808).
  assert ((a + h) mod m - h + b + h = (a + h) mod m + b) as -> by lia.
  rewrite Z.add_mod_idemp_l by (unfold m; lia). f_equal. f_equal. lia.
Qed.

Definition collect_one (acc : Z * BackfillReport) (r : shardResult) : Z * BackfillReport :=
  let '(prefix, (count, err)) := r in
  (fst acc + 1,
   mkBackfillReport (wrap64 (b_Embedded (snd acc) + count))
     (match err with
      | Some e => <[prefix := e]> (b_Failures (snd acc))
      | None => b_Failures (snd acc)
      end)).

Lemma collect_fold results n report :
  collect results n report = fold_left collect_one results (n, report).
Proof.
  revert n report. induction results as [|[p [c err]] results IH]; intros n report; [done|].
  simpl. rewrite IH. done.
Qed.

Lemma collect_one_swap acc x y :
  fst x <> fst y -> collect_one (collect_one acc x) y = collect_one (collect_one acc y) x.
Proof.
  destruct acc as [n [emb fl]], x as [p1 [c1 e1]], y as [p2 [c2 e2]]. simpl. intros Hne.
  f_equal. f_equal.
  - rewrite !wrap64_add_l. f_equal. lia.
  - destruct e1, e2; try done. by apply insert_insert_ne.
Qed.

Lemma fold_collect_perm l1 l2 acc :
  l1 ≡ₚ l2 -> NoDup (map fst l1) -> fold_left collect_one l1 acc = fold_left collect_one l2 acc.
Proof.
  intros Hp. revert acc. induction Hp as [|x l l' _ IH|x y l|l l' l'' Hp1 IH1 _ IH2]; intros acc Hnd.
  - done.
  - simpl. apply IH. by inversion Hnd.
  - simpl in *. rewrite collect_one_swap; [done|].
    inversion Hnd as [|? ? Hn]; subst. intros E. apply Hn. rewrite E. by left.
  - rewrite IH1 by done. apply IH2.
    eapply NoDup_Permutation_proper; [by apply Permutation_map, Permutation_sym|done].
Qed.

Lemma fold_collect_failures l acc p :
  NoDup (map fst l) ->
  b_Failures (snd (fold_left collect_one l acc)) !! p =
  match list_find (fun r => fst r = p) l with
  | Some (_, (_, (_, Some e))) => Some e
  | _ => b_Failures (snd acc) !! p
  end.
Proof.
  revert acc. induction l as [|[p' [c err]] l IH]; intros acc Hnd; [done|].
  inversion Hnd as [|? ? Hn Hnd']; subst. cbn [fold_left]. rewrite IH by done. simpl.
  case_decide as Ep; simpl in Ep.
  - subst p'.
    destruct (list_find _ l) as [[i r]|] eqn:Ef; simpl.
    + exfalso. apply list_find_Some in Ef as (Hl&E&_). apply Hn. simpl. rewrite <- E.
      apply list_elem_of_fmap. exists r. split; [done|]. by eapply list_elem_of_lookup_2.
    + destruct err as [e|]; [by rewrite lookup_insert_eq|done].
  - destruct (list_find _ l) as [[i [? [? [e|]]]]|]; simpl; try done;
      destruct err as [e'|]; try done; by rewrite lookup_insert_ne.
Qed.

(** The result of [Backfill] does not depend on the order in which the
    shards finish. When the context is live at the end and every shard ran, the
    run succeeds and its failures are exactly those of the shard runs. *)
Theorem backfill_order_free `{UnicodeTables} (E : Env) (shard_env : string -> Env)
    (a1 a2 : list string) (w : W) (Hperm : a1 ≡ₚ a2) (Hnodup : NoDup a1) :
  Backfill E shard_env a1 w = Backfill E shard_env a2 w /\
  forall report w', Backfill E shard_env a1 w = ((report, None), w') ->
    forall p, p ∈ a1 -> b_Failures report !! p = snd (snd (shard_job shard_env (ws w) p)).
Proof.
  assert (forall s, map fst (map (shard_job shard_env s) a1) = a1) as Hkeys.
  { intros s. rewrite map_map. simpl. by rewrite map_id. }
  unfold Backfill. pose proof (quiet_contextError E w) as H1.
  destruct (contextError E w) as [[[]|e] w1]; simpl in H1; [|done].
  rewrite (quiet_ws _ _ H1). case_match; [done|].
  rewrite !collect_fold.
  rewrite (fold_collect_perm _ (map (shard_job shard_env (ws w)) a2));
    [|by apply Permutation_map|by rewrite Hkeys].
  split; [done|]. intros report w' Hrun p Hp.
  rewrite <- (fold_collect_perm (map (shard_job shard_env (ws w)) a1)) in Hrun;
    [|by apply Permutation_map|by rewrite Hkeys].
  pose proof (fold_collect_failures (map (shard_job shard_env (ws w)) a1) (0, mkBackfillReport 0 ∅) p) as Hf.
  destruct (fold_left _ _ _) as [completed rep].
  assert (report = rep) as -> by (break_all Hrun; done).
  simpl in Hf. rewrite Hf by (by rewrite Hkeys).
  destruct (list_find _ _) as [[i [p' [c err]]]|] eqn:Ef.
  - apply list_find_Some in Ef as (Hl&E'&_). simpl in E'. subst p'.
    apply list_lookup_fmap_Some in Hl as (p'&Hj&_). unfold shard_job in Hj at 1.
    injection Hj as -> Hj. simpl. rewrite <- Hj. simpl. by destruct err.
  - apply list_find_None in Ef. exfalso. rewrite Forall_forall in Ef.
    apply (Ef (shard_job shard_env (ws w) p)); [|done]. apply list_elem_of_fmap. eauto.
Qed.

(** *** The shards partition the identifiers *)

Definition all_ascii : list ascii := map ascii_of_nat (seq 0 256).
Lemma all_ascii_complete c : c ∈ all_ascii.
Proof.
  apply list_elem_of_In, in_map_iff. exists (nat_of_ascii c).
  split; [apply ascii_nat_embedding|]. apply in_seq. pose proof (nat_ascii_bounded c). lia.
Qed.

Lemma shards_complete_check :
  forallb (fun a => negb (is_lower_hex a) || forallb (fun b =>
    negb (is_lower_hex b) || existsb (String.eqb (String a (String b ""))) BackfillShards) all_ascii) all_ascii = true.
Proof. vm_compute. reflexivity. Qed.

Lemma shards_complete a b :
  is_lower_hex a = true -> is_lower_hex b = true -> String a (String b "") ∈ BackfillShards.
Proof.
  intros Ha Hb. pose proof shards_complete_check as H. rewrite forallb_Forall, Forall_forall in H.
  specialize (H a (all_ascii_complete a)). rewrite Ha in H. simpl negb in H. rewrite orb_false_l in H.
  rewrite forallb_Forall, Forall_forall in H. specialize (H b (all_ascii_complete b)).
  rewrite Hb in H. simpl negb in H. rewrite orb_false_l in H.
  apply existsb_exists in H as (s&Hin&->%String.eqb_eq). by apply list_elem_of_In.
Qed.

Lemma shards_length_check : forallb (fun p => len p =? 2) BackfillShards = true.
Proof. vm_compute. reflexivity. Qed.

(** The 256 backfill shards are distinct, and every identifier that the
    deferred strategy accepts starts with exactly one of them, so a full
    backfill reads each unembedded chunk through exactly one shard. *)
Theorem shards_partition_ids :
  length BackfillShards = 256%nat /\ NoDup BackfillShards /\
  forall id, hasLowerHexShardPrefix id = true ->
    exists p, p ∈ BackfillShards /\ HasPrefix id p = true /\
      forall p', p' ∈ BackfillShards -> HasPrefix id p' = true -> p' = p.
Proof.
  split; [reflexivity|]. split; [by apply (bool_decide_unpack _); vm_compute|].
  intros id Hid. destruct id as [|a [|b id]]; try done. simpl in Hid. to_prop.
  exists (String a (String b "")). split; [by apply shards_complete|]. split.
  - apply (prefix_append (String a (String b "")) id).
  - intros p' Hp Hpre. pose proof shards_length_check as Hl.
    rewrite forallb_Forall, Forall_forall in Hl. specialize (Hl _ Hp). apply Z.eqb_eq in Hl.
    destruct p' as [|x [|y [|z p']]]; try done; [|unfold len in Hl; simpl in Hl; lia].
    unfold HasPrefix in Hpre. simpl in Hpre. repeat case_match; by subst.
Qed.

(** ** Limits that meet *)

Lemma backfill_rows_length rows chunks : backfillRows rows = Ok chunks -> length chunks = length rows.
Proof. intros H. by apply backfill_rows_ok in H as [? _]. Qed.

(** The configuration accepts backfill batches of up to 2000 rows, but a
    batch in which the table returns more than 500 rows is always refused by the
    upsert planner: the iteration fails and nothing is embedded. *)
Theorem backfill_batch_over_500_fails `{UnicodeTables} (E : Env) (prefix : string) (w : W)
    (Hrows : forall l s rows, exec_Query E l s = Ok rows -> (500 < length rows)%nat) :
  exists e w', backfill_batch E prefix w = (Fail e, w') /\ quiet w w'.
Proof.
  unfold backfill_batch, st_try at 1. pose proof (quiet_contextError E w) as H1.
  destruct (contextError E w) as [[[]|e] w1]; simpl in H1; [|by eauto].
  unfold st_bind at 1, get_store, st_try at 1, lift at 1.
  destruct (BuildBackfillReadPlan (config (ws w1)) prefix) as [stm|e]; [|by eauto].
  unfold st_try at 1, wrapping at 1. pose proof (quiet_Query E stm w1) as H2. unfold Query_ in *.
  pose proof (transitivity H1 H2) as H12.
  destruct (exec_Query E (log w1) stm) as [rows|e] eqn:Er; simpl in H12; [|by eauto].
  specialize (Hrows _ _ _ Er). destruct rows as [|row rows]; [simpl in Hrows; lia|].
  unfold st_try, lift. destruct (backfillRows (row :: rows)) as [chunks|e] eqn:Eb; [|by eauto].
  apply backfill_rows_length in Eb.
  destruct (BuildUpsertPlan _ chunks) as [plan|e] eqn:Ep; [|by eauto].
  apply BuildUpsertPlan_iff in Ep as (_&Hl&_). lia.
Qed.

(** ** Concrete inputs *)

Definition deferred_config : Config :=
  let c := productionStoreConfig "history-prod" "rag" "conversations" in
  mkConfig (Project c) (Instance_ c) (Database c) (ModelProject c) (ModelLocation c)
    EmbeddingDeferred (RemoteModel c) (EmbeddingModel c) (EmbeddingDimension c)
    (DocumentTaskType c) (QueryTaskType c) (RemoteRPCBatch c) (EnableFullText c) (EnableANN c)
    (UseANN c) (VectorIndexLeaves c) (NumLeavesToSearch c) (HybridCandidateLimit c) (RRFK c)
    (MaxSearchLimit c) (BackfillConcurrency c) 2000 (BackfillInterval c)
    (BackfillMaxBatchesPerShard c) (StatsCacheTTL c).

Definition sample_chunk : Chunk :=
  mkChunk "0a17" "hello" [] "turn" "session" "/work/app" "app" (time_Unix_UTC 1) "" "" "" "" "" "log.jsonl"
    3 "" [] "laptop".

(** Case mapping that leaves strings outside ASCII alone. *)
#[local] Instance ascii_tables : UnicodeTables := fun s => s.

(** An environment in which every read returns [rows] and every write works. *)
Definition sample_env (rows : list Row) : Env :=
  mkEnv false (fun _ => None) (fun _ => zero_time) (fun _ _ => Ok rows) (fun _ _ => Ok 1) (fun _ _ => None)
    (fun _ => None) (fun _ => 1%nat) (fun _ _ => Ok 1) (fun _ e => e) (fun _ => None) (fun _ _ => None)
    (fun _ => None).
Definition sample_store : SpannerStore := mkStore deferred_config false false None false None None.


Lemma backfill_rows_roundtrip_witness :
  backfillRows [chunkValues sample_chunk false] = Ok [stored_form sample_chunk].
Proof.
  apply (backfill_rows_roundtrip [sample_chunk]). constructor; [|constructor].
  split; [apply validateChunk_iff; reflexivity|reflexivity].
Defined.

Lemma backfill_shard_outcome_witness :
  let '(r, w') := runBackfillShard (sample_env [chunkValues sample_chunk false]) "0a" (mkW sample_store []) in
  shard_outcome deferred_config 1000 0 r (mkW sample_store []) w' /\ 0 <= fst r <= 500 * 1000.
Proof.
  apply (backfill_shard_outcome (sample_env [chunkValues sample_chunk false]) "0a" (mkW sample_store [])).
  vm_compute. reflexivity.
Defined.

Lemma backfill_order_free_witness :
  Backfill (sample_env []) (fun _ => sample_env []) ["00"; "01"] (mkW sample_store []) =
  Backfill (sample_env []) (fun _ => sample_env []) ["01"; "00"] (mkW sample_store []).
Proof.
  apply (backfill_order_free (sample_env []) (fun _ => sample_env []) ["00"; "01"] ["01"; "00"]).
  - apply perm_swap.
  - apply (bool_decide_unpack _). vm_compute. exact I.
Defined.

Lemma backfill_batch_over_500_fails_witness :
  Validate deferred_config = Ok tt /\
  exists e w',
    backfill_batch (sample_env (replicate 501 (chunkValues sample_chunk false))) "0a" (mkW sample_store []) = (Fail e, w').
Proof.
  split; [vm_compute; reflexivity|].
  destruct (backfill_batch_over_500_fails (sample_env (replicate 501 (chunkValues sample_chunk false)))
              "0a" (mkW sample_store [])) as (e&w'&He&_).
  - intros l s rows Hr. simpl in Hr. injection Hr as <-. apply Nat.ltb_lt. vm_compute. reflexivity.
  - exists e, w'. exact He.
Defined.
