(* ===== verification/Watch.v ===== *)
(** * The watcher's registry, pinned roots and environment

    [internal/history/watch/registry.go] and [root.go] (unix build). What the
    source parsers promise to the watcher is the class [Sources]; what the
    operating system, the sink and the state directory answer is an environment
    that sees the log of everything done so far. *)
From Stdlib Require Import ZArith Lia Bool.
From Stdlib Require Import String Ascii.
From stdpp Require Import base tactics option list gmap strings.
From S2P Require Import Prelude GoStrings GoPath StoreTypes.
Open Scope Z_scope.

(** ** Source kinds *)

(** [SourceKind] is a string in Go. *)
Definition SourceClaude : string := "claude".
Definition SourceCodex : string := "codex".
Definition SourceChatGPT : string := "chatgpt".
Definition SourceGemini : string := "gemini".
Definition SourceAntigravity : string := "antigravity".
Definition SourceClaudeApp : string := "claudeapp".

Definition ErrUnsupportedSource : error := Sentinel "unsupported history source".

Record Registry : Type := mkRegistry { MachineID : string; MaxBytes : Z }.

Definition Detect (r : Registry) (path : string) : result string :=
  let base := Base path in
  let clean := path in
  if (base ==s "conversations.json") && Contains clean "claude-app" then Ok SourceClaudeApp
  else if base ==s "conversations.json" then Ok SourceChatGPT
  else if (base ==s "transcript_full.jsonl") || HasSuffix base ".pb" then Ok SourceAntigravity
  else if (base ==s "logs.json") || Contains clean "/chats/" then Ok SourceGemini
  else if HasSuffix base ".jsonl" && Contains clean "codex" then Ok SourceCodex
  else if HasSuffix base ".jsonl" then Ok SourceClaude
  else Fail ErrUnsupportedSource.

(** ** The parsers' interface

    The parts of the parsers' results that the watcher reads. *)

Record ClaudeEntry : Type := mkClaudeEntry {
  ce_SessionID : string;
  ce_HasMessage : bool;
  ce_Summary : string;
  ce_CompactSummary : bool;
  ce_HasTimestamp : bool;
  ce_Timestamp : Time
}.
(** [xe_PayloadID] is [Payload["id"].(string)], empty when absent. *)
Record CodexEvent : Type := mkCodexEvent {
  xe_Type : string;
  xe_PayloadID : string;
  xe_HasTime : bool;
  xe_Timestamp : Time
}.
(** A Gemini message or log event, or an Antigravity event. *)
Record TimedItem : Type := mkTimedItem {
  ti_SessionID : string;
  ti_HasTime : bool;
  ti_Timestamp : Time
}.
Record GeminiDocument : Type := mkGeminiDocument {
  gd_SessionID : string;
  gd_Messages : list TimedItem;
  gd_Events : list TimedItem
}.
Record ConvMessage : Type := mkConvMessage {
  cm_Content : string;
  cm_HasTime : bool;
  cm_Timestamp : Time
}.
Record Conversation : Type := mkConversation {
  cv_ID : string;
  cv_Messages : list ConvMessage
}.

(** The [Source] argument of the parsers. *)
Record Source : Type := mkSource {
  src_FilePath : string;
  src_MachineID : string;
  src_MaxBytes : Z;
  src_Binary : bool
}.

(** Parsers take the content and a byte limit and give a value with the reasons
    of the issues they met, or an error; chunkers give chunks or an error. *)
Class Sources : Type := {
  claude_Parse : string -> Z -> result (list ClaudeEntry * list string);
  codex_Parse : string -> Z -> result (list CodexEvent * list string);
  gemini_Parse : string -> Z -> result (GeminiDocument * list string);
  antigravity_Parse : string -> Z -> result (list TimedItem * list string);
  chatgpt_Parse : string -> Z -> result (list Conversation * list string);
  claudeapp_Parse : string -> Z -> result (list Conversation * list string);
  claude_Chunks : string -> Source -> result (list Chunk);
  codex_Chunks : string -> Source -> result (list Chunk);
  gemini_Chunks : string -> Source -> result (list Chunk);
  antigravity_Chunks : string -> Source -> result (list Chunk);
  chatgpt_Chunks : string -> Source -> result (list Chunk);
  claudeapp_Chunks : string -> Source -> result (list Chunk)
}.

Definition Dispatch `{Sources} (r : Registry) (kind input path : string) : result (list Chunk) :=
  let source := mkSource path (MachineID r) (MaxBytes r) in
  if kind ==s SourceClaude then claude_Chunks input (source false)
  else if kind ==s SourceCodex then codex_Chunks input (source false)
  else if kind ==s SourceChatGPT then chatgpt_Chunks input (source false)
  else if kind ==s SourceGemini then gemini_Chunks input (source false)
  else if kind ==s SourceAntigravity then antigravity_Chunks input (source (HasSuffix path ".pb"))
  else if kind ==s SourceClaudeApp then claudeapp_Chunks input (source false)
  else Fail ErrUnsupportedSource.

(** ** Pinned roots *)

Definition MaxSourceSnapshotBytes : Z := 536870912.

Definition ErrUnsafeRoot : error := Sentinel "unsafe watch root".
Definition ErrRootUnbound : error := Sentinel "watch root is unbound".
Definition ErrOutsideRoot : error := Sentinel "source is outside watch root".
Definition ErrSourceChanged : error := Sentinel "watch source changed during snapshot".
Definition ErrInvalidLimit : error := Sentinel "invalid watch snapshot limit".

(** Two [uint64] values. *)
Record RootIdentity : Type := mkIdentity { Volume : Z; Object : Z }.
#[global] Instance RootIdentity_eq_dec : EqDecision RootIdentity.
Proof. solve_decision. Defined.
Definition zero_identity : RootIdentity := mkIdentity 0 0.

(** [pr_bound] is the identity the platform part is bound to. *)
Record PinnedRoot : Type := mkPinnedRoot {
  pr_path : string;
  pr_closed : bool;
  pr_bound : option RootIdentity
}.

(** The private copy of a source: what was read, and where it came from. *)
Record Snapshot : Type := mkSnapshot {
  sn_content : string;
  sn_sourcePath : string;
  sn_identity : RootIdentity;
  sn_size : Z;
  sn_digest : string
}.

Definition NewPinnedRoot (path : string) : result PinnedRoot :=
  if negb (IsAbs path) || (Clean path !=s path) then Fail ErrUnsafeRoot
  else Ok (mkPinnedRoot path false None).

Definition IsBound (r : PinnedRoot) : bool :=
  negb (pr_closed r) && match pr_bound r with Some _ => true | None => false end.

Definition Identity (r : PinnedRoot) : option RootIdentity :=
  if pr_closed r then None else pr_bound r.

Definition relativeParts (root candidate : string) : result (list string) :=
  if negb (IsAbs candidate) || (Clean candidate !=s candidate) then Fail ErrOutsideRoot
  else
    match Rel root candidate with
    | None => Fail ErrOutsideRoot
    | Some relative =>
        if (relative ==s ".") || IsAbs relative then Fail ErrOutsideRoot
        else
          let parts := Split slash relative in
          match parts with
          | [] => Fail ErrOutsideRoot
          | _ =>
              if existsb (fun part => (part ==s "") || (part ==s ".") || (part ==s "..")) parts
              then Fail ErrOutsideRoot else Ok parts
          end
    end.

(** ** Environment *)

(** An entry [filepath.WalkDir] visits; [v_err] is the [walkErr] argument. *)
Record visit : Type := mkVisit {
  v_path : string;
  v_err : option error;
  v_symlink : bool;
  v_dir : bool;
  v_regular : bool
}.

Inductive wevent : Type :=
| WCtx (err : option error)
| WNow (t : Time)
| WWalk (root : string)
| WBind (path : string) (r : result (option RootIdentity))
| WVerify (path : string) (err : option error)
| WIdentity (path : string) (r : result RootIdentity)
| WSnapshot (path : string) (r : result Snapshot)
| WCloseSnapshot (err : option error)
| WCloseRoot (path : string) (err : option error)
| WUpsert (path : string) (source : RootIdentity) (chunks : list Chunk) (err : option error)
| WPersist (payload : string) (err : option error)
| WExists (r : result bool)
| WRead (r : result string).

(** What the platform, the sink and the state directory answer after a log. *)
Record WEnv : Type := mkWEnv {
  e_ctx : list wevent -> option error;
  e_now : list wevent -> Time;
  e_walk : list wevent -> string -> list visit;
  e_bind : list wevent -> string -> result (option RootIdentity);
  e_verify : list wevent -> string -> option error;
  e_identity : list wevent -> string -> list string -> result RootIdentity;
  e_snapshot : list wevent -> string -> list string -> Z -> result Snapshot;
  e_close_snapshot : list wevent -> option error;
  e_close_root : list wevent -> string -> option error;
  e_upsert : list wevent -> list Chunk -> option error;
  e_persist : list wevent -> string -> option error;
  e_exists : list wevent -> result bool;
  e_read : list wevent -> result string
}.

(** Computations over a state [S] and the log, newest event first. *)
Definition WM (S A : Type) : Type := st (S * list wevent) (result A).

Definition w_ret {S A} (a : A) : WM S A := fun w => (Ok a, w).
Definition w_fail {S A} (e : error) : WM S A := fun w => (Fail e, w).
Definition w_lift {S A} (r : result A) : WM S A := fun w => (r, w).
Definition w_get {S} : st (S * list wevent) S := fun w => (fst w, w).
Definition w_put {S} (s : S) : st (S * list wevent) unit := fun w => (tt, (s, snd w)).
(** A call of the environment: its answer to the log, recorded. *)
Definition w_call {S A} (ask : list wevent -> A) (ev : A -> wevent) : st (S * list wevent) A := fun w =>
  let a := ask (snd w) in (a, (fst w, ev a :: snd w)).
Definition w_wrap {S A} (format : string) (m : WM S A) : WM S A := fun w =>
  match m w with
  | (Ok a, w') => (Ok a, w')
  | (Fail e, w') => (Fail (Wrapf format [] e), w')
  end.
(** A call that only returns an error. *)
Definition w_err {S} (m : st (S * list wevent) (option error)) : WM S unit := fun w =>
  let '(e, w') := m w in (err_result e, w').

Section Roots.
Context (E : WEnv) {S : Type}.

Definition ctx_Err : WM S unit := w_err (w_call (e_ctx E) WCtx).
Definition closeSnapshot : WM S unit := w_err (w_call (e_close_snapshot E) WCloseSnapshot).

(** [Bind]: the new state of the root and whether it is bound. *)
Definition Bind (r : PinnedRoot) : WM S (PinnedRoot * bool) :=
  if pr_closed r then w_fail os_ErrClosed
  else
    let? b := w_call (fun l => e_bind E l (pr_path r)) (WBind (pr_path r)) in
    match b with
    | Some id => w_ret (mkPinnedRoot (pr_path r) false (Some id), true)
    | None => w_ret (mkPinnedRoot (pr_path r) false None, false)
    end.

Definition Verify (r : PinnedRoot) : WM S unit :=
  if pr_closed r then w_fail os_ErrClosed
  else w_err (w_call (fun l => e_verify E l (pr_path r)) (WVerify (pr_path r))).

Definition Snapshot_ (r : PinnedRoot) (candidate : string) (maxBytes : Z) : WM S Snapshot :=
  if (maxBytes <? 0) || (MaxSourceSnapshotBytes <? maxBytes) then w_fail ErrInvalidLimit
  else
    let? parts := w_lift (relativeParts (pr_path r) candidate) in
    if pr_closed r then w_fail os_ErrClosed
    else match pr_bound r with
         | None => w_fail ErrRootUnbound
         | Some _ => w_call (fun l => e_snapshot E l candidate parts maxBytes) (WSnapshot candidate)
         end.

(** [forwardSourceIdentity]: the checks before the platform resolves the path
    below the held root. *)
Definition forwardSourceIdentity (r : PinnedRoot) (candidate : string) : WM S RootIdentity :=
  let? parts := w_lift (relativeParts (pr_path r) candidate) in
  if pr_closed r then w_fail os_ErrClosed
  else w_call (fun l => e_identity E l candidate parts) (WIdentity candidate).

End Roots.

(** ** Lemmas *)

Lemma relativeParts_ok root candidate parts :
  relativeParts root candidate = Ok parts ->
  abs_clean candidate = true /\ parts <> [] /\
  Forall (fun p => p <> "" /\ p <> "." /\ p <> "..") parts /\
  Rel root candidate = Some (Join parts "/").
Proof.
  unfold relativeParts, abs_clean. rewrite if_fail_ok.
  intros [Hc H]. destruct (Rel root candidate) as [rel|] eqn:Er; [|done].
  rewrite if_fail_ok in H. destruct H as [_ H].
  pose proof (Join_Split slash rel) as Hj.
  destruct (Split slash rel) as [|p ps] eqn:Es; [done|]. rewrite if_fail_ok in H.
  destruct H as [He [= <-]]. apply existsb_false_Forall in He.
  split; [apply orb_false_iff in Hc as [->%negb_false_iff ->%negb_false_iff]; done|].
  split; [done|]. split; [|by rewrite <- Hj].
  eapply Forall_impl; [exact He|]. intros x Hx. simpl in Hx. by to_prop.
Qed.

Lemma Detect_error r path e : Detect r path = Fail e -> e = ErrUnsupportedSource.
Proof. unfold Detect. intros H. repeat case_match; congruence. Qed.
