(* ===== verification/Forward.v ===== *)
(** * The forward watcher

    [internal/history/watch/forward.go]: a producer that only uploads sources
    that appeared after a durable cutoff. Existing sources, refused sources and
    their sessions are excluded for ever; uploaded content is remembered by
    digest. [encoding/json] enters through [ForwardCodec]. *)
From Stdlib Require Import ZArith Lia Bool.
From Stdlib Require Import String Ascii.
From stdpp Require Import base tactics option list gmap strings.
From S2P Require Import Prelude GoStrings GoPath StoreTypes JsonKeys Watch.
Open Scope Z_scope.

(** ** State *)

Definition forwardStateVersion : Z := 1.
Definition maxForwardStateBytes : Z := 134217728.
Definition MaxFilesPerScan : Z := 1024.
Definition ErrScanLimit : error := Sentinel "watch scan exceeds file limit".

Record forwardRootState : Type := mkRootState { rs_Path : string; rs_Volume : Z; rs_Object : Z }.
#[global] Instance forwardRootState_eq_dec : EqDecision forwardRootState.
Proof. solve_decision. Defined.

(** A Go map is [None] when nil. *)
Record forwardState : Type := mkForward {
  Version : Z;
  Cutoff : Time;
  Roots : list forwardRootState;
  ExcludedPaths : option (gmap string bool);
  ExcludedObjects : option (gmap string bool);
  ExcludedSessions : option (gmap string bool);
  Progress : option (gmap string string)
}.
#[global] Instance forwardState_eq_dec : EqDecision forwardState.
Proof. solve_decision. Defined.

(** [json.Marshal] of a state, the tokens of a payload, and strict decoding of a
    payload ([DisallowUnknownFields], nothing after the value). *)
Class ForwardCodec : Type := {
  forward_Marshal : forwardState -> result string;
  json_tokens : string -> decoder;
  forward_Decode : string -> result forwardState
}.

Inductive forwardEligibility : Type := forwardWait | forwardAccept | forwardRefuse.

(** ** Identities and sessions *)

Definition forwardIdentityKey (identity : RootIdentity) : string :=
  hex_fixed 16 (Volume identity) +:+ ":" +:+ hex_fixed 16 (Object identity).

(** [n] hexadecimal digits of either case, and what follows. *)
Fixpoint hex_run (n : nat) (s : string) : option string :=
  match n with
  | O => Some s
  | S n => match s with
           | String c r => if is_hex c then hex_run n r else None
           | EmptyString => None
           end
  end.
Definition dash (s : string) : option string :=
  match s with
  | String c r => if Ascii.eqb c "-" then Some r else None
  | EmptyString => None
  end.
(** The session expression matches at the start of [s]. *)
Definition session_at (s : string) : bool :=
  match (s ← hex_run 8 s; s ← dash s; s ← hex_run 4 s; s ← dash s; s ← hex_run 4 s; s ← dash s;
         s ← hex_run 4 s; s ← dash s; hex_run 12 s) with
  | Some _ => true
  | None => false
  end.
(** The leftmost match of [forwardSessionID], or nothing. *)
Fixpoint find_session (s : string) : string :=
  if session_at s then slice s 0 36
  else match s with
       | EmptyString => ""
       | String _ r => find_session r
       end.

Definition sessionIDFromPath `{UnicodeTables} (path : string) : string := ToLower (find_session (Base path)).

(** [^[0-9a-f]{16}:[0-9a-f]{16}$] *)
Definition forwardObjectID (s : string) : bool :=
  (len s =? 33) && sforall is_lower_hex (slice s 0 16) && (slice s 16 17 ==s ":") &&
  sforall is_lower_hex (slice s 17 33).

Definition reliableForwardSession (session : string) : bool :=
  if (session ==s "") || (session ==s "unknown") || (session ==s "gemini-session") || (session ==s "gemini-logs")
  then false
  else negb (sforall is_digit session).

Definition containsExcludedSession `{UnicodeTables} (excluded : option (gmap string bool)) (sessions : list string) : bool :=
  existsb (fun session => mget excluded (ToLower (TrimSpace session))) sessions.

(** ** Validation and cloning of the state *)

Fixpoint roots_valid (previous : option string) (roots : list forwardRootState) : bool :=
  match roots with
  | [] => true
  | r :: rest =>
      IsAbs (rs_Path r) && (Clean (rs_Path r) ==s rs_Path r) &&
      match previous with Some p => String.ltb p (rs_Path r) | None => true end &&
      roots_valid (Some (rs_Path r)) rest
  end.

Definition digest_valid (digest : string) : bool :=
  match hex_decode digest with
  | Some decoded => len decoded =? 32
  | None => false
  end.

Definition validateForwardState (s : forwardState) : result unit :=
  match ExcludedPaths s, ExcludedObjects s, ExcludedSessions s, Progress s with
  | Some paths, Some objects, Some sessions, Some progress =>
      if negb (Version s =? forwardStateVersion) || IsZero (Cutoff s) || bool_decide (Roots s = []) then
        Fail (errors_New "forward state is invalid")
      else if negb (roots_valid None (Roots s)) then Fail (errors_New "forward state roots are invalid")
      else if negb (forallb (fun '(path, excluded) => excluded && IsAbs path && (Clean path ==s path))
                      (map_to_list paths)) then
        Fail (errors_New "forward state exclusions are invalid")
      else if negb (forallb (fun '(key, excluded) => excluded && forwardObjectID key)
                      (map_to_list objects)) then
        Fail (errors_New "forward state object exclusions are invalid")
      else if negb (forallb (fun '(session, excluded) => excluded && (TrimSpace session !=s ""))
                      (map_to_list sessions)) then
        Fail (errors_New "forward state session exclusions are invalid")
      else if negb (forallb (fun '(path, digest) => IsAbs path && (Clean path ==s path) && digest_valid digest)
                      (map_to_list progress)) then
        Fail (errors_New "forward state progress is invalid")
      else Ok tt
  | _, _, _, _ => Fail (errors_New "forward state is invalid")
  end.

Definition cloneBoolMap (source : option (gmap string bool)) : gmap string bool := default ∅ source.

(** [cloneForwardState]: the clone's maps are never nil. *)
Definition cloneForwardState (s : forwardState) : forwardState :=
  mkForward (Version s) (Cutoff s) (Roots s) (Some (cloneBoolMap (ExcludedPaths s)))
    (Some (cloneBoolMap (ExcludedObjects s))) (Some (cloneBoolMap (ExcludedSessions s)))
    (Some (default ∅ (Progress s))).

(** Assignment to a map that is not nil. *)
Definition mset {A} (m : option (gmap string A)) (k : string) (v : A) : option (gmap string A) :=
  match m with
  | Some m => Some (<[k := v]> m)
  | None => None
  end.

Definition exclude_path (s : forwardState) (path : string) : forwardState :=
  mkForward (Version s) (Cutoff s) (Roots s) (mset (ExcludedPaths s) path true) (ExcludedObjects s)
    (ExcludedSessions s) (Progress s).
Definition exclude_object (s : forwardState) (key : string) : forwardState :=
  mkForward (Version s) (Cutoff s) (Roots s) (ExcludedPaths s) (mset (ExcludedObjects s) key true)
    (ExcludedSessions s) (Progress s).
Definition exclude_session (s : forwardState) (session : string) : forwardState :=
  mkForward (Version s) (Cutoff s) (Roots s) (ExcludedPaths s) (ExcludedObjects s)
    (mset (ExcludedSessions s) session true) (Progress s).
Definition set_progress (s : forwardState) (path digest : string) : forwardState :=
  mkForward (Version s) (Cutoff s) (Roots s) (ExcludedPaths s) (ExcludedObjects s) (ExcludedSessions s)
    (mset (Progress s) path digest).

(** [tracker.state.Progress[path]]. *)
Definition progress_of (s : forwardState) (path : string) : string :=
  default "" (default ∅ (Progress s) !! path).

(** ** Eligibility *)

Definition classifyForwardTimes (times : list Time) (sessions : list string) (cutoff : Time)
  : forwardEligibility * list string :=
  match times with
  | [] => (forwardWait, sessions)
  | _ =>
      if existsb (fun t => IsZero t || Before t cutoff) times then (forwardRefuse, sessions)
      else (forwardAccept, Compact (sort_Strings sessions))
  end.

(** The loops over parsed items: they gather timestamps and sessions, and refuse
    at the first item without a timestamp. *)
Fixpoint claude_items (entries : list ClaudeEntry) (times : list Time) (sessions : list string)
  : (list Time * list string) + list string :=
  match entries with
  | [] => inl (times, sessions)
  | e :: rest =>
      let sessions := if ce_SessionID e !=s "" then sessions ++ [ce_SessionID e] else sessions in
      if negb (ce_HasMessage e || (TrimSpace (ce_Summary e) !=s "") || ce_CompactSummary e)
      then claude_items rest times sessions
      else if negb (ce_HasTimestamp e) then inr sessions
      else claude_items rest (times ++ [ce_Timestamp e]) sessions
  end.
Fixpoint codex_items (events : list CodexEvent) (times : list Time) (sessions : list string)
  : (list Time * list string) + list string :=
  match events with
  | [] => inl (times, sessions)
  | e :: rest =>
      let sessions := if (xe_Type e ==s "session_meta") && (xe_PayloadID e !=s "")
                      then sessions ++ [xe_PayloadID e] else sessions in
      if negb (xe_HasTime e) then inr sessions
      else codex_items rest (times ++ [xe_Timestamp e]) sessions
  end.
(** Items whose refusal names the session [refused] of the item. *)
Fixpoint timed_items (refused : TimedItem -> list string) (items : list TimedItem) (times : list Time)
  : list Time + list string :=
  match items with
  | [] => inl times
  | i :: rest =>
      if negb (ti_HasTime i) then inr (refused i)
      else timed_items refused rest (times ++ [ti_Timestamp i])
  end.
Fixpoint conversation_messages (messages : list ConvMessage) (times : list Time) : option (list Time) :=
  match messages with
  | [] => Some times
  | m :: rest =>
      if TrimSpace (cm_Content m) ==s "" then conversation_messages rest times
      else if negb (cm_HasTime m) then None
      else conversation_messages rest (times ++ [cm_Timestamp m])
  end.
Fixpoint conversation_items (conversations : list Conversation) (times : list Time) (sessions : list string)
  : (list Time * list string) + list string :=
  match conversations with
  | [] => inl (times, sessions)
  | c :: rest =>
      let sessions := sessions ++ [cv_ID c] in
      match conversation_messages (cv_Messages c) times with
      | None => inr sessions
      | Some times => conversation_items rest times sessions
      end
  end.

(** Issues: an invalid timestamp refuses the source, any other delays it. *)
Definition issues_verdict (issues : list string) : option forwardEligibility :=
  if existsb (String.eqb "invalid_timestamp") issues then Some forwardRefuse
  else match issues with [] => None | _ => Some forwardWait end.

(** [strings.EqualFold(s, ".pb")]; no rune outside ASCII folds to [p] or [b]. *)
Definition is_pb (s : string) : bool := smap lower_byte s ==s ".pb".

Definition inspectForwardEligibility `{Sources} `{UnicodeTables} (kind : string) (snapshot : Snapshot) (cutoff : Time)
  : forwardEligibility * list string :=
  let finish (r : (list Time * list string) + list string) :=
    match r with
    | inl (times, sessions) => classifyForwardTimes times sessions cutoff
    | inr sessions => (forwardRefuse, sessions)
    end in
  if kind ==s SourceClaude then
    match claude_Parse (sn_content snapshot) (sn_size snapshot) with
    | Fail _ => (forwardWait, [])
    | Ok (entries, issues) =>
        match issues_verdict issues with
        | Some v => (v, [])
        | None => finish (claude_items entries [] [])
        end
    end
  else if kind ==s SourceCodex then
    match codex_Parse (sn_content snapshot) (sn_size snapshot) with
    | Fail _ => (forwardWait, [])
    | Ok (events, issues) =>
        match issues_verdict issues with
        | Some v => (v, [])
        | None =>
            let session := sessionIDFromPath (sn_sourcePath snapshot) in
            finish (codex_items events [] (if session !=s "" then [session] else []))
        end
    end
  else if kind ==s SourceGemini then
    match gemini_Parse (sn_content snapshot) (sn_size snapshot) with
    | Fail _ => (forwardWait, [])
    | Ok (document, issues) =>
        if negb (bool_decide (issues = [])) then (forwardWait, [])
        else match timed_items (fun _ => [gd_SessionID document]) (gd_Messages document) [] with
             | inr sessions => (forwardRefuse, sessions)
             | inl times =>
                 match timed_items (fun e => [ti_SessionID e]) (gd_Events document) times with
                 | inr sessions => (forwardRefuse, sessions)
                 | inl times => classifyForwardTimes times [gd_SessionID document] cutoff
                 end
             end
    end
  else if kind ==s SourceAntigravity then
    if is_pb (Ext (sn_sourcePath snapshot)) then
      if sn_size snapshot =? 0 then (forwardWait, [])
      else (forwardRefuse, [sessionIDFromPath (sn_sourcePath snapshot)])
    else
      match antigravity_Parse (sn_content snapshot) (sn_size snapshot) with
      | Fail _ => (forwardWait, [])
      | Ok (events, issues) =>
          match issues_verdict issues with
          | Some v => (v, [])
          | None =>
              match timed_items (fun _ => []) events [] with
              | inr sessions => (forwardRefuse, sessions)
              | inl times => classifyForwardTimes times [] cutoff
              end
          end
      end
  else if kind ==s SourceChatGPT then
    match chatgpt_Parse (sn_content snapshot) (sn_size snapshot) with
    | Fail _ => (forwardWait, [])
    | Ok (conversations, issues) =>
        if negb (bool_decide (issues = [])) then (forwardWait, [])
        else finish (conversation_items conversations [] [])
    end
  else if kind ==s SourceClaudeApp then
    match claudeapp_Parse (sn_content snapshot) (sn_size snapshot) with
    | Fail _ => (forwardWait, [])
    | Ok (conversations, issues) =>
        if negb (bool_decide (issues = [])) then (forwardWait, [])
        else finish (conversation_items conversations [] [])
    end
  else (forwardWait, []).

(** ** Operations *)

Section Operations.
Context `{Sources} `{ForwardCodec} `{UnicodeTables} (E : WEnv) (registry : Registry).

Abbreviation FM := (WM forwardState).

Definition writeForwardState {S} (s : forwardState) : WM S unit :=
  let? payload := w_lift (forward_Marshal s) in
  if maxForwardStateBytes <? len payload then w_fail (errors_New "forward state exceeds size limit")
  else w_err (w_call (fun l => e_persist E l payload) (WPersist payload)).

Definition refuse_sessions (s : forwardState) (sessions : list string) : forwardState :=
  fold_left (fun next session =>
    let session := ToLower (TrimSpace session) in
    if reliableForwardSession session then exclude_session next session else next) sessions s.

Definition refuseForwardPath (path : string) (identity : RootIdentity) (sessions : list string) : FM unit :=
  let* state := w_get in
  let next := cloneForwardState state in
  let next := exclude_object (exclude_path next path) (forwardIdentityKey identity) in
  let next := refuse_sessions next sessions in
  let? _ := w_wrap "persist forward refusal: %w" (writeForwardState next) in
  let* _ := w_put next in
  w_ret tt.

(** The first chunk before the cutoff, or of an excluded session. *)
Definition refused_chunk (state : forwardState) (c : Chunk) : bool :=
  IsZero (c_Timestamp c) || Before (c_Timestamp c) (Cutoff state) ||
  mget (ExcludedSessions state) (ToLower (c_SessionID c)).

Definition processForwardPath (root : PinnedRoot) (path kind : string) (identity : RootIdentity) : FM unit :=
  let? snapshot := Snapshot_ E root path MaxSourceSnapshotBytes in
  let snapshotIdentity := sn_identity snapshot in
  let* state := w_get in
  if bool_decide (snapshotIdentity = zero_identity) || negb (bool_decide (snapshotIdentity = identity)) then
    let? _ := closeSnapshot E in w_fail ErrSourceChanged
  else if mget (ExcludedObjects state) (forwardIdentityKey snapshotIdentity) then closeSnapshot E
  else
    let digest := hex_encode (sn_digest snapshot) in
    if progress_of state path ==s digest then closeSnapshot E
    else
      let '(eligibility, sessions) := inspectForwardEligibility kind snapshot (Cutoff state) in
      match eligibility with
      | forwardWait => closeSnapshot E
      | _ =>
          if match eligibility with forwardRefuse => true | _ => false end
             || containsExcludedSession (ExcludedSessions state) sessions then
            let? _ := closeSnapshot E in
            refuseForwardPath path identity sessions
          else
            let dispatched := Dispatch registry kind (sn_content snapshot) path in
            let* closed := closeSnapshot E in
            let? chunks := w_lift dispatched in
            let? _ := w_lift closed in
            match chunks with
            | [] => w_ret tt
            | _ =>
                match find (refused_chunk state) chunks with
                | Some chunk => refuseForwardPath path identity (sessions ++ [c_SessionID chunk])
                | None =>
                    let? _ := w_err (w_call (fun l => e_upsert E l chunks) (WUpsert path snapshotIdentity chunks)) in
                    let next := set_progress (cloneForwardState state) path digest in
                    let? _ := w_wrap "persist forward progress: %w" (writeForwardState next) in
                    let* _ := w_put next in
                    w_ret tt
                end
            end
      end.

(** *** Walking *)

(** [fn] answers with its new accumulator and whether to skip the directory. *)
Fixpoint walk_list {S A} (fn : A -> visit -> WM S (A * bool)) (acc : A) (skip : option string) (vs : list visit)
  : WM S A :=
  match vs with
  | [] => w_ret acc
  | v :: rest =>
      if match skip with Some p => HasPrefix (v_path v) (p +:+ "/") | None => false end
      then walk_list fn acc skip rest
      else
        let? r := fn acc v in
        let '(acc, skipdir) := r in
        walk_list fn acc (if skipdir : bool then Some (v_path v) else skip) rest
  end.
Definition WalkDir {S A} (fn : A -> visit -> WM S (A * bool)) (acc : A) (root : string) : WM S A :=
  let* vs := w_call (fun l => e_walk E l root) (fun _ => WWalk root) in
  walk_list fn acc None vs.

(** The function [scanForward] walks with; the accumulator is [seen]. *)
Definition scan_visit (root : PinnedRoot) (seen : Z) (v : visit) : FM (Z * bool) :=
  match v_err v with
  | Some e => w_fail e
  | None =>
      let? _ := ctx_Err E in
      if v_symlink v then w_ret (seen, v_dir v)
      else if v_dir v || negb (v_regular v) then w_ret (seen, false)
      else
        match Detect registry (v_path v) with
        | Fail e => if errors_Is e ErrUnsupportedSource then w_ret (seen, false) else w_fail e
        | Ok kind =>
            let path := Clean (v_path v) in
            let* state := w_get in
            if mget (ExcludedPaths state) path then w_ret (seen, false)
            else
              let? identity := forwardSourceIdentity E root path in
              if mget (ExcludedObjects state) (forwardIdentityKey identity) then w_ret (seen, false)
              else
                let seen := seen + 1 in
                if MaxFilesPerScan <? seen then w_fail ErrScanLimit
                else
                  let? _ := processForwardPath root path kind identity in
                  w_ret (seen, false)
        end
  end.

Fixpoint scan_roots (roots : list PinnedRoot) (seen : Z) : FM Z :=
  match roots with
  | [] => w_ret seen
  | root :: rest =>
      let? seen := WalkDir (scan_visit root) seen (pr_path root) in
      scan_roots rest seen
  end.

(** [scanForward] up to [setReady], which records whether it failed. *)
Definition scanForward (roots : list PinnedRoot) : FM unit :=
  let? _ := scan_roots roots 0 in w_ret tt.

(** *** Construction *)

Fixpoint currentForwardRoots (roots : list PinnedRoot) : result (list forwardRootState) :=
  match roots with
  | [] => Ok []
  | r :: rest =>
      match Identity r with
      | None => Fail ErrRootUnbound
      | Some id =>
          l ← currentForwardRoots rest;
          Ok (mkRootState (pr_path r) (Volume id) (Object id) :: l)
      end
  end.

(** The function [baselineForwardPaths] walks with; it updates the state. *)
Definition baseline_visit (root : PinnedRoot) (_ : unit) (v : visit) : FM (unit * bool) :=
  match v_err v with
  | Some e => w_fail e
  | None =>
      if v_symlink v then w_ret (tt, v_dir v)
      else if v_dir v || negb (v_regular v) then w_ret (tt, false)
      else
        match Detect registry (v_path v) with
        | Fail e => if errors_Is e ErrUnsupportedSource then w_ret (tt, false) else w_fail e
        | Ok _ =>
            let clean := Clean (v_path v) in
            let? identity := forwardSourceIdentity E root clean in
            let* state := w_get in
            let state := exclude_object (exclude_path state clean) (forwardIdentityKey identity) in
            let session := sessionIDFromPath clean in
            let state := if session !=s "" then exclude_session state session else state in
            let* _ := w_put state in
            w_ret (tt, false)
        end
  end.

Fixpoint baselineForwardPaths (roots : list PinnedRoot) : FM unit :=
  match roots with
  | [] => w_ret tt
  | root :: rest =>
      let? _ := Verify E root in
      let? _ := WalkDir (baseline_visit root) tt (pr_path root) in
      let? _ := Verify E root in
      baselineForwardPaths rest
  end.

Definition loadForwardState {S} : WM S forwardState :=
  let? payload := w_wrap "read forward state: %w" (w_call (e_read E) WRead) in
  let? _ := w_wrap "decode forward state: %w" (w_lift (rejectDuplicateForwardKeys (json_tokens payload))) in
  let? state := w_wrap "decode forward state: %w" (w_lift (forward_Decode payload)) in
  let? _ := w_lift (validateForwardState state) in
  w_ret state.

Definition initial_state (cutoff : Time) (roots : list forwardRootState) : forwardState :=
  mkForward forwardStateVersion (UTC cutoff) roots (Some ∅) (Some ∅) (Some ∅) (Some ∅).

(** [NewForwardProducer] once its producer is built: the tracker's state. *)
Definition newForwardState (roots : list PinnedRoot) : WM unit forwardState :=
  let? current := w_lift (currentForwardRoots roots) in
  let? exists_ := w_wrap "inspect forward state: %w" (w_call (e_exists E) WExists) in
  if exists_ : bool then
    let? state := loadForwardState in
    if negb (bool_decide (Roots state = current))
    then w_fail (errors_New "forward watch roots do not match durable state")
    else w_ret state
  else
    let* now := w_call (e_now E) WNow in
    fun '(_, l) =>
      match baselineForwardPaths roots (initial_state now current, l) with
      | (Fail e, (_, l')) => (Fail e, (tt, l'))
      | (Ok _, (state, l')) =>
          match w_wrap "persist initial forward state: %w" (writeForwardState state) (tt, l') with
          | (Fail e, w) => (Fail e, w)
          | (Ok _, w) => (Ok state, w)
          end
      end.

End Operations.
