(* ===== verification/ForwardSpec.v ===== *)
(** * Properties of the forward watcher ([Forward])

    Nothing that was excluded, is older than the cutoff or belongs to an excluded
    session is ever uploaded; exclusions only grow; the state in memory is the
    state on disk; a restart resumes it; the state stays valid. *)
From Stdlib Require Import ZArith Lia Bool.
From Stdlib Require Import String Ascii.
From stdpp Require Import base tactics option list gmap strings.
From S2P Require Import Prelude GoStrings GoPath StoreTypes JsonKeys Watch Forward.
Open Scope Z_scope.

(** ** How a tracker's state may change *)

Definition grows (m m' : option (gmap string bool)) : Prop :=
  forall k, mget m k = true -> mget m' k = true.

Record evolves (s s' : forwardState) : Prop := mk_evolves {
  ev_version : Version s' = Version s;
  ev_cutoff : Cutoff s' = Cutoff s;
  ev_roots : Roots s' = Roots s;
  ev_paths : grows (ExcludedPaths s) (ExcludedPaths s');
  ev_objects : grows (ExcludedObjects s) (ExcludedObjects s');
  ev_sessions : grows (ExcludedSessions s) (ExcludedSessions s')
}.

#[global] Instance grows_preorder : PreOrder grows.
Proof. split; [by intros m k|]. intros m1 m2 m3 H1 H2 k ?. auto. Qed.

#[global] Instance evolves_preorder : PreOrder evolves.
Proof.
  split; [by intros s; split|].
  intros s1 s2 s3 [] []. split; try congruence; by etransitivity.
Qed.

Lemma grows_mset m k : grows m (mset m k true).
Proof.
  intros k' H. destruct m as [m|]; [|done]. simpl in *.
  destruct (decide (k = k')) as [->|]; [by rewrite lookup_insert_eq|by rewrite lookup_insert_ne].
Qed.
Lemma grows_clone m : grows m (Some (cloneBoolMap m)).
Proof. intros k. by destruct m. Qed.

Lemma evolves_clone s : evolves s (cloneForwardState s).
Proof. split; try done; apply grows_clone. Qed.
Lemma evolves_exclude_path s p : evolves s (exclude_path s p).
Proof. split; try done. apply grows_mset. Qed.
Lemma evolves_exclude_object s p : evolves s (exclude_object s p).
Proof. split; try done. apply grows_mset. Qed.
Lemma evolves_exclude_session s p : evolves s (exclude_session s p).
Proof. split; try done. apply grows_mset. Qed.
Lemma evolves_progress s p d : evolves s (set_progress s p d).
Proof. by split. Qed.

Lemma evolves_refuse_sessions `{UnicodeTables} s l : evolves s (refuse_sessions s l).
Proof.
  unfold refuse_sessions. revert s. induction l as [|x l IH]; intros s; [reflexivity|].
  simpl. case_match; [|apply IH]. etransitivity; [apply evolves_exclude_session|apply IH].
Qed.

Create HintDb forward discriminated.
#[export] Hint Resolve evolves_clone evolves_exclude_path evolves_exclude_object evolves_exclude_session
  evolves_progress evolves_refuse_sessions : forward.

(** ** Valid states *)

Definition valid (s : forwardState) : Prop := validateForwardState s = Ok tt.

Lemma forallb_map {A} (p : string * A -> bool) (m : gmap string A) :
  forallb p (map_to_list m) = true <-> forall k v, m !! k = Some v -> p (k, v) = true.
Proof.
  rewrite forallb_Forall, Forall_forall. split.
  - intros H k v Hm. apply H. by apply elem_of_map_to_list.
  - intros H [k v] Hm%elem_of_map_to_list. auto.
Qed.

Lemma forallb_map_insert {A} (p : string * A -> bool) (m : gmap string A) k v :
  forallb p (map_to_list m) = true -> p (k, v) = true -> forallb p (map_to_list (<[k := v]> m)) = true.
Proof.
  rewrite !forallb_map. intros H Hp k' v' [[<- <-]|[? ?]]%lookup_insert_Some; auto.
Qed.

Record valid_parts (s : forwardState) (paths objects sessions : gmap string bool) (progress : gmap string string) : Prop :=
mk_valid_parts {
  vp_paths : ExcludedPaths s = Some paths;
  vp_objects : ExcludedObjects s = Some objects;
  vp_sessions : ExcludedSessions s = Some sessions;
  vp_progress : Progress s = Some progress;
  vp_version : Version s = forwardStateVersion;
  vp_cutoff : IsZero (Cutoff s) = false;
  vp_nonempty : Roots s <> [];
  vp_roots : roots_valid None (Roots s) = true;
  vp_paths_ok : forallb (fun '(path, excluded) => excluded && IsAbs path && (Clean path ==s path)) (map_to_list paths) = true;
  vp_objects_ok : forallb (fun '(key, excluded) => excluded && forwardObjectID key) (map_to_list objects) = true;
  vp_sessions_ok : forallb (fun '(session, excluded) => excluded && (TrimSpace session !=s "")) (map_to_list sessions) = true;
  vp_progress_ok : forallb (fun '(path, digest) => IsAbs path && (Clean path ==s path) && digest_valid digest) (map_to_list progress) = true
}.

Lemma valid_iff s : valid s <-> exists paths objects sessions progress, valid_parts s paths objects sessions progress.
Proof.
  unfold valid, validateForwardState. split.
  - intros H. destruct (ExcludedPaths s) as [p|] eqn:E1; [|done].
    destruct (ExcludedObjects s) as [o|] eqn:E2; [|done].
    destruct (ExcludedSessions s) as [se|] eqn:E3; [|done]. destruct (Progress s) as [pr|] eqn:E4; [|done].
    rewrite !if_fail_ok, !negb_false_iff, !orb_false_iff, negb_false_iff, bool_decide_eq_false, Z.eqb_eq in H.
    destruct H as (((?&?)&?)&?&?&?&?&?&_). exists p, o, se, pr. by split.
  - intros (p&o&se&pr&[-> -> -> -> Hv Hc Hn Hr H1 H2 H3 H4]).
    rewrite !if_fail_ok, !negb_false_iff, !orb_false_iff, negb_false_iff, bool_decide_eq_false, Z.eqb_eq. done.
Qed.

Lemma valid_clone s : valid s -> valid (cloneForwardState s).
Proof.
  rewrite !valid_iff. intros (p&o&se&pr&[H1 H2 H3 H4 ? ? ? ? ? ? ? ?]). exists p, o, se, pr.
  split; simpl; rewrite ?H1, ?H2, ?H3, ?H4; done.
Qed.

Lemma valid_exclude_path s p : valid s -> abs_clean p = true -> valid (exclude_path s p).
Proof.
  rewrite !valid_iff. intros (ps&o&se&pr&[H1 ? ? ? ? ? ? ? ? ? ? ?]) Hp. exists (<[p := true]> ps), o, se, pr.
  split; simpl; rewrite ?H1; try done. apply forallb_map_insert; [done|]. exact Hp.
Qed.
Lemma valid_exclude_object s k : valid s -> forwardObjectID k = true -> valid (exclude_object s k).
Proof.
  rewrite !valid_iff. intros (ps&o&se&pr&[? H1 ? ? ? ? ? ? ? ? ? ?]) Hp. exists ps, (<[k := true]> o), se, pr.
  split; simpl; rewrite ?H1; try done. by apply forallb_map_insert.
Qed.
Lemma valid_exclude_session s k : valid s -> TrimSpace k <> "" -> valid (exclude_session s k).
Proof.
  rewrite !valid_iff. intros (ps&o&se&pr&[? ? H1 ? ? ? ? ? ? ? ? ?]) Hp. exists ps, o, (<[k := true]> se), pr.
  split; simpl; rewrite ?H1; try done. apply forallb_map_insert; [done|]. simpl.
  by apply negb_true_iff, String.eqb_neq.
Qed.
Lemma valid_progress s p d : valid s -> abs_clean p = true -> digest_valid d = true -> valid (set_progress s p d).
Proof.
  rewrite !valid_iff. intros (ps&o&se&pr&[? ? ? H1 ? ? ? ? ? ? ? ?]) Hp Hd. exists ps, o, se, (<[p := d]> pr).
  split; simpl; rewrite ?H1; try done. apply forallb_map_insert; [done|]. unfold abs_clean in Hp. by rewrite Hp.
Qed.

(** The key of an object is one the state accepts. *)
Lemma substring_append_l a b : String.substring 0 (String.length a) (a +:+ b) = a.
Proof. induction a as [|c a IH]; simpl; [by destruct b|]. by rewrite IH. Qed.
Lemma substring_append_r a b n : String.substring (String.length a) n (a +:+ b) = String.substring 0 n b.
Proof. induction a as [|c a IH]; simpl; [done|]. exact IH. Qed.

Lemma str_app_cancel_l a b c : a +:+ b = a +:+ c -> b = c.
Proof. induction a as [|x a IH]; simpl; [done|]. intros H. injection H as H. auto. Qed.

Lemma identity_key_valid id : forwardObjectID (forwardIdentityKey id) = true.
Proof.
  unfold forwardObjectID, forwardIdentityKey.
  pose proof (hex_fixed_length 16 (Volume id)) as Hv. pose proof (hex_fixed_length 16 (Object id)) as Ho.
  pose proof (hex_fixed_lower_hex 16 (Volume id)) as Lv. pose proof (hex_fixed_lower_hex 16 (Object id)) as Lo.
  set (v := hex_fixed 16 (Volume id)) in *. set (o := hex_fixed 16 (Object id)) in *. clearbody v o.
  assert (len (v +:+ ":" +:+ o) = 33) as ->.
  { rewrite !len_app. unfold len. rewrite Hv, Ho. reflexivity. }
  unfold slice. change (Z.to_nat 0) with 0%nat. change (Z.to_nat (16 - 0)) with 16%nat.
  change (Z.to_nat 16) with 16%nat. change (Z.to_nat (17 - 16)) with 1%nat.
  change (Z.to_nat 17) with 17%nat. change (Z.to_nat (33 - 17)) with 16%nat.
  rewrite <- Hv at 1. rewrite substring_append_l, Lv.
  assert (String.substring 16 1 (v +:+ ":" +:+ o) = ":") as ->.
  { rewrite <- Hv at 1. rewrite substring_append_r. simpl. by destruct o. }
  assert (String.substring 17 16 (v +:+ ":" +:+ o) = o) as ->.
  { rewrite <- str_app_assoc.
    assert (String.length (v +:+ ":") = 17%nat) as E by (rewrite str_length_app, Hv; done).
    rewrite <- E at 1. rewrite substring_append_r.
    pose proof (substring_append_l o "") as Es. by rewrite app_empty_r, Ho in Es. }
  by rewrite Lo.
Qed.

(** Distinct objects have distinct keys. *)
Lemma identity_key_inj a b :
  0 <= Volume a < 2 ^ 64 -> 0 <= Volume b < 2 ^ 64 -> 0 <= Object a < 2 ^ 64 -> 0 <= Object b < 2 ^ 64 ->
  forwardIdentityKey a = forwardIdentityKey b -> a = b.
Proof.
  intros ? ? ? ? H. unfold forwardIdentityKey in H.
  assert (hex_fixed 16 (Volume a) = hex_fixed 16 (Volume b)) as Ev.
  { pose proof (substring_append_l (hex_fixed 16 (Volume a)) (":" +:+ hex_fixed 16 (Object a))) as E1.
    pose proof (substring_append_l (hex_fixed 16 (Volume b)) (":" +:+ hex_fixed 16 (Object b))) as E2.
    rewrite !hex_fixed_length in E1, E2. rewrite H in E1. congruence. }
  assert (hex_fixed 16 (Object a) = hex_fixed 16 (Object b)) as Eo.
  { rewrite Ev in H. apply str_app_cancel_l in H. by apply (str_app_cancel_l ":") in H. }
  apply hex_fixed_inj in Ev; [|lia..]. apply hex_fixed_inj in Eo; [|lia..].
  destruct a, b; simpl in *; congruence.
Qed.

Lemma valid_refuse_sessions `{T : UnicodeTables} s l :
  tables_keep_text T -> valid s -> valid (refuse_sessions s l).
Proof.
  intros HT. unfold refuse_sessions. revert s. induction l as [|x l IH]; intros s Hs; [done|].
  simpl. destruct (reliableForwardSession (ToLower (TrimSpace x))) eqn:Er; [|by apply IH].
  apply IH, valid_exclude_session; [done|]. intros Hb.
  apply (ToLower_keeps_text _ HT) in Hb. rewrite TrimSpace_idemp in Hb. rewrite Hb in Er. done.
Qed.

(** ** Steps of the tracker *)

Section Steps.
Context `{Src : Sources} `{Codec : ForwardCodec} `{T : UnicodeTables}.

(** What is on disk after a log: the last payload written or read. *)
Fixpoint on_disk (l : list wevent) : option string :=
  match l with
  | [] => None
  | WPersist payload None :: _ => Some payload
  | WRead (Ok payload) :: _ => Some payload
  | _ :: l => on_disk l
  end.

(** The state in memory is what the disk holds. *)
Definition in_sync (s : forwardState) (l : list wevent) : Prop :=
  exists payload, on_disk l = Some payload /\
    (forward_Marshal s = Ok payload \/
     forward_Decode payload = Ok s /\ rejectDuplicateForwardKeys (json_tokens payload) = Ok tt).

(** An upload that a tracker in state [s] may make. *)
Definition lawful_upload (s : forwardState) (path : string) (id : RootIdentity) (chunks : list Chunk) : Prop :=
  abs_clean path = true /\ mget (ExcludedPaths s) path = false /\
  mget (ExcludedObjects s) (forwardIdentityKey id) = false /\ chunks <> [] /\
  Forall (fun c => refused_chunk s c = false) chunks.

Definition lawful_event (s : forwardState) (e : wevent) : Prop :=
  match e with
  | WUpsert path id chunks _ => lawful_upload s path id chunks
  | _ => True
  end.

Lemma refused_chunk_mono s s' c : evolves s s' -> refused_chunk s' c = false -> refused_chunk s c = false.
Proof.
  intros [? Hc ? ? ? Hs]. unfold refused_chunk. rewrite Hc, !orb_false_iff. intros (?&Hx). split; [done|].
  destruct (mget (ExcludedSessions s) (ToLower (c_SessionID c))) eqn:E; [|done].
  apply Hs in E. congruence.
Qed.

Lemma lawful_upload_mono s s' path id chunks :
  evolves s s' -> lawful_upload s' path id chunks -> lawful_upload s path id chunks.
Proof.
  intros He (?&Hp&Ho&?&Hc). split_and!; try done.
  1,2: match goal with |- ?x = false => destruct x eqn:E; [|done] end.
  - apply (ev_paths _ _ He) in E. congruence.
  - apply (ev_objects _ _ He) in E. congruence.
  - eapply Forall_impl; [exact Hc|]. intros c. by apply refused_chunk_mono.
Qed.

Lemma lawful_event_mono s s' e : evolves s s' -> lawful_event s' e -> lawful_event s e.
Proof. destruct e; simpl; try done. apply lawful_upload_mono. Qed.

(** The environment gives SHA-256 digests, which have 32 bytes. *)
Definition digests_ok (E : WEnv) : Prop :=
  forall l c parts n s, e_snapshot E l c parts n = Ok s -> len (sn_digest s) = 32.

(** What a computation of the tracker does; [ok] are the facts of the
    environment that validity rests on. *)
Record fstep (ok : Prop) (w w' : forwardState * list wevent) : Prop := mk_fstep {
  fs_evolves : evolves (fst w) (fst w');
  fs_log : exists new, snd w' = new ++ snd w /\ Forall (lawful_event (fst w)) new;
  fs_sync : in_sync (fst w) (snd w) -> in_sync (fst w') (snd w');
  fs_valid : ok -> valid (fst w) -> valid (fst w')
}.

#[export] Instance fstep_preorder ok : PreOrder (fstep ok).
Proof.
  split.
  - intros w. split; [reflexivity|by exists []|done|done].
  - intros w1 w2 w3 [H1 [n1 [E1 L1]] S1 V1] [H2 [n2 [E2 L2]] S2 V2].
    split; [by etransitivity| |auto|auto].
    exists (n2 ++ n1). rewrite E2, E1, app_assoc. split; [done|]. apply Forall_app. split; [|done].
    eapply Forall_impl; [exact L2|]. intros e. by apply lawful_event_mono.
Qed.

Definition does {A} (ok : Prop) (m : st (forwardState * list wevent) A) : Prop := forall w, fstep ok w (snd (m w)).

Section Does.
Context (ok : Prop).

Lemma does_try {A B} (m : WM forwardState A) (f : A -> WM forwardState B) :
  does ok m -> (forall a, does ok (f a)) -> does ok (st_try m f).
Proof.
  intros Hm Hf w. unfold st_try. specialize (Hm w). destruct (m w) as [[a|e] w1]; simpl in *; [|done].
  etransitivity; [exact Hm|apply Hf].
Qed.
Lemma does_bind {A B} (m : st (forwardState * list wevent) A) (f : A -> st (forwardState * list wevent) B) :
  does ok m -> (forall a, does ok (f a)) -> does ok (st_bind m f).
Proof.
  intros Hm Hf w. unfold st_bind. specialize (Hm w). destruct (m w) as [a w1]; simpl in *.
  etransitivity; [exact Hm|apply Hf].
Qed.
Lemma does_ret {A} (a : A) : does ok (w_ret a).
Proof. intros w. reflexivity. Qed.
Lemma does_fail {A} e : does ok (@w_fail forwardState A e).
Proof. intros w. reflexivity. Qed.
Lemma does_lift {A} (r : result A) : does ok (w_lift r).
Proof. intros w. reflexivity. Qed.
Lemma does_get : does ok w_get.
Proof. intros w. reflexivity. Qed.
Lemma does_err m : does ok m -> does ok (w_err m).
Proof. intros Hm w. unfold w_err. specialize (Hm w). by destruct (m w). Qed.

(** Events that are neither uploads nor changes of the disk. *)
Definition inert (e : wevent) : Prop :=
  (forall l, on_disk (e :: l) = on_disk l) /\ forall s, lawful_event s e.

Lemma does_call {A} (ask : list wevent -> A) ev :
  (forall a, inert (ev a)) -> does ok (w_call ask ev).
Proof.
  intros Hi [s l]. simpl. destruct (Hi (ask l)) as [H1 H2]. split; simpl; try done.
  - exists [ev (ask l)]. split; [done|]. by constructor.
  - intros (p&Hp&?). exists p. by rewrite H1.
Qed.
End Does.

Context (E : WEnv) (registry : Registry).
Let ok := digests_ok E /\ tables_keep_text T.

Ltac inert_tac := apply does_call; intros ?; split; intros; by (simpl; repeat case_match).

Lemma does_ctx : does ok (ctx_Err E).
Proof. apply does_err. inert_tac. Qed.
Lemma does_close : does ok (closeSnapshot E).
Proof. apply does_err. inert_tac. Qed.
Lemma does_snapshot r c n : does ok (Snapshot_ E r c n).
Proof.
  unfold Snapshot_. case_match; [apply does_fail|]. apply does_try; [apply does_lift|intros parts].
  case_match; [apply does_fail|]. case_match; [|apply does_fail]. inert_tac.
Qed.
Lemma does_identity r c : does ok (forwardSourceIdentity E r c).
Proof.
  unfold forwardSourceIdentity. apply does_try; [apply does_lift|intros parts].
  case_match; [apply does_fail|]. inert_tac.
Qed.

(** Writing a successor state and then adopting it. *)
Lemma does_adopt f (s next : forwardState) w :
  fst w = s -> evolves s next -> (ok -> valid s -> valid next) ->
  fstep ok w (snd (st_try (w_wrap f (writeForwardState E next))
                     (fun _ => let* _ := w_put next in w_ret tt) w)).
Proof.
  intros <- He Hv. destruct w as [s l]. simpl in He, Hv. unfold st_try, w_wrap, writeForwardState, st_try, w_lift.
  destruct (forward_Marshal next) as [payload|e] eqn:Em; [|reflexivity].
  destruct (maxForwardStateBytes <? len payload); [reflexivity|]. unfold w_err, w_call. simpl.
  destruct (e_persist E l payload) as [e|] eqn:Ep; simpl.
  - split; simpl; try done. by exists [WPersist payload (Some e)]; repeat constructor.
  - split; simpl; try done.
    + by exists [WPersist payload None]; repeat constructor.
    + intros _. exists payload. auto.
Qed.

Lemma does_refuse path id sessions w :
  abs_clean path = true -> fstep ok w (snd (refuseForwardPath E path id sessions w)).
Proof.
  intros Hp. unfold refuseForwardPath, st_bind at 1, w_get.
  apply (does_adopt _ (fst w)); [done| |].
  - do 3 (etransitivity; [|auto with forward]). auto with forward.
  - intros [_ HT] Hv. apply valid_refuse_sessions; [done|].
    apply valid_exclude_object; [|apply identity_key_valid]. apply valid_exclude_path; [|done].
    by apply valid_clone.
Qed.

(** A record of the digest of 32 bytes is valid progress. *)
Lemma digest_valid_encode digest : len digest = 32 -> digest_valid (hex_encode digest) = true.
Proof.
  intros Hl. unfold digest_valid. by rewrite hex_decode_encode, Hl.
Qed.

Lemma snapshot_result r c n (w w' : forwardState * list wevent) sn :
  Snapshot_ E r c n w = (Ok sn, w') -> fst w' = fst w /\ exists l parts, e_snapshot E l c parts n = Ok sn.
Proof.
  unfold Snapshot_, st_try, w_lift, w_fail, w_call. intros Hs. repeat case_match; simplify_eq.
  split; [done|]. eauto.
Qed.

Lemma closeSnapshot_state (w : forwardState * list wevent) : fst (snd (closeSnapshot E w)) = fst w.
Proof. done. Qed.

(** The upload, its record and the adoption of the new state. *)
Lemma does_upload path id chunks digest w :
  lawful_upload (fst w) path id chunks -> (ok -> digest_valid digest = true) ->
  fstep ok w (snd (st_try (w_err (w_call (fun l => e_upsert E l chunks) (WUpsert path id chunks)))
    (fun _ => let next := set_progress (cloneForwardState (fst w)) path digest in
              let? _ := w_wrap "persist forward progress: %w" (writeForwardState E next) in
              let* _ := w_put next in w_ret tt) w)).
Proof.
  intros Hl Hd. unfold st_try at 1, w_err, w_call. destruct w as [s l]. cbn [fst snd].
  set (err := e_upsert E l chunks).
  assert (fstep ok (s, l) (s, WUpsert path id chunks err :: l)) as H1.
  { split; simpl; try done. exists [WUpsert path id chunks err]. by split; [|constructor]. }
  destruct err as [e|]; simpl; [done|]. etransitivity; [exact H1|].
  apply (does_adopt _ s); [done| |].
  - etransitivity; [apply evolves_clone|apply evolves_progress].
  - intros Hok Hv. apply valid_progress; [by apply valid_clone|apply Hl|auto].
Qed.

Lemma does_process root path kind id w :
  abs_clean path = true -> mget (ExcludedPaths (fst w)) path = false ->
  fstep ok w (snd (processForwardPath E registry root path kind id w)).
Proof.
  intros Hp Hx. unfold processForwardPath, st_try at 1.
  pose proof (does_snapshot root path MaxSourceSnapshotBytes w) as H1.
  destruct (Snapshot_ E root path MaxSourceSnapshotBytes w) as [[sn|e] w1] eqn:Es; [|done].
  apply snapshot_result in Es as (Ew&l&parts&Hsn). simpl in H1.
  etransitivity; [exact H1|]. clear H1. rewrite <- Ew in Hx. clear Ew w. rename w1 into w.
  unfold st_bind at 1, w_get. case_match.
  { apply does_try; [apply does_close|intros; apply does_fail]. }
  destruct (mget (ExcludedObjects (fst w)) (forwardIdentityKey (sn_identity sn))) eqn:Eo; [apply does_close|].
  case_match; [apply does_close|].
  destruct (inspectForwardEligibility kind sn (Cutoff (fst w))) as [el sessions].
  destruct el; [apply does_close| |].
  2: { simpl. unfold st_try. pose proof (does_close w) as Hc.
       destruct (closeSnapshot E w) as [[[]|e] w1]; simpl in *; [|done].
       etransitivity; [exact Hc|]. by apply does_refuse. }
  cbn [orb]. case_match.
  { unfold st_try. pose proof (does_close w) as Hc.
    destruct (closeSnapshot E w) as [[[]|e] w1]; simpl in *; [|done].
    etransitivity; [exact Hc|]. by apply does_refuse. }
  unfold st_bind at 1. pose proof (does_close w) as Hc. pose proof (closeSnapshot_state w) as Ew.
  destruct (closeSnapshot E w) as [closed w1]. simpl in Ew, Hc. etransitivity; [exact Hc|]. clear Hc.
  rewrite <- Ew in *. clear w Ew. rename w1 into w.
  unfold st_try at 1, w_lift at 1. destruct (Dispatch registry kind (sn_content sn) path) as [chunks|e]; [|reflexivity].
  unfold st_try at 1, w_lift at 1. destruct closed as [[]|e]; [|reflexivity].
  destruct chunks as [|c0 chunks]; [reflexivity|]. set (cs := c0 :: chunks).
  destruct (find (refused_chunk (fst w)) cs) as [c|] eqn:Ef; [by apply does_refuse|].
  apply does_upload.
  - split_and!; try done. apply Forall_forall. intros c Hc. by apply (find_none _ _ Ef), list_elem_of_In.
  - intros [Hdig _]. apply digest_valid_encode. eauto.
Qed.

Lemma identity_result r c (w w' : forwardState * list wevent) id :
  forwardSourceIdentity E r c w = (Ok id, w') -> fst w' = fst w /\ abs_clean c = true.
Proof.
  unfold forwardSourceIdentity, st_try, w_lift.
  destruct (relativeParts (pr_path r) c) as [parts|e] eqn:Er; [|done].
  apply relativeParts_ok in Er as (?&_). intros Hs. case_match; [done|].
  unfold w_call in Hs. simplify_eq/=. done.
Qed.

Lemma does_scan_visit root seen v : does ok (scan_visit E registry root seen v).
Proof.
  unfold scan_visit. case_match; [apply does_fail|].
  apply does_try; [apply does_ctx|intros _].
  case_match; [apply does_ret|]. case_match; [apply does_ret|].
  destruct (Detect registry (v_path v)) as [kind|e]; [|case_match; [apply does_ret|apply does_fail]].
  intros w. unfold st_bind at 1, w_get.
  destruct (mget (ExcludedPaths (fst w)) (Clean (v_path v))) eqn:Ex; [apply does_ret|].
  unfold st_try at 1. pose proof (does_identity root (Clean (v_path v)) w) as Hi1.
  destruct (forwardSourceIdentity E root (Clean (v_path v)) w) as [[id|e] w1] eqn:Ei; [|done].
  apply identity_result in Ei as [Ew Hp]. simpl in Hi1. etransitivity; [exact Hi1|].
  case_match; [apply does_ret|]. case_match; [apply does_fail|].
  unfold st_try. rewrite <- Ew in Ex.
  pose proof (does_process root (Clean (v_path v)) kind id w1 Hp Ex) as Hi2.
  destruct (processForwardPath E registry root (Clean (v_path v)) kind id w1) as [[[]|e] w2]; done.
Qed.

Lemma does_walk_list {A} (fn : A -> visit -> WM forwardState (A * bool)) acc skip vs :
  (forall acc v, does ok (fn acc v)) -> does ok (walk_list fn acc skip vs).
Proof.
  intros Hf. revert acc skip. induction vs as [|v vs IH]; intros acc skip; simpl; [apply does_ret|].
  case_match; [apply IH|]. apply does_try; [apply Hf|intros [acc' b]; apply IH].
Qed.

Lemma does_WalkDir {A} (fn : A -> visit -> WM forwardState (A * bool)) acc root :
  (forall acc v, does ok (fn acc v)) -> does ok (WalkDir E fn acc root).
Proof.
  intros Hf. unfold WalkDir. apply does_bind; [inert_tac|intros vs]. by apply does_walk_list.
Qed.

Lemma does_scan_roots roots seen : does ok (scan_roots E registry roots seen).
Proof.
  revert seen. induction roots as [|r roots IH]; intros seen; simpl; [apply does_ret|].
  apply does_try; [apply does_WalkDir; intros; apply does_scan_visit|intros; apply IH].
Qed.

Lemma does_scan roots : does ok (scanForward E registry roots).
Proof. apply does_try; [apply does_scan_roots|intros; apply does_ret]. Qed.

End Steps.

(** ** Runs of many scans *)

Section Runs.
Context `{Src : Sources} `{Codec : ForwardCodec} `{T : UnicodeTables}.

(** Any number of scans, each in any environment, with any registry and roots. *)
Inductive scans : forwardState * list wevent -> forwardState * list wevent -> Prop :=
| scans_none w : scans w w
| scans_one E registry roots w w' :
    digests_ok E -> scans (snd (scanForward E registry roots w)) w' -> scans w w'.

Lemma scans_fstep w w' : scans w w' -> fstep (tables_keep_text T) w w'.
Proof.
  induction 1 as [w|E registry roots w w' Hd _ IH]; [reflexivity|].
  etransitivity; [|exact IH]. destruct (does_scan E registry roots w) as [? ? ? Hv]. split; auto.
Qed.

(** C2: whatever a forward watcher uploads, in any number of scans from a
    state [s], is a nonempty batch from a clean absolute path and a file object
    that [s] does not exclude, every chunk of which has a timestamp that is not before the cutoff
    and a session that [s] does not exclude. *)
Theorem uploads_are_lawful (s s' : forwardState) (l l' : list wevent) (path : string)
    (id : RootIdentity) (chunks : list Chunk) (err : option error)
    (Hrun : scans (s, l) (s', l')) (Hin : WUpsert path id chunks err ∈ l') :
  WUpsert path id chunks err ∈ l \/
  (abs_clean path = true /\ mget (ExcludedPaths s) path = false /\
   mget (ExcludedObjects s) (forwardIdentityKey id) = false /\ chunks <> [] /\
   Forall (fun c => instant (Cutoff s) <= instant (c_Timestamp c) /\ instant (c_Timestamp c) <> 0 /\
                    mget (ExcludedSessions s) (ToLower (c_SessionID c)) = false) chunks).
Proof.
  apply scans_fstep in Hrun as [_ (new&Hl&Hf) _ _]. simpl in *. subst l'.
  apply elem_of_app in Hin as [Hin|Hin]; [right|by left].
  rewrite Forall_forall in Hf. destruct (Hf _ Hin) as (?&?&?&?&Hc). split_and!; try done.
  eapply Forall_impl; [exact Hc|]. intros c. unfold refused_chunk, IsZero, Before.
  intros Hr. to_prop. split_and!; try done; lia.
Qed.

(** C24: exclusions, the cutoff and the roots survive any number of scans: no
    mutation, replacement or retry makes an excluded path, object or session
    current again. *)
Theorem exclusions_are_permanent (s s' : forwardState) (l l' : list wevent) (Hrun : scans (s, l) (s', l')) :
  Cutoff s' = Cutoff s /\ Roots s' = Roots s /\
  forall k, (mget (ExcludedPaths s) k = true -> mget (ExcludedPaths s') k = true) /\
            (mget (ExcludedObjects s) k = true -> mget (ExcludedObjects s') k = true) /\
            (mget (ExcludedSessions s) k = true -> mget (ExcludedSessions s') k = true).
Proof.
  apply scans_fstep in Hrun as [[? ? ? Hp Ho Hs] _ _ _]. simpl in *. split_and!; try done.
  intros k. split_and!; auto.
Qed.

(** Scanning keeps the state valid, so that the state a watcher persists
    is one that it will accept when it restarts. *)
Theorem scans_keep_state_valid (s s' : forwardState) (l l' : list wevent)
    (Htables : tables_keep_text T) (Hrun : scans (s, l) (s', l')) (Hv : valid s) : valid s'.
Proof. apply scans_fstep in Hrun as [_ _ _ H]. by apply H. Qed.

End Runs.
