(* ===== verification/ForwardStartSpec.v ===== *)
(** * Starting, restarting and bounding the forward watcher

    What exists when the watcher is first built is excluded and never uploaded;
    the state in memory is always the state on disk and a restart resumes it; an
    unchanged source is not uploaded again; a scan is bounded. *)
From Stdlib Require Import ZArith Lia Bool.
From Stdlib Require Import String Ascii.
From stdpp Require Import base tactics option list gmap strings.
From S2P Require Import Prelude GoStrings GoPath StoreTypes JsonKeys Watch Forward ForwardSpec.
Open Scope Z_scope.

Section Start.
Context `{Src : Sources} `{Codec : ForwardCodec} `{T : UnicodeTables} (E : WEnv) (registry : Registry).

(** ** The baseline *)

Definition live (s : forwardState) : Prop :=
  is_Some (ExcludedPaths s) /\ is_Some (ExcludedObjects s) /\ is_Some (ExcludedSessions s).

Definition not_upload (e : wevent) : Prop := match e with WUpsert _ _ _ _ => False | _ => True end.

Record bstep (w w' : forwardState * list wevent) : Prop := mk_bstep {
  bs_evolves : evolves (fst w) (fst w');
  bs_live : live (fst w) -> live (fst w');
  bs_log : exists new, snd w' = new ++ snd w /\ Forall not_upload new
}.
#[local] Instance bstep_preorder : PreOrder bstep.
Proof.
  split.
  - intros w. split; [reflexivity|done|by exists []].
  - intros w1 w2 w3 [H1 L1 [n1 [E1 F1]]] [H2 L2 [n2 [E2 F2]]]. split; [by etransitivity|auto|].
    exists (n2 ++ n1). rewrite E2, E1, app_assoc. split; [done|]. by apply Forall_app.
Qed.

Definition bdoes {S A} (m : st (S * list wevent) A) : Prop :=
  forall w, fst (snd (m w)) = fst w /\ exists new, snd (snd (m w)) = new ++ snd w /\ Forall not_upload new.

(** A supported source file among the entries of a walk. *)
Definition supported (v : visit) : Prop :=
  v_symlink v = false /\ v_dir v = false /\ v_regular v = true /\ is_ok (Detect registry (v_path v)) = true.

(** The path and the object of a file are excluded. *)
Definition excluded_file (w : forwardState * list wevent) (path : string) : Prop :=
  mget (ExcludedPaths (fst w)) path = true /\
  exists id, WIdentity path (Ok id) ∈ snd w /\ mget (ExcludedObjects (fst w)) (forwardIdentityKey id) = true.

Lemma excluded_file_bstep w w' path : bstep w w' -> excluded_file w path -> excluded_file w' path.
Proof.
  intros [He _ (new&El&_)] (Hp&id&Hin&Ho). split; [by apply (ev_paths _ _ He)|].
  exists id. split; [rewrite El; apply elem_of_app; by right|]. by apply (ev_objects _ _ He).
Qed.

Lemma mget_mset m k : is_Some m -> mget (mset m k true) k = true.
Proof. intros [x ->]. simpl. by rewrite lookup_insert_eq. Qed.

Lemma live_excludes s p k session :
  let s1 := exclude_object (exclude_path s p) k in
  let s2 := if session !=s "" then exclude_session s1 session else s1 in
  evolves s s2 /\ (live s -> live s2 /\ mget (ExcludedPaths s2) p = true /\ mget (ExcludedObjects s2) k = true).
Proof.
  intros s1 s2. split.
  - unfold s2, s1. assert (evolves s s1) by (etransitivity; [apply evolves_exclude_path|apply evolves_exclude_object]).
    destruct (session !=s ""); [etransitivity; [done|apply evolves_exclude_session]|done].
  - intros (Hp&Ho&Hs). assert (forall (A : Type) (m : option (gmap string A)) k v, is_Some m -> is_Some (mset m k v)) as Hm
      by (intros A m k' v [x ->]; eexists; done).
    unfold s2, s1. destruct (session !=s ""); (split; [split_and!|split]); simpl; auto using mget_mset.
Qed.

Lemma identity_call (root : PinnedRoot) c (w : forwardState * list wevent) :
  match forwardSourceIdentity E root c w with
  | (Ok id, w') => fst w' = fst w /\ exists ev, ev = WIdentity c (Ok id) /\ snd w' = ev :: snd w
  | (Fail _, w') => fst w' = fst w /\ exists new, snd w' = new ++ snd w /\ Forall not_upload new
  end.
Proof.
  unfold forwardSourceIdentity, st_try, w_lift, w_fail, w_call.
  destruct (relativeParts (pr_path root) c) as [parts|e]; [|split; [done|by exists []]].
  destruct (pr_closed root); [split; [done|by exists []]|].
  destruct (e_identity E (snd w) c parts) as [id|e]; simpl; split; try done; [eauto|].
  exists [WIdentity c (Fail e)]. by repeat constructor.
Qed.

Lemma baseline_visit_spec root v w :
  (v_symlink v = true -> v_dir v = false) ->
  match baseline_visit E registry root tt v w with
  | (Ok r, w') => bstep w w' /\ r = (tt, false) /\ v_err v = None /\
      (supported v -> live (fst w) -> excluded_file w' (Clean (v_path v)))
  | (Fail _, w') => bstep w w'
  end.
Proof.
  intros Hlink. unfold baseline_visit. destruct (v_err v); [simpl; reflexivity|]. unfold supported.
  destruct (v_symlink v) eqn:Es.
  { simpl. rewrite (Hlink eq_refl). split_and!; try done. by intros (?&_). }
  destruct (v_dir v || negb (v_regular v)) eqn:Ed.
  { simpl. split_and!; try done. intros (_&?&?&_). apply orb_true_iff in Ed as [?|?%negb_true_iff]; congruence. }
  destruct (Detect registry (v_path v)) as [kind|e].
  2: { destruct (errors_Is e ErrUnsupportedSource); simpl; [|done]. split_and!; try done. by intros (_&_&_&?). }
  unfold st_try at 1. pose proof (identity_call root (Clean (v_path v)) w) as Hi.
  destruct (forwardSourceIdentity E root (Clean (v_path v)) w) as [[id|e] w1].
  - destruct Hi as (Hs&ev&->&Hl). destruct w1 as [s1 l1]. simpl in Hs, Hl. subst s1 l1. simpl.
    destruct (live_excludes (fst w) (Clean (v_path v)) (forwardIdentityKey id) (sessionIDFromPath (Clean (v_path v)))) as [He Hx].
    split; [split; simpl; [done|intros Hlv; by apply Hx|by exists [WIdentity (Clean (v_path v)) (Ok id)]; repeat constructor]|].
    split_and!; try done. intros _ Hlv. destruct (Hx Hlv) as (_&?&?). split; [done|]. exists id. split; [by left|done].
  - destruct Hi as (Hs&new&Hl&Hn). split; rewrite ?Hs; [reflexivity|done|eauto].
Qed.

Lemma baseline_visit_bstep root v w : bstep w (snd (baseline_visit E registry root tt v w)).
Proof.
  unfold baseline_visit. destruct (v_err v); [reflexivity|]. case_match; [reflexivity|].
  case_match; [reflexivity|]. destruct (Detect registry (v_path v)) as [kind|e].
  2: { destruct (errors_Is e ErrUnsupportedSource); reflexivity. }
  unfold st_try at 1. pose proof (identity_call root (Clean (v_path v)) w) as Hi.
  destruct (forwardSourceIdentity E root (Clean (v_path v)) w) as [[id|e] w1].
  - destruct Hi as (Hs&ev&->&Hl). destruct w1 as [s1 l1]. simpl in Hs, Hl. subst s1 l1. simpl.
    destruct (live_excludes (fst w) (Clean (v_path v)) (forwardIdentityKey id) (sessionIDFromPath (Clean (v_path v)))) as [He Hx].
    split; simpl; [done|intros Hlv; by apply Hx|].
    by exists [WIdentity (Clean (v_path v)) (Ok id)]; repeat constructor.
  - destruct Hi as (Hs&new&Hl&Hn). split; simpl; rewrite ?Hs; [reflexivity|done|eauto].
Qed.

Lemma baseline_walk_bstep root skip vs w :
  bstep w (snd (walk_list (baseline_visit E registry root) tt skip vs w)).
Proof.
  revert skip w. induction vs as [|v vs IH]; intros skip w; simpl; [reflexivity|].
  case_match; [apply IH|]. unfold st_try. pose proof (baseline_visit_bstep root v w) as H1.
  destruct (baseline_visit E registry root tt v w) as [[[[] b]|e] w1]; simpl in *; [|done].
  etransitivity; [exact H1|apply IH].
Qed.

(** An entry is not both a symbolic link and a directory. *)
Definition links_not_dirs : Prop :=
  forall l root v, v ∈ e_walk E l root -> v_symlink v = true -> v_dir v = false.

Lemma baseline_walk root vs w :
  (forall v, v ∈ vs -> v_symlink v = true -> v_dir v = false) -> live (fst w) ->
  match walk_list (baseline_visit E registry root) tt None vs w with
  | (Ok _, w') => bstep w w' /\ forall v, v ∈ vs -> v_err v = None /\ (supported v -> excluded_file w' (Clean (v_path v)))
  | (Fail _, w') => bstep w w'
  end.
Proof.
  revert w. induction vs as [|v vs IH]; intros w Hlink Hlv; simpl.
  - split; [reflexivity|]. by intros v ?%elem_of_nil.
  - unfold st_try. pose proof (baseline_visit_spec root v w (Hlink v ltac:(by left))) as Hv.
    destruct (baseline_visit E registry root tt v w) as [[r|e] w1]; [|done].
    destruct Hv as (Hb&->&He&Hx). specialize (IH w1 ltac:(intros; apply Hlink; by try right) (bs_live _ _ Hb Hlv)).
    destruct (walk_list _ tt None vs w1) as [[[]|e] w2]; [|by etransitivity].
    destruct IH as [Hb2 IH]. split; [by etransitivity|].
    intros v' [->|Hin]%elem_of_cons; [|by apply IH]. split; [done|].
    intros Hs. eapply excluded_file_bstep; [exact Hb2|]. auto.
Qed.

Lemma verify_step root (w : forwardState * list wevent) : bstep w (snd (Verify E root w)).
Proof.
  unfold Verify. case_match; [reflexivity|]. unfold w_err, w_call. split; simpl; [reflexivity|done|].
  by eexists [_]; repeat constructor.
Qed.

Lemma walk_event_step root (w : forwardState * list wevent) : bstep w (fst w, WWalk root :: snd w).
Proof. split; simpl; [reflexivity|done|by exists [WWalk root]; repeat constructor]. Qed.

Lemma baseline_bstep roots w : bstep w (snd (baselineForwardPaths E registry roots w)).
Proof.
  revert w. induction roots as [|r roots IH]; intros w; simpl; [reflexivity|].
  unfold st_try at 1. pose proof (verify_step r w) as H1. destruct (Verify E r w) as [[[]|e] w1]; [|done].
  etransitivity; [exact H1|]. simpl. unfold st_try at 1, WalkDir, st_bind, w_call at 1.
  etransitivity; [apply (walk_event_step (pr_path r))|].
  pose proof (baseline_walk_bstep r None (e_walk E (snd w1) (pr_path r)) (fst w1, WWalk (pr_path r) :: snd w1)) as H2.
  destruct (walk_list _ tt None _ _) as [[[]|e] w2]; [|done].
  etransitivity; [exact H2|]. simpl. unfold st_try at 1. pose proof (verify_step r w2) as H3.
  destruct (Verify E r w2) as [[[]|e] w3]; [|done]. etransitivity; [exact H3|apply IH].
Qed.

(** The walk of [root] among those a log records, with what it answered. *)
Definition walked_clean (w : forwardState * list wevent) (root : PinnedRoot) : Prop :=
  exists newer older, snd w = newer ++ WWalk (pr_path root) :: older /\
    forall v, v ∈ e_walk E older (pr_path root) ->
      v_err v = None /\ (supported v -> excluded_file w (Clean (v_path v))).

Lemma walked_clean_bstep w w' root : bstep w w' -> walked_clean w root -> walked_clean w' root.
Proof.
  intros Hb (newer&older&El&Hv). pose proof Hb as [_ _ (new&El'&_)].
  exists (new ++ newer), older. rewrite El', El, app_assoc. split; [done|].
  intros v Hin. destruct (Hv v Hin) as [? Hx]. split; [done|]. intros Hs.
  eapply excluded_file_bstep; [exact Hb|]. auto.
Qed.

Lemma baseline_spec roots w :
  links_not_dirs -> live (fst w) ->
  match baselineForwardPaths E registry roots w with
  | (Ok _, w') => bstep w w' /\ Forall (walked_clean w') roots
  | (Fail _, w') => bstep w w'
  end.
Proof.
  intros Hlink. revert w. induction roots as [|r roots IH]; intros w Hlv; simpl; [split; [reflexivity|constructor]|].
  unfold st_try at 1. pose proof (verify_step r w) as H1. destruct (Verify E r w) as [[[]|e] w1]; [|done].
  simpl in H1. unfold st_try at 1, WalkDir, st_bind, w_call at 1.
  set (w2 := (fst w1, WWalk (pr_path r) :: snd w1)).
  pose proof (walk_event_step (pr_path r) w1) as H2. fold w2 in H2.
  pose proof (baseline_walk r (e_walk E (snd w1) (pr_path r)) w2 (Hlink _ _)) as H3.
  specialize (H3 ltac:(apply (bs_live _ _ H1 Hlv))).
  destruct (walk_list _ tt None _ w2) as [[[]|e] w3].
  2: { etransitivity; [exact H1|]. by etransitivity. }
  destruct H3 as [H3 Hv]. unfold st_try at 1.
  pose proof (verify_step r w3) as H4. destruct (Verify E r w3) as [[[]|e] w4]; simpl in H4.
  2: { do 3 (etransitivity; [eassumption|]). done. }
  assert (bstep w w4) as H14 by (do 3 (etransitivity; [eassumption|]); done).
  specialize (IH w4 (bs_live _ _ H14 Hlv)).
  destruct (baselineForwardPaths E registry roots w4) as [[[]|e] w5]; [|by etransitivity].
  destruct IH as [H5 Hr]. split; [by etransitivity|]. constructor; [|done].
  eapply walked_clean_bstep; [etransitivity; [exact H4|exact H5]|].
  destruct H3 as [_ _ (new&El&_)]. exists new, (snd w1). split; [done|]. exact Hv.
Qed.

(** ** Construction *)

Lemma write_step {S} f (s : forwardState) (w : S * list wevent) :
  match w_wrap f (writeForwardState E s) w with
  | (Ok _, w') => fst w' = fst w /\ exists payload, forward_Marshal s = Ok payload /\
                    snd w' = WPersist payload None :: snd w
  | (Fail _, w') => True
  end.
Proof.
  unfold w_wrap, writeForwardState, st_try, w_lift, w_err, w_call, w_fail.
  destruct (forward_Marshal s) as [payload|e]; [|done].
  destruct (maxForwardStateBytes <? len payload); [done|].
  destruct (e_persist E (snd w) payload) as [e|] eqn:Ep; simpl; rewrite ?Ep; [done|]. eauto.
Qed.

(** The two ways in which a watcher's state comes about. *)
Lemma newForwardState_cases roots l s w' :
  newForwardState E registry roots (tt, l) = (Ok s, w') ->
  exists current, currentForwardRoots roots = Ok current /\ Roots s = current /\ in_sync s (snd w') /\
    ((e_exists E l = Ok true /\ valid s /\ exists new, snd w' = new ++ l /\ Forall not_upload new) \/
     (e_exists E l = Ok false /\
      exists now l1 s1 l2, baselineForwardPaths E registry roots (initial_state now current, l1) = (Ok tt, (s1, l2)) /\
        s1 = s /\ (exists l0, now = e_now E l0) /\ (exists new, l1 = new ++ l /\ Forall not_upload new) /\
        exists payload, snd w' = WPersist payload None :: l2)).
Proof.
  unfold newForwardState, st_try at 1, w_lift. destruct (currentForwardRoots roots) as [current|e]; [|done].
  intros H. exists current. split; [done|]. revert H.
  unfold st_try at 1, w_wrap at 1, w_call at 1. cbn [snd fst].
  destruct (e_exists E l) as [[|]|e] eqn:Ee; [| |done].
  - unfold loadForwardState, st_try, w_wrap, w_call, w_lift. cbn [snd fst].
    destruct (e_read E (WExists (Ok true) :: l)) as [payload|e]; [|done].
    destruct (rejectDuplicateForwardKeys (json_tokens payload)) as [[]|e] eqn:Er; [|done].
    destruct (forward_Decode payload) as [st|e] eqn:Ed; [|done].
    destruct (validateForwardState st) as [[]|e] eqn:Ev; [|done]. unfold w_ret, w_fail.
    case_bool_decide as Hr; simpl; [|done]. intros [= <- <-]. split; [done|]. split.
    { exists payload. simpl. auto. }
    left. split_and!; try done. by exists [WRead (Ok payload); WExists (Ok true)]; repeat constructor.
  - unfold st_bind, w_call. cbn [snd fst]. set (now := e_now E (WExists (Ok false) :: l)).
    set (l1 := WNow now :: WExists (Ok false) :: l).
    destruct (baselineForwardPaths E registry roots (initial_state now current, l1)) as [[[]|e] [s1 l2]] eqn:Eb; [|done].
    pose proof (write_step "persist initial forward state: %w" s1 (tt, l2)) as Hw.
    destruct (w_wrap _ _ (tt, l2)) as [[[]|e] w2]; [|done]. intros [= <- <-].
    destruct Hw as (_&payload&Hm&El). simpl in El.
    assert (evolves (initial_state now current) s1) as He.
    { pose proof (baseline_bstep roots (initial_state now current, l1)) as [Hb _ _]. by rewrite Eb in Hb. }
    split; [apply (ev_roots _ _ He)|]. split; [exists payload; rewrite El; simpl; auto|].
    right. split; [done|]. exists now, l1, s1, l2. split_and!; try done; [by eexists| |by eexists].
    by exists [WNow now; WExists (Ok false)]; repeat constructor.
Qed.
End Start.

(** ** A watcher's life *)

Section Life.
Context `{Src : Sources} `{Codec : ForwardCodec} `{T : UnicodeTables}.


(** From the moment a watcher is built, and through any number of scans,
    the last payload on disk is the encoding of the state in memory (or, before
    the first write, the payload the state was read from). *)
Theorem memory_matches_disk (E : WEnv) (registry : Registry) (roots : list PinnedRoot)
    (s s' : forwardState) (l l' : list wevent) (w : unit * list wevent)
    (Hnew : newForwardState E registry roots (tt, l) = (Ok s, w)) (Hrun : scans (s, snd w) (s', l')) :
  exists payload, on_disk l' = Some payload /\
    (forward_Marshal s' = Ok payload \/
     forward_Decode payload = Ok s' /\ rejectDuplicateForwardKeys (json_tokens payload) = Ok tt).
Proof.
  apply newForwardState_cases in Hnew as (current&_&_&Hsync&_).
  apply scans_fstep in Hrun as [_ _ Hs _]. exact (Hs Hsync).
Qed.

(** What [encoding/json] is relied on for: a valid state that was encoded
    decodes to itself and repeats no key. *)
Definition codec_ok : Prop := forall s payload,
  valid s -> forward_Marshal s = Ok payload ->
  forward_Decode payload = Ok s /\ rejectDuplicateForwardKeys (json_tokens payload) = Ok tt.


(** The state is unchanged and nothing was uploaded. *)
Definition silent (w w' : forwardState * list wevent) : Prop :=
  fst w' = fst w /\ exists new, snd w' = new ++ snd w /\ Forall not_upload new.

#[local] Instance silent_preorder : PreOrder silent.
Proof.
  split; [intros w; split; [done|by exists []]|].
  intros w1 w2 w3 [H1 (n1&E1&F1)] [H2 (n2&E2&F2)]. split; [congruence|].
  exists (n2 ++ n1). rewrite E2, E1, app_assoc. split; [done|]. by apply Forall_app.
Qed.

Lemma silent_close E w : silent w (snd (closeSnapshot E w)).
Proof. split; [done|]. exists [WCloseSnapshot (e_close_snapshot E (snd w))]. by repeat constructor. Qed.

Lemma silent_snapshot E root path n w : silent w (snd (Snapshot_ E root path n w)).
Proof.
  unfold Snapshot_, st_try, w_lift, w_fail, w_call. repeat case_match; simplify_eq/=; try reflexivity.
  split; [done|]. by eexists [_]; repeat constructor.
Qed.

(** A source whose content was uploaded, as its recorded digest shows, is
    not uploaded again while its content is unchanged, and processing it changes
    nothing. *)
Theorem unchanged_source_not_uploaded (E : WEnv) (registry : Registry) (root : PinnedRoot)
    (path kind : string) (id : RootIdentity) (w : forwardState * list wevent)
    (Hsame : forall l parts n sn, e_snapshot E l path parts n = Ok sn ->
               hex_encode (sn_digest sn) = progress_of (fst w) path) :
  silent w (snd (processForwardPath E registry root path kind id w)).
Proof.
  unfold processForwardPath, st_try at 1.
  pose proof (silent_snapshot E root path MaxSourceSnapshotBytes w) as H1.
  destruct (Snapshot_ E root path MaxSourceSnapshotBytes w) as [[sn|e] w1] eqn:Es; [|done].
  apply snapshot_result in Es as (Ew&l&parts&Hsn). simpl in H1. etransitivity; [exact H1|].
  assert ((progress_of (fst w1) path ==s hex_encode (sn_digest sn)) = true) as Hp
    by (apply String.eqb_eq; rewrite Ew; symmetry; eauto).
  unfold st_bind at 1, w_get. rewrite Hp. pose proof (silent_close E w1) as H2.
  case_match; [|case_match; exact H2].
  unfold st_try. destruct (closeSnapshot E w1) as [[[]|e] w2]; exact H2.
Qed.

(** ** A scan is bounded *)

Definition is_snapshot (e : wevent) : bool := match e with WSnapshot _ _ => true | _ => false end.
Definition snapshots (l : list wevent) : Z := Z.of_nat (length (List.filter is_snapshot l)).

Definition adds {A} (n : Z) (m : st (forwardState * list wevent) A) : Prop :=
  forall w, snapshots (snd (snd (m w))) <= snapshots (snd w) + n.

Lemma adds_call {A} (ask : list wevent -> A) ev :
  (forall a, is_snapshot (ev a) = false) -> adds 0 (w_call ask ev).
Proof. intros H w. unfold w_call, snapshots. simpl. rewrite H. lia. Qed.
Lemma adds_ret {A} (a : A) : adds 0 (w_ret a).
Proof. intros w. simpl. lia. Qed.
Lemma adds_fail {A} e : adds 0 (@w_fail forwardState A e).
Proof. intros w. simpl. lia. Qed.
Lemma adds_lift {A} (r : result A) : adds 0 (w_lift r).
Proof. intros w. simpl. lia. Qed.
Lemma adds_put s : adds 0 (w_put s).
Proof. intros w. simpl. lia. Qed.
Lemma adds_get : adds 0 w_get.
Proof. intros w. simpl. lia. Qed.
Lemma adds_err n m : adds n m -> adds n (w_err m).
Proof. intros Hm w. unfold w_err. specialize (Hm w). by destruct (m w). Qed.
Lemma adds_wrap {A} n f (m : WM forwardState A) : adds n m -> adds n (w_wrap f m).
Proof. intros Hm w. unfold w_wrap. specialize (Hm w). by destruct (m w) as [[a|e] w1]. Qed.
Lemma adds_try {A B} n (m : WM forwardState A) (f : A -> WM forwardState B) :
  adds n m -> (forall a, adds 0 (f a)) -> 0 <= n -> adds n (st_try m f).
Proof.
  intros Hm Hf Hn w. unfold st_try. specialize (Hm w). destruct (m w) as [[a|e] w1]; simpl in *; [|lia].
  pose proof (Hf a w1). lia.
Qed.
Lemma adds_bind {A B} (m : st (forwardState * list wevent) A) (f : A -> st (forwardState * list wevent) B) :
  adds 0 m -> (forall a, adds 0 (f a)) -> adds 0 (st_bind m f).
Proof.
  intros Hm Hf w. unfold st_bind. specialize (Hm w). destruct (m w) as [a w1]; simpl in *.
  pose proof (Hf a w1). lia.
Qed.

Ltac adds_tac := repeat first
  [ apply adds_ret | apply adds_fail | apply adds_lift | apply adds_put | apply adds_get | apply adds_err
  | apply adds_wrap | apply adds_call; intros; reflexivity
  | apply adds_try; [|intros|lia] | apply adds_bind; [|intros]
  | case_match ].

Lemma adds_write E s : adds 0 (writeForwardState E s).
Proof. unfold writeForwardState. adds_tac. Qed.
Lemma adds_refuse E path id sessions : adds 0 (refuseForwardPath E path id sessions).
Proof. unfold refuseForwardPath. adds_tac. Qed.
Lemma adds_close E : adds 0 (closeSnapshot E).
Proof. unfold closeSnapshot. adds_tac. Qed.
Lemma adds_snapshot E r c n : adds 1 (Snapshot_ E r c n).
Proof.
  intros w. unfold Snapshot_, st_try, w_lift, w_fail, w_call, snapshots.
  repeat case_match; simplify_eq/=; lia.
Qed.

Lemma adds_process E registry root path kind id : adds 1 (processForwardPath E registry root path kind id).
Proof.
  unfold processForwardPath. apply adds_try; [apply adds_snapshot|intros sn|lia].
  repeat first [apply adds_refuse | apply adds_close | apply adds_write | progress adds_tac].
Qed.

(** From [seen] sources on, a computation that counts them takes at most one
    snapshot for each it counts, up to the limit. *)
Definition counted {A} (count : A -> Z) (seen : Z) (m : WM forwardState A) : Prop := forall w,
  match m w with
  | (Ok a, w') => seen <= count a <= MaxFilesPerScan /\
                  snapshots (snd w') <= snapshots (snd w) + (count a - seen)
  | (Fail _, w') => snapshots (snd w') <= snapshots (snd w) + (MaxFilesPerScan - seen)
  end.

Lemma adds_ctx E : adds 0 (ctx_Err E).
Proof. unfold ctx_Err. adds_tac. Qed.

Lemma counted_visit E registry root seen v :
  0 <= seen <= MaxFilesPerScan -> counted fst seen (scan_visit E registry root seen v).
Proof.
  intros Hs w. unfold scan_visit. destruct (v_err v); [simpl; lia|].
  unfold st_try at 1. pose proof (adds_ctx E w) as H1.
  destruct (ctx_Err E w) as [[[]|e] w1]; simpl in H1; [|lia].
  destruct (v_symlink v); [simpl; lia|]. destruct (v_dir v || negb (v_regular v)); [simpl; lia|].
  destruct (Detect registry (v_path v)) as [kind|e]; [|destruct (errors_Is e ErrUnsupportedSource); simpl; lia].
  unfold st_bind at 1, w_get. destruct (mget _ _); [simpl; lia|].
  unfold st_try at 1.
  assert (adds 0 (forwardSourceIdentity E root (Clean (v_path v)))) as H2 by (unfold forwardSourceIdentity; adds_tac).
  specialize (H2 w1). destruct (forwardSourceIdentity E root (Clean (v_path v)) w1) as [[id|e] w2]; simpl in H2; [|lia].
  destruct (mget _ _); [simpl; lia|].
  destruct (MaxFilesPerScan <? seen + 1) eqn:El; [simpl; lia|]. to_prop.
  unfold st_try. pose proof (adds_process E registry root (Clean (v_path v)) kind id w2) as H3.
  destruct (processForwardPath _ _ _ _ _ _ w2) as [[[]|e] w3]; simpl in *; lia.
Qed.

Lemma counted_walk (fn : Z -> visit -> WM forwardState (Z * bool)) seen skip vs :
  (forall seen v, 0 <= seen <= MaxFilesPerScan -> counted fst seen (fn seen v)) ->
  0 <= seen <= MaxFilesPerScan -> counted (fun n => n) seen (walk_list fn seen skip vs).
Proof.
  intros Hf. revert seen skip. induction vs as [|v vs IH]; intros seen skip Hs w; simpl; [lia|].
  destruct (match skip with Some p => HasPrefix (v_path v) (p +:+ "/") | None => false end); [by apply IH|].
  unfold st_try. pose proof (Hf seen v Hs w) as H1.
  destruct (fn seen v w) as [[[seen' b]|e] w1]; simpl in *; [|done].
  pose proof (IH seen' (if b then Some (v_path v) else skip) ltac:(lia) w1) as H2.
  destruct (walk_list fn seen' _ vs w1) as [[n|e] w2]; lia.
Qed.

Lemma counted_roots E registry roots seen :
  0 <= seen <= MaxFilesPerScan -> counted (fun n => n) seen (scan_roots E registry roots seen).
Proof.
  revert seen. induction roots as [|r roots IH]; intros seen Hs w; simpl; [lia|].
  unfold st_try, WalkDir, st_bind, w_call.
  pose proof (counted_walk (scan_visit E registry r) seen None (e_walk E (snd w) (pr_path r))
    (fun s v Hs => counted_visit E registry r s v Hs) Hs (fst w, WWalk (pr_path r) :: snd w)) as H1.
  destruct (walk_list _ seen None _ _) as [[seen'|e] w1]; simpl in H1; unfold snapshots in *; simpl in H1; [|lia].
  pose proof (IH seen' ltac:(lia) w1) as H2. unfold snapshots in H2.
  destruct (scan_roots E registry roots seen' w1) as [[n|e] w2]; lia.
Qed.

(** C39: one scan takes at most [MaxFilesPerScan] snapshots, over all roots
    together, however many files the roots hold. *)
Theorem scan_is_bounded (E : WEnv) (registry : Registry) (roots : list PinnedRoot) (w : forwardState * list wevent) :
  snapshots (snd (snd (scanForward E registry roots w))) <= snapshots (snd w) + MaxFilesPerScan.
Proof.
  unfold scanForward, st_try.
  pose proof (counted_roots E registry roots 0 ltac:(unfold MaxFilesPerScan; lia) w) as H1.
  destruct (scan_roots E registry roots 0 w) as [[n|e] w1]; simpl in *; lia.
Qed.

End Life.
