(* ===== verification/Producer.v ===== *)
(** * The polling producer and the debounce loop

    [internal/history/watch/producer.go] and [loop.go]. [select] statements read
    a list of outcomes, one for each time round the loop; a loop whose list is
    used up is still running. *)
From Stdlib Require Import ZArith Lia Bool.
From Stdlib Require Import String Ascii.
From stdpp Require Import base tactics option list gmap strings.
From S2P Require Import Prelude GoStrings GoPath StoreTypes JsonKeys Watch Forward.
Open Scope Z_scope.

(** ** producer.go *)

Record Producer : Type := mkProducer {
  p_registry : Registry;
  p_roots : list PinnedRoot;
  p_interval : Z;
  p_forward : option forwardState;
  p_ready : bool;
  p_closed : bool
}.

Definition fs_ErrClosed : error := os_ErrClosed.

Definition setReady (value : bool) (p : Producer) : Producer :=
  mkProducer (p_registry p) (p_roots p) (p_interval p) (p_forward p) value (p_closed p).
Definition set_forward (s : forwardState) (p : Producer) : Producer :=
  mkProducer (p_registry p) (p_roots p) (p_interval p) (Some s) (p_ready p) (p_closed p).
Definition set_closed_roots (roots : list PinnedRoot) (p : Producer) : Producer :=
  mkProducer (p_registry p) roots (p_interval p) (p_forward p) false true.

Section Producer.
Context `{Sources} `{ForwardCodec} `{UnicodeTables} (E : WEnv).

(** [root.Close()]. *)
Definition closeRoot {S} (r : PinnedRoot) : st (S * list wevent) (option error * PinnedRoot) :=
  if pr_closed r then fun w => ((None, r), w)
  else
    let* e := w_call (fun l => e_close_root E l (pr_path r)) (WCloseRoot (pr_path r)) in
    fun w => ((e, mkPinnedRoot (pr_path r) true None), w).

Fixpoint closeRoots {S} (roots : list PinnedRoot) : st (S * list wevent) (list error * list PinnedRoot) :=
  match roots with
  | [] => fun w => (([], []), w)
  | r :: rest =>
      let* a := closeRoot r in
      let* b := closeRoots rest in
      fun w => ((match fst a with Some e => e :: fst b | None => fst b end, snd a :: snd b), w)
  end.

Fixpoint bind_roots {S} (previous : option string) (paths : list string) (roots : list PinnedRoot)
  : WM S (list PinnedRoot) :=
  match paths with
  | [] => w_ret roots
  | path :: rest =>
      if match previous with Some p => path ==s p | None => false end then
        let* _ := closeRoots roots in
        w_fail (errors_New "watch producer roots must be unique")
      else
        match NewPinnedRoot path with
        | Fail e => let* _ := closeRoots roots in w_fail e
        | Ok root =>
            let* b := Bind E root in
            match b with
            | Fail e =>
                let* _ := closeRoot root in
                let* _ := closeRoots roots in
                w_fail (Wrapf "bind watch root: %w" [] e)
            | Ok (root, false) =>
                let* _ := closeRoot root in
                let* _ := closeRoots roots in
                w_fail (Wrapf "bind watch root: %w" [] ErrRootUnbound)
            | Ok (root, true) => bind_roots (Some path) rest (roots ++ [root])
            end
        end
  end.

(** [NewProducer]; [sink] is false for a nil sink. *)
Definition NewProducer (registry : Registry) (sink : bool) (paths : list string) (interval : Z) : WM unit Producer :=
  if negb sink || bool_decide (paths = []) then w_fail (errors_New "watch producer requires sink and roots")
  else if interval <=? 0 then w_fail (errors_New "watch producer interval is required")
  else
    let? roots := bind_roots None (sort_Strings paths) [] in
    w_ret (mkProducer registry roots interval None false false).

(** [NewForwardProducer]; a failure after the producer is built closes it. *)
Definition NewForwardProducer (registry : Registry) (sink : bool) (paths : list string) (interval : Z)
    (stateRoot : bool) : WM unit Producer :=
  if negb stateRoot then w_fail (errors_New "forward watch producer requires durable state")
  else
    let? p := NewProducer registry sink paths interval in
    let* r := newForwardState E registry (p_roots p) in
    match r with
    | Fail e => let* _ := closeRoots (p_roots p) in w_fail e
    | Ok state => w_ret (set_forward state p)
    end.

(** [Ready]. *)
Fixpoint verify_roots {S} (roots : list PinnedRoot) : WM S unit :=
  match roots with
  | [] => w_ret tt
  | r :: rest => let? _ := Verify E r in verify_roots rest
  end.
Definition Ready_ : WM Producer unit :=
  let* p := w_get in
  if p_closed p || negb (p_ready p) then w_fail ErrRootUnbound else verify_roots (p_roots p).

(** The function [Scan] walks with when there is no forward state. *)
Definition plain_visit (registry : Registry) (root : PinnedRoot) (seen : Z) (v : visit) : WM Producer (Z * bool) :=
  match v_err v with
  | Some e => w_fail e
  | None =>
      let? _ := ctx_Err E in
      if v_symlink v then w_ret (seen, v_dir v)
      else if v_dir v || negb (v_regular v) then w_ret (seen, false)
      else
        match Detect registry (v_path v) with
        | Fail e => if errors_Is e ErrUnsupportedSource then w_ret (seen, false) else w_fail e
        | Ok kind =>
            let seen := seen + 1 in
            if MaxFilesPerScan <? seen then w_fail ErrScanLimit
            else
              let? snapshot := Snapshot_ E root (v_path v) MaxSourceSnapshotBytes in
              let dispatched := Dispatch registry kind (sn_content snapshot) (v_path v) in
              let* closed := closeSnapshot E in
              let? chunks := w_lift dispatched in
              let? _ := w_lift closed in
              match chunks with
              | [] => w_ret (seen, false)
              | _ =>
                  let? _ := w_err (w_call (fun l => e_upsert E l chunks)
                                     (WUpsert (v_path v) (sn_identity snapshot) chunks)) in
                  w_ret (seen, false)
              end
        end
  end.

Fixpoint plain_roots (registry : Registry) (roots : list PinnedRoot) (seen : Z) : WM Producer Z :=
  match roots with
  | [] => w_ret seen
  | root :: rest =>
      let? seen := WalkDir E (plain_visit registry root) seen (pr_path root) in
      plain_roots registry rest seen
  end.

(** Runs a tracker computation on the producer's forward state. *)
Definition on_tracker {A} (state : forwardState) (m : WM forwardState A) : WM Producer A := fun w =>
  let '(r, (s, l)) := m (state, snd w) in (r, (set_forward s (fst w), l)).

(** [Scan] of a producer with a live context argument. *)
Definition Scan : WM Producer unit :=
  let? _ := ctx_Err E in
  let* p := w_get in
  if p_closed p then w_fail fs_ErrClosed
  else
    let* r := match p_forward p with
              | Some state => on_tracker state (scanForward E (p_registry p) (p_roots p))
              | None => let? _ := plain_roots (p_registry p) (p_roots p) 0 in w_ret tt
              end in
    let* p := w_get in
    let* _ := w_put (setReady (is_ok r) p) in
    w_lift r.

(** [Close]; the failures are those that [errors.Join] joins, none for nil. *)
Definition CloseProducer : st (Producer * list wevent) (list error) :=
  let* p := w_get in
  if p_closed p then fun w => ([], w)
  else
    let* r := closeRoots (p_roots p) in
    let* _ := w_put (set_closed_roots (snd r) p) in
    fun w => (fst r, w).

(** An outcome of the [select] of [Run]: the context is done, or a tick. *)
Inductive run_choice : Type :=
| RDone (err : error)
| RTick.

Fixpoint run_ticks (choices : list run_choice) : st (Producer * list wevent) (option error) := fun w =>
  match choices with
  | [] => (None, w)
  | RDone e :: _ => (Some e, w)
  | RTick :: rest =>
      match Scan w with
      | (Fail e, w') => (Some e, w')
      | (Ok _, w') => run_ticks rest w'
      end
  end.

(** [Run]: [None] while the loop runs on. *)
Definition Run (choices : list run_choice) : st (Producer * list wevent) (option error) := fun w =>
  match Scan w with
  | (Fail e, w') => (Some e, w')
  | (Ok _, w') => run_ticks choices w'
  end.

End Producer.

(** ** loop.go *)

Record Event : Type := mkEvent { Path : string; At : Time }.

Definition ErrEventQueueFull : error := Sentinel "watch event queue full".

(** [Dispatch] is [None] when nil; it answers to the paths dispatched before. *)
Record Loop : Type := mkLoop {
  Debounce : Z;
  Capacity : Z;
  LoopDispatch : option (list string -> string -> option error)
}.

Definition debounce (l : Loop) : Z := if Debounce l <=? 0 then millisecond else Debounce l.
Definition capacity (l : Loop) : Z := if Capacity l <=? 0 then 64 else Capacity l.

(** What the [select] of the loop may receive. *)
Inductive loop_choice : Type :=
| LDone (err : error)
| LEvent (e : Event)
| LClosed
| LTick (now : Time).

Inductive loop_status : Type :=
| LRunning
| LReturned (err : option error).

(** The loop's state: pending paths with their due times, and the paths
    dispatched so far, newest first. *)
Record loop_state : Type := mkLoopState {
  l_pending : gmap string Time;
  l_dispatched : list string
}.

Fixpoint dispatch_all (dispatch : list string -> string -> option error) (paths : list string) (done : list string)
  : option error * list string :=
  match paths with
  | [] => (None, done)
  | p :: rest =>
      match dispatch done p with
      | Some e => (Some e, p :: done)
      | None => dispatch_all dispatch rest (p :: done)
      end
  end.

(** The paths that are due, in order. *)
Definition due (now : Time) (pending : gmap string Time) : list string :=
  sort_Strings (map fst (List.filter (fun '(_, at_) => negb (After at_ now)) (map_to_list pending))).

(** One time round the loop. *)
Definition loop_step (l : Loop) (dispatch : list string -> string -> option error) (c : loop_choice) (s : loop_state)
  : loop_status * loop_state :=
  match c with
  | LDone e => (LReturned (Some e), s)
  | LClosed => (LReturned None, s)
  | LEvent e =>
      if Path e ==s "" then (LRunning, s)
      else if (capacity l <=? Z.of_nat (size (l_pending s))) && negb (bool_decide (is_Some (l_pending s !! Path e)))
      then (LReturned (Some ErrEventQueueFull), s)
      else (LRunning, mkLoopState (<[Path e := time_Add (At e) (debounce l)]> (l_pending s)) (l_dispatched s))
  | LTick now =>
      let paths := due now (l_pending s) in
      let pending := filter (fun kv => After (snd kv) now = true) (l_pending s) in
      match dispatch_all dispatch paths (l_dispatched s) with
      | (Some e, done) => (LReturned (Some e), mkLoopState pending done)
      | (None, done) => (LRunning, mkLoopState pending done)
      end
  end.

Fixpoint loop_run (l : Loop) (dispatch : list string -> string -> option error) (choices : list loop_choice) (s : loop_state)
  : loop_status * loop_state :=
  match choices with
  | [] => (LRunning, s)
  | c :: rest =>
      match loop_step l dispatch c s with
      | (LRunning, s') => loop_run l dispatch rest s'
      | r => r
      end
  end.

(** [Loop.Run]. *)
Definition Loop_Run (l : Loop) (choices : list loop_choice) : loop_status * loop_state :=
  match LoopDispatch l with
  | None => (LReturned (Some (errors_New "watch dispatch is required")), mkLoopState ∅ [])
  | Some dispatch => loop_run l dispatch choices (mkLoopState ∅ [])
  end.
