(* ===== verification/ProducerSpec.v ===== *)
(** * Properties of the producer and of the debounce loop ([Producer]) *)
From Stdlib Require Import ZArith Lia Bool.
From Stdlib Require Import String Ascii.
From stdpp Require Import base tactics option list gmap strings sorting.
From S2P Require Import Prelude GoStrings GoPath StoreTypes JsonKeys Watch Forward ForwardSpec ForwardStartSpec Producer.
Open Scope Z_scope.

(** ** The debounce loop *)

Section LoopSpec.
Context (l : Loop) (dispatch : list string -> string -> option error).

(** A path on its own: when it is due, and how often it was dispatched. *)
Definition timer_step (p : string) (s : option Time * nat) (c : loop_choice) : option Time * nat :=
  match c with
  | LEvent e => if (Path e ==s p) && (p !=s "") then (Some (time_Add (At e) (debounce l)), snd s) else s
  | LTick now =>
      match fst s with
      | Some t => if After t now then s else (None, S (snd s))
      | None => s
      end
  | _ => s
  end.
Definition timer (p : string) (choices : list loop_choice) : option Time * nat :=
  fold_left (timer_step p) choices (None, 0%nat).

Definition dispatched_count (p : string) (s : loop_state) : nat := count_occ String.string_dec (l_dispatched s) p.
Definition view (p : string) (s : loop_state) : option Time * nat := (l_pending s !! p, dispatched_count p s).

Lemma due_elem now pending p :
  p ∈ due now pending <-> exists t, pending !! p = Some t /\ After t now = false.
Proof.
  unfold due. rewrite (sort_Strings_perm _). rewrite list_elem_of_In, in_map_iff. split.
  - intros ([p' t]&<-&Hin). apply filter_In in Hin as [Hin Hn]. exists t.
    apply list_elem_of_In, elem_of_map_to_list in Hin. by apply negb_true_iff in Hn.
  - intros (t&Ht&Hn). exists (p, t). split; [done|]. apply filter_In.
    rewrite Hn. split; [|done]. by apply list_elem_of_In, elem_of_map_to_list.
Qed.

Lemma due_NoDup now pending : NoDup (due now pending).
Proof.
  unfold due. rewrite (sort_Strings_perm _).
  pose proof (NoDup_fst_map_to_list pending) as Hn. revert Hn. generalize (map_to_list pending).
  induction l0 as [|[k t] l0 IH]; simpl; [done|]. intros [Hk Hn]%NoDup_cons.
  case_match; [|by apply IH]. simpl. constructor; [|by apply IH].
  intros Hin. apply Hk. rewrite list_elem_of_In in *. apply in_map_iff in Hin as (x&<-&Hx).
  apply in_map. by apply filter_In in Hx as [? _].
Qed.

Lemma dispatch_all_done paths done done' :
  dispatch_all dispatch paths done = (None, done') -> done' = rev paths ++ done.
Proof.
  revert done. induction paths as [|p paths IH]; intros done; simpl; [by intros [= <-]|].
  case_match; [done|]. intros ->%IH. by rewrite <- app_assoc.
Qed.

Lemma count_occ_NoDup (x : string) (xs : list string) :
  NoDup xs -> count_occ String.string_dec xs x = if bool_decide (x ∈ xs) then 1%nat else 0%nat.
Proof.
  intros Hn. case_bool_decide as Hin.
  - apply NoDup_count_occ'; [by apply NoDup_ListNoDup|by apply list_elem_of_In].
  - apply count_occ_not_In. by rewrite <- list_elem_of_In.
Qed.

Lemma loop_step_view c s s' p :
  loop_step l dispatch c s = (LRunning, s') -> view p s' = timer_step p (view p s) c.
Proof.
  unfold loop_step, timer_step, view, dispatched_count. destruct c as [e|e| |now]; try done.
  - destruct (Path e ==s "") eqn:E0; to_prop.
    { intros [= <-]. destruct (Path e ==s p) eqn:Ep; [|done]. to_prop. subst p. rewrite E0. done. }
    case_match; [done|]. intros [= <-]. simpl. destruct (Path e ==s p) eqn:Ep; to_prop.
    + subst p. rewrite (proj2 (String.eqb_neq _ _) E0). simpl. by rewrite lookup_insert_eq.
    + simpl. by rewrite lookup_insert_ne.
  - destruct (dispatch_all dispatch _ _) as [[e|] done'] eqn:Ed; [done|]. intros [= <-].
    apply dispatch_all_done in Ed as ->. simpl.
    rewrite count_occ_app, count_occ_rev, count_occ_NoDup by apply due_NoDup.
    rewrite map_lookup_filter. destruct (l_pending s !! p) as [t|] eqn:Et; simpl.
    + destruct (After t now) eqn:Ea.
      * rewrite bool_decide_false; [by rewrite option_guard_True|].
        intros (t'&Ht&?)%due_elem. congruence.
      * rewrite bool_decide_true; [by rewrite option_guard_False by congruence|]. apply due_elem. eauto.
    + rewrite bool_decide_false; [done|]. intros (t'&Ht&?)%due_elem. congruence.
Qed.

Lemma loop_run_view choices s s' p :
  loop_run l dispatch choices s = (LRunning, s') -> view p s' = fold_left (timer_step p) choices (view p s).
Proof.
  revert s. induction choices as [|c choices IH]; intros s; simpl; [by intros [= <-]|].
  destruct (loop_step l dispatch c s) as [[|err] s1] eqn:Es; [|done].
  intros Hr. rewrite (IH _ Hr). by rewrite (loop_step_view _ _ _ _ Es).
Qed.

Lemma loop_step_size c s st s' :
  Z.of_nat (size (l_pending s)) <= capacity l -> loop_step l dispatch c s = (st, s') ->
  Z.of_nat (size (l_pending s')) <= capacity l.
Proof.
  intros Hs. unfold loop_step. destruct c as [e|e| |now]; try (by intros [= <- <-]).
  - case_match; [by intros [= <- <-]|]. case_match eqn:Ec; [by intros [= <- <-]|]. intros [= <- <-]. simpl.
    destruct (l_pending s !! Path e) as [t|] eqn:Et.
    + rewrite map_size_insert_Some by eauto. done.
    + rewrite map_size_insert_None by done. rewrite bool_decide_false in Ec by (intros [? ?]; congruence).
      rewrite andb_true_r in Ec. to_prop. lia.
  - assert (size (filter (fun kv => After (snd kv) now = true) (l_pending s)) <= size (l_pending s))%nat.
    { apply map_subseteq_size, map_filter_subseteq. }
    case_match; case_match; intros [= <- <-]; simpl; lia.
Qed.
End LoopSpec.

(** C26: the debounce loop acts as one independent timer for each path: while it
    runs, a path is pending exactly when its last event is not yet due at a tick,
    with that event's time plus the debounce as its due time, and it has been
    dispatched once for each time it fell due; no path is lost or dispatched
    early. *)
Theorem loop_refines_timers (l : Loop) (dispatch : list string -> string -> option error)
    (choices : list loop_choice) (s : loop_state) (p : string)
    (Hl : LoopDispatch l = Some dispatch) (Hrun : Loop_Run l choices = (LRunning, s)) :
  l_pending s !! p = fst (timer l p choices) /\ dispatched_count p s = snd (timer l p choices).
Proof.
  unfold Loop_Run in Hrun. rewrite Hl in Hrun.
  pose proof (loop_run_view l dispatch choices _ s p Hrun) as Hv. unfold timer.
  unfold view in Hv at 2. simpl in Hv. rewrite lookup_empty in Hv.
  change (dispatched_count p (mkLoopState ∅ [])) with 0%nat in Hv. rewrite <- Hv. done.
Qed.

(** The debounce loop never holds more pending paths than its capacity. *)
Theorem loop_pending_bounded (l : Loop) (choices : list loop_choice) :
  Z.of_nat (size (l_pending (snd (Loop_Run l choices)))) <= capacity l.
Proof.
  assert (0 <= capacity l) as Hc by (unfold capacity; case_match; lia).
  unfold Loop_Run. destruct (LoopDispatch l) as [dispatch|]; [|simpl; by rewrite map_size_empty].
  assert (Z.of_nat (size (l_pending (mkLoopState ∅ []))) <= capacity l) as Hs by (simpl; by rewrite map_size_empty).
  revert Hs. generalize (mkLoopState ∅ []). induction choices as [|c choices IH]; intros s Hs; simpl; [done|].
  destruct (loop_step l dispatch c s) as [st s1] eqn:Es. pose proof (loop_step_size _ _ _ _ _ _ Hs Es).
  destruct st; simpl; auto.
Qed.

(** ** Building a producer *)

Section Build.
Context `{Src : Sources} `{Codec : ForwardCodec} `{T : UnicodeTables} (E : WEnv).

(** A root that is pinned and in use. *)
Definition root_ok (r : PinnedRoot) : Prop :=
  abs_clean (pr_path r) = true /\ pr_closed r = false /\ is_Some (pr_bound r).

(** Every root of [new] that was bound, or tried, is closed in [new]. *)
Definition bound_paths (l : list wevent) : list string :=
  omap (fun e => match e with WBind p _ => Some p | _ => None end) l.
Definition closed_paths (l : list wevent) : list string :=
  omap (fun e => match e with WCloseRoot p _ => Some p | _ => None end) l.

Lemma closeRoot_log {S} (r : PinnedRoot) (w : S * list wevent) :
  pr_closed r = false ->
  exists e, snd (closeRoot E r w) = (fst w, WCloseRoot (pr_path r) e :: snd w).
Proof. intros Hc. unfold closeRoot. rewrite Hc. eexists. reflexivity. Qed.

Lemma closeRoots_log {S} roots (w : S * list wevent) :
  Forall (fun r => pr_closed r = false) roots ->
  exists new, snd (closeRoots E roots w) = (fst w, new ++ snd w) /\
    bound_paths new = [] /\ closed_paths new ≡ₚ map pr_path roots.
Proof.
  intros Hr. revert w. induction Hr as [|r roots Hc _ IH]; intros w; simpl.
  - exists []. by destruct w.
  - unfold st_bind. destruct (closeRoot_log r w Hc) as [e He].
    destruct (closeRoot E r w) as [a w1]. simpl in He. subst w1.
    destruct (IH (fst w, WCloseRoot (pr_path r) e :: snd w)) as (new&Hn&Hb&Hcl).
    destruct (closeRoots E roots _) as [b w2]. simpl in *. subst w2.
    exists (new ++ [WCloseRoot (pr_path r) e]). rewrite <- app_assoc. split; [done|].
    unfold bound_paths, closed_paths in *. rewrite !omap_app, Hb, Hcl. simpl. split; [done|].
    by rewrite Permutation_app_comm.
Qed.

Lemma NewPinnedRoot_ok path root :
  NewPinnedRoot path = Ok root -> abs_clean path = true /\ root = mkPinnedRoot path false None.
Proof.
  unfold NewPinnedRoot. rewrite if_fail_ok. intros [Hc [= <-]]. split; [|done].
  unfold abs_clean. apply orb_false_iff in Hc as [->%negb_false_iff ->%negb_false_iff]. done.
Qed.

(** No path equals the one before it. *)
Fixpoint chain (previous : option string) (paths : list string) : Prop :=
  match paths with
  | [] => True
  | p :: rest => previous <> Some p /\ chain (Some p) rest
  end.

Lemma Bind_ok {S} (r : PinnedRoot) (w : S * list wevent) root b w' :
  Bind E r w = (Ok (root, b), w') ->
  pr_path root = pr_path r /\ pr_closed root = false /\ (b = true -> is_Some (pr_bound root)).
Proof.
  unfold Bind, st_try, w_fail, w_ret, w_call. intros H.
  destruct (pr_closed r); [done|]. destruct (e_bind E (snd w) (pr_path r)) as [[id|]|e]; simplify_eq/=; done.
Qed.

(** When the roots are built they are the paths given, all in use. *)
Lemma bind_roots_ok {S} previous paths roots (w : S * list wevent) roots' w' :
  Forall root_ok roots -> bind_roots E previous paths roots w = (Ok roots', w') ->
  Forall root_ok roots' /\ map pr_path roots' = map pr_path roots ++ paths /\ chain previous paths.
Proof.
  revert previous roots w. induction paths as [|path paths IH]; intros previous roots w Hok; cbn [bind_roots].
  - intros [= <- _]. by rewrite app_nil_r.
  - destruct (match previous with Some p => path ==s p | None => false end) eqn:Ep.
    { unfold st_bind. by destruct (closeRoots E roots w). }
    destruct (NewPinnedRoot path) as [root|e] eqn:En.
    2: { unfold st_bind. by destruct (closeRoots E roots w). }
    apply NewPinnedRoot_ok in En as [Hp ->]. unfold st_bind at 1.
    destruct (Bind E _ w) as [[[root [|]]|e] w1] eqn:Eb.
    2,3: unfold st_bind; destruct (closeRoot E _ w1) as [? w2]; by destruct (closeRoots E roots w2).
    apply Bind_ok in Eb as (Epath&Hc&Hb). simpl in Epath.
    intros Hr. apply IH in Hr as (?&Hm&Hch).
    + split; [done|]. rewrite Hm, map_app. simpl. rewrite Epath, <- app_assoc. split; [done|].
      simpl. split; [|done]. intros ->. rewrite String.eqb_refl in Ep. done.
    + apply Forall_app. split; [done|]. constructor; [|constructor]. unfold root_ok. rewrite Epath. auto.
Qed.

(** When building the roots fails, every root that was bound is closed again. *)
Definition released (roots : list PinnedRoot) (new : list wevent) : Prop :=
  forall p, p ∈ map pr_path roots \/ p ∈ bound_paths new -> p ∈ closed_paths new.

Lemma close_all_released {S A} roots e (w : S * list wevent) :
  Forall root_ok roots ->
  exists new w', st_bind (closeRoots E roots) (fun _ => @w_fail S A e) w = (Fail e, w') /\
    snd w' = new ++ snd w /\ released roots new /\ bound_paths new = [].
Proof.
  intros Hok. assert (Forall (fun r => pr_closed r = false) roots) as Hopen
    by (eapply Forall_impl; [exact Hok|]; by intros r (?&?&?)).
  unfold st_bind. destruct (closeRoots_log roots w Hopen) as (new&Hn&Hb&Hc).
  destruct (closeRoots E roots w) as [b w1]. simpl in Hn. subst w1. exists new, (fst w, new ++ snd w).
  split_and!; try done. intros p [Hp|Hp]; rewrite Hc; [done|]. rewrite Hb in Hp. by apply elem_of_nil in Hp.
Qed.

Lemma bind_log {S} (r : PinnedRoot) (w : S * list wevent) :
  pr_closed r = false -> exists res, snd (snd (Bind E r w)) = WBind (pr_path r) res :: snd w.
Proof.
  intros Hc. unfold Bind. rewrite Hc. unfold st_try, w_call. simpl.
  destruct (e_bind E (snd w) (pr_path r)) as [[id|]|e]; by eexists.
Qed.

Lemma bind_roots_released {S} previous paths roots (w : S * list wevent) e w' :
  Forall root_ok roots -> bind_roots E previous paths roots w = (Fail e, w') ->
  exists new, snd w' = new ++ snd w /\ released roots new.
Proof.
  revert previous roots w. induction paths as [|path paths IH]; intros previous roots w Hok; cbn [bind_roots]; [done|].
  destruct (match previous with Some p => path ==s p | None => false end).
  { match goal with |- st_bind _ (fun _ => w_fail ?e0) w = _ -> _ =>
      destruct (close_all_released (A := list PinnedRoot) roots e0 w Hok) as (new&w2&->&?&?&_) end.
    intros [= _ <-]. eauto. }
  destruct (NewPinnedRoot path) as [root|e0] eqn:En.
  2: { destruct (close_all_released (A := list PinnedRoot) roots e0 w Hok) as (new&w2&->&?&?&_).
       intros [= _ <-]. eauto. }
  apply NewPinnedRoot_ok in En as [Hp ->]. unfold st_bind at 1.
  destruct (bind_log (mkPinnedRoot path false None) w eq_refl) as [res Hl].
  assert (forall root e0 w1, pr_path root = path -> pr_closed root = false ->
            snd w1 = WBind path res :: snd w ->
            st_bind (closeRoot E root) (fun _ => st_bind (closeRoots E roots) (fun _ => @w_fail S (list PinnedRoot) e0)) w1 = (Fail e, w') ->
            exists new, snd w' = new ++ snd w /\ released roots new) as Hfail.
  { intros root e0 w1 Epath Hcl Hl1. unfold st_bind at 1. destruct (closeRoot_log root w1 Hcl) as [ce Hce].
    destruct (closeRoot E root w1) as [x w2]. simpl in Hce. subst w2.
    destruct (close_all_released (A := list PinnedRoot) roots e0 (fst w1, WCloseRoot (pr_path root) ce :: snd w1) Hok)
      as (new&w3&->&Hl3&Hrel&Hb). intros [= _ <-].
    exists (new ++ [WCloseRoot (pr_path root) ce; WBind path res]). rewrite Hl3. simpl. rewrite Hl1, <- app_assoc.
    split; [done|]. unfold released, bound_paths, closed_paths in *. rewrite !omap_app, Hb. simpl.
    intros p. rewrite elem_of_app, list_elem_of_singleton, list_elem_of_singleton. intros [Hin| ->]; [left; auto|by right]. }
  destruct (Bind E _ w) as [[[root [|]]|e0] w1] eqn:Eb; simpl in Hl.
  - apply Bind_ok in Eb as (Epath&Hc&Hb). simpl in Epath. intros Hr.
    apply IH in Hr as (new&Hl2&Hrel).
    + exists (new ++ [WBind path res]). rewrite Hl2, Hl, <- app_assoc. split; [done|].
      unfold released, bound_paths, closed_paths in *. rewrite !omap_app, app_nil_r. simpl.
      intros p Hin. apply Hrel. rewrite map_app. simpl. rewrite Epath, !elem_of_app, list_elem_of_singleton.
      rewrite elem_of_app, list_elem_of_singleton in Hin. tauto.
    + apply Forall_app. split; [done|]. constructor; [|constructor]. unfold root_ok. rewrite Epath. auto.
  - apply Bind_ok in Eb as (Epath&Hc&_). by apply Hfail.
  - by apply Hfail.
Qed.

(** Sorted paths without equal neighbours are strictly increasing. *)
Lemma str_lt_of_le a b : str_le a b -> a <> b -> String.ltb a b = true.
Proof.
  rewrite str_le_compare. unfold String.ltb. intros H Hne.
  destruct (String.compare a b) eqn:Ec; [|done|done]. by apply String.compare_eq_iff in Ec.
Qed.

Lemma roots_valid_sorted previous roots current_ :
  Forall root_ok roots -> chain previous (map pr_path roots) -> StronglySorted str_le (map pr_path roots) ->
  match previous, roots with Some p, r :: _ => str_le p (pr_path r) | _, _ => True end ->
  currentForwardRoots roots = Ok current_ -> roots_valid previous current_ = true.
Proof.
  intros Hok. revert previous current_. induction Hok as [|r roots (Hp&Hcl&id&Hid) Hok IH]; intros previous current_ Hch Hs Hprev; cbn [currentForwardRoots].
  - intros [= <-]. done.
  - unfold Identity. rewrite Hcl, Hid. rewrite bind_ok. intros (rest&Hr&[= <-]). simpl in *.
    destruct Hch as [Hne Hch]. inversion Hs as [|? ? Hs' Hle]; subst.
    apply andb_true_iff in Hp as [-> ->]. rewrite (IH (Some (pr_path r)) rest); try done.
    + destruct previous as [p|]; [|done]. rewrite str_lt_of_le; [done|done|congruence].
    + destruct roots as [|r2 roots]; [done|]. by inversion Hle.
Qed.

(** A producer that is built watches exactly the given paths, each once, in
    increasing order, through roots that are clean, absolute, bound and open;
    when building fails, every root that was bound on the way is closed again. *)
Theorem producer_roots (registry : Registry) (sink : bool) (paths : list string) (interval : Z) (l : list wevent) :
  match NewProducer E registry sink paths interval (tt, l) with
  | (Ok p, _) => map pr_path (p_roots p) = sort_Strings paths /\ NoDup paths /\
                 Forall root_ok (p_roots p) /\ p_ready p = false /\ p_closed p = false
  | (Fail _, w') => exists new, snd w' = new ++ l /\
                    forall path, path ∈ bound_paths new -> path ∈ closed_paths new
  end.
Proof.
  assert (exists new, l = new ++ l /\ forall path, path ∈ bound_paths new -> path ∈ closed_paths new) as Hnone
    by (exists []; by split).
  unfold NewProducer. destruct (negb sink || bool_decide (paths = [])); [done|].
  destruct (interval <=? 0); [done|]. unfold st_try.
  destruct (bind_roots E None (sort_Strings paths) [] (tt, l)) as [[roots|e] w'] eqn:Eb.
  - apply bind_roots_ok in Eb as (?&Hm&Hch); [|constructor]. simpl in Hm. split_and!; try done.
    rewrite <- (sort_Strings_perm paths).
    pose proof (sort_Strings_sorted paths) as Hs. revert Hch Hs. generalize (sort_Strings paths).
    clear. intros ps. generalize (None : option string). induction ps as [|p ps IH]; intros prev Hch Hs; [constructor|].
    simpl in Hch. destruct Hch as [_ Hch]. inversion Hs as [|? ? Hs' Hle]; subst. constructor; [|by eapply IH].
    destruct ps as [|q ps]; [by intros ?%elem_of_nil|]. simpl in Hch. destruct Hch as [Hne _].
    intros Hin. apply Hne. f_equal.
    assert (str_le q p) as Hqp.
    { apply elem_of_cons in Hin as [->|Hin]; [apply str_le_refl|].
      inversion Hs' as [|? ? _ Hle']; subst. rewrite Forall_forall in Hle'. by apply Hle'. }
    assert (str_le p q) as Hpq by (by inversion Hle). by apply (anti_symm str_le).
  - apply bind_roots_released in Eb as (new&?&Hr); [|constructor]. exists new. split; [done|].
    intros path Hp. apply Hr. by right.
Qed.

(** *** The first state is valid *)

Lemma hex_char_ascii c : is_hex c = true -> code c < 128 /\ space1 c = false.
Proof. unfold is_hex, is_lower_hex, is_digit, space1. lia. Qed.

Lemma find_session_head s : find_session s = "" \/ exists a r, find_session s = String a r /\ is_hex a = true.
Proof.
  induction s as [|c s IH]; [by left|]. cbn [find_session].
  destruct (session_at (String c s)) eqn:Es; [|exact IH]. right. exists c, (slice s 0 35).
  unfold session_at in Es. cbn [hex_run] in Es. destruct (is_hex c); [|done]. split; [|done]. reflexivity.
Qed.

Lemma session_not_blank path :
  tables_keep_text T -> sessionIDFromPath path <> "" -> TrimSpace (sessionIDFromPath path) <> "".
Proof.
  intros HT. unfold sessionIDFromPath. destruct (find_session_head (Base path)) as [->|(a&r&->&Ha)]; [done|].
  intros _ Hb. apply (ToLower_keeps_text _ HT) in Hb. apply hex_char_ascii in Ha as [H1 H2].
  exact (TrimSpace_not_blank a r H1 H2 Hb).
Qed.

Lemma baseline_visit_valid registry root v w :
  tables_keep_text T -> valid (fst w) -> valid (fst (snd (baseline_visit E registry root tt v w))).
Proof.
  intros HT Hv. unfold baseline_visit. destruct (v_err v); [done|]. case_match; [done|]. case_match; [done|].
  destruct (Detect registry (v_path v)) as [kind|e]; [|by destruct (errors_Is e ErrUnsupportedSource)].
  unfold st_try. pose proof (identity_call E root (Clean (v_path v)) w) as Hi.
  destruct (forwardSourceIdentity E root (Clean (v_path v)) w) as [[id|e] w1] eqn:Ei.
  2: { simpl. by destruct Hi as [-> _]. }
  apply identity_result in Ei as [Ew Hp]. simpl. rewrite Ew.
  assert (valid (exclude_object (exclude_path (fst w) (Clean (v_path v))) (forwardIdentityKey id))) as Hx.
  { apply valid_exclude_object; [by apply valid_exclude_path|apply identity_key_valid]. }
  destruct (sessionIDFromPath (Clean (v_path v)) ==s "") eqn:Es; simpl; [done|].
  to_prop. apply valid_exclude_session; [done|]. by apply session_not_blank.
Qed.

Lemma baseline_walk_valid registry root skip vs w :
  tables_keep_text T -> valid (fst w) ->
  valid (fst (snd (walk_list (baseline_visit E registry root) tt skip vs w))).
Proof.
  intros HT. revert skip w. induction vs as [|v vs IH]; intros skip w Hv; simpl; [done|].
  case_match; [by apply IH|]. unfold st_try.
  pose proof (baseline_visit_valid registry root v w HT Hv) as H1.
  destruct (baseline_visit E registry root tt v w) as [[[[] b]|e] w1]; simpl in *; auto.
Qed.

Lemma verify_state {S} root (w : S * list wevent) : fst (snd (Verify E root w)) = fst w.
Proof. unfold Verify. by destruct (pr_closed root). Qed.

Lemma baseline_valid registry roots w :
  tables_keep_text T -> valid (fst w) -> valid (fst (snd (baselineForwardPaths E registry roots w))).
Proof.
  intros HT. revert w. induction roots as [|r roots IH]; intros w Hv; simpl; [done|].
  unfold st_try at 1. pose proof (verify_state r w) as H1. destruct (Verify E r w) as [[[]|e] w1]; simpl in H1; [|by rewrite <- H1 in Hv].
  unfold st_try at 1, WalkDir, st_bind, w_call at 1.
  pose proof (baseline_walk_valid registry r None (e_walk E (snd w1) (pr_path r)) (fst w1, WWalk (pr_path r) :: snd w1) HT) as H2.
  simpl in H2. rewrite H1 in H2 at 1. specialize (H2 Hv).
  destruct (walk_list _ tt None _ _) as [[[]|e] w2]; simpl in *; [|done].
  unfold st_try at 1. pose proof (verify_state r w2) as H3. destruct (Verify E r w2) as [[[]|e] w3]; simpl in H3; rewrite <- H3 in H2; auto.
Qed.

Lemma initial_valid now current_ :
  IsZero now = false -> current_ <> [] -> roots_valid None current_ = true -> valid (initial_state now current_).
Proof.
  intros Hn Hc Hr. apply valid_iff. exists ∅, ∅, ∅, ∅. by split.
Qed.

(** A forward producer that is built holds a valid state of its own roots,
    whether that state was read back or is the first one. *)
Theorem forward_producer_state_valid (registry : Registry) (sink : bool) (paths : list string) (interval : Z)
    (stateRoot : bool) (l : list wevent) (p : Producer) (w' : unit * list wevent)
    (Htables : tables_keep_text T) (Hclock : forall l, IsZero (e_now E l) = false)
    (Hnew : NewForwardProducer E registry sink paths interval stateRoot (tt, l) = (Ok p, w')) :
  exists s, p_forward p = Some s /\ valid s /\ currentForwardRoots (p_roots p) = Ok (Roots s) /\
            map rs_Path (Roots s) = sort_Strings paths.
Proof.
  unfold NewForwardProducer in Hnew. destruct (negb stateRoot); [done|]. unfold st_try in Hnew.
  destruct (NewProducer E registry sink paths interval (tt, l)) as [[q|e] w1] eqn:Eq; [|done].
  unfold NewProducer in Eq. destruct (negb sink || bool_decide (paths = [])) eqn:Ep; [done|].
  destruct (interval <=? 0); [done|]. unfold st_try in Eq.
  destruct (bind_roots E None (sort_Strings paths) [] (tt, l)) as [[roots|e] w2] eqn:Eb; [|done].
  injection Eq as <- <-. apply bind_roots_ok in Eb as (Hok&Hm&Hch); [|constructor]. simpl in Hm.
  unfold st_bind in Hnew. destruct w2 as [[] l2]. simpl in Hnew.
  destruct (newForwardState E registry roots (tt, l2)) as [[s|e] w3] eqn:En.
  2: { by destruct (closeRoots E roots w3). }
  injection Hnew as <- <-. exists s. split; [done|]. simpl.
  apply newForwardState_cases in En as (cur&Hcur&Hroots&_&Hcase). rewrite Hroots.
  assert (forall rs c, currentForwardRoots rs = Ok c -> map rs_Path c = map pr_path rs) as Hpaths.
  { induction rs as [|r rs IH]; cbn [currentForwardRoots]; [by intros c [= <-]|]. intros c.
    destruct (Identity r); [|done]. rewrite bind_ok. intros (x&Hx&[= <-]). simpl. f_equal. by apply IH. }
  split; [|split; [done|by rewrite (Hpaths _ _ Hcur), Hm]].
  destruct Hcase as [(_&Hv&_)|(_&now&l1&s1&l3&Hbase&->&(l0&->)&_)]; [done|].
  pose proof (baseline_valid registry roots (initial_state (e_now E l0) cur, l1) Htables) as Hv. rewrite Hbase in Hv.
  apply Hv. apply initial_valid; [apply Hclock| |].
  - intros ->. apply Hpaths in Hcur. simpl in Hcur. rewrite Hm in Hcur.
    apply orb_false_iff in Ep as [_ Ep]. apply bool_decide_eq_false in Ep. apply Ep.
    pose proof (sort_Strings_perm paths) as Hp. rewrite <- Hcur in Hp. by apply Permutation_nil in Hp.
  - apply (roots_valid_sorted None roots); try done; rewrite Hm; [done|apply sort_Strings_sorted].
Qed.
End Build.

(** ** Readiness *)

(** A producer is ready exactly when its last completed scan succeeded: a
    successful scan makes it ready, a failed one makes it not ready, and a scan
    that does not start, because the context is done or the producer closed,
    only polls the context; a closed producer stays not ready and never scans. *)
Theorem scan_sets_readiness `{Sources} `{ForwardCodec} `{UnicodeTables} (E : WEnv) (w : Producer * list wevent) :
  match Scan E w with
  | (Ok _, w') => p_closed (fst w) = false /\ p_ready (fst w') = true
  | (Fail _, w') =>
      (p_closed (fst w) = false /\ p_ready (fst w') = false) \/
      (fst w' = fst w /\ snd w' = WCtx (e_ctx E (snd w)) :: snd w)
  end.
Proof.
  unfold Scan, st_try at 1. unfold ctx_Err at 1, w_err, w_call.
  destruct (e_ctx E (snd w)) as [e|] eqn:Ec; simpl; [by right|].
  unfold st_bind at 1, w_get. simpl. destruct (p_closed (fst w)) eqn:Ecl; [by right|].
  unfold st_bind at 1.
  match goal with |- context [match ?m (fst w, WCtx None :: snd w) with _ => _ end] =>
    destruct (m (fst w, WCtx None :: snd w)) as [r w1] end.
  unfold st_bind, w_put, w_lift. simpl. destruct r; simpl; auto.
Qed.

(** ** Concrete inputs *)

Definition sample_loop : Loop := mkLoop 10 2 (Some (fun _ _ => None)).
Definition sample_choices : list loop_choice :=
  [LEvent (mkEvent "/b" (mkTime 100 0)); LEvent (mkEvent "/a" (mkTime 105 0)); LTick (mkTime 110 0)].

Lemma loop_refines_timers_witness :
  exists s, Loop_Run sample_loop sample_choices = (LRunning, s) /\
    l_pending s !! "/a" = Some (mkTime 115 0) /\ dispatched_count "/b" s = 1%nat.
Proof.
  destruct (Loop_Run sample_loop sample_choices) as [st s] eqn:El.
  assert (st = LRunning) as -> by (apply (f_equal fst) in El; vm_compute in El; congruence).
  exists s. split; [reflexivity|]. split.
  - apply (loop_refines_timers sample_loop (fun _ _ => None) sample_choices s "/a" eq_refl El).
  - apply (loop_refines_timers sample_loop (fun _ _ => None) sample_choices s "/b" eq_refl El).
Defined.
