(* ===== verification/ForwardEligibility.v ===== *)
(** * Which sources a forward watcher accepts

    [inspectForwardEligibility] against a declarative reading of the parsed
    source, and concrete inputs for the properties of the forward watcher. *)
From Stdlib Require Import ZArith Lia Bool.
From Stdlib Require Import String Ascii.
From stdpp Require Import base tactics option list gmap strings.
From S2P Require Import Prelude GoStrings GoPath StoreTypes JsonKeys Watch Forward ForwardSpec ForwardStartSpec Producer ProducerSpec.
Open Scope Z_scope.

Section Eligibility.
Context `{Src : Sources} `{T : UnicodeTables}.

(** The items of a source that must be dated: whether they have a timestamp, and
    which. [None] when the source does not parse cleanly, or is binary. *)
Definition meaningful (e : ClaudeEntry) : bool :=
  ce_HasMessage e || (TrimSpace (ce_Summary e) !=s "") || ce_CompactSummary e.
Definition cm_visible (m : ConvMessage) : bool := TrimSpace (cm_Content m) !=s "".

Definition timed (i : TimedItem) : bool * Time := (ti_HasTime i, ti_Timestamp i).
Definition conversation_dates (l : list Conversation) : list (bool * Time) :=
  map (fun m => (cm_HasTime m, cm_Timestamp m)) (List.filter cm_visible (concat (map cv_Messages l))).

Definition dated_items (kind : string) (sn : Snapshot) : option (list (bool * Time)) :=
  if kind ==s SourceClaude then
    match claude_Parse (sn_content sn) (sn_size sn) with
    | Ok (entries, []) => Some (map (fun e => (ce_HasTimestamp e, ce_Timestamp e)) (List.filter meaningful entries))
    | _ => None
    end
  else if kind ==s SourceCodex then
    match codex_Parse (sn_content sn) (sn_size sn) with
    | Ok (events, []) => Some (map (fun e => (xe_HasTime e, xe_Timestamp e)) events)
    | _ => None
    end
  else if kind ==s SourceGemini then
    match gemini_Parse (sn_content sn) (sn_size sn) with
    | Ok (d, []) => Some (map timed (gd_Messages d ++ gd_Events d))
    | _ => None
    end
  else if kind ==s SourceAntigravity then
    if is_pb (Ext (sn_sourcePath sn)) then None
    else match antigravity_Parse (sn_content sn) (sn_size sn) with
         | Ok (events, []) => Some (map timed events)
         | _ => None
         end
  else if kind ==s SourceChatGPT then
    match chatgpt_Parse (sn_content sn) (sn_size sn) with
    | Ok (l, []) => Some (conversation_dates l)
    | _ => None
    end
  else if kind ==s SourceClaudeApp then
    match claudeapp_Parse (sn_content sn) (sn_size sn) with
    | Ok (l, []) => Some (conversation_dates l)
    | _ => None
    end
  else None.

(** An item dated at or after the cutoff. *)
Definition current (cutoff : Time) (i : bool * Time) : bool :=
  fst i && negb (IsZero (snd i)) && negb (Before (snd i) cutoff).

(** The verdict of the classification, as a condition on the items. *)
Definition accepts (cutoff : Time) (items : list (bool * Time)) : bool :=
  negb (bool_decide (items = [])) && forallb (current cutoff) items.

Definition verdict_accepts (r : forwardEligibility * list string) : bool :=
  match fst r with forwardAccept => true | _ => false end.

Lemma classify_accepts times sessions cutoff :
  verdict_accepts (classifyForwardTimes times sessions cutoff) = accepts cutoff (map (pair true) times).
Proof.
  unfold classifyForwardTimes, accepts. destruct times as [|t times]; [done|].
  rewrite bool_decide_false by done. cbn [negb andb].
  assert (forallb (current cutoff) (map (pair true) (t :: times)) =
          negb (existsb (fun t => IsZero t || Before t cutoff) (t :: times))) as ->.
  { generalize (t :: times). clear. intros l. induction l as [|t l IH]; [done|].
    cbn [map forallb existsb]. rewrite IH. unfold current. simpl.
    by destruct (IsZero t), (Before t cutoff). }
  by destruct (existsb _ _).
Qed.

(** A loop that gathers the timestamps of dated items and stops at the first
    that has none, in the shape all the loops of the code share. *)
Fixpoint gather (items : list (bool * Time)) : option (list Time) :=
  match items with
  | [] => Some []
  | (has, t) :: rest => if has : bool then cons t <$> gather rest else None
  end.

Lemma gather_accepts cutoff items :
  accepts cutoff items = match gather items with
                         | Some times => accepts cutoff (map (pair true) times)
                         | None => false
                         end.
Proof.
  unfold accepts. assert (forallb (current cutoff) items =
    match gather items with Some times => forallb (current cutoff) (map (pair true) times) | None => false end) as Hf.
  { induction items as [|[has t] items IH]; [done|]. cbn [forallb gather]. destruct has; [|done].
    rewrite IH. destruct (gather items) as [ts|]; [done|]. by rewrite andb_false_r. }
  rewrite Hf. destruct items as [|[has t] items]; [done|]. cbn [gather].
  destruct has; [|done]. by destruct (gather items).
Qed.

Lemma fmap_app_option (times : list Time) t (o : option (list Time)) :
  app (times ++ [t]) <$> o = app times <$> (cons t <$> o).
Proof. destruct o; simpl; [|done]. by rewrite <- app_assoc. Qed.

Definition times_of (r : (list Time * list string) + list string) : option (list Time) :=
  match r with inl (times, _) => Some times | inr _ => None end.

Lemma claude_gather entries times sessions :
  times_of (claude_items entries times sessions) =
  app times <$> gather (map (fun e => (ce_HasTimestamp e, ce_Timestamp e)) (List.filter meaningful entries)).
Proof.
  revert times sessions. induction entries as [|e entries IH]; intros times sessions; simpl; [by rewrite app_nil_r|].
  fold (meaningful e). destruct (meaningful e); simpl; [|by rewrite IH].
  destruct (ce_HasTimestamp e); simpl; [|done]. by rewrite IH, fmap_app_option.
Qed.

Lemma codex_gather events times sessions :
  times_of (codex_items events times sessions) = app times <$> gather (map (fun e => (xe_HasTime e, xe_Timestamp e)) events).
Proof.
  revert times sessions. induction events as [|e events IH]; intros times sessions; simpl; [by rewrite app_nil_r|].
  destruct (xe_HasTime e); simpl; [|done]. by rewrite IH, fmap_app_option.
Qed.

Lemma timed_gather refused items times :
  match timed_items refused items times with inl t => Some t | inr _ => None end = app times <$> gather (map timed items).
Proof.
  revert times. induction items as [|e items IH]; intros times; simpl; [by rewrite app_nil_r|].
  destruct (ti_HasTime e); simpl; [|done]. by rewrite IH, fmap_app_option.
Qed.

Lemma gather_app a b : gather (a ++ b) = (x ← gather a; y ← gather b; Some (x ++ y)).
Proof.
  induction a as [|[has t] a IH]; simpl; [by destruct (gather b)|].
  destruct has; [|done]. rewrite IH. destruct (gather a); simpl; [|done]. by destruct (gather b).
Qed.

Lemma messages_gather messages times :
  conversation_messages messages times =
  app times <$> gather (map (fun m => (cm_HasTime m, cm_Timestamp m)) (List.filter cm_visible messages)).
Proof.
  revert times. induction messages as [|m messages IH]; intros times; simpl; [by rewrite app_nil_r|].
  unfold cm_visible at 1. destruct (TrimSpace (cm_Content m) ==s ""); simpl; [apply IH|].
  destruct (cm_HasTime m); simpl; [|done]. by rewrite IH, fmap_app_option.
Qed.

Lemma conversations_gather l times sessions :
  times_of (conversation_items l times sessions) = app times <$> gather (conversation_dates l).
Proof.
  revert times sessions. induction l as [|c l IH]; intros times sessions; simpl; [by rewrite app_nil_r|].
  unfold conversation_dates. simpl. rewrite List.filter_app, map_app, gather_app, messages_gather.
  destruct (gather (map _ (List.filter cm_visible (cv_Messages c)))) as [ts|]; simpl; [|done].
  rewrite IH. unfold conversation_dates. destruct (gather _); simpl; [|done]. by rewrite app_assoc.
Qed.

Lemma finish_accepts r cutoff items :
  times_of r = app [] <$> gather items ->
  verdict_accepts (match r with
                   | inl (times, sessions) => classifyForwardTimes times sessions cutoff
                   | inr sessions => (forwardRefuse, sessions)
                   end) = accepts cutoff items.
Proof.
  intros H. rewrite gather_accepts. destruct r as [[times sessions]|sessions]; simpl in H.
  - destruct (gather items); [|done]. injection H as ->. apply classify_accepts.
  - by destruct (gather items).
Qed.

Lemma timed_accepts refused items times cutoff sessions (done_ : list (bool * Time)) :
  gather done_ = Some times ->
  verdict_accepts (match timed_items refused items times with
                   | inr s => (forwardRefuse, s)
                   | inl t => classifyForwardTimes t sessions cutoff
                   end) = accepts cutoff (done_ ++ map timed items).
Proof.
  intros Hd. rewrite gather_accepts, gather_app, Hd. simpl.
  pose proof (timed_gather refused items times) as H.
  destruct (timed_items refused items times) as [t|s], (gather (map timed items)); simpl in *; simplify_eq; try done.
  apply classify_accepts.
Qed.

Lemma issues_verdict_accepts issues (k : forwardEligibility * list string) :
  verdict_accepts (match issues_verdict issues with Some v => (v, []) | None => k end) =
  match issues with [] => verdict_accepts k | _ => false end.
Proof.
  unfold issues_verdict. destruct issues as [|i issues]; [done|]. by destruct (existsb _ _).
Qed.

(** A source is accepted for upload exactly when it parses without any
    issue, carries at least one item that must be dated, and every such item has
    a timestamp that is set and not before the cutoff; a binary source never is. *)
Theorem eligibility_exact (kind : string) (sn : Snapshot) (cutoff : Time) :
  verdict_accepts (inspectForwardEligibility kind sn cutoff) =
  match dated_items kind sn with
  | Some items => accepts cutoff items
  | None => false
  end.
Proof.
  unfold inspectForwardEligibility, dated_items.
  destruct (kind ==s SourceClaude).
  { destruct (claude_Parse _ _) as [[entries issues]|e]; [|done]. rewrite issues_verdict_accepts.
    destruct issues; [|done]. apply finish_accepts, claude_gather. }
  destruct (kind ==s SourceCodex).
  { destruct (codex_Parse _ _) as [[events issues]|e]; [|done]. rewrite issues_verdict_accepts.
    destruct issues; [|done]. apply finish_accepts, codex_gather. }
  destruct (kind ==s SourceGemini).
  { destruct (gemini_Parse _ _) as [[d issues]|e]; [|done].
    destruct issues as [|i issues]; [|done]. rewrite bool_decide_true by done. cbn [negb].
    pose proof (timed_gather (fun _ => [gd_SessionID d]) (gd_Messages d) []) as Hm.
    rewrite map_app. destruct (timed_items _ (gd_Messages d) []) as [times|s].
    - apply timed_accepts. destruct (gather (map timed (gd_Messages d))); simplify_eq/=. done.
    - rewrite gather_accepts, gather_app. by destruct (gather (map timed (gd_Messages d))). }
  destruct (kind ==s SourceAntigravity).
  { destruct (is_pb _); [by case_match|].
    destruct (antigravity_Parse _ _) as [[events issues]|e]; [|done]. rewrite issues_verdict_accepts.
    destruct issues; [|done]. by apply (timed_accepts _ events [] cutoff [] []). }
  destruct (kind ==s SourceChatGPT).
  { destruct (chatgpt_Parse _ _) as [[l issues]|e]; [|done]. destruct issues as [|i issues]; [|done].
    rewrite bool_decide_true by done. apply finish_accepts, conversations_gather. }
  destruct (kind ==s SourceClaudeApp); [|done].
  destruct (claudeapp_Parse _ _) as [[l issues]|e]; [|done]. destruct issues as [|i issues]; [|done].
  rewrite bool_decide_true by done. apply finish_accepts, conversations_gather.
Qed.
End Eligibility.

(** ** Concrete inputs *)

Module Samples.

(** One Claude conversation, dated, that makes one chunk. *)
Definition chunk : Chunk :=
  mkChunk "0a17" "hello" [] "turn" "session-a" "/w" "w" (time_Unix_UTC 20) "" "" "" "" "" "/w/new.jsonl" 0 "" [] "m".

#[export] Instance sources : Sources :=
  Build_Sources
    (fun _ _ => Ok ([mkClaudeEntry "session-a" true "" false true (time_Unix_UTC 20)], []))
    (fun _ _ => Fail io_EOF) (fun _ _ => Fail io_EOF) (fun _ _ => Fail io_EOF) (fun _ _ => Fail io_EOF)
    (fun _ _ => Fail io_EOF) (fun _ _ => Ok [chunk]) (fun _ _ => Fail io_EOF) (fun _ _ => Fail io_EOF)
    (fun _ _ => Fail io_EOF) (fun _ _ => Fail io_EOF) (fun _ _ => Fail io_EOF).

Definition state : forwardState :=
  mkForward 1 (time_Unix_UTC 10) [mkRootState "/w" 7 8] (Some {["/w/old.jsonl" := true]})
    (Some {[forwardIdentityKey (mkIdentity 7 9) := true]}) (Some ∅) (Some ∅).

(** A codec of a single state; other states encode to nothing in particular. *)
#[export] Instance codec : ForwardCodec :=
  Build_ForwardCodec (fun s => Ok (if bool_decide (s = state) then "state" else "other"))
    (fun _ => [Ok TScalar]) (fun p => if p ==s "state" then Ok state else Fail io_EOF).
Definition sealed_codec : ForwardCodec :=
  Build_ForwardCodec (fun s => if bool_decide (s = state) then Ok "state" else Fail io_EOF)
    (fun _ => [Ok TScalar]) (fun p => if p ==s "state" then Ok state else Fail io_EOF).

#[export] Instance tables : UnicodeTables := fun s => s.

Definition root : PinnedRoot := mkPinnedRoot "/w" false (Some (mkIdentity 7 8)).
Definition registry : Registry := mkRegistry "m" 1000000.

(** A root with one file, an old or a new one. *)
Definition env (file : string) (exists_ : bool) : WEnv :=
  mkWEnv (fun _ => None) (fun _ => time_Unix_UTC 10)
    (fun _ _ => [mkVisit ("/w/" +:+ file) None false false true])
    (fun _ _ => Ok None) (fun _ _ => None) (fun _ _ _ => Ok (mkIdentity 7 10))
    (fun _ c _ _ => Ok (mkSnapshot "text" c (mkIdentity 7 10) 4 "01234567890123456789012345678901"))
    (fun _ => None) (fun _ _ => None) (fun _ _ => None) (fun _ _ => None) (fun _ => Ok exists_)
    (fun _ => Ok "state").

Lemma env_digests file b : digests_ok (env file b).
Proof. intros l c parts n s H. injection H as <-. reflexivity. Qed.

Lemma tables_ok : tables_keep_text tables.
Proof. intros s _ H. exact H. Qed.

Lemma state_valid : valid state.
Proof. vm_compute. reflexivity. Qed.

(** What one scan of a root with a new file does. *)
Definition after : forwardState * list wevent :=
  snd (scanForward (env "new.jsonl" true) registry [root] (state, [WPersist "state" None])).

Lemma one_scan : scans (state, [WPersist "state" None]) (fst after, snd after).
Proof.
  eapply (scans_one (env "new.jsonl" true) registry [root]); [apply env_digests|].
  change (snd (scanForward (env "new.jsonl" true) registry [root] (state, [WPersist "state" None]))) with after.
  rewrite <- surjective_pairing. apply scans_none.
Qed.

(** The scan uploads the new file. *)
Lemma scan_uploads :
  WUpsert "/w/new.jsonl" (mkIdentity 7 10) [chunk] None ∈ snd after.
Proof. vm_compute. repeat first [left; fail | right | apply list_elem_of_here]. Qed.

End Samples.
Import Samples.

Lemma uploads_are_lawful_witness :
  WUpsert "/w/new.jsonl" (mkIdentity 7 10) [chunk] None ∈ snd after /\
  mget (ExcludedPaths state) "/w/new.jsonl" = false.
Proof.
  split; [exact scan_uploads|].
  destruct (uploads_are_lawful _ _ _ _ _ _ _ _ one_scan scan_uploads) as [Hin|(_&H&_)]; [|exact H].
  exfalso. by apply list_elem_of_singleton in Hin.
Defined.

Lemma exclusions_are_permanent_witness :
  scans (state, [WPersist "state" None]) (fst after, snd after) /\
  mget (ExcludedPaths (fst after)) "/w/old.jsonl" = true.
Proof.
  split; [exact one_scan|].
  apply (exclusions_are_permanent _ _ _ _ one_scan). vm_compute. reflexivity.
Defined.

Lemma scans_keep_state_valid_witness :
  scans (state, [WPersist "state" None]) (fst after, snd after) /\ valid (fst after).
Proof.
  split; [exact one_scan|].
  apply (scans_keep_state_valid _ _ _ _ tables_ok one_scan state_valid).
Defined.


Lemma memory_matches_disk_witness :
  exists s w, newForwardState (env "old.jsonl" true) registry [root] (tt, []) = (Ok s, w) /\
    exists payload, on_disk (snd w) = Some payload.
Proof.
  destruct (newForwardState (env "old.jsonl" true) registry [root] (tt, [])) as [[s|e] w] eqn:En.
  - exists s, w. split; [reflexivity|].
    destruct (memory_matches_disk (env "old.jsonl" true) registry [root] s s [] (snd w) w En (scans_none _)) as (p&Hp&_).
    exists p. exact Hp.
  - exfalso. apply (f_equal (fun r => is_ok (fst r))) in En. vm_compute in En. discriminate En.
Defined.


Lemma unchanged_source_not_uploaded_witness :
  silent (set_progress state "/w/new.jsonl" (hex_encode "01234567890123456789012345678901"), [])
    (snd (processForwardPath (env "new.jsonl" true) registry root "/w/new.jsonl" SourceClaude (mkIdentity 7 10)
            (set_progress state "/w/new.jsonl" (hex_encode "01234567890123456789012345678901"), []))).
Proof.
  apply unchanged_source_not_uploaded. intros l parts n sn H. injection H as <-. vm_compute. reflexivity.
Defined.

Definition binding_env : WEnv :=
  let e := env "old.jsonl" false in
  mkWEnv (e_ctx e) (e_now e) (e_walk e) (fun _ _ => Ok (Some (mkIdentity 7 8))) (e_verify e) (e_identity e)
    (e_snapshot e) (e_close_snapshot e) (e_close_root e) (e_upsert e) (e_persist e) (e_exists e) (e_read e).

Lemma forward_producer_state_valid_witness :
  exists p w s, NewForwardProducer binding_env registry true ["/w"] 1 true (tt, []) = (Ok p, w) /\
    p_forward p = Some s /\ valid s.
Proof.
  destruct (NewForwardProducer binding_env registry true ["/w"] 1 true (tt, [])) as [[p|e] w] eqn:En.
  - destruct (forward_producer_state_valid binding_env registry true ["/w"] 1 true [] p w tables_ok (fun _ => eq_refl) En)
      as (s&Hs&Hv&_).
    exists p, w, s. split; [reflexivity|]. split; [exact Hs|exact Hv].
  - exfalso. apply (f_equal (fun r => is_ok (fst r))) in En. vm_compute in En. discriminate En.
Defined.
