(* ===== verification/AtomicFile.v ===== *)
(** * Replacing a file atomically

    The last part of [save] in [internal/history/uploadqueue/queue.go] and of
    [persist] in [internal/history/cursor/state.go]: write a temporary file next
    to the target, sync and close it, rename it over the target and sync the
    directory. The operating system answers every call. *)
From Stdlib Require Import ZArith Lia Bool.
From Stdlib Require Import String Ascii.
From stdpp Require Import base tactics option list gmap strings sorting.
From S2P Require Import Prelude GoStrings.
Open Scope Z_scope.

(** The error each call returns, if it is reached. *)
Record fs_answers : Type := mkAnswers {
  fa_MkdirAll : option error;
  fa_CreateTemp : option error;
  fa_Write : option error;
  fa_Sync : option error;
  fa_Close : option error;
  fa_Rename : option error;
  fa_OpenDir : option error;
  fa_SyncDir : option error
}.

Definition no_errors : fs_answers := mkAnswers None None None None None None None None.

(** The error returned and what the target holds afterwards; the temporary file
    is removed in every case. *)
Definition replace_file (a : fs_answers) (payload : string) (target : option string)
  : option error * option string :=
  match fa_MkdirAll a with
  | Some e => (Some e, target)
  | None =>
      match fa_CreateTemp a with
      | Some e => (Some e, target)
      | None =>
          let e := match fa_Write a with Some e => Some e | None => fa_Sync a end in
          let e := match e with Some e => Some e | None => fa_Close a end in
          match e with
          | Some e => (Some e, target)
          | None =>
              match fa_Rename a with
              | Some e => (Some e, target)
              | None =>
                  match fa_OpenDir a with
                  | Some e => (Some e, Some payload)
                  | None => (fa_SyncDir a, Some payload)
                  end
              end
          end
      end
  end.

(** The target is never anything but its old or its new content, and it is the
    new content when no error is returned. *)
Lemma replace_file_atomic a payload target :
  let r := replace_file a payload target in
  (fst r = None -> snd r = Some payload) /\ (snd r = target \/ snd r = Some payload).
Proof. unfold replace_file. repeat case_match; simpl; auto; split; auto; done. Qed.

Lemma replace_file_no_errors payload target : replace_file no_errors payload target = (None, Some payload).
Proof. reflexivity. Qed.

(** ** Lists of records sorted by a key, as [sort.Slice] leaves them *)

Section SortBy.
Context {A : Type} (key : A -> string).

Definition key_le (a b : A) : Prop := str_le (key a) (key b).
#[export] Instance key_le_dec : RelDecision key_le.
Proof. intros a b. unfold key_le. apply _. Defined.
#[export] Instance key_le_total : Total key_le.
Proof. intros a b. apply str_le_total. Qed.
#[export] Instance key_le_trans : Transitive key_le.
Proof. intros a b c. apply str_le_trans. Qed.

Definition sort_by (l : list A) : list A := merge_sort key_le l.

Lemma sort_by_perm l : sort_by l ≡ₚ l.
Proof. apply merge_sort_Permutation. Qed.
Lemma sort_by_sorted l : StronglySorted key_le (sort_by l).
Proof. apply StronglySorted_merge_sort; apply _. Qed.
End SortBy.

(** ** Rebuilding a map from the list of its values *)

Section Rebuild.
Context {A : Type} (key : A -> string) (check : A -> bool).

(** The loop of the two [Open] functions: [None] when an entry is invalid or
    repeated. *)
Fixpoint load_entries (l : list A) (m : gmap string A) : option (gmap string A) :=
  match l with
  | [] => Some m
  | v :: rest =>
      if negb (check v) then None
      else if bool_decide (is_Some (m !! key v)) then None
      else load_entries rest (<[key v := v]> m)
  end.

Definition keyed (m : gmap string A) : Prop := forall k v, m !! k = Some v -> key v = k /\ check v = true.

Lemma load_entries_sound l m m' :
  load_entries l m = Some m' -> keyed m -> keyed m' /\ size m' = (length l + size m)%nat.
Proof.
  revert m. induction l as [|v l IH]; intros m; simpl; [by intros [= <-]|].
  destruct (check v) eqn:Ec; simpl; [|done]. case_bool_decide as Hn; [done|].
  intros Hl Hk. apply IH in Hl as [? Hs].
  - split; [done|]. rewrite Hs, map_size_insert_None by (by apply eq_None_not_Some). lia.
  - intros k x [[<- <-]|[? ?]]%lookup_insert_Some; auto.
Qed.

(** Loading lists what the map held. *)
Lemma load_entries_complete l m :
  NoDup (map key l) -> Forall (fun v => check v = true) l ->
  (forall v, v ∈ l -> m !! key v = None) ->
  exists m', load_entries l m = Some m' /\
    forall k, m' !! k = match list_find (fun v => key v = k) l with Some (_, v) => Some v | None => m !! k end.
Proof.
  revert m. induction l as [|v l IH]; intros m Hnd Hc Hm; simpl; [by exists m|].
  apply NoDup_cons in Hnd as [Hv Hnd]. inversion Hc as [|? ? Hcv Hcl]; subst. rewrite Hcv. simpl.
  rewrite bool_decide_false by (rewrite (Hm v) by (by left); by intros [? ?]).
  destruct (IH (<[key v := v]> m)) as (m'&Hl&Hk); [done|done| |].
  - intros x Hx. rewrite lookup_insert_ne; [apply Hm; by right|]. intros E. apply Hv.
    rewrite E. apply list_elem_of_fmap. eauto.
  - exists m'. split; [done|]. intros k. rewrite Hk. case_decide as E.
    + subst k. destruct (list_find _ l) as [[i x]|] eqn:Ef; simpl; [|by rewrite lookup_insert_eq].
      exfalso. apply list_find_Some in Ef as (Hx&E&_). apply Hv. rewrite <- E.
      apply list_elem_of_fmap. exists x. split; [done|]. by eapply list_elem_of_lookup_2.
    + destruct (list_find _ l) as [[i x]|]; simpl; [done|]. by rewrite lookup_insert_ne.
Qed.

(** The values of a keyed map have distinct keys, and loading them, in any
    order and after a change [f] that keeps keys, gives the changed map. *)
Lemma load_values (m : gmap string A) (f : A -> A) (l : list A) :
  keyed m -> (forall v, key (f v) = key v) -> (forall v, check v = true -> check (f v) = true) ->
  l ≡ₚ map f (map snd (map_to_list m)) -> load_entries l ∅ = Some (f <$> m).
Proof.
  intros Hk Hkey Hcheck Hl.
  assert (map key (map f (map snd (map_to_list m))) = map fst (map_to_list m)) as Hkeys.
  { rewrite !map_map. apply map_ext_in. intros [k v] Hin. simpl. rewrite Hkey.
    apply list_elem_of_In, elem_of_map_to_list in Hin. by apply Hk. }
  assert (NoDup (map key l)) as Hnd.
  { rewrite Hl, Hkeys. apply NoDup_fst_map_to_list. }
  assert (forall x, x ∈ l <-> exists k v, m !! k = Some v /\ x = f v) as Hin.
  { intros x. rewrite Hl, list_elem_of_In, in_map_iff. split.
    - intros (v&<-&Hv). apply in_map_iff in Hv as ([k v']&<-&Hv).
      apply list_elem_of_In, elem_of_map_to_list in Hv. simpl. eauto.
    - intros (k&v&Hv&->). exists v. split; [done|]. apply in_map_iff. exists (k, v). split; [done|].
      by apply list_elem_of_In, elem_of_map_to_list. }
  destruct (load_entries_complete l ∅ Hnd) as (m'&Hload&Hlook).
  - apply Forall_forall. intros x (k&v&Hv&->)%Hin. apply Hcheck. by eapply Hk.
  - intros v _. apply lookup_empty.
  - rewrite Hload. f_equal. apply map_eq. intros k. rewrite Hlook, lookup_fmap, lookup_empty.
    destruct (list_find _ l) as [[i x]|] eqn:Ef.
    + apply list_find_Some in Ef as (Hx&E&_). apply list_elem_of_lookup_2, Hin in Hx as (k'&v&Hv&->).
      rewrite Hkey in E. destruct (Hk _ _ Hv) as [E' _]. assert (k' = k) as -> by congruence. by rewrite Hv.
    + apply list_find_None in Ef. destruct (m !! k) as [v|] eqn:Hv; [|done]. exfalso.
      rewrite Forall_forall in Ef. apply (Ef (f v)); [apply Hin; eauto|]. rewrite Hkey. by eapply Hk.
Qed.
End Rebuild.
