(* ===== verification/UploadQueue.v ===== *)
(** * The upload queue

    [internal/history/uploadqueue/queue.go]: a bounded map of items that is
    saved as a whole before every change is adopted. *)
From Stdlib Require Import ZArith Lia Bool.
From Stdlib Require Import String Ascii.
From stdpp Require Import base tactics option list gmap strings sorting.
From S2P Require Import Prelude GoStrings GoPath AtomicFile.
Open Scope Z_scope.

Definition ErrFull : error := Sentinel "upload queue full".
Definition ErrCorrupt : error := Sentinel "corrupt upload queue".
Definition ErrInvalid : error := Sentinel "invalid upload record".

Record Item : Type := mkItem {
  i_ID : string;
  i_Source : string;
  i_Payload : string;
  i_Attempts : Z;
  i_Next : Time
}.
(** [==] on items compares every field, and times as [==] does. *)
#[global] Instance Item_eq_dec : EqDecision Item.
Proof. solve_decision. Defined.

Record Queue : Type := mkQueue {
  q_path : string;
  q_capacity : Z;
  q_items : gmap string Item
}.

(** [json.Marshal] and [json.Unmarshal] of the [disk] record. *)
Class QueueCodec : Type := {
  queue_Marshal : Z -> list Item -> result string;
  queue_Unmarshal : string -> option (Z * list Item)
}.

Definition valid_item (v : Item) : bool :=
  negb ((i_ID v ==s "") || (i_Source v ==s "") || (i_Payload v ==s "") || (i_Attempts v <? 0) || IsZero (i_Next v)).

Definition set_next (v : Item) (t : Time) : Item := mkItem (i_ID v) (i_Source v) (i_Payload v) (i_Attempts v) t.
Definition utc_item (v : Item) : Item := set_next v (UTC (i_Next v)).

(** What the file holds: nothing, or a payload. *)
Definition file : Type := option string.

Section Queue.
Context `{QueueCodec}.

(** The list that [save] writes. *)
Definition saved_list (items : gmap string Item) : list Item :=
  sort_by i_ID (map utc_item (map snd (map_to_list items))).

Definition save (a : fs_answers) (items : gmap string Item) (f : file) : option error * file :=
  match queue_Marshal 1 (saved_list items) with
  | Fail e => (Some e, f)
  | Ok b => replace_file a b f
  end.

(** [Open]; [read] is the outcome of reading the file. *)
Definition Open_ (path : string) (capacity : Z) (read : result string) : result Queue :=
  if negb (IsAbs path) || (Clean path !=s path) || (capacity <? 1) then Fail ErrInvalid
  else
    match read with
    | Fail e => if errors_Is e os_ErrNotExist then Ok (mkQueue path capacity ∅) else Fail e
    | Ok b =>
        match queue_Unmarshal b with
        | None => Fail ErrCorrupt
        | Some (version, items) =>
            if negb (version =? 1) then Fail ErrCorrupt
            else if capacity <? Z.of_nat (length items) then Fail ErrCorrupt
            else match load_entries i_ID valid_item items ∅ with
                 | None => Fail ErrCorrupt
                 | Some m => Ok (mkQueue path capacity m)
                 end
        end
    end.

(** What reading the file gives. *)
Definition ReadFile (f : file) : result string :=
  match f with
  | Some b => Ok b
  | None => Fail os_ErrNotExist
  end.

(** Adopt the new items if they could be saved. *)
Definition commit (a : fs_answers) (next : gmap string Item) (q : Queue) (f : file) : option error * (Queue * file) :=
  match save a next f with
  | (Some e, f') => (Some e, (q, f'))
  | (None, f') => (None, (mkQueue (q_path q) (q_capacity q) next, f'))
  end.

Definition Enqueue (a : fs_answers) (v : Item) (q : Queue) (f : file) : option error * (Queue * file) :=
  if negb (valid_item v) then (Some ErrInvalid, (q, f))
  else
    match q_items q !! i_ID v with
    | Some old => if bool_decide (old = v) then (None, (q, f)) else (Some ErrInvalid, (q, f))
    | None =>
        if q_capacity q <=? Z.of_nat (size (q_items q)) then (Some ErrFull, (q, f))
        else commit a (<[i_ID v := v]> (q_items q)) q f
    end.

Definition ReadyItems (now : Time) (limit : Z) (q : Queue) : list Item :=
  let out := sort_by i_ID (List.filter (fun v => negb (After (i_Next v) now)) (map snd (map_to_list (q_items q)))) in
  if (0 <? limit) && (limit <? Z.of_nat (length out)) then firstn (Z.to_nat limit) out else out.

(** [change]; [None] drops the item. *)
Definition change (a : fs_answers) (id : string) (g : Item -> option Item) (q : Queue) (f : file)
  : option error * (Queue * file) :=
  match q_items q !! id with
  | None => (None, (q, f))
  | Some v =>
      match g v with
      | Some replacement => commit a (<[id := replacement]> (q_items q)) q f
      | None => commit a (delete id (q_items q)) q f
      end
  end.

Definition Ack (a : fs_answers) (id : string) (q : Queue) (f : file) : option error * (Queue * file) :=
  change a id (fun _ => None) q f.

Definition Retry (a : fs_answers) (id : string) (next : Time) (q : Queue) (f : file) : option error * (Queue * file) :=
  if IsZero next then (Some ErrInvalid, (q, f))
  else change a id (fun v => Some (mkItem (i_ID v) (i_Source v) (i_Payload v) (wrap64 (i_Attempts v + 1)) (UTC next))) q f.

(** ** Runs *)

Inductive queue_op : Type :=
| QEnqueue (v : Item)
| QAck (id : string)
| QRetry (id : string) (next : Time).

Definition queue_do (a : fs_answers) (o : queue_op) (w : Queue * file) : option error * (Queue * file) :=
  match o with
  | QEnqueue v => Enqueue a v (fst w) (snd w)
  | QAck id => Ack a id (fst w) (snd w)
  | QRetry id next => Retry a id next (fst w) (snd w)
  end.
End Queue.
