(* ===== verification/UploadQueueSpec.v ===== *)
(** * Properties of the upload queue ([UploadQueue]) *)
From Stdlib Require Import ZArith Lia Bool.
From Stdlib Require Import String Ascii.
From stdpp Require Import base tactics option list gmap strings sorting.
From S2P Require Import Prelude GoStrings GoPath AtomicFile UploadQueue.
Open Scope Z_scope.

Section QueueSpec.
Context `{Codec : QueueCodec}.

(** ** The invariant *)

Record queue_ok (q : Queue) : Prop := mk_queue_ok {
  qo_path : abs_clean (q_path q) = true;
  qo_capacity : 1 <= q_capacity q;
  qo_size : Z.of_nat (size (q_items q)) <= q_capacity q;
  qo_items : keyed i_ID valid_item (q_items q);
  qo_attempts : forall k v, q_items q !! k = Some v -> is_int64 (i_Attempts v)
}.

(** The file holds the items, with their times in UTC. *)
Definition on_file (q : Queue) (f : file) : Prop :=
  match f with
  | None => q_items q = ∅
  | Some b => queue_Marshal 1 (saved_list (q_items q)) = Ok b
  end.

Lemma save_outcome a items f :
  let r := save a items f in
  (fst r = None -> exists b, queue_Marshal 1 (saved_list items) = Ok b /\ snd r = Some b) /\
  (snd r = f \/ exists b, queue_Marshal 1 (saved_list items) = Ok b /\ snd r = Some b).
Proof.
  unfold save. destruct (queue_Marshal 1 (saved_list items)) as [b|e]; simpl; [|by split; [|left]].
  destruct (replace_file_atomic a b f) as [H1 H2]. simpl in *. split; [eauto|].
  destruct H2; eauto.
Qed.

(** The items after an operation that succeeds. *)
Definition items_after (o : queue_op) (items : gmap string Item) : gmap string Item :=
  match o with
  | QEnqueue v => match items !! i_ID v with Some _ => items | None => <[i_ID v := v]> items end
  | QAck id => delete id items
  | QRetry id next =>
      match items !! id with
      | Some v => <[id := mkItem (i_ID v) (i_Source v) (i_Payload v) (wrap64 (i_Attempts v + 1)) (UTC next)]> items
      | None => items
      end
  end.

Lemma commit_cases a next q f e w :
  commit a next q f = (e, w) ->
  (e = None /\ fst w = mkQueue (q_path q) (q_capacity q) next /\
     exists b, queue_Marshal 1 (saved_list next) = Ok b /\ snd w = Some b) \/
  (e <> None /\ fst w = q /\
     (snd w = f \/ exists b, queue_Marshal 1 (saved_list next) = Ok b /\ snd w = Some b)).
Proof.
  unfold commit. destruct (save_outcome a next f) as [H1 H2].
  destruct (save a next f) as [[x|] f']; simpl in *; intros [= <- <-]; [right|left]; auto.
Qed.

Lemma queue_do_cases a o q f e w :
  queue_do a o (q, f) = (e, w) ->
  (e = None /\ q_items (fst w) = items_after o (q_items q) /\
     ((fst w = q /\ snd w = f) \/ exists b, queue_Marshal 1 (saved_list (q_items (fst w))) = Ok b /\ snd w = Some b)) \/
  (e <> None /\ fst w = q /\
     (snd w = f \/ exists b, queue_Marshal 1 (saved_list (items_after o (q_items q))) = Ok b /\ snd w = Some b)).
Proof.
  assert (forall next, commit a next q f = (e, w) ->
    (e = None /\ q_items (fst w) = next /\
     ((fst w = q /\ snd w = f) \/ exists b, queue_Marshal 1 (saved_list (q_items (fst w))) = Ok b /\ snd w = Some b)) \/
    (e <> None /\ fst w = q /\
     (snd w = f \/ exists b, queue_Marshal 1 (saved_list next) = Ok b /\ snd w = Some b))) as Hc.
  { intros next [(->&Hq&Hf)|?]%commit_cases; [left|by right]. rewrite Hq. simpl. auto. }
  destruct o as [v|id|id next]; simpl.
  - unfold Enqueue. destruct (valid_item v); simpl; [|intros [= <- <-]; right; auto].
    destruct (q_items q !! i_ID v) as [old|] eqn:Eo.
    + case_bool_decide; intros [= <- <-]; [left|right]; auto.
    + destruct (q_capacity q <=? _); [intros [= <- <-]; right; auto|apply Hc].
  - unfold Ack, change. destruct (q_items q !! id) as [v|] eqn:Eo; [apply Hc|].
    intros [= <- <-]. left. simpl. rewrite delete_id by done. auto.
  - unfold Retry, change. destruct (IsZero next); [intros [= <- <-]; right; auto|].
    destruct (q_items q !! id) as [v|] eqn:Eo; [apply Hc|]. intros [= <- <-]. left. auto.
Qed.

(** ** Preservation *)

Definition op_fits (o : queue_op) : Prop :=
  match o with QEnqueue v => is_int64 (i_Attempts v) | _ => True end.

(** Less than the largest number of attempts, so that counting does not wrap. *)
Definition attempts_left (q : Queue) : Prop :=
  forall k v, q_items q !! k = Some v -> i_Attempts v < max_int64.

Lemma queue_do_path a o q f e w :
  queue_do a o (q, f) = (e, w) -> q_path (fst w) = q_path q /\ q_capacity (fst w) = q_capacity q.
Proof.
  destruct o as [v|id|id next]; simpl; unfold Enqueue, Ack, Retry, change, commit; intros H;
    repeat case_match; simplify_eq/=; done.
Qed.

Lemma queue_do_size a o q f w :
  queue_ok q -> queue_do a o (q, f) = (None, w) -> Z.of_nat (size (q_items (fst w))) <= q_capacity q.
Proof.
  intros [_ _ Hs _ _]. destruct o as [v|id|id next]; simpl; unfold Enqueue, Ack, Retry, change, commit; intros H;
    repeat (case_match; simplify_eq/=); to_prop; simplify_eq/=; try done.
  - rewrite map_size_insert_None by done. lia.
  - rewrite map_size_delete_Some by eauto. lia.
  - rewrite map_size_insert_Some by eauto. done.
Qed.

Lemma queue_do_items a o q f w :
  queue_ok q -> attempts_left q -> op_fits o -> queue_do a o (q, f) = (None, w) ->
  keyed i_ID valid_item (q_items (fst w)) /\
  forall k v, q_items (fst w) !! k = Some v -> is_int64 (i_Attempts v).
Proof.
  intros [_ _ _ Hk Hi] Hleft Hfit Hdo.
  pose proof (queue_do_cases _ _ _ _ _ _ Hdo) as [(_&Hitems&_)|[? _]]; [|done]. rewrite Hitems. clear Hitems.
  destruct o as [v|id|id next]; simpl in *.
  - unfold Enqueue in Hdo. destruct (valid_item v) eqn:Ev; [|done].
    destruct (q_items q !! i_ID v); [done|].
    split; intros k x [[<- <-]|[? ?]]%lookup_insert_Some; eauto.
  - split; intros k x [? ?]%lookup_delete_Some; eauto.
  - unfold Retry in Hdo. destruct (IsZero next) eqn:Ez; [done|].
    destruct (q_items q !! id) as [v|] eqn:Eo; [|done].
    destruct (Hk _ _ Eo) as [Hid Hv]. pose proof (Hi _ _ Eo) as Ha. pose proof (Hleft _ _ Eo) as Hm.
    split; intros k x [[<- <-]|[? ?]]%lookup_insert_Some; eauto.
    + split; [done|]. unfold valid_item in *. simpl.
      apply negb_true_iff in Hv. to_prop. rewrite wrap64_id by (unfold is_int64, max_int64 in *; lia).
      apply negb_true_iff. rewrite !orb_false_iff, IsZero_UTC.
      split_and!; try done; try (by apply String.eqb_neq). lia.
    + apply wrap64_range.
Qed.

Lemma queue_do_ok (a : fs_answers) (o : queue_op) (q : Queue) (f : file)
    (Hok : queue_ok q) (Hleft : attempts_left q) (Hfit : op_fits o) :
  let '(e, (q', _)) := queue_do a o (q, f) in
  queue_ok q' /\ (e <> None -> q' = q).
Proof.
  destruct (queue_do a o (q, f)) as [e [q' f']] eqn:Hdo.
  pose proof (queue_do_cases _ _ _ _ _ _ Hdo) as [(->&_)|(He&Hq&_)].
  - pose proof (queue_do_path _ _ _ _ _ _ Hdo) as [Hp Hc].
    pose proof (queue_do_items _ _ _ _ _ Hok Hleft Hfit Hdo) as [Hk Hi].
    pose proof (queue_do_size _ _ _ _ _ Hok Hdo) as Hs. simpl in *.
    split; [|done]. destruct Hok. split; rewrite ?Hp, ?Hc; done.
  - simpl in Hq. subst q'. done.
Qed.

(** Every operation of a well-formed upload queue leaves it well formed:
    within its capacity, with every item valid and under its own identifier; if
    it returns an error the queue is unchanged. *)
Theorem queue_ok_preserved (a : fs_answers) (o : queue_op) (q : Queue) (f : file)
    (Hok : queue_ok q) (Hleft : attempts_left q) (Hfit : op_fits o) :
  let '(e, (q', _)) := queue_do a o (q, f) in
  queue_ok q' /\ (e <> None -> q' = q).
Proof. by apply queue_do_ok. Qed.

(** C25: an item that was accepted stays in the queue, with its identifier,
    source and payload, through every operation other than its own
    acknowledgement, whether those operations succeed or fail. *)
Theorem item_kept_until_ack (ops : list (fs_answers * queue_op)) (q : Queue) (f : file) (id : string) (v : Item)
    (Hin : q_items q !! id = Some v)
    (Hno : Forall (fun ao => snd ao <> QAck id) ops) :
  exists v', q_items (fst (fold_left (fun w ao => snd (queue_do (fst ao) (snd ao) w)) ops (q, f))) !! id = Some v' /\
    (i_ID v', i_Source v', i_Payload v') = (i_ID v, i_Source v, i_Payload v).
Proof.
  revert q f v Hin. induction Hno as [|[a o] ops Ho _ IH]; intros q f v Hin; simpl; [eauto|].
  destruct (queue_do a o (q, f)) as [e [q1 f1]] eqn:Hdo. simpl in *.
  assert (exists v1, q_items q1 !! id = Some v1 /\ (i_ID v1, i_Source v1, i_Payload v1) = (i_ID v, i_Source v, i_Payload v)) as (v1&Hv1&E1).
  { apply queue_do_cases in Hdo as [(_&Hitems&_)|(_&Hq&_)]; simpl in *; [|subst; eauto]. rewrite Hitems. clear Hitems.
    destruct o as [x|id'|id' next]; simpl.
    - destruct (q_items q !! i_ID x) eqn:Ex; [eauto|]. rewrite lookup_insert_ne by congruence. eauto.
    - rewrite lookup_delete_ne by congruence. eauto.
    - destruct (q_items q !! id') as [x|] eqn:Ex; [|eauto].
      destruct (decide (id' = id)) as [->|]; [|rewrite lookup_insert_ne by done; eauto].
      rewrite lookup_insert_eq. replace x with v by congruence. eauto. }
  destruct (IH q1 f1 v1 Hv1) as (v'&Hv'&E'). exists v'. split; [done|]. congruence.
Qed.

(** ** Recovery *)

(** What [encoding/json] is relied on for: items of valid UTF-8 with times in
    UTC are read back as they were written. *)
Definition text_ok (v : Item) : Prop :=
  ValidString (i_ID v) = true /\ ValidString (i_Source v) = true /\ ValidString (i_Payload v) = true.
Definition queue_codec_ok : Prop := forall l b,
  Forall (fun v => text_ok v /\ i_Next v = UTC (i_Next v)) l ->
  queue_Marshal 1 l = Ok b -> queue_Unmarshal b = Some (1, l).

Lemma saved_list_perm items : saved_list items ≡ₚ map utc_item (map snd (map_to_list items)).
Proof. apply sort_by_perm. Qed.

Lemma utc_item_valid v : valid_item v = true -> valid_item (utc_item v) = true.
Proof. unfold valid_item, utc_item. simpl. by rewrite IsZero_UTC. Qed.

Lemma reopen_saved q b :
  queue_codec_ok -> queue_ok q -> (forall k v, q_items q !! k = Some v -> text_ok v) ->
  queue_Marshal 1 (saved_list (q_items q)) = Ok b ->
  Open_ (q_path q) (q_capacity q) (Ok b) = Ok (mkQueue (q_path q) (q_capacity q) (utc_item <$> q_items q)).
Proof.
  intros Hcodec [Hp Hc Hs Hk _] Htext Hm. unfold Open_.
  apply abs_clean_spec in Hp as [-> ->]. rewrite String.eqb_refl. simpl.
  destruct (q_capacity q <? 1) eqn:Ec; [lia|].
  rewrite (Hcodec (saved_list (q_items q)) b); [|rewrite saved_list_perm|done].
  2: { apply Forall_forall. intros x. rewrite map_map. intros (y&->&Hy)%list_elem_of_fmap. destruct y as [k v].
       apply elem_of_map_to_list in Hy. simpl. split; [|done]. exact (Htext _ _ Hy). }
  simpl.
  assert (length (saved_list (q_items q)) = size (q_items q)) as ->.
  { rewrite saved_list_perm, !length_map, length_map_to_list. done. }
  destruct (q_capacity q <? Z.of_nat (size (q_items q))) eqn:El; [lia|].
  by rewrite (load_values i_ID valid_item (q_items q) utc_item _ Hk (fun _ => eq_refl) utc_item_valid (saved_list_perm _)).
Qed.

(** After any operation that succeeds, opening the queue's file again gives
    the queue as it is in memory, with times in UTC; so a restart loses and
    invents nothing. *)
Theorem queue_survives_restart (a : fs_answers) (o : queue_op) (q q' : Queue) (f f' : file)
    (Hcodec : queue_codec_ok) (Hok : queue_ok q) (Hleft : attempts_left q) (Hfit : op_fits o)
    (Htext : forall k v, q_items q' !! k = Some v -> text_ok v)
    (Hsync : on_file q f) (Hdo : queue_do a o (q, f) = (None, (q', f'))) :
  on_file q' f' /\
  Open_ (q_path q') (q_capacity q') (ReadFile f') = Ok (mkQueue (q_path q') (q_capacity q') (utc_item <$> q_items q')).
Proof.
  pose proof (queue_do_ok a o q f Hok Hleft Hfit) as Hp. rewrite Hdo in Hp. destruct Hp as [Hok' _].
  assert (on_file q' f') as Hf.
  { apply queue_do_cases in Hdo as [(_&_&[[Hq Hff]|(b&Hm&Hff)])|[? _]]; [| |done]; simpl in *; subst; done. }
  split; [done|]. destruct f' as [b|]; simpl in Hf |- *.
  - by apply reopen_saved.
  - rewrite Hf, fmap_empty. destruct Hok' as [Hpath Hc _ _ _]. unfold Open_.
    apply abs_clean_spec in Hpath as [-> ->]. rewrite String.eqb_refl. simpl.
    destruct (q_capacity q' <? 1) eqn:Ec; [lia|]. reflexivity.
Qed.
End QueueSpec.

(** ** Scheduling *)

Lemma elem_of_firstn {A} n (l : list A) x : x ∈ firstn n l -> x ∈ l.
Proof. intros H. rewrite <- (firstn_skipn n l). apply elem_of_app. by left. Qed.

Lemma firstn_sorted {A} (R : A -> A -> Prop) n l : StronglySorted R l -> StronglySorted R (firstn n l).
Proof.
  revert n. induction l as [|x l IH]; intros [|n] Hs; simpl; try constructor.
  - apply IH. by inversion Hs.
  - inversion Hs as [|? ? _ Hf]; subst. apply Forall_forall. intros y Hy.
    rewrite Forall_forall in Hf. apply Hf. by eapply elem_of_firstn.
Qed.

(** The items a queue offers are in the order of their identifiers, all in
    the queue and all due; there are at most [limit] of them when a limit is
    given, and without one every due item is offered. *)
Theorem ready_items_exact (now : Time) (limit : Z) (q : Queue) :
  let out := ReadyItems now limit q in
  StronglySorted (key_le i_ID) out /\
  (forall v, v ∈ out -> After (i_Next v) now = false /\ exists k, q_items q !! k = Some v) /\
  (0 < limit -> Z.of_nat (length out) <= limit) /\
  (limit <= 0 -> forall k v, q_items q !! k = Some v -> After (i_Next v) now = false -> v ∈ out).
Proof.
  unfold ReadyItems. set (all := sort_by i_ID _).
  assert (forall v, v ∈ all <-> After (i_Next v) now = false /\ exists k, q_items q !! k = Some v) as Hall.
  { intros v. unfold all. rewrite sort_by_perm, list_elem_of_In, filter_In, negb_true_iff, in_map_iff. split.
    - intros (([k x]&<-&Hx)&?). split; [done|]. exists k. by apply list_elem_of_In, elem_of_map_to_list in Hx.
    - intros (?&k&Hk). split; [|done]. exists (k, v). split; [done|]. by apply list_elem_of_In, elem_of_map_to_list. }
  pose proof (sort_by_sorted i_ID (List.filter (fun v => negb (After (i_Next v) now)) (map snd (map_to_list (q_items q))))) as Hs.
  fold all in Hs. destruct ((0 <? limit) && (limit <? Z.of_nat (length all))) eqn:El; to_prop.
  - split; [by apply firstn_sorted|]. split; [|split; [rewrite length_firstn; lia|lia]].
    intros v Hv. apply Hall. by eapply elem_of_firstn.
  - split; [done|]. split; [intros v; apply Hall|]. split.
    + intros Hl. destruct El as [El|El]; to_prop; lia.
    + intros _ k v Hk Hn. apply Hall. eauto.
Qed.

(** ** Concrete inputs, and a limit of idempotence *)

(** A codec of every list of at most one item. *)
#[local] Instance one_item_codec : QueueCodec :=
  Build_QueueCodec
    (fun v l => match l with
                | [] => Ok "empty"
                | [x] => if bool_decide (x = mkItem "a" "s" "p" 0 (mkTime 5 0)) then Ok "a5"
                         else Fail (errors_New "unsupported")
                | _ => Fail (errors_New "unsupported")
                end)
    (fun b => if b ==s "empty" then Some (1, []) else if b ==s "a5" then Some (1, [mkItem "a" "s" "p" 0 (mkTime 5 0)]) else None).

Definition empty_queue : Queue := mkQueue "/q/queue.json" 2 ∅.
(** An item whose time is in a location other than UTC. *)
Definition local_item : Item := mkItem "a" "s" "p" 0 (mkTime 5 7).

Lemma empty_queue_ok : queue_ok empty_queue.
Proof. by split; try intros k v H. Qed.

Lemma queue_ok_preserved_witness :
  let '(e, (q', _)) := queue_do no_errors (QEnqueue local_item) (empty_queue, None) in
  queue_ok q' /\ (e <> None -> q' = empty_queue).
Proof.
  apply (queue_ok_preserved no_errors (QEnqueue local_item) empty_queue None empty_queue_ok).
  - intros k v H. discriminate H.
  - vm_compute. split; discriminate.
Defined.

Lemma item_kept_until_ack_witness :
  exists v', q_items (fst (fold_left (fun w ao => snd (queue_do (fst ao) (snd ao) w))
                        [(no_errors, QAck "b")] (mkQueue "/q" 2 {["a" := local_item]}, None))) !! "a" = Some v' /\
    (i_ID v', i_Source v', i_Payload v') = ("a", "s", "p").
Proof.
  apply (item_kept_until_ack [(no_errors, QAck "b")] (mkQueue "/q" 2 {["a" := local_item]}) None "a" local_item).
  - reflexivity.
  - constructor; [|constructor]. discriminate.
Defined.

Lemma queue_survives_restart_witness :
  exists q' f', queue_do no_errors (QEnqueue local_item) (empty_queue, None) = (None, (q', f')) /\
    Open_ "/q/queue.json" 2 (ReadFile f') = Ok (mkQueue "/q/queue.json" 2 (utc_item <$> q_items q')).
Proof.
  destruct (queue_do no_errors (QEnqueue local_item) (empty_queue, None)) as [e [q' f']] eqn:Hdo.
  assert (e = None) as -> by (apply (f_equal fst) in Hdo; vm_compute in Hdo; congruence).
  assert (q' = mkQueue "/q/queue.json" 2 {["a" := local_item]}) as ->
    by (apply (f_equal (fun x => fst (snd x))) in Hdo; vm_compute in Hdo; by rewrite <- Hdo).
  exists (mkQueue "/q/queue.json" 2 {["a" := local_item]}), f'. split; [reflexivity|].
  refine (proj2 (queue_survives_restart no_errors (QEnqueue local_item) empty_queue _ None f' _ empty_queue_ok _ _ _ _ Hdo)).
  - intros l b Hl Hm. simpl in Hm |- *. destruct l as [|x [|y l]]; [by injection Hm as <-| |done].
    case_bool_decide as Hx; [|done]. injection Hm as <-. by subst x.
  - intros k v H. discriminate H.
  - vm_compute. split; discriminate.
  - intros k v Hk. simpl in Hk. apply lookup_singleton_Some in Hk as [<- <-]. vm_compute. auto.
  - reflexivity.
Defined.

(** Enqueueing the same item again is accepted while the queue stays open,
    but after a restart it is refused when the item's time is not in UTC form,
    because the stored copy is compared with [==]. *)
Theorem reenqueue_after_restart_refused `{Codec : QueueCodec} (a : fs_answers) (v : Item) (q : Queue) (f : file)
    (Hvalid : valid_item v = true) (Hin : q_items q !! i_ID v = Some v) (Hlocal : repr (i_Next v) <> 0) :
  Enqueue a v q f = (None, (q, f)) /\
  Enqueue a v (mkQueue (q_path q) (q_capacity q) (utc_item <$> q_items q)) f =
    (Some ErrInvalid, (mkQueue (q_path q) (q_capacity q) (utc_item <$> q_items q), f)).
Proof.
  unfold Enqueue. rewrite Hvalid, Hin. simpl. rewrite bool_decide_true by done. split; [done|].
  rewrite lookup_fmap, Hin. simpl. rewrite bool_decide_false; [done|].
  intros E. apply (f_equal (fun x => repr (i_Next x))) in E. simpl in E. congruence.
Qed.

Lemma reenqueue_after_restart_refused_witness :
  fst (Enqueue no_errors local_item (mkQueue "/q" 2 {["a" := local_item]}) None) = None /\
  fst (Enqueue no_errors local_item (mkQueue "/q" 2 (utc_item <$> {["a" := local_item]})) None) = Some ErrInvalid.
Proof.
  destruct (reenqueue_after_restart_refused no_errors local_item (mkQueue "/q" 2 {["a" := local_item]}) None) as [H1 H2];
    [reflexivity|reflexivity|discriminate|].
  split; [exact (f_equal fst H1)|exact (f_equal fst H2)].
Defined.
