(* ===== verification/CursorState.v ===== *)
(** * Checkpoints of the sources

    [internal/history/cursor/state.go]: one checkpoint for each source, saved as
    a whole before it is adopted; a source's generation never goes back. *)
From Stdlib Require Import ZArith Lia Bool.
From Stdlib Require Import String Ascii.
From stdpp Require Import base tactics option list gmap strings sorting.
From S2P Require Import Prelude GoStrings GoPath AtomicFile.
Open Scope Z_scope.

Module Cursor.

Definition ErrInvalid : error := Sentinel "invalid cursor state".
Definition ErrCorrupt : error := Sentinel "corrupt cursor state".
Definition version : Z := 1.

Record Checkpoint : Type := mkCheckpoint {
  k_Source : string;
  k_Path : string;
  k_Digest : string;
  k_Generation : Z;
  k_Offset : Z;
  k_Updated : Time
}.

Record State : Type := mkState {
  cs_path : string;
  cs_entries : gmap string Checkpoint
}.

Class CursorCodec : Type := {
  cursor_Marshal : Z -> list Checkpoint -> result string;
  cursor_Unmarshal : string -> option (Z * list Checkpoint)
}.

Definition backslash : string := String (ascii_of_N 92) "".

Definition validate (c : Checkpoint) : bool :=
  negb ((k_Source c ==s "") || ContainsAny (k_Source c) ("/" +:+ backslash) || negb (IsAbs (k_Path c)) ||
        (Clean (k_Path c) !=s k_Path c) || (k_Generation c <? 0) || (k_Offset c <? 0) ||
        negb (len (k_Digest c) =? 64) || IsZero (k_Updated c)) &&
  match hex_decode (k_Digest c) with Some _ => true | None => false end.

Definition utc_checkpoint (c : Checkpoint) : Checkpoint :=
  mkCheckpoint (k_Source c) (k_Path c) (k_Digest c) (k_Generation c) (k_Offset c) (UTC (k_Updated c)).

Section Cursor.
Context `{CursorCodec}.

Definition saved_entries (entries : gmap string Checkpoint) : list Checkpoint :=
  sort_by k_Source (map utc_checkpoint (map snd (map_to_list entries))).

Definition persist (a : fs_answers) (entries : gmap string Checkpoint) (f : option string)
  : option error * option string :=
  match cursor_Marshal version (saved_entries entries) with
  | Fail e => (Some e, f)
  | Ok b => replace_file a b f
  end.

Definition OpenState (path : string) (read : result string) : result State :=
  if negb (IsAbs path) || (Clean path !=s path) then Fail ErrInvalid
  else
    match read with
    | Fail e => if errors_Is e os_ErrNotExist then Ok (mkState path ∅) else Fail e
    | Ok b =>
        match cursor_Unmarshal b with
        | None => Fail ErrCorrupt
        | Some (v, entries) =>
            if negb (v =? version) then Fail ErrCorrupt
            else match load_entries k_Source validate entries ∅ with
                 | None => Fail ErrCorrupt
                 | Some m => Ok (mkState path m)
                 end
        end
    end.

Definition Get (s : State) (source : string) : option Checkpoint := cs_entries s !! source.

Definition Put (a : fs_answers) (c : Checkpoint) (s : State) (f : option string)
  : option error * (State * option string) :=
  if negb (validate c) then (Some ErrInvalid, (s, f))
  else
    if match cs_entries s !! k_Source c with
       | Some old => k_Generation c <? k_Generation old
       | None => false
       end
    then (Some ErrInvalid, (s, f))
    else
      let next := <[k_Source c := c]> (cs_entries s) in
      match persist a next f with
      | (Some e, f') => (Some e, (s, f'))
      | (None, f') => (None, (mkState (cs_path s) next, f'))
      end.

End Cursor.

(** ** Properties *)

Section CursorSpec.
Context `{Codec : CursorCodec}.

Record state_ok (s : State) : Prop := mk_state_ok {
  so_path : abs_clean (cs_path s) = true;
  so_entries : keyed k_Source validate (cs_entries s)
}.

(** The file holds the entries. *)
Definition stored (s : State) (f : option string) : Prop :=
  match f with
  | None => cs_entries s = ∅
  | Some b => cursor_Marshal version (saved_entries (cs_entries s)) = Ok b
  end.

Lemma Put_cases a c s f :
  match Put a c s f with
  | (None, (s', f')) =>
      validate c = true /\ (forall old, cs_entries s !! k_Source c = Some old -> k_Generation old <= k_Generation c) /\
      s' = mkState (cs_path s) (<[k_Source c := c]> (cs_entries s)) /\ stored s' f' /\ f' <> None
  | (Some _, (s', _)) => s' = s
  end.
Proof.
  unfold Put. destruct (validate c); simpl; [|done].
  destruct (match cs_entries s !! k_Source c with Some old => k_Generation c <? k_Generation old | None => false end) eqn:Eg; [done|].
  unfold persist. set (next := <[k_Source c := c]> (cs_entries s)).
  destruct (cursor_Marshal version (saved_entries next)) as [b|e] eqn:Em; [|done].
  destruct (replace_file_atomic a b f) as [H1 _]. destruct (replace_file a b f) as [[e|] f']; simpl in *; [done|].
  rewrite (H1 eq_refl). split_and!; try done. intros old Ho. rewrite Ho in Eg. lia.
Qed.

(** C31: checkpoints only move forward: through any sequence of [Put] calls,
    whether they succeed or fail, the state stays well formed, no source is
    forgotten and no source's generation decreases. *)
Theorem checkpoints_monotone (puts : list (fs_answers * Checkpoint)) (s : State) (f : option string) (Hok : state_ok s) :
  let s' := fst (fold_left (fun w ac => snd (Put (fst ac) (snd ac) (fst w) (snd w))) puts (s, f)) in
  state_ok s' /\
  forall source c, Get s source = Some c -> exists c', Get s' source = Some c' /\ k_Generation c <= k_Generation c'.
Proof.
  revert s f Hok. induction puts as [|[a c] puts IH]; intros s f Hok; simpl.
  - split; [done|]. intros source c Hc. exists c. split; [done|lia].
  - pose proof (Put_cases a c s f) as Hp. destruct (Put a c s f) as [[e|] [s1 f1]]; simpl.
    + subst s1. apply (IH s f1 Hok).
    + destruct Hp as (Hv&Hg&->&_&_).
      assert (state_ok (mkState (cs_path s) (<[k_Source c := c]> (cs_entries s)))) as Hok1.
      { destruct Hok as [Hpath Hk]. split; [done|]. simpl. intros k v [[<- <-]|[? ?]]%lookup_insert_Some; auto. }
      destruct (IH _ f1 Hok1) as [Hok2 Hm]. split; [done|]. intros source c0 Hc0.
      unfold Get in *. simpl in Hm. destruct (decide (k_Source c = source)) as [<-|Hne].
      * destruct (Hm (k_Source c) c) as (c'&?&?); [by rewrite lookup_insert_eq|].
        exists c'. split; [done|]. pose proof (Hg _ Hc0). lia.
      * apply Hm. by rewrite lookup_insert_ne.
Qed.

(** What [encoding/json] is relied on for. *)
Definition cursor_codec_ok : Prop := forall l b,
  Forall (fun c => ValidString (k_Source c) = true /\ ValidString (k_Path c) = true /\ k_Updated c = UTC (k_Updated c)) l ->
  cursor_Marshal version l = Ok b -> cursor_Unmarshal b = Some (version, l).

Lemma utc_checkpoint_valid c : validate c = true -> validate (utc_checkpoint c) = true.
Proof. unfold validate, utc_checkpoint. simpl. by rewrite IsZero_UTC. Qed.

(** A checkpoint that was put successfully is on disk: opening the state
    again gives every checkpoint, with times in UTC. *)
Theorem checkpoint_survives_restart (a : fs_answers) (c : Checkpoint) (s s' : State) (f f' : option string)
    (Hcodec : cursor_codec_ok) (Hok : state_ok s)
    (Htext : forall k v, cs_entries s' !! k = Some v -> ValidString (k_Source v) = true /\ ValidString (k_Path v) = true)
    (Hput : Put a c s f = (None, (s', f'))) :
  exists b, f' = Some b /\ OpenState (cs_path s') (Ok b) = Ok (mkState (cs_path s') (utc_checkpoint <$> cs_entries s')) /\
    Get s' (k_Source c) = Some c.
Proof.
  pose proof (Put_cases a c s f) as Hp. rewrite Hput in Hp. destruct Hp as (Hv&_&->&Hst&Hf).
  destruct f' as [b|]; [|done]. exists b. split; [done|]. simpl in *.
  split; [|unfold Get; simpl; by rewrite lookup_insert_eq].
  destruct Hok as [Hpath Hk]. unfold OpenState. apply abs_clean_spec in Hpath as [-> ->].
  rewrite String.eqb_refl. simpl. set (m := <[k_Source c := c]> (cs_entries s)) in *.
  assert (saved_entries m ≡ₚ map utc_checkpoint (map snd (map_to_list m))) as Hperm by apply sort_by_perm.
  rewrite (Hcodec (saved_entries m) b); [|rewrite Hperm|exact Hst].
  2: { apply Forall_forall. intros x. rewrite map_map. intros ([k v]&->&Hy)%list_elem_of_fmap.
       apply elem_of_map_to_list in Hy. simpl. by destruct (Htext _ _ Hy). }
  rewrite Z.eqb_refl. simpl.
  assert (keyed k_Source validate m) as Hkm.
  { intros k v [[<- <-]|[? ?]]%lookup_insert_Some; auto. }
  by rewrite (load_values k_Source validate m utc_checkpoint _ Hkm (fun _ => eq_refl) utc_checkpoint_valid Hperm).
Qed.
End CursorSpec.

(** ** Concrete inputs *)

Definition sample (generation : Z) : Checkpoint :=
  mkCheckpoint "claude" "/w/a.jsonl" (hex_encode "01234567890123456789012345678901") generation 10 (mkTime 5 0).

#[local] Instance sample_codec : CursorCodec :=
  Build_CursorCodec
    (fun _ l => if bool_decide (l = []) then Ok "empty" else match l with
       | [c] => if (k_Source c ==s "claude") && (k_Path c ==s "/w/a.jsonl") &&
                   (k_Digest c ==s hex_encode "01234567890123456789012345678901") && (k_Generation c =? 1) &&
                   (k_Offset c =? 10) && bool_decide (k_Updated c = mkTime 5 0) then Ok "one" else Fail io_EOF
       | _ => Fail io_EOF end)
    (fun b => if b ==s "empty" then Some (1, []) else if b ==s "one" then Some (1, [sample 1]) else None).

Lemma sample_state_ok : state_ok (mkState "/c/state.json" ∅).
Proof. split; [reflexivity|]. intros k v H. discriminate H. Qed.

Lemma checkpoints_monotone_witness :
  state_ok (fst (fold_left (fun w ac => snd (Put (fst ac) (snd ac) (fst w) (snd w)))
                   [(no_errors, sample 1); (no_errors, sample 0)] (mkState "/c/state.json" ∅, None))).
Proof. apply (checkpoints_monotone [(no_errors, sample 1); (no_errors, sample 0)] _ None sample_state_ok). Defined.

Lemma sample_codec_ok : cursor_codec_ok.
Proof.
  intros l b _. simpl. destruct l as [|c [|d l]]; [by intros [= <-]| |done].
  rewrite bool_decide_false by done. destruct ((_ && _) : bool) eqn:E; [|done]. intros [= <-]. to_prop.
  destruct c; simpl in *. subst. done.
Qed.

Lemma checkpoint_survives_restart_witness :
  exists s' f', Put no_errors (sample 1) (mkState "/c/state.json" ∅) None = (None, (s', f')) /\
    Get s' "claude" = Some (sample 1).
Proof.
  destruct (Put no_errors (sample 1) (mkState "/c/state.json" ∅) None) as [e [s' f']] eqn:Hp.
  assert (e = None) as -> by (apply (f_equal fst) in Hp; vm_compute in Hp; congruence).
  assert (s' = mkState "/c/state.json" {["claude" := sample 1]}) as ->
    by (apply (f_equal (fun x => fst (snd x))) in Hp; vm_compute in Hp; by rewrite <- Hp).
  exists (mkState "/c/state.json" {["claude" := sample 1]}), f'. split; [reflexivity|].
  destruct (checkpoint_survives_restart no_errors (sample 1) (mkState "/c/state.json" ∅)
              (mkState "/c/state.json" {["claude" := sample 1]}) None f'
              sample_codec_ok sample_state_ok) as (b&_&_&Hg); [|exact Hp|exact Hg].
  intros k v Hk. simpl in Hk. apply lookup_singleton_Some in Hk as [<- <-]. vm_compute. auto.
Defined.

End Cursor.
