(* ===== verification/Sha256.v ===== *)
(** * SHA-256

    [crypto/sha256.Sum256], which the daemon uses for chunk identifiers and file
    digests: FIPS 180-4 on byte strings, with 32-bit words as [Z]. *)
From Stdlib Require Import ZArith Lia Bool.
From Stdlib Require Import String Ascii.
From stdpp Require Import base tactics option list strings.
From S2P Require Import Prelude GoStrings.
Open Scope Z_scope.

(** ** Words *)

Definition w32 (z : Z) : Z := Z.land z 4294967295.
Definition add32 (a b : Z) : Z := w32 (a + b).
Definition rotr (n x : Z) : Z := Z.lor (Z.shiftr x n) (w32 (Z.shiftl x (32 - n))).

Definition Ch (x y z : Z) : Z := Z.lxor (Z.land x y) (Z.land (Z.lxor x 4294967295) z).
Definition Maj (x y z : Z) : Z := Z.lxor (Z.lxor (Z.land x y) (Z.land x z)) (Z.land y z).
Definition Sigma0 (x : Z) : Z := Z.lxor (Z.lxor (rotr 2 x) (rotr 13 x)) (rotr 22 x).
Definition Sigma1 (x : Z) : Z := Z.lxor (Z.lxor (rotr 6 x) (rotr 11 x)) (rotr 25 x).
Definition sigma0 (x : Z) : Z := Z.lxor (Z.lxor (rotr 7 x) (rotr 18 x)) (Z.shiftr x 3).
Definition sigma1 (x : Z) : Z := Z.lxor (Z.lxor (rotr 17 x) (rotr 19 x)) (Z.shiftr x 10).

Definition K256 : list Z :=
  [0x428a2f98; 0x71374491; 0xb5c0fbcf; 0xe9b5dba5; 0x3956c25b; 0x59f111f1; 0x923f82a4; 0xab1c5ed5;
   0xd807aa98; 0x12835b01; 0x243185be; 0x550c7dc3; 0x72be5d74; 0x80deb1fe; 0x9bdc06a7; 0xc19bf174;
   0xe49b69c1; 0xefbe4786; 0x0fc19dc6; 0x240ca1cc; 0x2de92c6f; 0x4a7484aa; 0x5cb0a9dc; 0x76f988da;
   0x983e5152; 0xa831c66d; 0xb00327c8; 0xbf597fc7; 0xc6e00bf3; 0xd5a79147; 0x06ca6351; 0x14292967;
   0x27b70a85; 0x2e1b2138; 0x4d2c6dfc; 0x53380d13; 0x650a7354; 0x766a0abb; 0x81c2c92e; 0x92722c85;
   0xa2bfe8a1; 0xa81a664b; 0xc24b8b70; 0xc76c51a3; 0xd192e819; 0xd6990624; 0xf40e3585; 0x106aa070;
   0x19a4c116; 0x1e376c08; 0x2748774c; 0x34b0bcb5; 0x391c0cb3; 0x4ed8aa4a; 0x5b9cca4f; 0x682e6ff3;
   0x748f82ee; 0x78a5636f; 0x84c87814; 0x8cc70208; 0x90befffa; 0xa4506ceb; 0xbef9a3f7; 0xc67178f2].

(** The eight words of the chaining value. *)
Record hash : Type := mkHash { ha : Z; hb : Z; hc : Z; hd : Z; he : Z; hf : Z; hg : Z; hh : Z }.

Definition H256 : hash :=
  mkHash 0x6a09e667 0xbb67ae85 0x3c6ef372 0xa54ff53a 0x510e527f 0x9b05688c 0x1f83d9ab 0x5be0cd19.

(** ** Blocks *)

(** The message schedule, newest word first: [n] words are added to [ws]. *)
Fixpoint extend (n : nat) (ws : list Z) : list Z :=
  match n with
  | O => ws
  | S n =>
      let w i := nth i ws 0 in
      extend n (add32 (add32 (sigma1 (w 1%nat)) (w 6%nat)) (add32 (sigma0 (w 14%nat)) (w 15%nat)) :: ws)
  end.

Definition round (s : hash) (kw : Z * Z) : hash :=
  let T1 := add32 (add32 (hh s) (Sigma1 (he s))) (add32 (Ch (he s) (hf s) (hg s)) (add32 (fst kw) (snd kw))) in
  let T2 := add32 (Sigma0 (ha s)) (Maj (ha s) (hb s) (hc s)) in
  mkHash (add32 T1 T2) (ha s) (hb s) (hc s) (add32 (hd s) T1) (he s) (hf s) (hg s).

Definition compress (s : hash) (block : list Z) : hash :=
  let schedule := rev (extend 48 (rev block)) in
  let r := fold_left round (combine K256 schedule) s in
  mkHash (add32 (ha s) (ha r)) (add32 (hb s) (hb r)) (add32 (hc s) (hc r)) (add32 (hd s) (hd r))
    (add32 (he s) (he r)) (add32 (hf s) (hf r)) (add32 (hg s) (hg r)) (add32 (hh s) (hh r)).

(** ** Messages *)

(** [w] big-endian bytes of [z]. *)
Fixpoint be_bytes (w : nat) (z : Z) : string :=
  match w with
  | O => ""
  | S w => be_bytes w (z / 256) +:+ String (ascii_of_N (Z.to_N (z mod 256))) ""
  end.

Fixpoint zeros (n : nat) : string :=
  match n with
  | O => ""
  | S n => String (ascii_of_N 0) (zeros n)
  end.

Definition pad (s : string) : string :=
  s +:+ String (ascii_of_N 128) (zeros (Z.to_nat ((55 - len s) mod 64))) +:+ be_bytes 8 (8 * len s).

(** The big-endian words of a byte string. *)
Fixpoint words (s : string) : list Z :=
  match s with
  | String a (String b (String c (String d r))) =>
      (((code a * 256 + code b) * 256 + code c) * 256 + code d) :: words r
  | _ => []
  end.

(** Sixteen words at a time. *)
Fixpoint blocks (n : nat) (s : hash) (ws : list Z) : hash :=
  match n with
  | O => s
  | S n => blocks n (compress s (firstn 16 ws)) (skipn 16 ws)
  end.

Definition Sum256 (s : string) : string :=
  let p := pad s in
  let r := blocks (Z.to_nat (len p / 64)) H256 (words p) in
  be_bytes 4 (ha r) +:+ be_bytes 4 (hb r) +:+ be_bytes 4 (hc r) +:+ be_bytes 4 (hd r) +:+
  be_bytes 4 (he r) +:+ be_bytes 4 (hf r) +:+ be_bytes 4 (hg r) +:+ be_bytes 4 (hh r).

Lemma be_bytes_length w z : String.length (be_bytes w z) = w.
Proof. revert z. induction w as [|w IH]; intros z; simpl; [done|]. rewrite str_length_app, IH. simpl. lia. Qed.

Lemma Sum256_length s : String.length (Sum256 s) = 32%nat.
Proof. unfold Sum256. by rewrite !str_length_app, !be_bytes_length. Qed.

Lemma zeros_length n : String.length (zeros n) = n.
Proof. induction n; simpl; congruence. Qed.

(** Padding fills whole blocks. *)
Lemma pad_blocks s : len (pad s) mod 64 = 0.
Proof.
  pose proof (Z.mod_pos_bound (55 - len s) 64).
  assert (len (pad s) = len s + (Z.succ ((55 - len s) mod 64) + 8)) as ->.
  { unfold pad, len. rewrite str_length_app. cbn [String.append String.length].
    rewrite str_length_app, zeros_length, be_bytes_length. unfold len in *. lia. }
  replace (len s + (Z.succ ((55 - len s) mod 64) + 8)) with (len s + 9 + (55 - len s) mod 64) by lia.
  rewrite Z.add_mod_idemp_r by lia. by replace (len s + 9 + (55 - len s)) with (1 * 64) by lia.
Qed.

(** ** The published test vectors *)

Example Sum256_empty :
  hex_encode (Sum256 "") = "e3b0c44298fc1c149afbf4c8996fb92427ae41e4649b934ca495991b7852b855".
Proof. vm_compute. reflexivity. Qed.
Example Sum256_abc :
  hex_encode (Sum256 "abc") = "ba7816bf8f01cfea414140de5dae2223b00361a396177a9cb410ff61f20015ad".
Proof. vm_compute. reflexivity. Qed.
Example Sum256_two_blocks :
  hex_encode (Sum256 "abcdbcdecdefdefgefghfghighijhijkijkljklmklmnlmnomnopnopq") =
  "248d6a61d20638b8e5c026930c3e6039a33ce45964ff2167f6ecedd419db06c1".
Proof. vm_compute. reflexivity. Qed.
