(* ===== verification/Durable.v ===== *)
(** * The durable root

    [internal/history/durable/durable.go] (the darwin and linux build): reading,
    atomic replacement and removal of owner-only files in a held directory.

    The file system is the entries of the held directory and the inodes they
    name. The operating system may fail any call, and other processes may change
    the file system before any call; both are functions of the number of the call. *)
From Stdlib Require Import ZArith Lia Bool.
From Stdlib Require Import String Ascii.
From stdpp Require Import base tactics option list gmap infinite strings.
From S2P Require Import Prelude GoStrings GoPath Sha256.
Open Scope Z_scope.

Module Durable.

Definition ErrUnsafePath : error := Sentinel "unsafe durable path".
Definition ErrRootChanged : error := Sentinel "durable root identity changed".
Definition ErrNotOwnerOnly : error := Sentinel "durable object is not owner-only".
Definition ErrReadLimit : error := Sentinel "durable read exceeds limit".
Definition ErrIdentityChanged : error := Sentinel "durable object identity changed".
Definition ENOENT : error := Sentinel "ENOENT".
Definition EEXIST : error := Sentinel "EEXIST".
Definition ELOOP : error := Sentinel "ELOOP".

(** ** The file system *)

Definition S_IFMT : Z := 61440.
Definition S_IFDIR : Z := 16384.
Definition S_IFREG : Z := 32768.
Definition S_IFLNK : Z := 40960.

(** Device and inode number. *)
Definition ident : Type := (Z * Z)%type.

(** The fields of [unix.Stat_t] that are read. *)
Record stat : Type := mkStat { st_ident : ident; st_mode : Z; st_nlink : Z }.
Record inode : Type := mkInode { in_mode : Z; in_nlink : Z; in_data : string }.

(** The entries of the directory, the inodes, and what [Fstat] of the held
    directory and [Lstat] of its path give. *)
Record fs : Type := mkFS {
  f_names : gmap string ident;
  f_inodes : gmap ident inode;
  f_held : stat;
  f_named : result stat
}.

Definition set_names (f : fs) (n : gmap string ident) : fs := mkFS n (f_inodes f) (f_held f) (f_named f).
Definition set_inodes (f : fs) (i : gmap ident inode) : fs := mkFS (f_names f) i (f_held f) (f_named f).

(** [Root]: its path, whether its file is open, and the identity it was opened with. *)
Record Root : Type := mkRoot { rt_path : string; rt_open : bool; rt_stat : stat }.

Record OS : Type := mkOS {
  os_change : nat -> fs -> fs;
  os_error : nat -> option error;
  os_random : nat -> result string
}.

(** Calls are numbered by the second component of the state. *)
Definition D (A : Type) : Type := st (fs * nat) (result A).

Definition ret {A} (a : A) : D A := fun s => (Ok a, s).
Definition fail {A} (e : error) : D A := fun s => (Fail e, s).
(** The outcome of a call that may fail, as a value. *)
Definition outcome {A} (m : D A) : D (result A) := fun s => let '(r, s') := m s in (Ok r, s').

Section Calls.
Context (E : OS).

Definition sys {A} (act : fs -> result A * fs) : D A := fun s =>
  let '(f, n) := s in
  let f := os_change E n f in
  match os_error E n with
  | Some e => (Fail e, (f, S n))
  | None => let '(r, f') := act f in (r, (f', S n))
  end.

Definition stat_of (f : fs) (id : ident) : result stat :=
  match f_inodes f !! id with
  | Some i => Ok (mkStat id (in_mode i) (in_nlink i))
  | None => Fail ENOENT
  end.

Definition Fstat_dir : D stat := sys (fun f => (Ok (f_held f), f)).
Definition Lstat_root : D stat := sys (fun f => (f_named f, f)).
Definition Fstat (id : ident) : D stat := sys (fun f => (stat_of f id, f)).
Definition statAt (name : string) : D stat := sys (fun f =>
  (match f_names f !! name with Some id => stat_of f id | None => Fail ENOENT end, f)).
(** [openAt] for reading without following links. *)
Definition openRead (name : string) : D ident := sys (fun f =>
  (match f_names f !! name with
   | None => Fail ENOENT
   | Some id =>
       match f_inodes f !! id with
       | Some i => if Z.land (in_mode i) S_IFMT =? S_IFLNK then Fail ELOOP else Ok id
       | None => Fail ENOENT
       end
   end, f)).
Definition ReadAll (id : ident) (limit : Z) : D string := sys (fun f =>
  (match f_inodes f !! id with Some i => Ok (slice (in_data i) 0 limit) | None => Fail ENOENT end, f)).
(** [openAt] with [O_CREAT|O_EXCL] and mode 0600. *)
Definition createAt (name : string) : D ident := sys (fun f =>
  match f_names f !! name with
  | Some _ => (Fail EEXIST, f)
  | None =>
      let id := fresh (dom (f_inodes f)) in
      (Ok id, mkFS (<[name := id]> (f_names f)) (<[id := mkInode (Z.lor S_IFREG 384) 1 ""]> (f_inodes f))
                (f_held f) (f_named f))
  end).
Definition on_inode (id : ident) (g : inode -> inode) : D unit := sys (fun f =>
  (Ok tt, set_inodes f (alter g id (f_inodes f)))).
Definition fchmod (id : ident) (perm : Z) : D unit :=
  on_inode id (fun i => mkInode (Z.lor (Z.land (in_mode i) S_IFMT) perm) (in_nlink i) (in_data i)).
Definition Write (id : ident) (payload : string) : D unit :=
  on_inode id (fun i => mkInode (in_mode i) (in_nlink i) (in_data i +:+ payload)).
Definition Sync : D unit := sys (fun f => (Ok tt, f)).
Definition drop_link (f : fs) (name : string) : gmap ident inode :=
  match f_names f !! name with
  | Some id => alter (fun i => mkInode (in_mode i) (in_nlink i - 1) (in_data i)) id (f_inodes f)
  | None => f_inodes f
  end.
Definition renameAt (from to : string) : D unit := sys (fun f =>
  match f_names f !! from with
  | None => (Fail ENOENT, f)
  | Some id =>
      if bool_decide (f_names f !! to = Some id) then (Ok tt, f)
      else (Ok tt, mkFS (<[to := id]> (delete from (f_names f))) (drop_link f to) (f_held f) (f_named f))
  end).
Definition unlinkAt (name : string) : D unit := sys (fun f =>
  match f_names f !! name with
  | None => (Fail ENOENT, f)
  | Some _ => (Ok tt, mkFS (delete name (f_names f)) (drop_link f name) (f_held f) (f_named f))
  end).
(** [io.ReadFull(rand.Reader, token)]. *)
Definition random_token : D string := fun s => let '(f, n) := s in (os_random E n, (f, S n)).

(** ** Checks *)

Definition sameIdentity (a b : stat) : bool := bool_decide (st_ident a = st_ident b).

Definition validateName (name : string) : result unit :=
  if (name ==s "") || (name ==s ".") || (name ==s "..") || (Base name !=s name) || (Clean name !=s name)
  then Fail ErrUnsafePath else Ok tt.

Definition validateFile (v : stat) : result unit :=
  if negb (Z.land (st_mode v) S_IFMT =? S_IFREG) || negb (st_nlink v =? 1) then Fail ErrUnsafePath
  else if negb (Z.land (st_mode v) 511 =? 384) then Fail ErrNotOwnerOnly
  else Ok tt.

Definition lift {A} (r : result A) : D A := fun s => (r, s).

Context (r : Root).

Definition verify : D unit :=
  if negb (rt_open r) then fail os_ErrClosed
  else
    let? held := Fstat_dir in
    let? named := outcome Lstat_root in
    match named with
    | Fail _ => fail ErrRootChanged
    | Ok named =>
        if negb (sameIdentity (rt_stat r) held) || negb (sameIdentity held named) ||
           negb (Z.land (st_mode named) S_IFMT =? S_IFDIR) || negb (Z.land (st_mode named) 511 =? 448)
        then fail ErrRootChanged else ret tt
    end.

(** ** Operations *)

Definition Exists (name : string) : D bool :=
  let? _ := lift (validateName name) in
  let? _ := verify in
  let? v := outcome (statAt name) in
  match v with
  | Fail e => if errors_Is e ENOENT then ret false else fail e
  | Ok value => let? _ := lift (validateFile value) in ret true
  end.

Definition Read (name : string) (maxBytes : Z) : D string :=
  if negb (is_ok (validateName name)) || (maxBytes <? 0) then fail ErrUnsafePath
  else
    let? _ := verify in
    let? before := statAt name in
    let? _ := lift (validateFile before) in
    let? opened := openRead name in
    let? held := Fstat opened in
    let? current := statAt name in
    let? _ := lift (validateFile held) in
    let? _ := lift (validateFile current) in
    if negb (sameIdentity before held) || negb (sameIdentity held current) then fail ErrIdentityChanged
    else
      let? payload := ReadAll opened (maxBytes + 1) in
      if maxBytes <? len payload then fail ErrReadLimit
      else
        let? final := outcome (statAt name) in
        match final with
        | Fail _ => fail ErrIdentityChanged
        | Ok final => if negb (sameIdentity held final) then fail ErrIdentityChanged else ret payload
        end.

Definition randomName (target suffix : string) : D string :=
  let? token := random_token in
  ret ("." +:+ target +:+ "." +:+ hex_encode token +:+ "." +:+ suffix).

(** The loop that creates the temporary file: an existing name is tried again,
    any other outcome ends it. *)
Fixpoint create_temp (attempts : nat) (name : string) (err : error) : D (string * ident) :=
  match attempts with
  | O => fail err
  | S attempts =>
      let? temp := randomName name "tmp" in
      let? created := outcome (createAt temp) in
      match created with
      | Ok id => ret (temp, id)
      | Fail e => if errors_Is e EEXIST then create_temp attempts name e else fail e
      end
  end.

(** What happens to the temporary file up to the rename. *)
Definition stage (temp : string) (id : ident) (name payload : string) : D stat :=
  let? _ := fchmod id 384 in
  let? _ := Write id payload in
  let? _ := Sync in
  let? staged := Fstat id in
  let? _ := lift (validateFile staged) in
  let? _ := renameAt temp name in
  ret staged.

Definition WriteAtomic (name payload : string) : D unit :=
  let? _ := lift (validateName name) in
  let? _ := verify in
  let? existing := outcome (statAt name) in
  let? _ := match existing with
            | Ok v => lift (validateFile v)
            | Fail e => if errors_Is e ENOENT then ret tt else fail e
            end in
  let? temp := create_temp 128 name EEXIST in
  let? staged := outcome (stage (fst temp) (snd temp) name payload) in
  match staged with
  | Fail e => let? _ := outcome (unlinkAt (fst temp)) in fail e
  | Ok staged =>
      let? synced := outcome Sync in
      match synced with
      | Fail e => fail (Wrapf "durable replacement committed without confirmation: %w" [] e)
      | Ok _ =>
          let? final := outcome (statAt name) in
          match final with
          | Fail _ => fail ErrIdentityChanged
          | Ok final => if negb (sameIdentity staged final) then fail ErrIdentityChanged else lift (validateFile final)
          end
      end
  end.

(** [readLockedWithoutMutex]. *)
Definition read_held (name : string) (maxBytes : Z) : D string :=
  let? before := statAt name in
  let? _ := lift (validateFile before) in
  let? opened := openRead name in
  let? held := outcome (Fstat opened) in
  match held with
  | Fail _ => fail ErrIdentityChanged
  | Ok held =>
      if negb (sameIdentity before held) then fail ErrIdentityChanged
      else
        let? payload := ReadAll opened (maxBytes + 1) in
        if maxBytes <? len payload then fail ErrReadLimit
        else
          let? final := outcome (statAt name) in
          match final with
          | Fail _ => fail ErrIdentityChanged
          | Ok final => if negb (sameIdentity held final) then fail ErrIdentityChanged else ret payload
          end
  end.

Definition wrapping {A} (format : string) (m : D A) : D A := fun s =>
  match m s with
  | (Ok a, s') => (Ok a, s')
  | (Fail e, s') => (Fail (Wrapf format [] e), s')
  end.

Definition Remove (name expectedSHA256 : string) : D bool :=
  let? _ := lift (validateName name) in
  let? _ := verify in
  let? v := outcome (statAt name) in
  match v with
  | Fail e => if errors_Is e ENOENT then ret false else fail e
  | Ok value =>
      let? _ := lift (validateFile value) in
      let? payload := read_held name 16777216 in
      if Sum256 payload !=s expectedSHA256 then fail ErrIdentityChanged
      else
        let? tombstone := randomName name "deleted" in
        let? _ := renameAt name tombstone in
        let? moved := outcome (statAt tombstone) in
        match moved with
        | Fail _ => fail ErrIdentityChanged
        | Ok moved =>
            if negb (sameIdentity value moved) then fail ErrIdentityChanged
            else
              let? _ := wrapping "durable delete committed without confirmation: %w" Sync in
              let? _ := wrapping "durable delete cleanup uncertain: %w" (unlinkAt tombstone) in
              let? _ := wrapping "durable delete cleanup unconfirmed: %w" Sync in
              ret true
        end
  end.
End Calls.

(** [OpenRoot], from what [Lstat] before and [Fstat] after opening give. *)
Definition OpenRoot (path : string) (lstat : result stat) (open : option error) (fstat : result stat) : result Root :=
  if negb (IsAbs path) || (Clean path !=s path) then Fail ErrUnsafePath
  else
    match lstat with
    | Fail e => Fail (Wrapf "open durable root: %w" [] e)
    | Ok before =>
        if negb (Z.land (st_mode before) S_IFMT =? S_IFDIR) then Fail ErrUnsafePath
        else if negb (Z.land (st_mode before) 511 =? 448) then Fail ErrNotOwnerOnly
        else
          match open with
          | Some e => Fail (Wrapf "hold durable root: %w" [] e)
          | None =>
              match fstat with
              | Fail e => Fail (Wrapf "inspect durable root: %w" [] e)
              | Ok opened => if negb (sameIdentity before opened) then Fail ErrIdentityChanged
                             else Ok (mkRoot path true opened)
              end
          end
    end.

Definition CloseRoot (r : Root) : Root := mkRoot (rt_path r) false (rt_stat r).
End Durable.
