(* ===== verification/DurableSpec.v ===== *)
(** * Properties of the durable root *)
From Stdlib Require Import ZArith Lia Bool.
From Stdlib Require Import String Ascii.
From stdpp Require Import base tactics option list gmap infinite strings.
From S2P Require Import Prelude GoStrings GoPath Sha256 Durable.
Open Scope Z_scope.
Import Durable.

(** What a name holds. *)
Definition content (f : fs) (name : string) : option string :=
  id ← f_names f !! name; in_data <$> f_inodes f !! id.

(** Every entry names an inode. *)
Definition fs_ok (f : fs) : Prop := forall name id, f_names f !! name = Some id -> is_Some (f_inodes f !! id).

(** No other process changes the file system; calls may still fail. *)
Definition undisturbed (E : OS) : Prop := forall n f, os_change E n f = f.

Section Quiet.
Context (E : OS) (HE : undisturbed E).

Lemma sys_cases {A} (act : fs -> result A * fs) f n :
  (exists e, sys E act (f, n) = (Fail e, (f, S n))) \/
  sys E act (f, n) = (fst (act f), (snd (act f), S n)).
Proof.
  unfold sys. rewrite HE. destruct (os_error E n) as [e|]; [left; eauto|right]. by destruct (act f).
Qed.

(** Computations that leave the file system alone. *)
Definition keeps {A} (m : D A) : Prop := forall f n, fst (snd (m (f, n))) = f.

Lemma keeps_sys {A} (act : fs -> result A * fs) : (forall f, snd (act f) = f) -> keeps (sys E act).
Proof. intros H f n. destruct (sys_cases act f n) as [[e ->]| ->]; simpl; auto. Qed.
Lemma keeps_ret {A} (a : A) : keeps (ret a).
Proof. done. Qed.
Lemma keeps_fail {A} e : keeps (@fail A e).
Proof. done. Qed.
Lemma keeps_lift {A} (r : result A) : keeps (lift r).
Proof. done. Qed.
Lemma keeps_outcome {A} (m : D A) : keeps m -> keeps (outcome m).
Proof. intros H f n. unfold outcome. specialize (H f n). by destruct (m (f, n)) as [? [? ?]]. Qed.
Lemma keeps_try {A B} (m : D A) (k : A -> D B) : keeps m -> (forall a, keeps (k a)) -> keeps (st_try m k).
Proof.
  intros Hm Hk f n. unfold st_try. specialize (Hm f n). destruct (m (f, n)) as [[a|e] [f' n']]; simpl in *; subst; [apply Hk|done].
Qed.
Lemma keeps_random : keeps (random_token E).
Proof. done. Qed.

Create HintDb keeps discriminated.
#[local] Hint Resolve keeps_ret keeps_fail keeps_lift keeps_outcome keeps_try keeps_random : keeps.
#[local] Hint Extern 1 (keeps (sys _ _)) => apply keeps_sys; done : keeps.

Lemma keeps_statAt name : keeps (statAt E name).
Proof. unfold statAt. auto with keeps. Qed.
Lemma keeps_openRead name : keeps (openRead E name).
Proof. unfold openRead. auto with keeps. Qed.
Lemma keeps_Fstat id : keeps (Fstat E id).
Proof. unfold Fstat. auto with keeps. Qed.
Lemma keeps_ReadAll id limit : keeps (ReadAll E id limit).
Proof. unfold ReadAll. auto with keeps. Qed.
Lemma keeps_Sync : keeps (Sync E).
Proof. unfold Sync. auto with keeps. Qed.
#[local] Hint Resolve keeps_statAt keeps_openRead keeps_Fstat keeps_ReadAll keeps_Sync : keeps.

Lemma keeps_verify r : keeps (verify E r).
Proof.
  unfold verify, Fstat_dir, Lstat_root. destruct (negb _); [auto with keeps|].
  apply keeps_try; [auto with keeps|]. intros held. apply keeps_try; [auto with keeps|]. intros [named|]; [|auto with keeps].
  destruct (_ || _); auto with keeps.
Qed.
#[local] Hint Resolve keeps_verify : keeps.

Lemma keeps_Exists r name : keeps (Exists E r name).
Proof.
  unfold Exists. repeat (apply keeps_try; [by auto with keeps|intros ?]).
  destruct a1; [apply keeps_try; auto with keeps|]. destruct (errors_Is _ _); auto with keeps.
Qed.

Lemma keeps_Read r name maxBytes : keeps (Read E r name maxBytes).
Proof.
  unfold Read. destruct (_ || _); [auto with keeps|]. repeat (apply keeps_try; [by auto with keeps|intros ?]).
  destruct (_ || _); [auto with keeps|]. apply keeps_try; [auto with keeps|]. intros payload.
  destruct (_ <? _); [auto with keeps|]. apply keeps_try; [auto with keeps|]. intros [final|]; [|auto with keeps].
  destruct (negb _); auto with keeps.
Qed.

Lemma try_ok {A B} (m : D A) (k : A -> D B) s b s' :
  st_try m k s = (Ok b, s') -> exists a s1, m s = (Ok a, s1) /\ k a s1 = (Ok b, s').
Proof. unfold st_try. destruct (m s) as [[a|e] s1]; [eauto|done]. Qed.

(** A call that succeeds and leaves the file system alone. *)
Lemma try_keeps {A B} (m : D A) (k : A -> D B) f n b s' :
  keeps m -> st_try m k (f, n) = (Ok b, s') -> exists a n1, m (f, n) = (Ok a, (f, n1)) /\ k a (f, n1) = (Ok b, s').
Proof.
  intros Hm Hk. apply try_ok in Hk as (a&[f1 n1]&H1&H2). specialize (Hm f n). rewrite H1 in Hm. simpl in Hm. subst f1. eauto.
Qed.

Lemma sys_ok {A} (act : fs -> result A * fs) f n a s' :
  sys E act (f, n) = (Ok a, s') -> fst (act f) = Ok a.
Proof. destruct (sys_cases act f n) as [[e ->]| ->]; [done|]. by intros [= ->]. Qed.

(** [Read] returns what the name holds. *)
Lemma Read_content r name maxBytes f n payload s' :
  Read E r name maxBytes (f, n) = (Ok payload, s') ->
  content f name = Some payload /\ len payload <= maxBytes.
Proof.
  unfold Read. destruct (_ || _) eqn:Ev; [done|]. to_prop. intros Hr.
  apply try_keeps in Hr as (u&n1&_&Hr); [|auto with keeps]. apply try_keeps in Hr as (before&n2&Hb&Hr); [|auto with keeps].
  apply try_keeps in Hr as (u2&n3&_&Hr); [|auto with keeps]. apply try_keeps in Hr as (opened&n4&Ho&Hr); [|auto with keeps].
  do 4 (apply try_keeps in Hr as (?&?&_&Hr); [|auto with keeps]).
  destruct (_ || _); [done|]. apply try_keeps in Hr as (p&n5&Hp&Hr); [|auto with keeps].
  destruct (Z.ltb_spec maxBytes (len p)) as [|Hl]; [done|].
  assert (p = payload) as ->.
  { apply try_keeps in Hr as (final&?&_&Hr); [|auto with keeps]. destruct final as [final|]; [|done].
    destruct (negb _); [done|]. by injection Hr as ->. }
  split; [|done]. apply sys_ok in Ho, Hp. simpl in Ho, Hp. unfold content.
  destruct (f_names f !! name) as [id|]; [|done]. destruct (f_inodes f !! id) as [i|] eqn:Ei; [|done].
  destruct (_ =? S_IFLNK); [done|]. injection Ho as <-. rewrite Ei in Hp. injection Hp as <-. simpl. rewrite Ei. simpl.
  f_equal. symmetry. apply slice_whole; lia.
Qed.

(** ** Replacement *)

(** A file system that is [f] with one more entry, [temp], for a new inode. *)
Record staging (f : fs) (temp : string) (id : ident) (i : inode) (g : fs) : Prop := mk_staging {
  sg_names : f_names g = <[temp := id]> (f_names f);
  sg_inodes : f_inodes g = <[id := i]> (f_inodes f);
  sg_temp : f_names f !! temp = None;
  sg_fresh : f_inodes f !! id = None
}.

Lemma staging_content f temp id i g other :
  fs_ok f -> staging f temp id i g -> other <> temp -> content g other = content f other.
Proof.
  intros Hok [Hn Hi Ht Hf] Hne. unfold content. rewrite Hn, lookup_insert_ne, Hi by done.
  destruct (f_names f !! other) as [id'|] eqn:El; [|done]. simpl. rewrite lookup_insert_ne; [done|].
  intros <-. apply Hok in El as [x Hx]. congruence.
Qed.

Lemma staging_ok f temp id i g : fs_ok f -> staging f temp id i g -> fs_ok g.
Proof.
  intros Hok [Hn Hi Ht Hf] name id' Hl. rewrite Hn in Hl. rewrite Hi.
  apply lookup_insert_Some in Hl as [[<- <-]|[_ Hl]]; [rewrite lookup_insert_eq; eauto|].
  apply Hok in Hl as [x Hx]. rewrite lookup_insert_ne; [eauto|]. intros <-. congruence.
Qed.

(** Changing the link count of an inode changes no content. *)
Lemma drop_link_content f names held named name other :
  content (mkFS names (drop_link f name) held named) other = content (mkFS names (f_inodes f) held named) other.
Proof.
  unfold content, drop_link. simpl. destruct (f_names f !! name) as [id|]; [|done].
  destruct (names !! other) as [id'|]; [|done]. simpl. rewrite lookup_alter. case_decide as Ed; [|done]. subst.
  by destruct (f_inodes f !! id').
Qed.

Lemma drop_link_some f name id : is_Some (drop_link f name !! id) <-> is_Some (f_inodes f !! id).
Proof.
  unfold drop_link. destruct (f_names f !! name) as [id'|]; [|done]. rewrite lookup_alter.
  case_decide; subst; [|done]. by rewrite fmap_is_Some.
Qed.

Lemma createAt_cases temp f n :
  (exists e, createAt E temp (f, n) = (Fail e, (f, S n))) \/
  (exists id i g, createAt E temp (f, n) = (Ok id, (g, S n)) /\ in_data i = "" /\ staging f temp id i g).
Proof.
  unfold createAt. destruct (sys_cases (fun f => match f_names f !! temp with
    | Some _ => (Fail EEXIST, f)
    | None => (Ok (fresh (dom (f_inodes f))), mkFS (<[temp := fresh (dom (f_inodes f))]> (f_names f))
       (<[fresh (dom (f_inodes f)) := mkInode (Z.lor S_IFREG 384) 1 ""]> (f_inodes f)) (f_held f) (f_named f)) end) f n)
    as [[e He]|He]; rewrite He; [left; eauto|]. destruct (f_names f !! temp) eqn:Et; [left; eauto|].
  right. eexists _, _, _. split; [done|]. split; [|constructor; done || apply not_elem_of_dom, is_fresh]. done.
Qed.

Lemma create_temp_cases attempts name err f n :
  (exists e n', create_temp E attempts name err (f, n) = (Fail e, (f, n'))) \/
  (exists temp id i g n', create_temp E attempts name err (f, n) = (Ok (temp, id), (g, n')) /\
     in_data i = "" /\ staging f temp id i g /\ temp <> name).
Proof.
  revert err n. induction attempts as [|a IH]; intros err n; [left; by exists err, n|].
  cbn [create_temp]. unfold randomName, random_token, st_try. destruct (os_random E n) as [token|e]; [|left; eauto].
  cbn [ret]. set (temp := "." +:+ _). unfold outcome.
  destruct (createAt_cases temp f (S n)) as [[e ->]|(id&i&g&->&Hd&Hs)].
  - destruct (errors_Is e EEXIST); [apply IH|left; unfold fail; eauto].
  - right. exists temp, id, i, g, (S (S n)). split; [done|]. split; [done|]. split; [done|].
    intros Et. apply (f_equal len) in Et. unfold temp in Et. rewrite !len_app in Et.
    pose proof (len_nonneg (hex_encode token)). change (len ".") with 1 in Et. change (len "tmp") with 3 in Et. lia.
Qed.

Lemma on_inode_cases id h f temp i g n :
  staging f temp id i g ->
  (exists e, on_inode E id h (g, n) = (Fail e, (g, S n))) \/
  (exists g', on_inode E id h (g, n) = (Ok tt, (g', S n)) /\ staging f temp id (h i) g').
Proof.
  intros [Hn Hi Ht Hf]. unfold on_inode. destruct (sys_cases (fun f => (Ok tt, set_inodes f (alter h id (f_inodes f)))) g n)
    as [[e He]|He]; rewrite He; [left; eauto|]. right. eexists. split; [done|]. constructor; simpl; try done.
  rewrite Hi. by rewrite alter_insert_eq.
Qed.

(** Staging either fails and leaves only the temporary file behind, or the name
    is rebound to the new inode. *)
Lemma stage_cases temp id name payload f i g n :
  fs_ok f -> staging f temp id i g -> in_data i = "" -> temp <> name ->
  (exists e j g' n', stage E temp id name payload (g, n) = (Fail e, (g', n')) /\ staging f temp id j g') \/
  (exists st j g' f' n', stage E temp id name payload (g, n) = (Ok st, (f', n')) /\
     staging f temp id j g' /\ in_data j = payload /\
     f' = mkFS (<[name := id]> (delete temp (f_names g'))) (drop_link g' name) (f_held g') (f_named g')).
Proof.
  intros Hok Hs Hd Hne. unfold stage, fchmod, Write, st_try.
  destruct (on_inode_cases id (fun i => mkInode (Z.lor (Z.land (in_mode i) S_IFMT) 384) (in_nlink i) (in_data i)) f temp i g n Hs)
    as [[e ->]|(g1&->&H1)]; [left; by eexists e, i, g, _|].
  destruct (on_inode_cases id (fun i => mkInode (in_mode i) (in_nlink i) (in_data i +:+ payload)) f temp _ g1 (S n) H1)
    as [[e ->]|(g2&->&H2)]; [left; by eexists e, _, g1, _|].
  set (j := mkInode _ _ _) in H2. assert (in_data j = payload) as Hj by (simpl; by rewrite Hd). clearbody j.
  assert (forall A e (n' : nat), exists e0 j0 g0 n0, (@Fail A e, (g2, n')) = (Fail e0, (g0, n0)) /\ staging f temp id j0 g0) as Hfail
    by (intros; by eexists _, j, g2, _).
  pose proof (keeps_Sync g2 (S (S n))) as K1. destruct (Sync E (g2, S (S n))) as [[[]|e] [g3 n3]]; simpl in K1; subst g3; [|left; apply Hfail].
  pose proof (keeps_Fstat id g2 n3) as K2. destruct (Fstat E id (g2, n3)) as [[st|e] [g4 n4]]; simpl in K2; subst g4; [|left; apply Hfail].
  unfold lift. destruct (validateFile st) as [[]|e]; [|left; apply Hfail].
  unfold renameAt. match goal with |- context [sys E ?act (g2, n4)] => destruct (sys_cases act g2 n4) as [[e ->]| ->] end; [left; apply Hfail|].
  destruct H2 as [Hn Hi Ht Hf]. rewrite Hn, lookup_insert_eq. rewrite bool_decide_false.
  2: { rewrite lookup_insert_ne by done. intros E'. apply Hok in E' as [x Hx]. congruence. }
  right. exists st, j, g2. eexists _, _. split; [done|]. split; [by constructor|]. split; [done|]. simpl. by rewrite Hn.
Qed.

(** The other entries hold what they held. *)
Definition others_kept (f f' : fs) (name : string) : Prop :=
  forall other, other <> name -> is_Some (content f other) -> content f' other = content f other.

Lemma staging_kept f temp id i g name :
  fs_ok f -> staging f temp id i g -> temp <> name -> content g name = content f name /\ others_kept f g name.
Proof.
  intros Hok Hs Hne. split; [by eapply staging_content|]. intros other _ [d Hd].
  eapply staging_content; [done..|]. intros ->. unfold content in Hd. by rewrite (sg_temp _ _ _ _ _ Hs) in Hd.
Qed.

(** The name is rebound to the new inode. *)
Lemma renamed_kept f temp id j g name :
  fs_ok f -> staging f temp id j g -> temp <> name ->
  let f' := mkFS (<[name := id]> (delete temp (f_names g))) (drop_link g name) (f_held g) (f_named g) in
  fs_ok f' /\ content f' name = Some (in_data j) /\ others_kept f f' name.
Proof.
  intros Hok Hs Hne. pose proof (staging_ok _ _ _ _ _ Hok Hs) as Hg. pose proof (staging_kept _ _ _ _ _ _ Hok Hs Hne) as [_ Hk].
  destruct Hs as [Hn Hi Ht Hf]. split; [|split].
  - intros x id' Hl. simpl in *. apply drop_link_some. apply lookup_insert_Some in Hl as [[<- <-]|[_ Hl]].
    + rewrite Hi, lookup_insert_eq. eauto.
    + apply lookup_delete_Some in Hl as [_ Hl]. by eapply Hg.
  - rewrite drop_link_content. unfold content. simpl. rewrite lookup_insert_eq. simpl. by rewrite Hi, lookup_insert_eq.
  - intros other Ho Hd. rewrite drop_link_content. rewrite <- (Hk other Ho Hd). unfold content. simpl.
    rewrite lookup_insert_ne by done. rewrite lookup_delete_ne; [done|]. intros ->.
    destruct Hd as [d Hd]. unfold content in Hd. by rewrite Ht in Hd.
Qed.

Lemma unlink_kept f temp id j g name n :
  fs_ok f -> staging f temp id j g -> temp <> name ->
  let f' := fst (snd (unlinkAt E temp (g, n))) in
  fs_ok f' /\ content f' name = content f name /\ others_kept f f' name.
Proof.
  intros Hok Hs Hne. pose proof (staging_ok _ _ _ _ _ Hok Hs) as Hg. pose proof (staging_kept _ _ _ _ _ _ Hok Hs Hne) as [Hc Hk].
  unfold unlinkAt. match goal with |- context [sys E ?act (g, n)] => destruct (sys_cases act g n) as [[e ->]| ->] end; [done|].
  rewrite (sg_names _ _ _ _ _ Hs), lookup_insert_eq. simpl.
  rewrite delete_insert_id by apply Hs.
  assert (forall other, other <> temp -> content (mkFS (f_names f) (drop_link g temp) (f_held g) (f_named g)) other = content g other) as Hsame.
  { intros other Ho. rewrite drop_link_content. unfold content. simpl. rewrite (sg_names _ _ _ _ _ Hs).
    by rewrite lookup_insert_ne. }
  split; [|split].
  - intros x id' Hl. simpl in *. apply drop_link_some. apply (Hg x). rewrite (sg_names _ _ _ _ _ Hs).
    rewrite lookup_insert_ne; [done|]. intros <-. by rewrite (sg_temp _ _ _ _ _ Hs) in Hl.
  - by rewrite Hsame.
  - intros other Ho Hd. rewrite Hsame; [by apply Hk|]. intros ->. destruct Hd as [d Hd]. unfold content in Hd.
    by rewrite (sg_temp _ _ _ _ _ Hs) in Hd.
Qed.

(** A replacement leaves the old content or puts the new one in place, and an
    [Ok] result means the latter. *)
Lemma WriteAtomic_cases r name payload f n res f' n' :
  fs_ok f -> WriteAtomic E r name payload (f, n) = (res, (f', n')) ->
  fs_ok f' /\ others_kept f f' name /\
  ((content f' name = content f name /\ is_ok res = false) \/ content f' name = Some payload).
Proof.
  intros Hok. unfold WriteAtomic, st_try. cbn [lift]. unfold lift.
  assert (forall e (m : nat), (@Fail unit e, (f, m)) = (res, (f', n')) -> fs_ok f' /\ others_kept f f' name /\
    ((content f' name = content f name /\ is_ok res = false) \/ content f' name = Some payload)) as Hsame.
  { intros e m [= <- <- <-]. split; [done|]. split; [by intros ? _ _|by left]. }
  destruct (validateName name) as [[]|e]; [|apply Hsame].
  pose proof (keeps_verify r f n) as K1. destruct (verify E r (f, n)) as [[[]|e] [f1 n1]]; simpl in K1; subst f1; [|apply Hsame].
  pose proof (keeps_outcome _ (keeps_statAt name) f n1) as K2.
  destruct (outcome (statAt E name) (f, n1)) as [[ex|e] [f2 n2]]; simpl in K2; subst f2; [|apply Hsame].
  match goal with |- context [match ?m (f, n2) with _ => _ end] => assert (snd (m (f, n2)) = (f, n2)) as K3
    by (destruct ex as [v|e]; [done|destruct (errors_Is e ENOENT); done]); destruct (m (f, n2)) as [[[]|e] s3] end;
    simpl in K3; subst s3; [|apply Hsame].
  destruct (create_temp_cases 128 name EEXIST f n2) as [(e&n3&->)|(temp&id&i&g&n3&->&Hd&Hs&Hne)]; [apply Hsame|].
  cbn [fst snd]. unfold outcome at 1.
  destruct (stage_cases temp id name payload f i g n3 Hok Hs Hd Hne)
    as [(e&j&g'&n4&->&Hj)|(st&j&g'&f4&n4&->&Hj&Hdj&->)].
  - pose proof (unlink_kept f temp id j g' name n4 Hok Hj Hne) as (U1&U2&U3). unfold outcome.
    destruct (unlinkAt E temp (g', n4)) as [ru [fu nu]]. simpl in *. intros [= <- <- <-]. auto.
  - pose proof (renamed_kept f temp id j g' name Hok Hj Hne) as (R1&R2&R3). rewrite Hdj in R2.
    set (f4 := mkFS _ _ _ _) in *. clearbody f4.
    assert (forall (x : result unit * (fs * nat)), fst (snd x) = f4 -> x = (res, (f', n')) ->
      fs_ok f' /\ others_kept f f' name /\ ((content f' name = content f name /\ is_ok res = false) \/ content f' name = Some payload)) as Hfin.
    { intros [x1 [x2 x3]] Hx [= -> -> ->]. simpl in Hx. subst. auto. }
    apply Hfin. pose proof (keeps_outcome _ keeps_Sync f4 n4) as K5.
    destruct (outcome (Sync E) (f4, n4)) as [[sy|e] [f5 n5]]; simpl in K5; subst f5; [|done].
    destruct sy as [[]|e]; [|done]. pose proof (keeps_outcome _ (keeps_statAt name) f4 n5) as K6.
    destruct (outcome (statAt E name) (f4, n5)) as [[fi|e] [f6 n6]]; simpl in K6; subst f6; [|done].
    destruct fi as [fi|e]; [|done]. by destruct (negb _).
Qed.
End Quiet.

(** ** Properties *)


(** ** Witness *)

Module DurableSamples.
Definition dir_stat : stat := mkStat (1, 2) (Z.lor S_IFDIR 448) 2.
Definition files : fs :=
  mkFS (<["auth.json" := (1, 10)]> ∅) (<[(1, 10) := mkInode (Z.lor S_IFREG 384) 1 "old"]> ∅) dir_stat (Ok dir_stat).
Definition root : Root := mkRoot "/state" true dir_stat.
Definition quiet_os : OS := mkOS (fun _ f => f) (fun _ => None) (fun _ => Ok "0123456789abcdef").
Definition after : fs * nat := snd (WriteAtomic quiet_os root "auth.json" "new" (files, 0%nat)).

Example write_succeeds : fst (WriteAtomic quiet_os root "auth.json" "new" (files, 0%nat)) = Ok tt.
Proof. vm_compute. reflexivity. Qed.

Lemma files_ok : fs_ok files.
Proof.
  intros name id H. unfold files in H. cbn [f_names] in H. apply lookup_insert_Some in H as [[_ <-]|[_ H]]; [|by rewrite lookup_empty in H].
  unfold files. cbn [f_inodes]. rewrite lookup_insert_eq. eauto.
Qed.

End DurableSamples.
