(* ===== verification/DurableWindows.v ===== *)
(** * The durable root on Windows

    [internal/history/durable/durable_windows.go]: the same operations without
    directory-relative calls. The file system and the operating system are those of
    [Durable]; the mode of an inode has the file type in its [S_IFMT] bits and the
    file attributes above bit 16. A path names an entry of the directory that the
    root's path names at the time. What [os.Lstat] gives knows the identity of the
    file only when [os.SameFile] asks for it, through the path; what [File.Stat]
    gives has it. *)
From Stdlib Require Import ZArith Lia Bool.
From Stdlib Require Import String Ascii.
From stdpp Require Import base tactics option list gmap infinite strings.
From S2P Require Import Prelude GoStrings Sha256 Durable DurableSpec.
Open Scope Z_scope.

Module DurableWindows.
Import Durable.

Definition EINVAL : error := Sentinel "EINVAL".
Definition ERROR_ALREADY_EXISTS : error := Sentinel "ERROR_ALREADY_EXISTS".
Definition ERROR_ACCESS_DENIED : error := Sentinel "ERROR_ACCESS_DENIED".
Definition FILE_ATTRIBUTE_REPARSE_POINT : Z := 1024.

Definition file_type (mode : Z) : Z := Z.land mode S_IFMT.
Definition attributes (mode : Z) : Z := Z.shiftr mode 16.
Definition is_reparse (mode : Z) : bool := negb (Z.land (attributes mode) FILE_ATTRIBUTE_REPARSE_POINT =? 0).

(** [path/filepath] on Windows, and where a reparse point leads. *)
Class WinPath : Type := {
  win_IsAbs : string -> bool;
  win_Clean : string -> string;
  win_Base : string -> string;
  win_follow : fs -> ident -> result ident
}.

(** A path: the root itself, or a name in it. *)
Inductive wpath : Type := PRoot | PName (name : string).

(** [os.FileInfo]: the identity, or the path it is to be taken from. *)
Inductive fileref : Type := Resolved (id : ident) | Lazy (path : wpath).
Record FileInfo : Type := mkInfo { fi_ref : fileref; fi_mode : Z }.
Definition IsDir (i : FileInfo) : bool := file_type (fi_mode i) =? S_IFDIR.
Definition IsRegular (i : FileInfo) : bool := file_type (fi_mode i) =? S_IFREG.
Definition IsSymlink (i : FileInfo) : bool := file_type (fi_mode i) =? S_IFLNK.

(** What a path names. *)
Definition resolve (f : fs) (path : wpath) : result stat :=
  match path with
  | PRoot => f_named f
  | PName name =>
      match f_names f !! name with
      | None => Fail os_ErrNotExist
      | Some id =>
          match f_inodes f !! id with
          | Some i => Ok (mkStat id (in_mode i) (in_nlink i))
          | None => Fail os_ErrNotExist
          end
      end
  end.

Section Calls.
Context `{WinPath} (E : OS).

Definition Lstat (path : wpath) : D FileInfo := sys E (fun f => (v ← resolve f path; Ok (mkInfo (Lazy path) (st_mode v)), f)).
Definition GetFileAttributes (path : wpath) : D Z := sys E (fun f => (v ← resolve f path; Ok (attributes (st_mode v)), f)).

(** [windows.UTF16PtrFromString]: no NUL in the path. *)
Definition UTF16PtrFromString (path : wpath) (root : string) : result unit :=
  if has_byte "000" (match path with PRoot => root | PName name => root +:+ name end) then Fail EINVAL else Ok tt.

(** [File.Stat] of an opened file and of the held directory. *)
Definition file_Stat (id : ident) : D FileInfo := sys E (fun f =>
  (match f_inodes f !! id with Some i => Ok (mkInfo (Resolved id) (in_mode i)) | None => Fail os_ErrNotExist end, f)).
Definition dir_Stat : D FileInfo := sys E (fun f => (Ok (mkInfo (Resolved (st_ident (f_held f))) (st_mode (f_held f))), f)).

(** [windows.GetFileInformationByHandle]: the number of links and the attributes. *)
Definition GetFileInformationByHandle (id : ident) : D (Z * Z) := sys E (fun f =>
  (match f_inodes f !! id with Some i => Ok (in_nlink i, attributes (in_mode i)) | None => Fail os_ErrNotExist end, f)).

(** [os.Open], which follows a reparse point. *)
Definition Open (path : wpath) : D ident := sys E (fun f =>
  (v ← resolve f path; if is_reparse (st_mode v) then win_follow f (st_ident v) else Ok (st_ident v), f)).

(** [os.Open] of the root: from now on the held directory is what the path names. *)
Definition Open_root : D unit := sys E (fun f =>
  match f_named f with
  | Ok v => (Ok tt, mkFS (f_names f) (f_inodes f) v (f_named f))
  | Fail err => (Fail err, f)
  end).

Definition Close : D unit := sys E (fun f => (Ok tt, f)).

Definition loadFileId (i : FileInfo) : D ident :=
  match fi_ref i with
  | Resolved id => ret id
  | Lazy path => sys E (fun f => (v ← resolve f path; Ok (st_ident v), f))
  end.

Definition SameFile (a b : FileInfo) : D bool :=
  let? ia := outcome (loadFileId a) in
  match ia with
  | Fail _ => ret false
  | Ok ia =>
      let? ib := outcome (loadFileId b) in
      match ib with
      | Fail _ => ret false
      | Ok ib => ret (bool_decide (ia = ib))
      end
  end.

(** [windows.MoveFileEx] within the directory, with or without
    [MOVEFILE_REPLACE_EXISTING]; a directory is not replaced. *)
Definition MoveFileEx (from to : string) (replace : bool) : D unit := sys E (fun f =>
  match f_names f !! from with
  | None => (Fail os_ErrNotExist, f)
  | Some id =>
      if from ==s to then (Ok tt, f)
      else
        let moved := (Ok tt, mkFS (<[to := id]> (delete from (f_names f))) (drop_link f to) (f_held f) (f_named f)) in
        match f_names f !! to with
        | None => moved
        | Some old =>
            if negb replace then (Fail ERROR_ALREADY_EXISTS, f)
            else if match f_inodes f !! old with Some i => file_type (in_mode i) =? S_IFDIR | None => false end
            then (Fail ERROR_ACCESS_DENIED, f)
            else moved
        end
  end).

(** ** Checks *)

Definition validateName (name : string) : result unit :=
  if (name ==s "") || (name ==s ".") || (name ==s "..") || (win_Base name !=s name) || (win_Clean name !=s name)
  then Fail ErrUnsafePath else Ok tt.

Context (r : Root).

Definition safeLstat (path : wpath) (directory : bool) : D FileInfo :=
  let? info := Lstat path in
  let? _ := lift (UTF16PtrFromString path (rt_path r)) in
  let? attributes := GetFileAttributes path in
  if IsSymlink info || negb (Z.land attributes FILE_ATTRIBUTE_REPARSE_POINT =? 0) || negb (eqb directory (IsDir info))
  then fail ErrUnsafePath else ret info.

(** Checks that answer one error for every failure. *)
Definition same_or (e : error) (a : FileInfo) (b : result FileInfo) : D unit :=
  match b with
  | Fail _ => fail e
  | Ok b => let? same := SameFile a b in if negb same then fail e else ret tt
  end.

Definition verify : D unit :=
  if negb (rt_open r) then fail os_ErrClosed
  else
    let? held := dir_Stat in
    let? named := outcome (safeLstat PRoot true) in
    match named with
    | Fail _ => fail ErrRootChanged
    | Ok named =>
        let? _ := same_or ErrRootChanged (mkInfo (Resolved (st_ident (rt_stat r))) (st_mode (rt_stat r))) (Ok held) in
        same_or ErrRootChanged held (Ok named)
    end.

Definition validateOpenedFile (path : wpath) (file : ident) (before : FileInfo) : D FileInfo :=
  let? opened := outcome (file_Stat file) in
  match opened with
  | Fail _ => fail ErrIdentityChanged
  | Ok opened =>
      if negb (IsRegular opened) then fail ErrIdentityChanged
      else
        let? _ := same_or ErrIdentityChanged before (Ok opened) in
        let? handleInfo := GetFileInformationByHandle file in
        if negb (fst handleInfo =? 1) || negb (Z.land (snd handleInfo) FILE_ATTRIBUTE_REPARSE_POINT =? 0) then fail ErrUnsafePath
        else
          let? current := outcome (safeLstat path false) in
          let? _ := same_or ErrIdentityChanged opened current in
          ret opened
  end.

(** ** Operations *)

Definition Exists (name : string) : D bool :=
  let? _ := lift (validateName name) in
  let? _ := verify in
  let path := PName name in
  let? info := outcome (safeLstat path false) in
  match info with
  | Fail err => if errors_Is err os_ErrNotExist then ret false else fail err
  | Ok info =>
      let? file := Open path in
      let? _ := validateOpenedFile path file info in
      ret true
  end.

(** [readLocked]. *)
Definition Read (name : string) (maxBytes : Z) : D string :=
  if negb (is_ok (validateName name)) || (maxBytes <? 0) then fail ErrUnsafePath
  else
    let? _ := verify in
    let path := PName name in
    let? before := safeLstat path false in
    let? file := Open path in
    let? opened := validateOpenedFile path file before in
    let? payload := ReadAll E file (wrap64 (maxBytes + 1)) in
    if maxBytes <? len payload then fail ErrReadLimit
    else
      let? after := outcome (safeLstat path false) in
      let? _ := same_or ErrIdentityChanged opened after in
      ret payload.

Definition moveFile (source target : string) (replace : bool) : D unit :=
  let? _ := lift (UTF16PtrFromString (PName source) (rt_path r)) in
  let? _ := lift (UTF16PtrFromString (PName target) (rt_path r)) in
  MoveFileEx source target replace.

(** The check of a file that is about to be replaced. *)
Definition check_target (target : string) : D unit :=
  let? info := outcome (safeLstat (PName target) false) in
  match info with
  | Ok info =>
      let? file := Open (PName target) in
      let? _ := validateOpenedFile (PName target) file info in
      ret tt
  | Fail err => if errors_Is err os_ErrNotExist then ret tt else fail err
  end.

(** What happens to the temporary file until it has the name of the target. *)
Definition stage (temp : string) (file : ident) (target payload : string) : D FileInfo :=
  let? _ := Write E file payload in
  let? _ := Sync E in
  let? before := file_Stat file in
  let? _ := Close in
  let? _ := moveFile temp target true in
  ret before.

Definition WriteAtomic (name payload : string) : D unit :=
  let? _ := lift (validateName name) in
  let? _ := verify in
  let? _ := check_target name in
  let? temp := randomName E name "tmp" in
  let? file := createAt E temp in
  let? before := outcome (stage temp file name payload) in
  match before with
  | Fail err => let? _ := outcome (unlinkAt E temp) in fail err
  | Ok before =>
      let? after := outcome (safeLstat (PName name) false) in
      same_or ErrIdentityChanged before after
  end.

Definition Remove (name expectedSHA256 : string) : D bool :=
  let? _ := lift (validateName name) in
  let? _ := verify in
  let path := PName name in
  let? before := outcome (safeLstat path false) in
  match before with
  | Fail err => if errors_Is err os_ErrNotExist then ret false else fail err
  | Ok before =>
      let? file := Open path in
      let? opened := validateOpenedFile path file before in
      let? payload := outcome (ReadAll E file (16777216 + 1)) in
      match payload with
      | Fail _ => fail ErrIdentityChanged
      | Ok payload =>
          if (16777216 <? len payload) || (Sum256 payload !=s expectedSHA256) then fail ErrIdentityChanged
          else
            let? tombstone := randomName E name "deleted" in
            let? _ := moveFile name tombstone false in
            let? moved := outcome (safeLstat (PName tombstone) false) in
            let? _ := same_or ErrIdentityChanged opened moved in
            let? _ := wrapping "durable delete cleanup uncertain: %w" (unlinkAt E tombstone) in
            ret true
      end
  end.
End Calls.

(** ** Opening and closing *)

Definition OpenRoot `{WinPath} (E : OS) (path : string) : D Root :=
  if negb (win_IsAbs path) || (win_Clean path !=s path) then fail ErrUnsafePath
  else
    let? before := safeLstat E (mkRoot path false (mkStat (0, 0) 0 0)) PRoot true in
    let? _ := Open_root E in
    let? opened := outcome (dir_Stat E) in
    match opened with
    | Fail _ => fail ErrIdentityChanged
    | Ok opened =>
        let? _ := same_or E ErrIdentityChanged before (Ok opened) in
        match fi_ref opened with
        | Resolved id => ret (mkRoot path true (mkStat id (fi_mode opened) 0))
        | Lazy _ => fail ErrIdentityChanged
        end
    end.

(** [Root.Close]: the root is closed whatever the call answers. *)
Definition CloseRoot (E : OS) (r : Root) : D (option error * Root) :=
  if negb (rt_open r) then ret (None, r)
  else
    let? closed := outcome (Close E) in
    ret (match closed with Fail err => Some err | Ok _ => None end, Durable.CloseRoot r).

End DurableWindows.

(** ** Properties of the durable root on Windows

    The guarantees of [DurableSpec], by the same lemmas on the file system: a read
    returns what the name holds, a replacement is atomic whatever calls fail, and a
    removal takes away only the content it was told to. *)
Import Durable DurableWindows.

Section Quiet.
Context `{WinPath} (E : OS) (HE : undisturbed E).

Create HintDb wkeeps discriminated.
#[local] Hint Resolve keeps_ret keeps_fail keeps_lift keeps_outcome keeps_try keeps_random : wkeeps.
#[local] Hint Extern 1 (keeps (sys _ _)) => apply (keeps_sys E HE); done : wkeeps.
#[local] Hint Extern 2 (keeps (match ?x with _ => _ end)) => destruct x : wkeeps.
#[local] Hint Extern 2 (keeps (let '(_, _) := ?x in _)) => destruct x : wkeeps.

Lemma wkeeps_loadFileId i : keeps (loadFileId E i).
Proof. unfold loadFileId. auto with wkeeps. Qed.
#[local] Hint Resolve wkeeps_loadFileId : wkeeps.
Lemma wkeeps_SameFile a b : keeps (SameFile E a b).
Proof. unfold SameFile. auto 10 with wkeeps. Qed.
#[local] Hint Resolve wkeeps_SameFile : wkeeps.
Lemma wkeeps_same_or e a b : keeps (same_or E e a b).
Proof. unfold same_or. auto 10 with wkeeps. Qed.
#[local] Hint Resolve wkeeps_same_or : wkeeps.
Lemma wkeeps_safeLstat r path d : keeps (safeLstat E r path d).
Proof. unfold safeLstat, Lstat, GetFileAttributes. auto 10 with wkeeps. Qed.
#[local] Hint Resolve wkeeps_safeLstat : wkeeps.
Lemma wkeeps_verify r : keeps (DurableWindows.verify E r).
Proof. unfold DurableWindows.verify, dir_Stat. auto 10 with wkeeps. Qed.
#[local] Hint Resolve wkeeps_verify : wkeeps.
Lemma wkeeps_Open path : keeps (Open E path).
Proof. unfold Open. auto with wkeeps. Qed.
#[local] Hint Resolve wkeeps_Open : wkeeps.
Lemma wkeeps_validateOpenedFile r path file before : keeps (validateOpenedFile E r path file before).
Proof. unfold validateOpenedFile, file_Stat, GetFileInformationByHandle. auto 20 with wkeeps. Qed.
#[local] Hint Resolve wkeeps_validateOpenedFile : wkeeps.
Lemma wkeeps_ReadAll id limit : keeps (ReadAll E id limit).
Proof. unfold ReadAll. auto with wkeeps. Qed.
#[local] Hint Resolve wkeeps_ReadAll : wkeeps.
Lemma wkeeps_check_target r name : keeps (check_target E r name).
Proof. unfold check_target. auto 10 with wkeeps. Qed.
#[local] Hint Resolve wkeeps_check_target : wkeeps.
Lemma wkeeps_randomName target suffix : keeps (randomName E target suffix).
Proof. unfold randomName. auto with wkeeps. Qed.
#[local] Hint Resolve wkeeps_randomName : wkeeps.
Lemma wkeeps_Exists r name : keeps (DurableWindows.Exists E r name).
Proof. unfold DurableWindows.Exists. auto 20 with wkeeps. Qed.
Lemma wkeeps_Read r name maxBytes : keeps (DurableWindows.Read E r name maxBytes).
Proof. unfold DurableWindows.Read. auto 20 with wkeeps. Qed.

(** ** Identity *)

Definition ref_id (f : fs) (i : FileInfo) : result ident :=
  match fi_ref i with
  | Resolved id => Ok id
  | Lazy path => v ← resolve f path; Ok (st_ident v)
  end.

Lemma loadFileId_ok f n i id s' : loadFileId E i (f, n) = (Ok id, s') -> ref_id f i = Ok id.
Proof. unfold loadFileId, ref_id. destruct (fi_ref i); [by intros [= ->]|]. by intros ?%(sys_ok E HE). Qed.

Lemma outcome_ok {A} (m : D A) s r s' : outcome m s = (Ok r, s') -> m s = (r, s').
Proof. unfold outcome. destruct (m s). by intros [= -> ->]. Qed.

Lemma same_or_ok e a b f n u s' : same_or E e a b (f, n) = (Ok u, s') ->
  exists b' id, b = Ok b' /\ ref_id f a = Ok id /\ ref_id f b' = Ok id.
Proof.
  unfold same_or. destruct b as [b'|]; [|done]. intros Hs. apply try_keeps in Hs as (same&n1&Hs&Hr); [|auto with wkeeps].
  destruct same; [|done]. clear Hr. unfold SameFile in Hs.
  apply try_keeps in Hs as (ia&n2&Ha&Hs); [|auto with wkeeps]. destruct ia as [ia|]; [|done].
  apply try_keeps in Hs as (ib&n3&Hb&Hs); [|auto with wkeeps]. destruct ib as [ib|]; [|done].
  injection Hs as Hs _. apply bool_decide_eq_true in Hs as ->. apply outcome_ok, loadFileId_ok in Ha, Hb. eauto.
Qed.

Lemma safeLstat_ref r path d f n info s' : safeLstat E r path d (f, n) = (Ok info, s') -> fi_ref info = Lazy path.
Proof.
  unfold safeLstat. intros Hs. apply try_keeps in Hs as (i&n1&Hi&Hs); [|unfold Lstat; auto with wkeeps].
  do 2 (apply try_keeps in Hs as (?&?&_&Hs); [|unfold GetFileAttributes; auto with wkeeps]).
  destruct (_ || _); [done|]. injection Hs as <- _. apply (sys_ok E HE) in Hi. cbn in Hi.
  destruct (resolve f path); [|done]. by injection Hi as <-.
Qed.

(** The opened file is the one that the path names. *)
Lemma validateOpenedFile_ok r path file before f n opened s' : fi_ref before = Lazy path ->
  validateOpenedFile E r path file before (f, n) = (Ok opened, s') ->
  fi_ref opened = Resolved file /\ exists v, resolve f path = Ok v /\ st_ident v = file.
Proof.
  intros Hb. unfold validateOpenedFile. intros Hs. apply try_keeps in Hs as (o&n1&Ho&Hs); [|unfold file_Stat; auto with wkeeps].
  destruct o as [o|]; [|done]. destruct (negb (IsRegular o)); [done|].
  apply try_keeps in Hs as (?&?&H1&Hs); [|auto with wkeeps]. apply same_or_ok in H1 as (b'&id&[= <-]&Hib&Hio).
  apply try_keeps in Hs as (?&?&_&Hs); [|unfold GetFileInformationByHandle; auto with wkeeps]. destruct (_ || _); [done|].
  do 2 (apply try_keeps in Hs as (?&?&_&Hs); [|auto with wkeeps]). injection Hs as <- _.
  apply outcome_ok, (sys_ok E HE) in Ho. cbn in Ho. destruct (f_inodes f !! file); [|done]. injection Ho as <-. split; [done|].
  injection Hio as <-. unfold ref_id in Hib. rewrite Hb in Hib. destruct (resolve f path) as [v|]; [|done]. injection Hib as <-. eauto.
Qed.

Lemma resolve_name f name v : resolve f (PName name) = Ok v -> f_names f !! name = Some (st_ident v) /\ is_Some (f_inodes f !! st_ident v).
Proof.
  cbn. destruct (f_names f !! name) as [id|]; [|done]. destruct (f_inodes f !! id) eqn:Ei; [|done]. intros [= <-]. cbn. rewrite Ei. eauto.
Qed.

Lemma ReadAll_ok id limit f n data s' : ReadAll E id limit (f, n) = (Ok data, s') ->
  exists i, f_inodes f !! id = Some i /\ data = slice (in_data i) 0 limit.
Proof. intros Hr%(sys_ok E HE). cbn in Hr. destruct (f_inodes f !! id) as [i|]; [|done]. injection Hr as <-. eauto. Qed.

Lemma windows_Read_content r name maxBytes f n payload s' : maxBytes < max_int64 ->
  DurableWindows.Read E r name maxBytes (f, n) = (Ok payload, s') -> content f name = Some payload /\ len payload <= maxBytes.
Proof.
  intros Hm. unfold DurableWindows.Read. destruct (_ || _) eqn:Ev; [done|]. apply orb_false_iff in Ev as [_ Ev]. apply Z.ltb_ge in Ev. intros Hr.
  apply try_keeps in Hr as (u&n1&_&Hr); [|auto with wkeeps]. apply try_keeps in Hr as (before&n2&Hb&Hr); [|auto with wkeeps].
  apply try_keeps in Hr as (file&n3&_&Hr); [|auto with wkeeps]. apply try_keeps in Hr as (opened&n4&Ho&Hr); [|auto with wkeeps].
  apply try_keeps in Hr as (p&n5&Hp&Hr); [|auto with wkeeps]. destruct (Z.ltb_spec maxBytes (len p)) as [|Hl]; [done|].
  do 2 (apply try_keeps in Hr as (?&?&_&Hr); [|auto with wkeeps]). injection Hr as <- _. split; [|done].
  apply safeLstat_ref in Hb. apply validateOpenedFile_ok in Ho as (_&v&Hv&<-); [|done]. apply resolve_name in Hv as [Hn _].
  rewrite wrap64_id in Hp by (unfold is_int64, max_int64 in *; lia). apply ReadAll_ok in Hp as (i&Hi&->).
  unfold content. rewrite Hn. cbn. rewrite Hi. cbn. f_equal. symmetry. apply slice_whole; [lia|done].
Qed.

(** ** Replacement *)

(** Staging either fails and leaves only the temporary file behind, or the name is
    rebound to the new inode. *)
Inductive staged (f : fs) (temp : string) (id : ident) (name payload : string) : result FileInfo * (fs * nat) -> Prop :=
| staged_fail e j g n : staging f temp id j g -> staged f temp id name payload (Fail e, (g, n))
| staged_ok info j g n : staging f temp id j g -> in_data j = payload ->
    staged f temp id name payload
      (Ok info, (mkFS (<[name := id]> (delete temp (f_names g))) (drop_link g name) (f_held g) (f_named g), n)).

Lemma staged_try {A} f temp id name payload j g (m : D A) k n : staging f temp id j g -> keeps m ->
  (forall a n, staged f temp id name payload (k a (g, n))) -> staged f temp id name payload (st_try m k (g, n)).
Proof.
  intros Hj Hm Hk. unfold st_try. specialize (Hm g n). destruct (m (g, n)) as [[a|e] [g' n']]; cbn in Hm; subst g'; [apply Hk|by eapply staged_fail].
Qed.

Lemma windows_stage_cases r temp id name payload f i g n :
  fs_ok f -> staging f temp id i g -> in_data i = "" -> temp <> name -> staged f temp id name payload (stage E r temp id name payload (g, n)).
Proof.
  intros Hok Hs Hd Hne. unfold stage, Write. unfold st_try at 1.
  destruct (on_inode_cases E HE id (fun i => mkInode (in_mode i) (in_nlink i) (in_data i +:+ payload)) f temp _ g n Hs)
    as [[e ->]|(g2&->&H2)]; [by eapply staged_fail|].
  set (j := mkInode _ _ _) in H2. assert (in_data j = payload) as Hj by (cbn; by rewrite Hd). clearbody j.
  eapply staged_try; [done|unfold Sync; auto with wkeeps|]. intros _ n1. eapply staged_try; [done|unfold file_Stat; auto with wkeeps|]. intros before n2.
  eapply staged_try; [done|unfold Close; auto with wkeeps|]. intros _ n3. unfold moveFile, st_try, lift.
  destruct (UTF16PtrFromString (PName temp) (rt_path r)); [|by eapply staged_fail].
  destruct (UTF16PtrFromString (PName name) (rt_path r)); [|by eapply staged_fail].
  unfold MoveFileEx. match goal with |- context [sys E ?act (g2, n3)] => destruct (sys_cases E HE act g2 n3) as [[e ->]| ->] end; [by eapply staged_fail|].
  pose proof H2 as [Hn Hi Ht Hf]. rewrite (proj2 (String.eqb_neq temp name) Hne).
  replace (f_names g2 !! temp) with (Some id) by (by rewrite Hn, lookup_insert_eq).
  destruct (f_names g2 !! name) as [old|]; [|by eapply staged_ok].
  cbn [negb]. match goal with |- context [if ?b then (Fail ERROR_ACCESS_DENIED, _) else _] => destruct b end; [by eapply staged_fail|by eapply staged_ok].
Qed.

Lemma temp_name target token suffix : target <> "." +:+ target +:+ "." +:+ hex_encode token +:+ "." +:+ suffix.
Proof.
  intros Et. apply (f_equal len) in Et. rewrite !len_app in Et. pose proof (len_nonneg (hex_encode token)). pose proof (len_nonneg suffix).
  change (len ".") with 1 in Et. lia.
Qed.

(** What a replacement leaves behind. *)
Definition replaced (f : fs) (name payload : string) (x : result unit * (fs * nat)) : Prop :=
  let '(res, (f', _)) := x in
  fs_ok f' /\ others_kept f f' name /\ ((content f' name = content f name /\ is_ok res = false) \/ content f' name = Some payload).

Lemma replaced_try {A} f name payload (m : D A) k n : fs_ok f -> keeps m ->
  (forall a n', m (f, n) = (Ok a, (f, n')) -> replaced f name payload (k a (f, n'))) -> replaced f name payload (st_try m k (f, n)).
Proof.
  intros Hok Hm Hk. unfold st_try. specialize (Hm f n). destruct (m (f, n)) as [[a|e] [g n']]; cbn in Hm; subst g; [by apply Hk|].
  split; [done|]. split; [by intros ? _ _|by left].
Qed.

Lemma replaced_final f name payload (m : D unit) f4 n : keeps m ->
  fs_ok f4 -> others_kept f f4 name -> content f4 name = Some payload -> replaced f name payload (m (f4, n)).
Proof. intros Hm H1 H2 H3. specialize (Hm f4 n). destruct (m (f4, n)) as [res [g n']]. cbn in Hm. subst g. split_and!; auto. Qed.

Lemma windows_replaces r name payload f n : fs_ok f -> replaced f name payload (DurableWindows.WriteAtomic E r name payload (f, n)).
Proof.
  intros Hok. unfold DurableWindows.WriteAtomic.
  do 3 (apply replaced_try; [done|auto with wkeeps|]; intros _ ? _).
  apply replaced_try; [done|auto with wkeeps|]. intros temp n4 Ht.
  assert (temp <> name) as Hne.
  { apply try_ok in Ht as (token&s1&_&Ht). injection Ht as <- _. intros Et. by apply (temp_name name token "tmp"). }
  unfold st_try at 1. destruct (createAt_cases E HE temp f n4) as [[e ->]|(id&i&g&->&Hd&Hs)].
  { split; [done|]. split; [by intros ? _ _|by left]. }
  unfold st_try at 1. unfold outcome at 1.
  destruct (windows_stage_cases r temp id name payload f i g (S n4) Hok Hs Hd Hne) as [e j g' n5 Hj|info j g' n5 Hj Hdj].
  - pose proof (unlink_kept E HE f temp id j g' name n5 Hok Hj Hne) as (U1&U2&U3). unfold st_try, outcome.
    destruct (unlinkAt E temp (g', n5)) as [ru [fu nu]]. cbn in *. auto.
  - pose proof (renamed_kept f temp id j g' name Hok Hj Hne) as (R1&R2&R3). rewrite Hdj in R2.
    apply replaced_final; auto with wkeeps.
Qed.

(** ** Removal *)

(** A file that was moved out of the way is gone from its name and from the
    tombstone's when the removal succeeds; what was there had the digest. *)
Lemma windows_Remove_cases r name digest f n f' n' : fs_ok f ->
  DurableWindows.Remove E r name digest (f, n) = (Ok true, (f', n')) ->
  (exists payload, content f name = Some payload /\ Sum256 payload = digest /\ len payload <= 16777216) /\
  content f' name = None /\ others_kept f f' name.
Proof.
  intros Hok. unfold DurableWindows.Remove. intros Hr.
  do 2 (apply try_keeps in Hr as (?&?&_&Hr); [|auto with wkeeps]).
  apply try_keeps in Hr as (before&n3&Hb&Hr); [|auto with wkeeps]. destruct before as [before|e]; [|by destruct (errors_Is e _)].
  apply try_keeps in Hr as (file&n4&_&Hr); [|auto with wkeeps]. apply try_keeps in Hr as (opened&n5&Ho&Hr); [|auto with wkeeps].
  apply try_keeps in Hr as (p&n6&Hp&Hr); [|auto with wkeeps]. destruct p as [p|]; [|done].
  destruct (_ || _) eqn:Ed; [done|]. apply orb_false_iff in Ed as [Hl Hd]. apply Z.ltb_ge in Hl. apply negb_false_iff, String.eqb_eq in Hd.
  apply outcome_ok, safeLstat_ref in Hb. apply validateOpenedFile_ok in Ho as (_&v&Hv&<-); [|done].
  apply resolve_name in Hv as [Hn _]. apply outcome_ok, ReadAll_ok in Hp as (i&Hi&->).
  split.
  { exists (slice (in_data i) 0 (16777216 + 1)). split; [|done]. unfold content. rewrite Hn. cbn. rewrite Hi. cbn. f_equal. symmetry.
    apply slice_whole; [done|exact Hl]. }
  apply try_keeps in Hr as (tomb&n7&Ht&Hr); [|auto with wkeeps].
  assert (tomb <> name) as Hne.
  { apply try_ok in Ht as (token&s1&_&Ht). injection Ht as <- _. intros Et. by apply (temp_name name token "deleted"). }
  apply try_ok in Hr as (?&[g n8]&Hm&Hr).
  assert (g = mkFS (<[tomb := st_ident v]> (delete name (f_names f))) (f_inodes f) (f_held f) (f_named f) /\ f_names f !! tomb = None) as [-> Htomb].
  { unfold moveFile in Hm. do 2 (apply try_keeps in Hm as (?&?&_&Hm); [|auto with wkeeps]). unfold MoveFileEx in Hm.
    match type of Hm with sys E ?act (f, ?m) = _ => destruct (sys_cases E HE act f m) as [[e Hx]|Hx]; rewrite Hx in Hm; [done|] end.
    rewrite Hn, (proj2 (String.eqb_neq name tomb)) in Hm by done. unfold drop_link in Hm. destruct (f_names f !! tomb); [done|]. by injection Hm as _ <-. }
  set (g := mkFS _ _ _ _) in Hr.
  do 2 (apply try_keeps in Hr as (?&?&_&Hr); [|auto with wkeeps]).
  apply try_ok in Hr as (?&[h n9]&Hu&Hr). injection Hr as <- <-. unfold wrapping in Hu.
  destruct (unlinkAt E tomb _) as [[[]|] s9] eqn:Eu; [|done]. injection Hu as _ ->.
  unfold unlinkAt in Eu. match type of Eu with sys E ?act (g, ?m) = _ => destruct (sys_cases E HE act g m) as [[e Hx]|Hx]; rewrite Hx in Eu; [done|] end.
  assert (f_names g !! tomb = Some (st_ident v)) as Hg by apply lookup_insert_eq. rewrite Hg in Eu.
  assert (h = mkFS (delete tomb (f_names g)) (drop_link g tomb) (f_held g) (f_named g)) as -> by (by injection Eu as <- _).
  assert (forall other, other <> tomb -> content (mkFS (delete tomb (f_names g)) (drop_link g tomb) (f_held g) (f_named g)) other =
    if decide (other = name) then None else content f other) as Hc.
  { intros other Ho. rewrite drop_link_content. unfold content, g. cbn [f_names f_inodes]. rewrite lookup_delete_ne, lookup_insert_ne by done.
    destruct (decide (other = name)) as [->|]; [by rewrite lookup_delete_eq|by rewrite lookup_delete_ne]. }
  split; [by rewrite Hc, decide_True|]. intros other Ho Hs. rewrite Hc, decide_False; [done|done|].
  intros ->. unfold content in Hs. rewrite Htomb in Hs. by destruct Hs.
Qed.
End Quiet.

(** ** Properties *)

(** C19: On Windows too, with no other process at work, a replacement is atomic
    whatever calls fail: the name holds its old content or the new one, every other
    entry keeps its content, success means that the new content is in place, and a
    later read that succeeds returns it. *)
Theorem windows_write_atomic `{WinPath} E r name payload f n res f' n' :
  undisturbed E -> fs_ok f -> DurableWindows.WriteAtomic E r name payload (f, n) = (res, (f', n')) ->
  (content f' name = content f name \/ content f' name = Some payload) /\
  others_kept f f' name /\
  (res = Ok tt -> content f' name = Some payload /\
     forall E2 r2 maxBytes n2 data s2, undisturbed E2 -> maxBytes < max_int64 ->
       DurableWindows.Read E2 r2 name maxBytes (f', n2) = (Ok data, s2) -> data = payload).
Proof.
  intros HE Hok Hw. pose proof (windows_replaces E HE r name payload f n Hok) as Hr. rewrite Hw in Hr. destruct Hr as (_&Hk&Hc).
  split; [destruct Hc as [[? _]|?]; auto|]. split; [done|]. intros ->.
  destruct Hc as [[_ Hx]|Hc]; [done|]. split; [done|]. intros E2 r2 maxBytes n2 data s2 HE2 Hm Hr.
  apply (windows_Read_content E2 HE2) in Hr as [Hr _]; [congruence|done].
Qed.

(** A removal that answers [true] has taken away a content with the expected digest,
    from that name only. *)
Theorem windows_remove_verified `{WinPath} E r name digest f n f' n' : undisturbed E -> fs_ok f ->
  DurableWindows.Remove E r name digest (f, n) = (Ok true, (f', n')) ->
  (exists payload, content f name = Some payload /\ Sum256 payload = digest /\ len payload <= 16777216) /\
  content f' name = None /\ others_kept f f' name.
Proof. intros HE. by apply windows_Remove_cases. Qed.

(** A limit of [MaxInt64] makes [readLocked] return nothing: [maxBytes+1] wraps to a
    negative number. *)
Lemma windows_read_wraps `{WinPath} E r name f n payload s' : undisturbed E ->
  DurableWindows.Read E r name max_int64 (f, n) = (Ok payload, s') -> payload = "".
Proof.
  intros HE. unfold DurableWindows.Read. destruct (_ || _); [done|]. intros Hr.
  repeat (apply try_ok in Hr as (?&[? ?]&?&Hr)). destruct (_ <? _); [done|].
  do 2 (apply try_ok in Hr as (?&[? ?]&?&Hr)). injection Hr as <- _.
  match goal with HR : ReadAll E _ _ _ = _ |- _ => apply (ReadAll_ok E HE) in HR as (i&_&->) end.
  by destruct (in_data i).
Qed.

(** ** Witness *)

Module DurableWindowsSamples.
Import DurableSamples.

(** Paths of one drive. *)
#[local] Instance sample_paths : WinPath := {
  win_IsAbs path := HasPrefix path "C:";
  win_Clean path := path;
  win_Base path := path;
  win_follow _ _ := Fail os_ErrNotExist
}.

Definition after_windows : fs * nat := snd (DurableWindows.WriteAtomic quiet_os root "auth.json" "new" (files, 0%nat)).

Lemma windows_write_atomic_witness : content files "auth.json" = Some "old" /\ content (fst after_windows) "auth.json" = Some "new".
Proof.
  split; [vm_compute; reflexivity|].
  apply (windows_write_atomic quiet_os root "auth.json" "new" files 0 (Ok tt) (fst after_windows) (snd after_windows)).
  - intros n f. reflexivity.
  - apply files_ok.
  - vm_compute. reflexivity.
  - reflexivity.
Defined.

Example windows_remove : fst (DurableWindows.Remove quiet_os root "auth.json" (Sum256 "old") (files, 0%nat)) = Ok true /\
  fst (DurableWindows.Remove quiet_os root "auth.json" (Sum256 "new") (files, 0%nat)) = Fail ErrIdentityChanged.
Proof. split; vm_compute; reflexivity. Qed.

End DurableWindowsSamples.
