(* ===== verification/WatchRoot.v ===== *)
(** * Pinned roots on Unix

    [internal/history/watch/root_unix.go], [forward_identity_unix.go] and the
    private snapshots of [root.go]: a directory held by a descriptor, the descent
    from it to a source without following links, and the private copy of a source
    that the parsers read.

    The state is the watched tree (objects by device and inode, directories with
    entries), the temporary storage of the snapshots, and the table of open
    descriptors. Any call may fail and other processes may change the tree before
    any call; both are functions of the number of the call, and a failure also of
    its kind. The temporary directories have mode 0700 and are changed by the program only. *)
From Stdlib Require Import ZArith Lia Bool.
From Stdlib Require Import String Ascii.
From stdpp Require Import base tactics option list gmap infinite strings.
From S2P Require Import Prelude GoStrings GoPath Sha256 Watch Durable.
Open Scope Z_scope.

Module WatchRoot.

Definition ErrRootChanged : error := Sentinel "watch root identity changed".
Definition ErrUnsafeSource : error := Sentinel "unsafe watch source".
Definition ErrSnapshotLimit : error := Sentinel "watch snapshot exceeds limit".
Definition ErrSnapshotClosed : error := Sentinel "watch snapshot is closed".
Definition io_EOF : error := Sentinel "EOF".
Definition ENOENT : error := Durable.ENOENT.
Definition EBADF : error := Sentinel "EBADF".
Definition ENOTDIR : error := Sentinel "ENOTDIR".
Definition ENOTEMPTY : error := Sentinel "ENOTEMPTY".

(** ** The system *)

(** Device and inode number. *)
Definition ident : Type := (Z * Z)%type.

(** An object of the tree; [in_mtime] is an instant, [in_entries] is used by
    directories. *)
Record inode : Type := mkInode {
  in_mode : Z;
  in_nlink : Z;
  in_data : string;
  in_mtime : Z;
  in_entries : gmap string ident
}.

(** What absolute paths name (the last component is not followed), and the objects. *)
Record tree : Type := mkTree { t_paths : gmap string ident; t_inodes : gmap ident inode }.

(** A file of the temporary storage, and its directories with their modes. *)
Record tfile : Type := mkTFile { tf_mode : Z; tf_data : string; tf_mtime : Z }.
Record tdir : Type := mkTDir { td_mode : Z; td_names : gmap string nat }.

Inductive handle : Type := InTree (id : ident) | InTemp (file : nat).

Record world : Type := mkWorld {
  w_tree : tree;
  w_dirs : gmap string tdir;
  w_files : gmap nat tfile;
  w_fds : gmap nat handle;
  w_calls : nat
}.

Definition set_tree (w : world) (t : tree) : world := mkWorld t (w_dirs w) (w_files w) (w_fds w) (w_calls w).
Definition set_dirs (w : world) (d : gmap string tdir) : world := mkWorld (w_tree w) d (w_files w) (w_fds w) (w_calls w).
Definition set_files (w : world) (f : gmap nat tfile) : world := mkWorld (w_tree w) (w_dirs w) f (w_fds w) (w_calls w).
Definition set_fds (w : world) (f : gmap nat handle) : world := mkWorld (w_tree w) (w_dirs w) (w_files w) f (w_calls w).

(** The kinds of calls, by which an answer of the system may differ. *)
Inductive call : Type := CStat | COpen | CClose | CRead | CMake | CWrite | CRemove.

Record OS : Type := mkOS {
  os_change : nat -> tree -> tree;
  os_error : nat -> call -> option error;
  os_random : nat -> string;
  os_TempDir : string
}.

(** The fields of [unix.Stat_t] and of [os.FileInfo] that are read. *)
Record stat : Type := mkStat { st_ident : ident; st_mode : Z; st_nlink : Z }.
Record info : Type := mkInfo { fi_Size : Z; fi_ModTime : Z }.

Definition M (A : Type) : Type := st world (result A).
Definition ret {A} (a : A) : M A := fun w => (Ok a, w).
Definition fail {A} (e : error) : M A := fun w => (Fail e, w).
Definition wrapping {A} (format : string) (m : M A) : M A := fun w =>
  match m w with
  | (Ok a, w') => (Ok a, w')
  | (Fail e, w') => (Fail (Wrapf format [] e), w')
  end.

Section Calls.
Context (E : OS).

(** What others do before the call with the next number. *)
Definition tick (w : world) : world :=
  mkWorld (os_change E (w_calls w) (w_tree w)) (w_dirs w) (w_files w) (w_fds w) (S (w_calls w)).

Definition sys {A} (c : call) (act : world -> result A * world) : M A := fun w =>
  match os_error E (w_calls w) c with
  | Some e => (Fail e, tick w)
  | None => act (tick w)
  end.

Definition stat_of (t : tree) (id : ident) : result stat :=
  match t_inodes t !! id with
  | Some i => Ok (mkStat id (in_mode i) (in_nlink i))
  | None => Fail ENOENT
  end.

(** The object behind a descriptor of the tree. *)
Definition held_object (w : world) (d : nat) : option ident :=
  match w_fds w !! d with Some (InTree id) => Some id | _ => None end.

Definition entry (w : world) (parent : nat) (name : string) : option ident :=
  id ← held_object w parent; i ← t_inodes (w_tree w) !! id; in_entries i !! name.

Definition add_fd (w : world) (h : handle) : nat * world :=
  let d := fresh (dom (w_fds w)) in (d, set_fds w (<[d := h]> (w_fds w))).

Definition Fstat (d : nat) : M stat := sys CStat (fun w =>
  (match held_object w d with Some id => stat_of (w_tree w) id | None => Fail EBADF end, w)).
Definition Lstat (path : string) : M stat := sys CStat (fun w =>
  (match t_paths (w_tree w) !! path with Some id => stat_of (w_tree w) id | None => Fail ENOENT end, w)).
(** [source.Stat()]. *)
Definition Stat (d : nat) : M info := sys CStat (fun w =>
  (match held_object w d ≫= fun id => t_inodes (w_tree w) !! id with
   | Some i => Ok (mkInfo (len (in_data i)) (in_mtime i))
   | None => Fail EBADF
   end, w)).
Definition unixStatAt (parent : nat) (name : string) : M stat := sys CStat (fun w =>
  (match entry w parent name with Some id => stat_of (w_tree w) id | None => Fail ENOENT end, w)).

(** Opening an object without following a link; [directory] is [O_DIRECTORY]. *)
Definition open_object (directory : bool) (id : option ident) (w : world) : result nat * world :=
  match id ≫= fun id => i ← t_inodes (w_tree w) !! id; Some (id, i) with
  | None => (Fail ENOENT, w)
  | Some (id, i) =>
      if Z.land (in_mode i) Durable.S_IFMT =? Durable.S_IFLNK then (Fail Durable.ELOOP, w)
      else if directory && negb (Z.land (in_mode i) Durable.S_IFMT =? Durable.S_IFDIR) then (Fail ENOTDIR, w)
      else let '(d, w) := add_fd w (InTree id) in (Ok d, w)
  end.
Definition Open (path : string) : M nat := sys COpen (fun w => open_object true (t_paths (w_tree w) !! path) w).
Definition Openat (parent : nat) (name : string) (directory : bool) : M nat := sys COpen (fun w =>
  open_object directory (entry w parent name) w).

(** A descriptor is gone after [Close] whether or not it reports an error. *)
Definition CloseFd (d : nat) : M unit := fun w =>
  let w' := set_fds (tick w) (delete d (w_fds w)) in
  (match os_error E (w_calls w) CClose with Some e => Fail e | None => Ok tt end, w').

(** [source.Read] of at most [count] bytes at the offset [off]; nothing at the end. *)
Definition Read (d : nat) (off count : Z) : M string := sys CRead (fun w =>
  (match held_object w d ≫= fun id => t_inodes (w_tree w) !! id with
   | Some i => Ok (slice (in_data i) (Z.min off (len (in_data i))) (Z.min (off + count) (len (in_data i))))
   | None => Fail EBADF
   end, w)).
Definition Seek (d : nat) : M unit := sys CRead (fun w => (Ok tt, w)).

(** ** The temporary storage *)

(** [os.MkdirTemp]: a name that is taken is tried again. *)
Fixpoint mkdir_temp (attempts : nat) (pattern : string) : M string :=
  match attempts with
  | O => fail Durable.EEXIST
  | S attempts =>
      let* name := (fun w => (os_TempDir E +:+ "/" +:+ pattern +:+ os_random E (w_calls w), w)) in
      let* made := sys CMake (fun w =>
        match w_dirs w !! name with
        | Some _ => (Fail Durable.EEXIST, w)
        | None => (Ok tt, set_dirs w (<[name := mkTDir 448 ∅]> (w_dirs w)))
        end) in
      match made with
      | Ok _ => ret name
      | Fail e => if errors_Is e Durable.EEXIST then mkdir_temp attempts pattern else fail e
      end
  end.
Definition MkdirTemp (pattern : string) : M string := mkdir_temp (Z.to_nat 10000) pattern.

Definition ChmodDir (directory : string) (mode : Z) : M unit := sys CWrite (fun w =>
  match w_dirs w !! directory with
  | Some td => (Ok tt, set_dirs w (<[directory := mkTDir mode (td_names td)]> (w_dirs w)))
  | None => (Fail ENOENT, w)
  end).
(** [os.OpenFile(path, O_RDWR|O_CREATE|O_EXCL, 0600)] of the file [name] in a directory. *)
Definition CreateIn (directory name : string) : M nat := sys CMake (fun w =>
  match w_dirs w !! directory with
  | None => (Fail ENOENT, w)
  | Some td =>
      match td_names td !! name with
      | Some _ => (Fail Durable.EEXIST, w)
      | None =>
          let file := fresh (dom (w_files w)) in
          let '(d, w) := add_fd w (InTemp file) in
          (Ok d, set_files (set_dirs w (<[directory := mkTDir (td_mode td) (<[name := file]> (td_names td))]> (w_dirs w)))
                   (<[file := mkTFile 384 "" 0]> (w_files w)))
      end
  end).
Definition on_file (d : nat) (g : tfile -> tfile) : M unit := sys CWrite (fun w =>
  match w_fds w !! d with
  | Some (InTemp file) => (Ok tt, set_files w (alter g file (w_files w)))
  | _ => (Fail EBADF, w)
  end).
Definition Write (d : nat) (bytes : string) : M unit := on_file d (fun f => mkTFile (tf_mode f) (tf_data f +:+ bytes) (tf_mtime f)).
Definition Sync (d : nat) : M unit := on_file d (fun f => f).
Definition Chmod (d : nat) (mode : Z) : M unit := on_file d (fun f => mkTFile mode (tf_data f) (tf_mtime f)).
Definition Chtimes (directory name : string) (mtime : Z) : M unit := sys CWrite (fun w =>
  match (td ← w_dirs w !! directory; td_names td !! name) with
  | Some file => (Ok tt, set_files w (alter (fun f => mkTFile (tf_mode f) (tf_data f) mtime) file (w_files w)))
  | None => (Fail ENOENT, w)
  end).
(** [os.Remove] of the file [name] in a directory, and of an empty directory. *)
Definition RemoveIn (directory name : string) : M unit := sys CRemove (fun w =>
  match w_dirs w !! directory with
  | Some td =>
      match td_names td !! name with
      | Some _ => (Ok tt, set_dirs w (<[directory := mkTDir (td_mode td) (delete name (td_names td))]> (w_dirs w)))
      | None => (Fail ENOENT, w)
      end
  | None => (Fail ENOENT, w)
  end).
Definition RemoveDir (directory : string) : M unit := sys CRemove (fun w =>
  match w_dirs w !! directory with
  | Some td => if bool_decide (td_names td = ∅) then (Ok tt, set_dirs w (delete directory (w_dirs w))) else (Fail ENOTEMPTY, w)
  | None => (Fail ENOENT, w)
  end).

(** ** The held root *)

(** [platformRoot]: the descriptor and what [Fstat] gave when it was opened. *)
Record platformRoot : Type := mkPlatformRoot { pf_file : option nat; pf_stat : stat }.

Definition isBound (r : platformRoot) : bool := match pf_file r with Some _ => true | None => false end.
Definition identity_of (s : stat) : RootIdentity := mkIdentity (fst (st_ident s)) (snd (st_ident s)).
Definition identity (r : platformRoot) : RootIdentity := identity_of (pf_stat r).

Definition sameUnixIdentity (left right : stat) : bool := bool_decide (st_ident left = st_ident right).

Definition is_directory (s : stat) : bool := Z.land (st_mode s) Durable.S_IFMT =? Durable.S_IFDIR.

Definition validateUnixDirectory (value : stat) : result unit :=
  if negb (is_directory value) then Fail ErrUnsafeSource else Ok tt.

Definition validateUnixFile (value : stat) : result unit :=
  if negb (Z.land (st_mode value) Durable.S_IFMT =? Durable.S_IFREG) || negb (st_nlink value =? 1)
  then Fail ErrUnsafeSource else Ok tt.

Definition verify (r : platformRoot) (path : string) : M nat :=
  match pf_file r with
  | None => fail ErrRootUnbound
  | Some descriptor =>
      let* held := Fstat descriptor in
      match held with
      | Fail _ => fail ErrRootChanged
      | Ok held =>
          let* named := Lstat path in
          match named with
          | Fail _ => fail ErrRootChanged
          | Ok named =>
              if negb (sameUnixIdentity (pf_stat r) held) || negb (sameUnixIdentity held named) || negb (is_directory named)
              then fail ErrRootChanged else ret descriptor
          end
      end
  end.

(** [bind]: whether the root is bound now, and its new state. *)
Definition bind (r : platformRoot) (path : string) : st world (result bool * platformRoot) :=
  match pf_file r with
  | Some _ =>
      let* v := verify r path in
      st_ret (match v with Fail e => Fail e | Ok _ => Ok true end, r)
  | None =>
      let* before := Lstat path in
      match before with
      | Fail e => st_ret (if errors_Is e ENOENT then Ok false else Fail (Wrapf "inspect watch root: %w" [] e), r)
      | Ok before =>
          if negb (is_directory before) then st_ret (Fail ErrUnsafeRoot, r)
          else
            let* descriptor := Open path in
            match descriptor with
            | Fail e => st_ret (Fail (Wrapf "hold watch root: %w" [] e), r)
            | Ok descriptor =>
                let* opened := Fstat descriptor in
                match opened with
                | Fail e =>
                    let* _ := CloseFd descriptor in
                    st_ret (Fail (Wrapf "inspect held watch root: %w" [] e), r)
                | Ok opened =>
                    if negb (sameUnixIdentity before opened) || negb (is_directory opened) then
                      let* _ := CloseFd descriptor in
                      st_ret (Fail ErrRootChanged, r)
                    else st_ret (Ok true, mkPlatformRoot (Some descriptor) opened)
                end
            end
      end
  end.

Definition close (r : platformRoot) : st world (result unit * platformRoot) :=
  match pf_file r with
  | None => st_ret (Ok tt, r)
  | Some descriptor =>
      let* err := CloseFd descriptor in
      st_ret (err, mkPlatformRoot None (pf_stat r))
  end.

(** ** The descent *)

(** What the code checks around opening an entry: it is of the right kind before,
    and the descriptor and the entry name the same object after. *)
Definition open_checked (validate : stat -> result unit) (directory : bool) (parent : nat) (name : string) : M (nat * stat) :=
  let* before := unixStatAt parent name in
  match before with
  | Fail _ => fail ErrUnsafeSource
  | Ok before =>
      if negb (is_ok (validate before)) then fail ErrUnsafeSource
      else
        let* descriptor := Openat parent name directory in
        match descriptor with
        | Fail _ => fail ErrUnsafeSource
        | Ok descriptor =>
            let* current := unixStatAt parent name in
            let* held := Fstat descriptor in
            match held, current with
            | Ok held, Ok current =>
                if is_ok (validate held) && sameUnixIdentity before held && sameUnixIdentity held current
                then ret (descriptor, held)
                else let* _ := CloseFd descriptor in fail ErrUnsafeSource
            | _, _ => let* _ := CloseFd descriptor in fail ErrUnsafeSource
            end
        end
  end.

(** The loop over the directories: the last descriptor, and those it opened,
    newest first; [open] opens an entry of a directory with the checks of the
    platform. *)
Fixpoint walk (open : nat -> string -> M (nat * stat)) (parent : nat) (components : list string) (opened : list nat)
  : st world (result nat * list nat) :=
  match components with
  | [] => st_ret (Ok parent, opened)
  | component :: rest =>
      let* next := open parent component in
      match next with
      | Fail e => st_ret (Fail e, opened)
      | Ok (descriptor, _) => walk open descriptor rest (descriptor :: opened)
      end
  end.
Definition descend : nat -> list string -> list nat -> st world (result nat * list nat) := walk (open_checked validateUnixDirectory true).

Fixpoint close_all (opened : list nat) : st world unit :=
  match opened with
  | [] => st_ret tt
  | d :: rest => let* _ := CloseFd d in close_all rest
  end.

(** What [snapshot] and [forwardSourceIdentity] do around a source: the held root
    is verified, the source is opened below it, [body] runs, and the descriptors
    are closed in the reverse order. *)
Definition around_source {A} (verify : M nat) (open_directory open_file : nat -> string -> M (nat * stat)) (parts : list string)
  (body : nat -> string -> nat -> stat -> M A) : M A :=
  let? rootDescriptor := verify in
  let* walked := walk open_directory rootDescriptor (removelast parts) [] in
  let* result := (match fst walked with
                  | Fail e => fail e
                  | Ok parent =>
                      let name := List.last parts "" in
                      let? source := open_file parent name in
                      let* result := body parent name (fst source) (snd source) in
                      let* _ := CloseFd (fst source) in
                      st_ret result
                  end) in
  let* _ := close_all (snd walked) in
  st_ret result.
Definition with_source {A} (r : platformRoot) (rootPath : string) (parts : list string)
  (body : nat -> string -> nat -> stat -> M A) : M A :=
  around_source (verify r rootPath) (open_checked validateUnixDirectory true) (open_checked validateUnixFile false) parts body.

(** ** Private snapshots *)

Record Snapshot : Type := mkSnapshot {
  ss_file : option nat;
  ss_path : string;
  ss_directory : string;
  ss_sourcePath : string;
  ss_identity : RootIdentity;
  ss_size : Z;
  ss_modTime : Z;
  ss_digest : string;
  ss_closed : bool;
  ss_closeErr : list error
}.

(** The errors of the removals that count, as [errors.Join] joins them. *)
Definition removal_failure (format : string) (r : result unit) : list error :=
  match r with
  | Fail e => if errors_Is e ENOENT then [] else [Wrapf format [] e]
  | Ok _ => []
  end.

Definition CloseSnapshot (s : Snapshot) : st world (list error * Snapshot) :=
  if ss_closed s then st_ret (ss_closeErr s, s)
  else
    let* closed := (match ss_file s with None => st_ret (Ok tt) | Some d => CloseFd d end) in
    let* removed := RemoveIn (ss_directory s) "source" in
    let* cleared := RemoveDir (ss_directory s) in
    let failures := (match closed with Fail e => [e] | Ok _ => [] end)
                    ++ removal_failure "remove private snapshot: %w" removed
                    ++ removal_failure "remove private snapshot directory: %w" cleared in
    st_ret (failures, mkSnapshot None (ss_path s) (ss_directory s) (ss_sourcePath s) (ss_identity s) (ss_size s) (ss_modTime s)
                        (ss_digest s) true failures).

(** What reading [Reader()] to the end gives. *)
Definition Reader (s : Snapshot) (w : world) : result string :=
  match ss_file s with
  | Some d =>
      if ss_closed s then Fail ErrSnapshotClosed
      else match w_fds w !! d with
           | Some (InTemp file) =>
               match w_files w !! file with
               | Some f => Ok (slice (tf_data f) 0 (Z.min (ss_size s) (len (tf_data f))))
               | None => Fail EBADF
               end
           | _ => Fail EBADF
           end
  | None => Fail ErrSnapshotClosed
  end.

(** [io.CopyN] into the private file and the hash: the bytes written when all
    [left] were; [None] when the fuel is used up. *)
Fixpoint copy (fuel : nat) (source destination : nat) (off left : Z) (written : string) : st world (option (result string)) :=
  match fuel with
  | O => st_ret None
  | S fuel =>
      if left <=? 0 then st_ret (Some (Ok written))
      else
        let* chunk := Read source off (Z.min 32768 left) in
        match chunk with
        | Fail e => st_ret (Some (Fail e))
        | Ok chunk =>
            if chunk ==s "" then st_ret (Some (Fail io_EOF))
            else
              let* put := Write destination chunk in
              match put with
              | Fail e => st_ret (Some (Fail e))
              | Ok _ => copy fuel source destination (off + len chunk) (left - len chunk) (written +:+ chunk)
              end
        end
  end.

(** Every round copies a byte at least. *)
Definition CopyN (source destination : nat) (size : Z) : M string :=
  let* r := copy (S (Z.to_nat size)) source destination 0 size "" in
  st_ret (default (Fail io_EOF) r).

(** From the open private file to its digest. *)
Definition fill (source destination : nat) (directory : string) (sourceSize modTime : Z) : M string :=
  let? _ := wrapping "seek watch source: %w" (Seek source) in
  let* copied := CopyN source destination sourceSize in
  match copied with
  | Fail _ => fail ErrSourceChanged
  | Ok content =>
      let* extra := Read source sourceSize 1 in
      if (match extra with Ok extra => extra !=s "" | Fail e => negb (errors_Is e io_EOF) end) then fail ErrSourceChanged
      else
        let? _ := wrapping "sync private snapshot: %w" (Sync destination) in
        let? _ := wrapping "preserve watch source modification time: %w" (Chtimes directory "source" modTime) in
        let? _ := wrapping "seal private snapshot: %w" (Chmod destination 256) in
        let? _ := wrapping "rewind private snapshot: %w" (Seek destination) in
        ret (Sum256 content)
  end.

(** From the fresh directory to the descriptor and the digest. *)
Definition populate (source : nat) (directory : string) (sourceSize modTime : Z) : M (nat * string) :=
  let? _ := wrapping "secure private snapshot directory: %w" (ChmodDir directory 448) in
  let? destination := wrapping "create private snapshot: %w" (CreateIn directory "source") in
  let* filled := fill source destination directory sourceSize modTime in
  match filled with
  | Fail e => let* _ := CloseFd destination in fail e
  | Ok digest => ret (destination, digest)
  end.

Definition newPrivateSnapshotWithIdentity (sourcePath : string) (source : nat) (sourceSize modTime maxBytes : Z)
  (identity : RootIdentity) : M Snapshot :=
  if (sourceSize <? 0) || (maxBytes <? sourceSize) then fail ErrSnapshotLimit
  else
    let? directory := wrapping "create private snapshot directory: %w" (MkdirTemp "history-rag-snapshot-") in
    let* populated := populate source directory sourceSize modTime in
    match populated with
    | Fail e =>
        let* _ := RemoveIn directory "source" in
        let* _ := RemoveDir directory in
        fail e
    | Ok (destination, digest) =>
        ret (mkSnapshot (Some destination) (Join2 directory "source") directory sourcePath identity sourceSize modTime digest false [])
    end.

Definition newPrivateSnapshot (sourcePath : string) (source : nat) (sourceSize modTime maxBytes : Z) : M Snapshot :=
  newPrivateSnapshotWithIdentity sourcePath source sourceSize modTime maxBytes zero_identity.

(** ** Snapshots and identities of sources *)

Definition refuse {A} (s : Snapshot) (failure : error) : M A :=
  let* _ := CloseSnapshot s in fail failure.

(** The copy of an open source, and the checks that it did not change meanwhile. *)
Definition copy_source (r : platformRoot) (rootPath sourcePath : string) (maxBytes : Z)
  (parent : nat) (name : string) (source : nat) (held : stat) : M Snapshot :=
  let* beforeInfo := Stat source in
  match beforeInfo with
  | Fail _ => fail ErrUnsafeSource
  | Ok beforeInfo =>
      let? snapshot := newPrivateSnapshotWithIdentity sourcePath source (fi_Size beforeInfo) (fi_ModTime beforeInfo) maxBytes
                         (identity_of held) in
      let* afterInfo := Stat source in
      let* final := unixStatAt parent name in
      match afterInfo, final with
      | Ok afterInfo, Ok final =>
          if negb (is_ok (validateUnixFile final)) || negb (sameUnixIdentity held final)
             || negb (fi_Size beforeInfo =? fi_Size afterInfo) || negb (fi_ModTime beforeInfo =? fi_ModTime afterInfo)
          then refuse snapshot ErrSourceChanged
          else
            let* v := verify r rootPath in
            match v with
            | Fail e => refuse snapshot e
            | Ok _ => ret snapshot
            end
      | _, _ => refuse snapshot ErrSourceChanged
      end
  end.

Definition snapshot (r : platformRoot) (rootPath sourcePath : string) (parts : list string) (maxBytes : Z) : M Snapshot :=
  with_source r rootPath parts (copy_source r rootPath sourcePath maxBytes).

(** [forwardSourceIdentity] after its checks on the path and the root. *)
Definition sourceIdentity (r : platformRoot) (rootPath : string) (parts : list string) : M RootIdentity :=
  with_source r rootPath parts (fun _ _ _ held =>
    let* v := verify r rootPath in
    match v with
    | Fail e => fail e
    | Ok _ => ret (identity_of held)
    end).

End Calls.
End WatchRoot.
