(* ===== verification/WatchRootSpec.v ===== *)
(** * What a pinned root promises

    Properties of [WatchRoot] under failing calls and interference: what a
    snapshot holds, how its source was reached, what is left open or on disk
    afterwards, and when a snapshot is taken. *)
From Stdlib Require Import ZArith Lia Bool.
From Stdlib Require Import String Ascii.
From stdpp Require Import base tactics option list gmap infinite strings relations.
From S2P Require Import Prelude GoStrings GoPath Sha256 Watch ForwardSpec Durable WatchRoot.
Open Scope Z_scope.
Import WatchRoot.

(** ** Descriptor tables *)

(** The descriptors [l] are new in [m'], the others are as in [m]. *)
Definition adds (l : list nat) (m m' : gmap nat handle) : Prop :=
  (forall d, d ∈ l -> m !! d = None /\ is_Some (m' !! d)) /\ (forall d, d ∉ l -> m' !! d = m !! d).

Definition closes (l : list nat) (m : gmap nat handle) : gmap nat handle := fold_left (fun m d => delete d m) l m.

Lemma adds_nil m m' : adds [] m m' <-> m' = m.
Proof. split; [intros [_ H]; apply map_eq; intros d; apply H; set_solver|intros ->; split; set_solver]. Qed.

Lemma adds_insert m d h : m !! d = None -> adds [d] m (<[d := h]> m).
Proof.
  intros Hd. split; intros d' Hd'.
  - apply list_elem_of_singleton in Hd' as ->. rewrite lookup_insert_eq. by split; [|eexists].
  - rewrite lookup_insert_ne; [done|]. intros ->. apply Hd'. by left.
Qed.

Lemma adds_trans l1 l2 m m1 m2 : adds l1 m m1 -> adds l2 m1 m2 -> adds (l2 ++ l1) m m2.
Proof.
  intros [A1 B1] [A2 B2]. split; intros d.
  - rewrite elem_of_app. intros Hd. destruct (decide (d ∈ l2)) as [H2|H2].
    + destruct (A2 d H2) as [N2 S2]. split; [|done]. destruct (decide (d ∈ l1)) as [H1|H1]; [apply A1, H1|by rewrite <- (B1 d H1)].
    + destruct Hd as [?|H1]; [done|]. rewrite (B2 d H2). by apply A1.
  - rewrite not_elem_of_app. intros [H2 H1]. by rewrite (B2 d H2), (B1 d H1).
Qed.

Lemma lookup_closes l m d : closes l m !! d = if decide (d ∈ l) then None else m !! d.
Proof.
  revert m. induction l as [|x l IH]; intros m; [by destruct (decide (d ∈ [])); [set_solver|]|]. unfold closes in *. cbn [fold_left].
  rewrite IH. destruct (decide (d ∈ l)), (decide (d ∈ x :: l)); try done; [set_solver|..].
  - assert (d = x) as -> by set_solver. apply lookup_delete_eq.
  - apply lookup_delete_ne. set_solver.
Qed.

(** Closing what was opened first leaves what was opened since. *)
Lemma adds_closes l x m m' m'' : adds l m m' -> adds x m' m'' -> adds x m (closes l m'').
Proof.
  intros [A1 B1] [A2 B2]. split; intros d Hd; rewrite lookup_closes.
  - destruct (A2 d Hd) as [N S]. destruct (decide (d ∈ l)) as [Hl|Hl].
    + destruct (A1 d Hl) as [_ [h Hh]]. congruence.
    + split; [by rewrite <- (B1 d Hl)|done].
  - destruct (decide (d ∈ l)) as [Hl|Hl]; [symmetry; apply A1, Hl|by rewrite (B2 d Hd), (B1 d Hl)].
Qed.

(** ** Interference *)

Section Spec.
Context (E : OS).

Definition step (t t' : tree) : Prop := exists n, t' = os_change E n t.
(** A later state of the tree. *)
Definition reach : tree -> tree -> Prop := rtc step.
Definition between (t0 t t1 : tree) : Prop := reach t0 t /\ reach t t1.

(** The storage is left alone while others may change the tree. *)
Record still (w w' : world) : Prop := mk_still {
  sl_dirs : w_dirs w' = w_dirs w;
  sl_files : w_files w' = w_files w;
  sl_fds : w_fds w' = w_fds w;
  sl_reach : reach (w_tree w) (w_tree w')
}.

#[local] Instance still_preorder : PreOrder still.
Proof.
  split; [intros w; split; try done; apply rtc_refl|].
  intros w1 w2 w3 [] []. split; try congruence. by eapply rtc_trans.
Qed.

Lemma tick_reach w : reach (w_tree w) (w_tree (tick E w)).
Proof. apply rtc_once. by exists (w_calls w). Qed.

Lemma tick_still w : still w (tick E w).
Proof. split; try done. apply tick_reach. Qed.

Lemma sys_inv {A} c (act : world -> result A * world) w r w' : sys E c act w = (r, w') ->
  (exists e, os_error E (w_calls w) c = Some e /\ r = Fail e /\ w' = tick E w) \/
  (os_error E (w_calls w) c = None /\ act (tick E w) = (r, w')).
Proof. unfold sys. destruct (os_error _ _ _) as [e|]; [intros [= <- <-]; left; by exists e|by right]. Qed.

Lemma sys_look {A} c (f : world -> result A) w r w' : sys E c (fun w => (f w, w)) w = (r, w') ->
  still w w' /\ forall a, r = Ok a -> f w' = Ok a.
Proof.
  intros [(e&_&->&->)|[_ [= <- <-]]]%sys_inv; (split; [apply tick_still|done]).
Qed.

(** A directory of the tree has an entry for the object of a stat. *)
Definition names (t : tree) (parent : ident) (name : string) (s : stat) : Prop :=
  exists i, t_inodes t !! parent = Some i /\ in_entries i !! name = Some (st_ident s) /\ stat_of t (st_ident s) = Ok s.

Lemma stat_of_ident t id s : stat_of t id = Ok s -> id = st_ident s.
Proof. unfold stat_of. destruct (_ !! id); [by intros [= <-]|done]. Qed.

Lemma held_still w w' d : still w w' -> held_object w' d = held_object w d.
Proof. intros [_ _ Hf _]. unfold held_object. by rewrite Hf. Qed.

Lemma Fstat_ok d w s w' : Fstat E d w = (Ok s, w') ->
  still w w' /\ held_object w d = Some (st_ident s) /\ stat_of (w_tree w') (st_ident s) = Ok s.
Proof.
  intros [Hs H]%sys_look. specialize (H s eq_refl). split; [done|]. rewrite <- (held_still _ _ d Hs).
  destruct (held_object w' d) as [id|]; [|done]. pose proof (stat_of_ident _ _ _ H) as ->. done.
Qed.

Lemma Lstat_ok path w s w' : Lstat E path w = (Ok s, w') ->
  still w w' /\ t_paths (w_tree w') !! path = Some (st_ident s) /\ stat_of (w_tree w') (st_ident s) = Ok s.
Proof.
  intros [Hs H]%sys_look. specialize (H s eq_refl). split; [done|].
  destruct (_ !! path) as [id|]; [|done]. pose proof (stat_of_ident _ _ _ H) as ->. done.
Qed.

Lemma unixStatAt_ok parent name w s w' : unixStatAt E parent name w = (Ok s, w') ->
  still w w' /\ exists pid, held_object w parent = Some pid /\ names (w_tree w') pid name s.
Proof.
  intros [Hs H]%sys_look. specialize (H s eq_refl). split; [done|]. rewrite <- (held_still _ _ parent Hs).
  unfold entry in H. destruct (held_object w' parent) as [pid|]; [|done]. exists pid. split; [done|]. unfold names.
  cbn in H. destruct (t_inodes _ !! pid) as [i|]; [|done]. exists i. split; [done|]. cbn in H.
  destruct (in_entries i !! name) as [id|]; [|done]. pose proof (stat_of_ident _ _ _ H) as ->. done.
Qed.

(** ** The held root *)

(** The path names the object the root was bound to, a directory. *)
Definition pinned (r : platformRoot) (path : string) (t : tree) : Prop :=
  exists s, t_paths t !! path = Some (st_ident s) /\ stat_of t (st_ident s) = Ok s /\
    st_ident s = st_ident (pf_stat r) /\ is_directory s = true.

Lemma verify_inv r path w res w' : verify E r path w = (res, w') ->
  still w w' /\ forall d, res = Ok d ->
    pf_file r = Some d /\ held_object w d = Some (st_ident (pf_stat r)) /\ pinned r path (w_tree w').
Proof.
  unfold verify. destruct (pf_file r) as [d|]; [|by intros [= <- <-]].
  unfold st_bind at 1. destruct (Fstat E d w) as [held w1] eqn:E1. destruct held as [held|e].
  2:{ intros [= <- <-]. by apply sys_look in E1 as [? _]. }
  apply Fstat_ok in E1 as (S1&Hd&_). unfold st_bind. destruct (Lstat E path w1) as [named w2] eqn:E2. destruct named as [named|e].
  2:{ intros [= <- <-]. apply sys_look in E2 as [? _]. split; [by transitivity w1|done]. }
  apply Lstat_ok in E2 as (S2&Hp&Hs). destruct (_ || _) eqn:Ec; intros [= <- <-]; (split; [by transitivity w1|]); [done|].
  intros d' [= <-]. apply orb_false_iff in Ec as [[H1%negb_false_iff H2%negb_false_iff]%orb_false_iff H3%negb_false_iff].
  unfold sameUnixIdentity in *. apply bool_decide_eq_true in H1, H2. split; [done|]. split; [by rewrite H1|].
  exists named. split_and!; [done..|congruence|done].
Qed.

(** ** Opening entries *)

Record grown (d : nat) (h : handle) (w w' : world) : Prop := mk_grown {
  gr_dirs : w_dirs w' = w_dirs w;
  gr_files : w_files w' = w_files w;
  gr_new : w_fds w !! d = None;
  gr_fds : w_fds w' = <[d := h]> (w_fds w);
  gr_reach : reach (w_tree w) (w_tree w')
}.

Lemma still_grown d h w w1 w2 : still w w1 -> grown d h w1 w2 -> grown d h w w2.
Proof. intros [] []. split; try congruence. by eapply rtc_trans. Qed.
Lemma grown_still d h w w1 w2 : grown d h w w1 -> still w1 w2 -> grown d h w w2.
Proof. intros [] []. split; try congruence. by eapply rtc_trans. Qed.

Lemma fresh_fd (m : gmap nat handle) : m !! fresh (dom m) = None.
Proof. apply not_elem_of_dom, is_fresh. Qed.

Lemma open_object_inv directory id w r w' : open_object directory id w = (r, w') ->
  match r with
  | Fail _ => w' = w
  | Ok d => exists o, id = Some o /\ grown d (InTree o) w w'
  end.
Proof.
  unfold open_object. destruct id as [o|]; cbn; [|by intros [= <- <-]].
  destruct (t_inodes (w_tree w) !! o) as [i|]; cbn; [|by intros [= <- <-]].
  destruct (_ =? _); [by intros [= <- <-]|]. destruct (_ && _); [by intros [= <- <-]|].
  intros [= <- <-]. exists o. split; [done|]. split; try done. apply fresh_fd.
Qed.

Lemma sys_open_inv directory id w r w' : sys E COpen (fun w => open_object directory (id w) w) w = (r, w') ->
  match r with Fail _ => still w w' | Ok d => exists o, id (tick E w) = Some o /\ grown d (InTree o) w w' end.
Proof.
  intros [(e&_&->&->)|[_ H%open_object_inv]]%sys_inv; [apply tick_still|].
  destruct r as [d|e]; [destruct H as (o&Ho&H); exists o; split; [done|by eapply still_grown; [apply tick_still|]]|]. subst. apply tick_still.
Qed.

Lemma CloseFd_inv d w r w' : CloseFd E d w = (r, w') ->
  w_dirs w' = w_dirs w /\ w_files w' = w_files w /\ w_fds w' = delete d (w_fds w) /\ reach (w_tree w) (w_tree w').
Proof. unfold CloseFd. intros [= _ <-]. split_and!; try done. apply tick_reach. Qed.

(** Closing a descriptor that was opened meanwhile. *)
Lemma grown_closed d h w w1 r w2 : grown d h w w1 -> CloseFd E d w1 = (r, w2) -> still w w2.
Proof.
  intros [] (Hd&Hf&Hm&Hr)%CloseFd_inv. split; [congruence|congruence| |by eapply rtc_trans].
  rewrite Hm, gr_fds0. by apply delete_insert_id.
Qed.

(** The entry named an object of the right kind when it was opened. *)
Definition seen (validate : stat -> result unit) (w w' : world) (pid : ident) (name : string) (id : ident) : Prop :=
  exists t s, between (w_tree w) t (w_tree w') /\ names t pid name s /\ st_ident s = id /\ is_ok (validate s) = true.

(** The object was of the right kind when its descriptor was inspected. *)
Definition held_as (check : stat -> result unit) (w w' : world) (held : stat) : Prop :=
  is_ok (check held) = true /\ exists t, between (w_tree w) t (w_tree w') /\ stat_of t (st_ident held) = Ok held.

Lemma open_checked_inv validate directory parent name w r w' :
  open_checked E validate directory parent name w = (r, w') ->
  match r with
  | Fail e => still w w' /\ e = ErrUnsafeSource
  | Ok (d, held) =>
      grown d (InTree (st_ident held)) w w' /\ held_as validate w w' held /\
      exists pid, held_object w parent = Some pid /\ seen validate w w' pid name (st_ident held)
  end.
Proof.
  unfold open_checked. unfold st_bind at 1. destruct (unixStatAt E parent name w) as [before w1] eqn:E1.
  destruct before as [before|e]; [|intros [= <- <-]; by apply sys_look in E1 as [? _]].
  apply unixStatAt_ok in E1 as (S1&pid&Hp&Hn). destruct (is_ok (validate before)) eqn:Ev; [|by intros [= <- <-]].
  cbn [negb]. unfold st_bind at 1. destruct (Openat E parent name directory w1) as [d w2] eqn:E2. apply sys_open_inv in E2.
  destruct d as [d|e]; [|intros [= <- <-]; split; [by transitivity w1|done]]. destruct E2 as (o&_&G2).
  unfold st_bind at 1. destruct (unixStatAt E parent name w2) as [current w3] eqn:E3.
  unfold st_bind at 1. destruct (Fstat E d w3) as [held w4] eqn:E4.
  assert (grown d (InTree o) w w3) as G3 by (eapply grown_still; [by eapply still_grown|]; by apply sys_look in E3 as [? _]).
  assert (grown d (InTree o) w w4) as G4 by (eapply grown_still; [done|]; by apply sys_look in E4 as [? _]).
  assert (forall w5 u, CloseFd E d w4 = (u, w5) -> still w w5) as Hclose by (intros w5 u; by apply grown_closed with (h := InTree o)).
  destruct held as [held|e], current as [current|e'];
    try (unfold st_bind; destruct (CloseFd E d w4) as [u w5] eqn:E5; intros [= <- <-]; by split; [eapply Hclose|]).
  destruct (_ && _ && _) eqn:Ec.
  2:{ unfold st_bind; destruct (CloseFd E d w4) as [u w5] eqn:E5; intros [= <- <-]; by split; [eapply Hclose|]. }
  intros [= <- <-]. apply andb_true_iff in Ec as [[Hv Hb]%andb_true_iff _].
  apply Fstat_ok in E4 as (S4&Hh&Hst). unfold held_object in Hh. rewrite (gr_fds _ _ _ _ G3), lookup_insert_eq in Hh. injection Hh as ->.
  split; [done|]. split; [split; [done|]; exists (w_tree w4); split; [split; [apply G4|apply rtc_refl]|done]|]. exists pid. split; [done|]. unfold sameUnixIdentity in Hb. apply bool_decide_eq_true in Hb.
  exists (w_tree w1), before. split; [split; [apply S1|]|done].
  eapply rtc_trans; [exact (gr_reach _ _ _ _ G2)|]. eapply rtc_trans; [|exact (sl_reach _ _ S4)]. by apply sys_look in E3 as [[_ _ _ ?] _].
Qed.

(** ** The descent *)

(** From the directory [pid] the components lead to the object [id]: at some time
    each directory had an entry for the next object, which was a directory, and
    the last a regular file with one link. No link was followed. *)
Inductive reached (t0 t1 : tree) : ident -> list string -> ident -> Prop :=
| reached_here id : reached t0 t1 id [] id
| reached_through pid name id rest last t s :
    between t0 t t1 -> names t pid name s -> st_ident s = id -> is_directory s = true ->
    reached t0 t1 id rest last -> reached t0 t1 pid (name :: rest) last.

Lemma between_mono t0 t0' t t1' t1 : reach t0 t0' -> reach t1' t1 -> between t0' t t1' -> between t0 t t1.
Proof. intros H0 H1 [? ?]. split; by eapply rtc_trans. Qed.

Lemma reached_mono t0 t0' t1' t1 pid parts id : reach t0 t0' -> reach t1' t1 ->
  reached t0' t1' pid parts id -> reached t0 t1 pid parts id.
Proof.
  intros H0 H1. induction 1 as [|pid name id rest last t s Hb Hn Hs Hd _ IH]; [constructor|].
  eapply reached_through; [by eapply between_mono|done..].
Qed.

Lemma held_grown d h w w' : grown d h w w' -> held_object w' d = match h with InTree id => Some id | _ => None end.
Proof. intros G. unfold held_object. by rewrite (gr_fds _ _ _ _ G), lookup_insert_eq. Qed.

Lemma grown_adds d h w w' : grown d h w w' -> adds [d] (w_fds w) (w_fds w').
Proof. intros G. rewrite (gr_fds _ _ _ _ G). apply adds_insert, G. Qed.

Lemma directory_valid s : is_ok (validateUnixDirectory s) = true -> is_directory s = true.
Proof. unfold validateUnixDirectory. by destruct (is_directory s). Qed.

(** What a platform promises of opening an entry: nothing is left open when it
    fails; otherwise the entry, under the name [key] gives it, was of the right kind
    at some time, and the new descriptor is on the same object. *)
Definition opens (validate check : stat -> result unit) (key : string -> string) (open : nat -> string -> M (nat * stat)) : Prop :=
  forall parent name w r w', open parent name w = (r, w') ->
  match r with
  | Fail e => still w w' /\ e = ErrUnsafeSource
  | Ok (d, held) =>
      grown d (InTree (st_ident held)) w w' /\ held_as check w w' held /\
      exists pid, held_object w parent = Some pid /\ seen validate w w' pid (key name) (st_ident held)
  end.

Lemma open_checked_opens validate directory : opens validate validate id (open_checked E validate directory).
Proof. intros parent name w r w'. apply open_checked_inv. Qed.

Lemma walk_inv validate check key open parent components opened w r opened' w' pid : opens validate check key open ->
  (forall s, is_ok (validate s) = true -> is_directory s = true) ->
  held_object w parent = Some pid ->
  walk open parent components opened w = ((r, opened'), w') ->
  w_dirs w' = w_dirs w /\ w_files w' = w_files w /\ reach (w_tree w) (w_tree w') /\
  exists l, opened' = l ++ opened /\ adds l (w_fds w) (w_fds w') /\
    forall last, r = Ok last -> exists id, held_object w' last = Some id /\ reached (w_tree w) (w_tree w') pid (map key components) id.
Proof.
  intros Hopen Hdir. revert parent opened w pid. induction components as [|name rest IH]; intros parent opened w pid Hp; cbn [walk map].
  - intros [= <- <- <-]. split_and!; [done|done|apply rtc_refl|]. exists []. split; [done|]. split; [by apply adds_nil|].
    intros last [= <-]. exists pid. split; [done|constructor].
  - unfold st_bind. destruct (open parent name w) as [next w1] eqn:E1. apply Hopen in E1.
    destruct next as [[d held]|e].
    + destruct E1 as (G&_&pid'&Hp'&t&s&Hb&Hn&Hs&Hv). rewrite Hp in Hp'. injection Hp' as <-.
      intros H. apply (IH _ _ _ (st_ident held)) in H as (Hd&Hf&Hr&l&->&Hl&Hlast); [|exact (held_grown _ _ _ _ G)].
      split_and!; [rewrite Hd; apply G|rewrite Hf; apply G|eapply rtc_trans; [apply G|done]|].
      exists (l ++ [d]). split; [by rewrite <- app_assoc|]. split; [eapply adds_trans; [by eapply grown_adds|done]|].
      intros last Hok. destruct (Hlast last Hok) as (id&Hid&Hrest). exists id. split; [done|].
      eapply reached_through; [eapply between_mono; [apply rtc_refl|exact Hr|exact Hb]|done|done|by apply Hdir|].
      eapply reached_mono; [apply G|apply rtc_refl|done].
    + intros [= <- <- <-]. destruct E1 as [[Hd Hf Hm Hr] _]. split_and!; try done. exists []. split; [done|]. split; [by apply adds_nil|done].
Qed.

Lemma descend_inv parent components opened w r opened' w' pid : held_object w parent = Some pid ->
  descend E parent components opened w = ((r, opened'), w') ->
  w_dirs w' = w_dirs w /\ w_files w' = w_files w /\ reach (w_tree w) (w_tree w') /\
  exists l, opened' = l ++ opened /\ adds l (w_fds w) (w_fds w') /\
    forall last, r = Ok last -> exists id, held_object w' last = Some id /\ reached (w_tree w) (w_tree w') pid components id.
Proof.
  intros Hp Hd. pose proof (walk_inv _ _ _ _ _ _ _ _ _ _ _ _ (open_checked_opens validateUnixDirectory true) directory_valid Hp Hd) as Hw.
  by rewrite List.map_id in Hw.
Qed.

Lemma close_all_inv l w u w' : close_all E l w = (u, w') ->
  w_dirs w' = w_dirs w /\ w_files w' = w_files w /\ w_fds w' = closes l (w_fds w) /\ reach (w_tree w) (w_tree w').
Proof.
  revert w. induction l as [|d l IH]; intros w; cbn [close_all].
  - intros [= _ <-]. split_and!; try done.
  - unfold st_bind. destruct (CloseFd E d w) as [r w1] eqn:E1. apply CloseFd_inv in E1 as (Hd&Hf&Hm&Hr).
    intros (Hd'&Hf'&Hm'&Hr')%IH. split_and!; [congruence..| |by eapply rtc_trans]. rewrite Hm', Hm. done.
Qed.

(** What the body of [around_source] may rely on: the source was reached from the
    pinned root, and its descriptor and that of its directory are open. *)
Record around (pin : tree -> Prop) (root : ident) (validate check : stat -> result unit) (key : string -> string) (parts : list string)
  (w w1 : world) (parent : nat) (name : string) (source : nat) (held : stat) : Prop := mk_around {
  as_root : exists t, between (w_tree w) t (w_tree w1) /\ pin t;
  as_parent : exists pid, held_object w1 parent = Some pid /\
    reached (w_tree w) (w_tree w1) root (map key (removelast parts)) pid /\
    seen validate w w1 pid (key name) (st_ident held);
  as_checked : held_as check w w1 held;
  as_name : name = List.last parts "";
  as_held : held_object w1 source = Some (st_ident held);
  as_dirs : w_dirs w1 = w_dirs w;
  as_files : w_files w1 = w_files w;
  as_reach : reach (w_tree w) (w_tree w1)
}.
Definition at_source (r : platformRoot) (rootPath : string) : list string -> world -> world -> nat -> string -> nat -> stat -> Prop :=
  around (pinned r rootPath) (st_ident (pf_stat r)) validateUnixFile validateUnixFile id.

(** What a platform promises of verifying the held root. *)
Definition verifies (pin : tree -> Prop) (root : ident) (verify : M nat) : Prop :=
  forall w res w', verify w = (res, w') ->
  still w w' /\ forall d, res = Ok d -> held_object w d = Some root /\ pin (w_tree w').

Lemma verify_verifies r rootPath : verifies (pinned r rootPath) (st_ident (pf_stat r)) (verify E r rootPath).
Proof. intros w res w' [Sv Hv]%verify_inv. split; [done|]. intros d Hd. by destruct (Hv d Hd) as (_&?&?). Qed.

Lemma seen_mono validate w0 w w' pid name id : reach (w_tree w0) (w_tree w) -> seen validate w w' pid name id -> seen validate w0 w' pid name id.
Proof. intros H (t&s&Hb&Hs). exists t, s. split; [eapply between_mono; [done|apply rtc_refl|done]|done]. Qed.

Lemma around_source_inv {A} pin root vdir cdir vfile cfile key verify open_directory open_file parts (body : nat -> string -> nat -> stat -> M A) w res w' :
  verifies pin root verify -> opens vdir cdir key open_directory -> opens vfile cfile key open_file ->
  (forall s, is_ok (vdir s) = true -> is_directory s = true) ->
  around_source E verify open_directory open_file parts body w = (res, w') ->
  (still w w' /\ exists e, res = Fail e) \/
  exists parent name source held w1 w2, around pin root vfile cfile key parts w w1 parent name source held /\
    body parent name source held w1 = (res, w2) /\
    w_dirs w' = w_dirs w2 /\ w_files w' = w_files w2 /\ reach (w_tree w2) (w_tree w') /\
    forall x, adds x (w_fds w1) (w_fds w2) -> adds x (w_fds w) (w_fds w') /\ (forall d, d ∈ x -> w_fds w' !! d = w_fds w2 !! d).
Proof.
  intros Hverify Hopend Hopenf Hdir.
  unfold around_source, st_try at 1. destruct (verify w) as [v wv] eqn:Ev. apply Hverify in Ev as [Sv Hv].
  destruct v as [rootd|e]; [|intros [= <- <-]; left; by split; [|eexists]]. destruct (Hv rootd eq_refl) as (Hroot&Hpin). clear Hv.
  unfold st_bind at 1. destruct (walk open_directory rootd (removelast parts) [] wv) as [[walked opened] wd] eqn:Ed.
  apply (walk_inv _ _ _ _ _ _ _ _ _ _ _ root Hopend Hdir) in Ed as (Dd&Df&Dr&l&->&Hl&Hlast); [|by rewrite (held_still w wv)].
  rewrite app_nil_r in *. cbn [fst snd]. destruct walked as [parent|e].
  2:{ unfold st_bind, fail. destruct (close_all E l wd) as [u wc] eqn:Ec. apply close_all_inv in Ec as (Cd&Cf&Cm&Cr).
    intros [= <- <-]. left. split; [|by eexists]. destruct Sv. split; [congruence|congruence| |do 2 (eapply rtc_trans; [done|]); done].
    rewrite Cm, <- sl_fds0. apply adds_nil. eapply adds_closes; [done|by apply adds_nil]. }
  destruct (Hlast parent eq_refl) as (pid&Hpid&Hreached). clear Hlast.
  unfold st_bind at 1, st_try. destruct (open_file parent _ wd) as [opened ws] eqn:Es. apply Hopenf in Es.
  destruct opened as [[source held]|e].
  2:{ destruct Es as [Ss ->]. unfold st_bind. destruct (close_all E l ws) as [u wc] eqn:Ec. apply close_all_inv in Ec as (Cd&Cf&Cm&Cr).
    intros [= <- <-]. left. split; [|by eexists]. destruct Sv, Ss. split; [congruence|congruence| |do 3 (eapply rtc_trans; [done|]); done].
    rewrite Cm, sl_fds1, <- sl_fds0. apply adds_nil. eapply adds_closes; [done|by apply adds_nil]. }
  destruct Es as (G&Hval&pid'&Hpid'&Hseen). rewrite Hpid in Hpid'. injection Hpid' as <-. cbn [fst snd].
  unfold st_bind at 1. destruct (body parent _ source held ws) as [rb wb] eqn:Eb.
  unfold st_bind at 1. destruct (CloseFd E source wb) as [uc wc] eqn:Ec. apply CloseFd_inv in Ec as (Cd&Cf&Cm&Cr).
  unfold st_bind at 1, st_ret at 1. destruct (close_all E l wc) as [ua wa] eqn:Ea. apply close_all_inv in Ea as (Ad&Af&Am&Ar).
  intros [= <- <-]. right. exists parent, (List.last parts ""), source, held, ws, wb.
  assert (reach (w_tree w) (w_tree wd)) as Rd by (eapply rtc_trans; [apply Sv|done]).
  split; [split|].
  - exists (w_tree wv). split; [split; [apply Sv|eapply rtc_trans; [exact Dr|apply G]]|done].
  - exists pid. split; [|split; [|by eapply seen_mono]].
    + unfold held_object in *. rewrite (gr_fds _ _ _ _ G), lookup_insert_ne; [done|]. intros <-. by rewrite (gr_new _ _ _ _ G) in Hpid.
    + eapply reached_mono; [apply Sv|apply G|done].
  - destruct Hval as (Hval&t&Hb&Ht). split; [done|]. exists t. split; [eapply between_mono; [exact Rd|apply rtc_refl|done]|done].
  - done.
  - exact (held_grown _ _ _ _ G).
  - rewrite (gr_dirs _ _ _ _ G), Dd. apply Sv.
  - rewrite (gr_files _ _ _ _ G), Df. apply Sv.
  - eapply rtc_trans; [done|apply G].
  - split; [done|]. split; [congruence|]. split; [congruence|]. split; [by eapply rtc_trans|]. intros x Hx.
    assert (adds (source :: l) (w_fds wv) (w_fds ws)) as Hall by (apply (adds_trans l [source] _ _ _ Hl), (grown_adds _ _ _ _ G)).
    assert (w_fds wa = closes (source :: l) (w_fds wb)) as Hw by (rewrite Am, Cm; done).
    rewrite Hw. split; [rewrite <- (sl_fds _ _ Sv); by eapply adds_closes|]. intros d Hd. rewrite lookup_closes.
    destruct (decide (d ∈ source :: l)) as [Hin|]; [|done]. destruct Hall as [Hall _], Hx as [Hx _].
    destruct (Hall d Hin) as [_ [h Hh]]. destruct (Hx d Hd) as [Hn _]. congruence.
Qed.

Lemma with_source_inv {A} r rootPath parts (body : nat -> string -> nat -> stat -> M A) w res w' :
  with_source E r rootPath parts body w = (res, w') ->
  (still w w' /\ exists e, res = Fail e) \/
  exists parent name source held w1 w2, at_source r rootPath parts w w1 parent name source held /\
    body parent name source held w1 = (res, w2) /\
    w_dirs w' = w_dirs w2 /\ w_files w' = w_files w2 /\ reach (w_tree w2) (w_tree w') /\
    forall x, adds x (w_fds w1) (w_fds w2) -> adds x (w_fds w) (w_fds w') /\ (forall d, d ∈ x -> w_fds w' !! d = w_fds w2 !! d).
Proof.
  apply around_source_inv with (vdir := validateUnixDirectory) (cdir := validateUnixDirectory);
    [apply verify_verifies|apply open_checked_opens|apply open_checked_opens|apply directory_valid].
Qed.

(** ** Copying a source *)

(** The storage may change in files only. *)
Record keeps (w w' : world) : Prop := mk_keeps {
  kp_dirs : w_dirs w' = w_dirs w;
  kp_fds : w_fds w' = w_fds w;
  kp_reach : reach (w_tree w) (w_tree w')
}.

#[local] Instance keeps_preorder : PreOrder keeps.
Proof.
  split; [intros w; split; try done; apply rtc_refl|].
  intros w1 w2 w3 [] []. split; try congruence. by eapply rtc_trans.
Qed.

Lemma still_keeps w w' : still w w' -> keeps w w'.
Proof. by intros []. Qed.

Lemma held_keeps w w' d : keeps w w' -> held_object w' d = held_object w d.
Proof. intros [_ Hf _]. unfold held_object. by rewrite Hf. Qed.

(** The object has the data [D] all the time. *)
Definition stable (id : ident) (D : string) (t0 t1 : tree) : Prop :=
  forall t, between t0 t t1 -> exists i, t_inodes t !! id = Some i /\ in_data i = D.

Lemma stable_mono id D t0 t0' t1' t1 : reach t0 t0' -> reach t1' t1 -> stable id D t0 t1 -> stable id D t0' t1'.
Proof. intros H0 H1 H t Ht. apply H. by eapply between_mono. Qed.

(** Others leave an object in place, and change its data only with its
    modification time, which never goes back. *)
Definition honest : Prop := forall n t id i, t_inodes t !! id = Some i ->
  exists i', t_inodes (os_change E n t) !! id = Some i' /\ in_mtime i <= in_mtime i' /\
    (in_mtime i = in_mtime i' -> in_data i' = in_data i).

Lemma honest_later t t' id i : honest -> reach t t' -> t_inodes t !! id = Some i ->
  exists i', t_inodes t' !! id = Some i' /\ in_mtime i <= in_mtime i' /\ (in_mtime i = in_mtime i' -> in_data i' = in_data i).
Proof.
  intros Hh Hr. revert i. induction Hr as [t|t u t' [n ->] _ IH]; intros i Hi; [exists i; by split_and!|].
  destruct (Hh n t id i Hi) as (j&Hj&Hle&Heq). destruct (IH j Hj) as (k&Hk&Hle'&Heq').
  exists k. split; [done|]. split; [lia|]. intros Hm. rewrite Heq' by lia. apply Heq. lia.
Qed.

Lemma honest_stable t0 t1 id i0 i1 : honest -> t_inodes t0 !! id = Some i0 -> t_inodes t1 !! id = Some i1 ->
  in_mtime i0 = in_mtime i1 -> stable id (in_data i0) t0 t1.
Proof.
  intros Hh H0 H1 Hm t [R0 R1]. destruct (honest_later _ _ _ _ Hh R0 H0) as (i&Hi&Hle&Heq).
  destruct (honest_later _ _ _ _ Hh R1 Hi) as (j&Hj&Hle'&_). rewrite H1 in Hj. injection Hj as <-.
  exists i. split; [done|]. apply Heq. lia.
Qed.

Lemma Stat_ok d w v w' : Stat E d w = (Ok v, w') ->
  still w w' /\ exists id i, held_object w d = Some id /\ t_inodes (w_tree w') !! id = Some i /\ v = mkInfo (len (in_data i)) (in_mtime i).
Proof.
  intros [Hs H]%sys_look. specialize (H v eq_refl). split; [done|]. rewrite <- (held_still _ _ d Hs).
  destruct (held_object w' d) as [id|]; [|done]. cbn in H. exists id. destruct (_ !! id) as [i|]; [|done]. injection H as <-. by exists i.
Qed.

Lemma Read_ok d off count w chunk w' id D : Read E d off count w = (Ok chunk, w') -> held_object w d = Some id ->
  stable id D (w_tree w) (w_tree w') -> chunk = slice D (Z.min off (len D)) (Z.min (off + count) (len D)).
Proof.
  intros [Hs H]%sys_look Hd Hst. specialize (H chunk eq_refl). rewrite (held_still _ _ d Hs), Hd in H. cbn in H.
  destruct (Hst (w_tree w')) as (i&Hi&<-); [split; [apply Hs|apply rtc_refl]|]. rewrite Hi in H. by injection H as <-.
Qed.

(** The private file behind a descriptor. *)
Record private (d file : nat) (f : tfile) (w : world) : Prop := mk_private {
  pv_fd : w_fds w !! d = Some (InTemp file);
  pv_file : w_files w !! file = Some f
}.

Lemma private_still d file f w w' : still w w' -> private d file f w -> private d file f w'.
Proof. intros [] []. split; congruence. Qed.

Lemma on_file_inv d g w r w' : on_file E d g w = (r, w') ->
  keeps w w' /\ forall u, r = Ok u -> forall file f, private d file f w -> private d file (g f) w'.
Proof.
  intros [(e&_&->&->)|[_ H]]%sys_inv; [split; [apply still_keeps, tick_still|done]|].
  destruct (w_fds (tick E w) !! d) as [[id|o]|] eqn:Ef; injection H as <- <-;
    [split; [apply still_keeps, tick_still|done]| |split; [apply still_keeps, tick_still|done]].
  split; [split; [done|done|apply tick_reach]|]. intros _ _ file f [Hd Hf]. cbn in Ef. rewrite Hd in Ef. injection Ef as <-.
  split; [done|]. cbn. by rewrite lookup_alter_eq, Hf.
Qed.

(** A round of the copy keeps the storage, and the copy ends. *)
Lemma copy_keeps fuel source destination off left written w r w' :
  copy E fuel source destination off left written w = (r, w') ->
  keeps w w' /\ ((Z.to_nat left < fuel)%nat -> r <> None).
Proof.
  revert off left written w. induction fuel as [|fuel IH]; intros off left written w; cbn [copy].
  - intros [= <- <-]. split; [done|lia].
  - destruct (Z.leb_spec left 0); [by intros [= <- <-]|]. unfold st_bind at 1. destruct (Read _ _ _ _ w) as [chunk w1] eqn:E1.
    apply sys_look in E1 as [S1%still_keeps _]. destruct chunk as [chunk|e]; [|by intros [= <- <-]].
    destruct (String.eqb_spec chunk "") as [|Hne]; [by intros [= <- <-]|].
    unfold st_bind. destruct (Write _ _ _ w1) as [put w2] eqn:E2. apply on_file_inv in E2 as [K2 _].
    destruct put as [|e]; [|intros [= <- <-]; split; [by transitivity w1|done]]. intros [K3 Hn]%IH.
    split; [transitivity w1; [done|by transitivity w2]|]. intros Hf. apply Hn.
    assert (0 < len chunk) by (destruct chunk; [done|unfold len; cbn; lia]). lia.
Qed.

Lemma Read_len d off count w chunk w' : 0 <= count -> Read E d off count w = (Ok chunk, w') -> len chunk <= count.
Proof.
  intros Hc [_ H]%sys_look. specialize (H chunk eq_refl). destruct (held_object w' d ≫= _) as [i|]; [|done]. injection H as <-.
  unfold slice, len. rewrite substring_length. lia.
Qed.

(** A finished copy: the private file has all bytes that were written, and they are
    the data of the source if it did not change. *)
Lemma copy_content fuel source destination off left written w content w' : 0 <= off -> 0 <= left ->
  copy E fuel source destination off left written w = (Some (Ok content), w') ->
  len content = len written + left /\
  (forall file f, private destination file f w -> tf_data f = written ->
     private destination file (mkTFile (tf_mode f) content (tf_mtime f)) w') /\
  (forall id D, held_object w source = Some id -> stable id D (w_tree w) (w_tree w') -> off + left <= len D ->
     written = slice D 0 off -> content = slice D 0 (off + left)).
Proof.
  revert off left written w. induction fuel as [|fuel IH]; intros off left written w Hoff Hleft; cbn [copy]; [done|].
  destruct (Z.leb_spec left 0) as [H0|H0].
  { intros [= <- <-]. split; [lia|]. split; [by intros file [] ? <-|]. intros id D _ _ _ ->. f_equal. lia. }
  unfold st_bind at 1. destruct (Read _ _ _ _ w) as [chunk w1] eqn:E1. pose proof E1 as [S1 _]%sys_look.
  destruct chunk as [chunk|e]; [|done]. apply Read_len in E1 as Hlen; [|lia].
  destruct (String.eqb_spec chunk "") as [|Hne]; [done|]. unfold st_bind. destruct (Write _ _ _ w1) as [put w2] eqn:E2.
  apply on_file_inv in E2 as [K2 P2]. destruct put as [[]|e]; [|done]. intros H. pose proof H as [K3 _]%copy_keeps.
  pose proof (len_nonneg chunk). apply IH in H as (Hl&Hp&Hc); [|lia..]. rewrite len_app in Hl. split; [lia|]. split.
  - intros file f Hf Hw. specialize (P2 tt eq_refl file f (private_still _ _ _ _ _ S1 Hf)).
    apply (Hp file _ P2). cbn. by rewrite Hw.
  - intros id D Hid Hst Hle Hw. assert (reach (w_tree w1) (w_tree w')) as R by (eapply rtc_trans; [apply K2|apply K3]).
    assert (chunk = slice D off (off + Z.min 32768 left)) as Hch.
    { rewrite (Read_ok _ _ _ _ _ _ id D E1 Hid); [f_equal; lia|]. eapply stable_mono; [apply rtc_refl|exact R|done]. }
    rewrite Hch, len_slice in Hc by lia. rewrite (Hc id D); [f_equal; lia| | |lia|].
    + by rewrite (held_keeps _ _ _ K2), (held_still _ _ _ S1).
    + eapply stable_mono; [|apply rtc_refl|done]. eapply rtc_trans; [apply S1|apply K2].
    + rewrite Hw. replace (off + (off + Z.min 32768 left - off)) with (off + Z.min 32768 left) by lia. symmetry. apply slice_split; lia.
Qed.

Lemma CopyN_inv source destination size w r w' : CopyN E source destination size w = (r, w') ->
  keeps w w' /\ forall content, r = Ok content -> 0 <= size ->
    len content = size /\
    (forall file f, private destination file f w -> tf_data f = "" ->
       private destination file (mkTFile (tf_mode f) content (tf_mtime f)) w') /\
    (forall id D, held_object w source = Some id -> stable id D (w_tree w) (w_tree w') -> size = len D -> content = D).
Proof.
  unfold CopyN, st_bind. destruct (copy _ _ _ _ _ _ _ w) as [c w1] eqn:Ec. intros [= <- <-].
  apply copy_keeps in Ec as HK. destruct HK as [HK Hfuel]. split; [done|]. intros content Hr Hsize.
  destruct c as [[c|]|]; [|done|by destruct Hfuel; [lia|]]. cbn in Hr. injection Hr as ->.
  apply copy_content in Ec as (Hl&Hp&Hc); [|lia..]. split; [done|]. split; [done|]. intros id D Hid Hst ->.
  rewrite (Hc id D Hid Hst); [apply slice_full|lia|]. by rewrite slice_empty.
Qed.

Lemma Chtimes_inv directory name mtime w r w' : Chtimes E directory name mtime w = (r, w') ->
  keeps w w' /\ forall u, r = Ok u -> forall d file f, private d file f w ->
    (td ← w_dirs w !! directory; td_names td !! name) = Some file ->
    private d file (mkTFile (tf_mode f) (tf_data f) mtime) w'.
Proof.
  intros [(e&_&->&->)|[_ H]]%sys_inv; [split; [apply still_keeps, tick_still|done]|]. cbn [tick w_dirs] in H.
  destruct (td ← w_dirs w !! directory; td_names td !! name) as [o|]; injection H as <- <-; [|split; [apply still_keeps, tick_still|done]].
  split; [split; [done|done|apply tick_reach]|]. intros _ _ d file f [Hd Hf] [= <-]. split; [done|]. cbn. by rewrite lookup_alter_eq, Hf.
Qed.

Lemma wrapping_inv {A} format (m : M A) w r w' : wrapping format m w = (r, w') ->
  exists r0, m w = (r0, w') /\ forall a, r = Ok a <-> r0 = Ok a.
Proof. unfold wrapping. destruct (m w) as [[a|e] w1]; intros [= <- <-]; eexists; split; done. Qed.

(** The sealed copy: its mode, content and modification time. *)
Lemma fill_inv source destination directory size modTime w r w' : fill E source destination directory size modTime w = (r, w') ->
  keeps w w' /\ forall digest, r = Ok digest -> 0 <= size -> exists content,
    digest = Sum256 content /\ len content = size /\
    (forall file f, private destination file f w -> tf_data f = "" ->
       (td ← w_dirs w !! directory; td_names td !! "source") = Some file ->
       private destination file (mkTFile 256 content modTime) w') /\
    (forall id D, held_object w source = Some id -> stable id D (w_tree w) (w_tree w') -> size = len D -> content = D).
Proof.
  unfold fill. unfold st_try at 1. destruct (wrapping _ _ w) as [r1 w1] eqn:E1. apply wrapping_inv in E1 as (?&[S1 _]%sys_look&_).
  destruct r1 as [_|e]; [|intros [= <- <-]; split; [by apply still_keeps|done]].
  unfold st_bind at 1. destruct (CopyN _ _ _ _ w1) as [r2 w2] eqn:E2. apply CopyN_inv in E2 as [K2 H2].
  assert (keeps w w2) as K12 by (etransitivity; [by apply still_keeps|done]).
  destruct r2 as [content|e]; [|by intros [= <- <-]].
  unfold st_bind at 1. destruct (Read _ _ _ _ w2) as [r3 w3] eqn:E3. apply sys_look in E3 as [S3 _].
  assert (keeps w w3) as K13 by (etransitivity; [done|by apply still_keeps]).
  destruct (match r3 with Ok extra => _ | Fail e => _ end); [by intros [= <- <-]|].
  unfold st_try at 1. destruct (wrapping _ _ w3) as [r4 w4] eqn:E4. apply wrapping_inv in E4 as (q4&[K4 P4]%on_file_inv&O4).
  assert (keeps w w4) as K14 by (by transitivity w3). destruct r4 as [u4|e]; [|by intros [= <- <-]]. pose proof (proj1 (O4 _) eq_refl) as ->.
  unfold st_try at 1. destruct (wrapping _ _ w4) as [r5 w5] eqn:E5. apply wrapping_inv in E5 as (q5&[K5 P5]%Chtimes_inv&O5).
  assert (keeps w w5) as K15 by (by transitivity w4). destruct r5 as [u5|e]; [|by intros [= <- <-]]. pose proof (proj1 (O5 _) eq_refl) as ->.
  unfold st_try at 1. destruct (wrapping _ _ w5) as [r6 w6] eqn:E6. apply wrapping_inv in E6 as (q6&[K6 P6]%on_file_inv&O6).
  assert (keeps w w6) as K16 by (by transitivity w5). destruct r6 as [u6|e]; [|by intros [= <- <-]]. pose proof (proj1 (O6 _) eq_refl) as ->.
  unfold st_try. destruct (wrapping _ _ w6) as [r7 w7] eqn:E7. apply wrapping_inv in E7 as (?&[S7 _]%sys_look&_).
  assert (keeps w w7) as K17 by (etransitivity; [done|by apply still_keeps]).
  destruct r7 as [_|e]; [|by intros [= <- <-]]. intros [= <- <-]. split; [done|]. intros digest [= <-] Hsize.
  destruct (H2 content eq_refl Hsize) as (Hl&Hp&Hc). exists content. split; [done|]. split; [done|]. split.
  - intros file f Hf Hd Hn. apply (private_still _ _ _ _ _ S7).
    specialize (Hp file f (private_still _ _ _ _ _ S1 Hf) Hd). apply (private_still _ _ _ _ _ S3) in Hp.
    apply (P4 _ eq_refl) in Hp. apply (P5 _ eq_refl) in Hp; [|by rewrite (kp_dirs _ _ K14)]. by apply (P6 _ eq_refl) in Hp.
  - intros id D Hid Hst Hs. apply (Hc id D); [by rewrite (held_still _ _ _ S1)| |done].
    eapply stable_mono; [apply S1| |exact Hst].
    eapply rtc_trans; [apply S3|]. eapply rtc_trans; [apply K4|]. eapply rtc_trans; [apply K5|]. eapply rtc_trans; [apply K6|apply S7].
Qed.

(** ** The private directory *)

Definition removals_work : Prop := forall n, os_error E n CRemove = None.

Lemma mkdir_temp_inv attempts pattern w r w' : mkdir_temp E attempts pattern w = (r, w') ->
  w_files w' = w_files w /\ w_fds w' = w_fds w /\ reach (w_tree w) (w_tree w') /\
  match r with
  | Fail _ => w_dirs w' = w_dirs w
  | Ok directory => w_dirs w !! directory = None /\ w_dirs w' = <[directory := mkTDir 448 ∅]> (w_dirs w)
  end.
Proof.
  revert w. induction attempts as [|attempts IH]; intros w; cbn [mkdir_temp]; [intros [= <- <-]; split_and!; try done; apply rtc_refl|].
  unfold st_bind at 1. unfold st_bind. destruct (sys E CMake _ w) as [made w1] eqn:E1.
  apply sys_inv in E1 as [(e&_&->&->)|[_ H]].
  - pose proof (tick_still w) as [Hd Hf Hm Hr]. destruct (errors_Is e _); [|by intros [= <- <-]].
    intros (?&?&?&H)%IH. split_and!; [done|done|by eapply rtc_trans|exact H].
  - cbn [tick w_dirs] in H. destruct (w_dirs w !! _) eqn:Ed; injection H as <- <-.
    + pose proof (tick_still w) as [Hd Hf Hm Hr]. destruct (errors_Is _ _); [|by intros [= <- <-]]. intros (?&?&?&H)%IH.
      split_and!; [done|done|by eapply rtc_trans|exact H].
    + intros [= <- <-]. split_and!; try done. apply tick_reach.
Qed.

(** Removing the private file and its directory. *)
Lemma remove_inv directory w r1 w1 r2 w2 : RemoveIn E directory "source" w = (r1, w1) -> RemoveDir E directory w1 = (r2, w2) ->
  w_fds w2 = w_fds w /\ reach (w_tree w) (w_tree w2) /\
  forall mode nm D, w_dirs w = <[directory := mkTDir mode nm]> D -> D !! directory = None -> delete "source" nm = ∅ ->
    removals_work -> w_dirs w2 = D.
Proof.
  intros H1 H2.
  assert (w_fds w1 = w_fds w /\ reach (w_tree w) (w_tree w1) /\
    forall mode nm D, w_dirs w = <[directory := mkTDir mode nm]> D -> delete "source" nm = ∅ -> removals_work ->
      w_dirs w1 = <[directory := mkTDir mode ∅]> D) as (F1&R1&D1).
  { apply sys_inv in H1 as [(e&He&->&->)|[_ H]]; [split_and!; [done|apply tick_reach|]; intros ? ? ? _ _ Hr; by rewrite Hr in He|].
    cbn [tick w_dirs] in H. destruct (w_dirs w !! directory) as [td|] eqn:Ed.
    2:{ injection H as <- <-. split_and!; [done|apply tick_reach|]. intros mode nm D Hw. by rewrite Hw, lookup_insert_eq in Ed. }
    destruct (td_names td !! "source") as [file|] eqn:En; injection H as <- <-; (split_and!; [done|apply tick_reach|]);
      intros mode nm D Hw Hnm _; rewrite Hw, lookup_insert_eq in Ed; injection Ed as <-; cbn in *.
    - by rewrite Hw, insert_insert_eq, Hnm.
    - rewrite Hw. do 2 f_equal. by rewrite <- Hnm, delete_id. }
  apply sys_inv in H2 as [(e&He&->&->)|[_ H]]; [split_and!; [done|eapply rtc_trans; [done|apply tick_reach]|]; intros ? ? ? _ _ _ Hr; by rewrite Hr in He|].
  assert (w_fds w2 = w_fds w1 /\ w_tree w2 = w_tree (tick E w1) /\
    (forall mode D, w_dirs w1 = <[directory := mkTDir mode ∅]> D -> w_dirs w2 = delete directory (w_dirs w1))) as (F2&R2&D2).
  { cbn [tick w_dirs] in H. destruct (w_dirs w1 !! directory) as [td|] eqn:Ed; [destruct (bool_decide _) eqn:Eb|]; injection H as <- <-;
      (split_and!; [done|done|]); intros mode D Hw; [done| |]; rewrite Hw, lookup_insert_eq in Ed; [|done]. injection Ed as <-. done. }
  split_and!; [congruence|rewrite R2; eapply rtc_trans; [done|apply tick_reach]|].
  intros mode nm D Hw Hnew Hnm Hr. rewrite (D2 mode D (D1 mode nm D Hw Hnm Hr)), (D1 mode nm D Hw Hnm Hr). by apply delete_insert_id.
Qed.

(** An open snapshot over the directories [D]. *)
Record private_copy (s : Snapshot) (d file : nat) (content : string) (D : gmap string tdir) (w : world) : Prop := mk_private_copy {
  pc_file : ss_file s = Some d;
  pc_open : ss_closed s = false;
  pc_private : private d file (mkTFile 256 content (ss_modTime s)) w;
  pc_new : D !! ss_directory s = None;
  pc_dirs : w_dirs w = <[ss_directory s := mkTDir 448 {["source" := file]}]> D;
  pc_size : len content = ss_size s;
  pc_digest : ss_digest s = Sum256 content
}.

Lemma private_copy_still s d file content D w w' : still w w' -> private_copy s d file content D w -> private_copy s d file content D w'.
Proof. intros S []. split; try done; [by eapply private_still|by rewrite (sl_dirs _ _ S)]. Qed.

Lemma private_copy_reader s d file content D w : private_copy s d file content D w -> Reader s w = Ok content.
Proof.
  intros []. unfold Reader. destruct pc_private0 as [Hd Hf]. rewrite pc_file0, pc_open0, Hd, Hf. cbn [tf_data].
  rewrite <- pc_size0, Z.min_id. by rewrite slice_full.
Qed.

Lemma CloseSnapshot_inv s d file content D w fs s' w' : private_copy s d file content D w ->
  CloseSnapshot E s w = ((fs, s'), w') ->
  w_fds w' = delete d (w_fds w) /\ reach (w_tree w) (w_tree w') /\ (removals_work -> w_dirs w' = D) /\
  (forall w'', CloseSnapshot E s' w'' = ((fs, s'), w'') /\ Reader s' w'' = Fail ErrSnapshotClosed).
Proof.
  intros [] H. unfold CloseSnapshot in H. rewrite pc_open0, pc_file0 in H. unfold st_bind in H.
  destruct (CloseFd E d w) as [r1 w1] eqn:E1. apply CloseFd_inv in E1 as (Hd&_&Hm&Hr).
  destruct (RemoveIn E _ _ w1) as [r2 w2] eqn:E2. destruct (RemoveDir E _ w2) as [r3 w3] eqn:E3. injection H as <- <- <-.
  destruct (remove_inv _ _ _ _ _ _ E2 E3) as (F&R&Hdirs). split; [congruence|]. split; [by eapply rtc_trans|]. split; [|done].
  intros Hw. eapply Hdirs; [by rewrite Hd, pc_dirs0|done| |done]. by rewrite delete_singleton_eq.
Qed.

Lemma refuse_inv {A} s d file content D e w (r : result A) w' : private_copy s d file content D w -> refuse E s e w = (r, w') ->
  r = Fail e /\ w_fds w' = delete d (w_fds w) /\ reach (w_tree w) (w_tree w') /\ (removals_work -> w_dirs w' = D).
Proof.
  intros Hp. unfold refuse, st_bind. destruct (CloseSnapshot E s w) as [[fs s'] w1] eqn:Ec.
  intros [= <- <-]. by destruct (CloseSnapshot_inv _ _ _ _ _ _ _ _ _ Hp Ec) as (?&?&?&_).
Qed.

Lemma ChmodDir_inv directory mode w r w' nm : w_dirs w !! directory = Some (mkTDir mode nm) ->
  ChmodDir E directory mode w = (r, w') -> still w w'.
Proof.
  intros Hd [(e&_&->&->)|[_ H]]%sys_inv; [apply tick_still|]. cbn [tick w_dirs] in H. rewrite Hd in H. injection H as <- <-.
  split; try done; [|apply tick_reach]. cbn. by rewrite insert_id.
Qed.

Lemma CreateIn_inv directory w r w' : w_dirs w !! directory = Some (mkTDir 448 ∅) -> CreateIn E directory "source" w = (r, w') ->
  match r with
  | Fail _ => still w w'
  | Ok d => exists file, w_fds w !! d = None /\ w_fds w' = <[d := InTemp file]> (w_fds w) /\ private d file (mkTFile 384 "" 0) w' /\
      w_dirs w' = <[directory := mkTDir 448 {["source" := file]}]> (w_dirs w) /\ reach (w_tree w) (w_tree w')
  end.
Proof.
  intros Hd [(e&_&->&->)|[_ H]]%sys_inv; [apply tick_still|]. cbn [tick w_dirs] in H. rewrite Hd in H.
  cbn [td_names td_mode] in H. rewrite lookup_empty in H. injection H as <- <-. exists (fresh (dom (w_files w))). cbn.
  split; [apply fresh_fd|]. split; [done|]. split; [split; apply lookup_insert_eq|]. split; [done|apply tick_reach].
Qed.

Lemma populate_inv source directory size modTime w r w' : w_dirs w !! directory = Some (mkTDir 448 ∅) -> 0 <= size ->
  populate E source directory size modTime w = (r, w') ->
  reach (w_tree w) (w_tree w') /\
  match r with
  | Fail _ => w_fds w' = w_fds w /\ exists nm, delete "source" nm = ∅ /\ w_dirs w' = <[directory := mkTDir 448 nm]> (w_dirs w)
  | Ok (d, digest) => exists file content,
      w_fds w !! d = None /\ w_fds w' = <[d := InTemp file]> (w_fds w) /\ private d file (mkTFile 256 content modTime) w' /\
      w_dirs w' = <[directory := mkTDir 448 {["source" := file]}]> (w_dirs w) /\
      digest = Sum256 content /\ len content = size /\
      (forall id D, held_object w source = Some id -> stable id D (w_tree w) (w_tree w') -> size = len D -> content = D)
  end.
Proof.
  intros Hd Hsize. unfold populate. unfold st_try at 1. destruct (wrapping _ _ w) as [r1 w1] eqn:E1.
  apply wrapping_inv in E1 as (?&S1&_). apply (ChmodDir_inv _ _ _ _ _ _ Hd) in S1.
  assert (w_dirs w1 !! directory = Some (mkTDir 448 ∅)) as Hd1 by (by rewrite (sl_dirs _ _ S1)).
  assert (forall w0, still w w0 -> w_fds w0 = w_fds w /\
    exists nm : gmap string nat, delete "source" nm = ∅ /\ w_dirs w0 = <[directory := mkTDir 448 nm]> (w_dirs w)) as Hstill.
  { intros w0 [A _ B _]. split; [done|]. exists ∅. split; [by rewrite delete_empty|]. by rewrite A, insert_id. }
  destruct r1 as [_|e]; [|intros [= <- <-]; split; [apply S1|by apply Hstill]].
  unfold st_try. destruct (wrapping _ _ w1) as [r2 w2] eqn:E2. apply wrapping_inv in E2 as (q2&C2&O2). apply (CreateIn_inv _ _ _ _ Hd1) in C2.
  destruct r2 as [d|e].
  2:{ intros [= <- <-]. destruct q2 as [d|e']; [by specialize (proj2 (O2 d) eq_refl)|].
    assert (still w w2) as S2 by (by transitivity w1). split; [apply S2|by apply Hstill]. }
  pose proof (proj1 (O2 d) eq_refl) as ->. destruct C2 as (file&Hn&Hm&Hp&Hdirs&R2). rewrite (sl_fds _ _ S1) in Hn, Hm. rewrite (sl_dirs _ _ S1) in Hdirs.
  assert (reach (w_tree w) (w_tree w2)) as R by (eapply rtc_trans; [apply S1|done]).
  unfold st_bind at 1. destruct (fill _ _ _ _ _ _ w2) as [r3 w3] eqn:E3. apply fill_inv in E3 as [K3 H3]. destruct r3 as [digest|e].
  - intros [= <- <-]. split; [eapply rtc_trans; [done|apply K3]|]. destruct (H3 digest eq_refl Hsize) as (content&->&Hl&Hf&Hc).
    exists file, content. rewrite (kp_fds _ _ K3), (kp_dirs _ _ K3). split_and!; try done.
    + apply (Hf file _ Hp); [done|]. rewrite Hdirs, lookup_insert_eq. cbn. by rewrite lookup_singleton_eq.
    + intros id D Hid Hst Hs. apply (Hc id D); [|by eapply stable_mono|done].
      unfold held_object in *. rewrite Hm, lookup_insert_ne; [done|]. intros ->. by rewrite Hn in Hid.
  - unfold st_bind. destruct (CloseFd E d w3) as [r4 w4] eqn:E4. apply CloseFd_inv in E4 as (Cd&_&Cm&Cr). intros [= <- <-].
    split; [eapply rtc_trans; [done|]; eapply rtc_trans; [apply K3|done]|].
    split; [rewrite Cm, (kp_fds _ _ K3), Hm; by apply delete_insert_id|]. exists {["source" := file]}.
    split; [by rewrite delete_singleton_eq|]. by rewrite Cd, (kp_dirs _ _ K3).
Qed.

(** A private snapshot is whole, or nothing of it is left. *)
Lemma newPrivate_inv sourcePath source size modTime maxBytes identity w r w' :
  newPrivateSnapshotWithIdentity E sourcePath source size modTime maxBytes identity w = (r, w') ->
  reach (w_tree w) (w_tree w') /\
  match r with
  | Fail _ => w_fds w' = w_fds w /\ (removals_work -> w_dirs w' = w_dirs w)
  | Ok s => exists d file content, w_fds w !! d = None /\ w_fds w' = <[d := InTemp file]> (w_fds w) /\
      private_copy s d file content (w_dirs w) w' /\
      ss_sourcePath s = sourcePath /\ ss_identity s = identity /\ ss_size s = size /\ ss_modTime s = modTime /\ 0 <= size <= maxBytes /\
      (forall id D, held_object w source = Some id -> stable id D (w_tree w) (w_tree w') -> size = len D -> content = D)
  end.
Proof.
  unfold newPrivateSnapshotWithIdentity. destruct (_ || _) eqn:El; [intros [= <- <-]; split; [apply rtc_refl|done]|].
  apply orb_false_iff in El as [H0%Z.ltb_ge H1%Z.ltb_ge]. unfold st_try. destruct (wrapping _ _ w) as [r1 w1] eqn:E1.
  apply wrapping_inv in E1 as (q1&(_&M1&R1&D1)%mkdir_temp_inv&O1). destruct r1 as [directory|e].
  2:{ intros [= <- <-]. split; [done|]. split; [done|]. destruct q1 as [d|]; [by specialize (proj2 (O1 d) eq_refl)|done]. }
  pose proof (proj1 (O1 directory) eq_refl) as ->. destruct D1 as [Hnew D1].
  unfold st_bind at 1. destruct (populate _ _ _ _ _ w1) as [r2 w2] eqn:E2.
  apply populate_inv in E2 as [R2 H2]; [|by rewrite D1, lookup_insert_eq|done]. destruct r2 as [[d digest]|e].
  - intros [= <- <-]. split; [by eapply rtc_trans|]. destruct H2 as (file&content&Hn&Hm&Hp&Hd&->&Hl&Hc). rewrite M1 in Hn, Hm.
    exists d, file, content. split; [done|]. split; [done|]. split; [split; try done; cbn; by rewrite Hd, D1, insert_insert_eq|].
    split_and!; try done. intros id D Hid Hst Hs. apply (Hc id D); [|by eapply stable_mono|done].
    unfold held_object in *. by rewrite M1.
  - destruct H2 as (Hm&nm&Hnm&Hd). unfold st_bind. destruct (RemoveIn _ _ _ w2) as [q3 w3] eqn:E3. destruct (RemoveDir _ _ w3) as [q4 w4] eqn:E4.
    intros [= <- <-]. destruct (remove_inv _ _ _ _ _ _ E3 E4) as (F&R&Hdirs). split; [do 2 (eapply rtc_trans; [done|]); done|].
    split; [congruence|]. intros Hw. eapply Hdirs; [|exact Hnew|exact Hnm|done]. by rewrite Hd, D1, insert_insert_eq.
Qed.

Lemma copy_source_inv r rootPath sourcePath maxBytes parent name source held w res w' :
  held_object w source = Some (st_ident held) ->
  copy_source E r rootPath sourcePath maxBytes parent name source held w = (res, w') ->
  reach (w_tree w) (w_tree w') /\
  match res with
  | Fail _ => w_fds w' = w_fds w /\ (removals_work -> w_dirs w' = w_dirs w)
  | Ok s => exists d file content, w_fds w !! d = None /\ w_fds w' = <[d := InTemp file]> (w_fds w) /\
      private_copy s d file content (w_dirs w) w' /\
      ss_sourcePath s = sourcePath /\ ss_identity s = identity_of held /\ ss_size s <= maxBytes /\ pinned r rootPath (w_tree w') /\
      (honest -> exists t i, between (w_tree w) t (w_tree w') /\ t_inodes t !! st_ident held = Some i /\
         content = in_data i /\ ss_modTime s = in_mtime i)
  end.
Proof.
  intros Hheld. unfold copy_source, st_bind at 1. destruct (Stat E source w) as [b w1] eqn:E1. destruct b as [b|e].
  2:{ intros [= <- <-]. apply sys_look in E1 as [[] _]. done. }
  apply Stat_ok in E1 as (S1&id&i&Hid&Hi&->). rewrite Hheld in Hid. injection Hid as <-. cbn [fi_Size fi_ModTime].
  unfold st_try. destruct (newPrivateSnapshotWithIdentity _ _ _ _ _ _ _ w1) as [r2 w2] eqn:E2. apply newPrivate_inv in E2 as [R2 H2].
  rewrite (sl_fds _ _ S1), (sl_dirs _ _ S1) in H2. assert (reach (w_tree w) (w_tree w2)) as R by (eapply rtc_trans; [apply S1|done]).
  destruct r2 as [s|e]; [|by intros [= <- <-]]. destruct H2 as (d&file&content&Hn&Hm&Hp&Hpath&Hident&Hsize&Hmod&Hle&Hc).
  unfold st_bind at 1. destruct (Stat E source w2) as [a w3] eqn:E3. unfold st_bind at 1. destruct (unixStatAt E parent name w3) as [f w4] eqn:E4.
  assert (still w2 w4) as S4 by (transitivity w3; [by apply sys_look in E3 as [? _]|by apply sys_look in E4 as [? _]]).
  assert (reach (w_tree w) (w_tree w4)) as R4 by (eapply rtc_trans; [done|apply S4]).
  assert (forall e (x : result Snapshot) (w0 w5 : world), still w2 w0 -> refuse E s e w0 = (x, w5) ->
    x = Fail e /\ reach (w_tree w) (w_tree w5) /\ w_fds w5 = w_fds w /\ (removals_work -> w_dirs w5 = w_dirs w)) as Hrefuse.
  { intros e x w0 w5 S0 Hr. eapply refuse_inv in Hr as (->&Hf&Hr&Hd); [|by eapply private_copy_still]. split_and!; [done| | |done].
    - eapply rtc_trans; [exact R|]. eapply rtc_trans; [apply S0|done].
    - rewrite Hf, (sl_fds _ _ S0), Hm. by apply delete_insert_id. }
  destruct a as [a|e]; [destruct f as [f|e]|]; try (intros (->&?&?&?)%(Hrefuse _ _ _ _ S4); done).
  destruct (_ || _) eqn:Ec; [intros (->&?&?&?)%(Hrefuse _ _ _ _ S4); done|].
  unfold st_bind. destruct (verify E r rootPath w4) as [v w5] eqn:E5. apply verify_inv in E5 as [S5 Hv].
  assert (still w2 w5) as S25 by (by transitivity w4). destruct v as [v|e]; [|intros (->&?&?&?)%(Hrefuse _ _ _ _ S25); done].
  intros [= <- <-]. split; [eapply rtc_trans; [done|apply S5]|]. exists d, file, content.
  split; [done|]. split; [by rewrite (sl_fds _ _ S25)|]. split; [by eapply private_copy_still|].
  split; [done|]. split; [done|]. split; [lia|]. split; [by apply (Hv v)|]. intros Hh.
  apply orb_false_iff in Ec as [_ Hmt%negb_false_iff%Z.eqb_eq].
  apply Stat_ok in E3 as (S3&id'&j&Hid'&Hj&->). cbn [fi_ModTime fi_Size] in *.
  assert (id' = st_ident held) as ->.
  { unfold held_object in Hheld, Hid'. rewrite Hm, lookup_insert_ne, Hheld in Hid'; [by injection Hid' as <-|]. intros ->. by rewrite Hn in Hheld. }
  pose proof (honest_stable _ _ _ _ _ Hh Hi Hj Hmt) as Hst. exists (w_tree w1), i.
  split; [split; [apply S1|eapply rtc_trans; [exact R2|apply S25]]|]. split; [done|]. split; [|done].
  apply (Hc (st_ident held)); [by rewrite (held_still _ _ _ S1)| |done]. eapply stable_mono; [apply rtc_refl|apply S3|done].
Qed.

Lemma private_copy_moved s d file content D w w' : w_dirs w' = w_dirs w -> w_files w' = w_files w -> w_fds w' !! d = w_fds w !! d ->
  private_copy s d file content D w -> private_copy s d file content D w'.
Proof. intros Hd Hf Hm [? ? [? ?] ? ? ? ?]. split; try done; [split; congruence|by rewrite Hd]. Qed.

(** What [snapshot] does, whichever calls fail and whatever others do. *)
Lemma snapshot_inv r rootPath sourcePath parts maxBytes w res w' :
  snapshot E r rootPath sourcePath parts maxBytes w = (res, w') ->
  match res with
  | Fail _ => w_fds w' = w_fds w /\ (removals_work -> w_dirs w' = w_dirs w)
  | Ok s => exists d file content parent name source held w1 w2,
      at_source r rootPath parts w w1 parent name source held /\
      reach (w_tree w1) (w_tree w2) /\ reach (w_tree w2) (w_tree w') /\
      adds [d] (w_fds w) (w_fds w') /\ private_copy s d file content (w_dirs w) w' /\
      ss_sourcePath s = sourcePath /\ ss_identity s = identity_of held /\ ss_size s <= maxBytes /\ pinned r rootPath (w_tree w2) /\
      (honest -> exists t i, between (w_tree w1) t (w_tree w2) /\ t_inodes t !! st_ident held = Some i /\
         content = in_data i /\ ss_modTime s = in_mtime i)
  end.
Proof.
  unfold snapshot. intros [([Hd _ Hm _]&e&->)|(parent&name&source&held&w1&w2&A&Hb&Hd&Hf&Hr&Hx)]%with_source_inv; [done|].
  apply copy_source_inv in Hb as [R Hb]; [|by apply A]. rewrite (as_dirs _ _ _ _ _ _ _ _ _ _ _ _ A) in Hb. destruct res as [s|e].
  - destruct Hb as (d&file&content&Hn&Hm&Hp&Hpath&Hident&Hle&Hpin&Hc).
    destruct (Hx [d]) as [Ha Hsame]; [rewrite Hm; by apply adds_insert|].
    exists d, file, content, parent, name, source, held, w1, w2. do 4 (split; [done|]). split; [|done].
    eapply private_copy_moved; [exact Hd|exact Hf|apply Hsame; by left|done].
  - destruct Hb as [Hm Hdirs]. destruct (Hx []) as [Ha%adds_nil _]; [by apply adds_nil|]. split; [done|].
    intros Hw. by rewrite Hd, Hdirs.
Qed.

(** ** Without interference or failures *)

Record undisturbed : Prop := mk_undisturbed {
  un_change : forall n t, os_change E n t = t;
  un_error : forall n c, os_error E n c = None
}.

Lemma undisturbed_reach t t' : undisturbed -> reach t t' -> t' = t.
Proof. intros U. induction 1 as [|t u t' [n ->] _ IH]; [done|]. by rewrite (un_change U) in IH. Qed.

Lemma sys_runs {A} c (act : world -> result A * world) w r w' : undisturbed -> sys E c act w = (r, w') ->
  act (mkWorld (w_tree w) (w_dirs w) (w_files w) (w_fds w) (S (w_calls w))) = (r, w').
Proof. intros U. unfold sys, tick. by rewrite (un_error U), (un_change U). Qed.

(** The directory that the components lead to. *)
Fixpoint directory_at (t : tree) (pid : ident) (components : list string) : option ident :=
  match components with
  | [] => Some pid
  | name :: rest =>
      i ← t_inodes t !! pid; id ← in_entries i !! name;
      match stat_of t id with
      | Ok s => if is_directory s then directory_at t id rest else None
      | Fail _ => None
      end
  end.

(** The regular file with one link that the parts lead to. *)
Definition file_at (t : tree) (pid : ident) (parts : list string) : option (ident * inode) :=
  parent ← directory_at t pid (removelast parts);
  i ← t_inodes t !! parent; id ← in_entries i !! List.last parts "";
  f ← t_inodes t !! id;
  if is_ok (validateUnixFile (mkStat id (in_mode f) (in_nlink f))) then Some (id, f) else None.

Lemma Fstat_runs d w r w' id s : undisturbed -> Fstat E d w = (r, w') ->
  held_object w d = Some id -> stat_of (w_tree w) id = Ok s -> r = Ok s.
Proof. intros U H%sys_runs Hd Hs; [|done]. unfold held_object in *. cbn in H. rewrite Hd in H. cbn in H. rewrite Hs in H. by injection H. Qed.

Lemma Lstat_runs path w r w' id s : undisturbed -> Lstat E path w = (r, w') ->
  t_paths (w_tree w) !! path = Some id -> stat_of (w_tree w) id = Ok s -> r = Ok s.
Proof. intros U H%sys_runs Hd Hs; [|done]. cbn in H. rewrite Hd, Hs in H. by injection H. Qed.

Lemma entry_of w parent pid name s : held_object w parent = Some pid -> names (w_tree w) pid name s -> entry w parent name = Some (st_ident s).
Proof. intros Hd (i&Hi&He&_). unfold entry. rewrite Hd. cbn. rewrite Hi. done. Qed.

Lemma unixStatAt_runs parent name w r w' pid s : undisturbed -> unixStatAt E parent name w = (r, w') ->
  held_object w parent = Some pid -> names (w_tree w) pid name s -> r = Ok s.
Proof.
  intros U H%sys_runs Hd Hn; [|done]. pose proof (entry_of _ _ _ _ _ Hd Hn) as He. unfold entry, held_object in *. cbn in *.
  rewrite He in H. destruct Hn as (i&_&_&Hs). rewrite Hs in H. by injection H.
Qed.

Lemma verify_runs r path w res w' d : undisturbed -> verify E r path w = (res, w') -> pf_file r = Some d ->
  held_object w d = Some (st_ident (pf_stat r)) -> pinned r path (w_tree w) -> res = Ok d.
Proof.
  intros U H Hf Hd (s&Hp&Hs&Hid&Hdir). unfold verify in H. rewrite Hf in H. unfold st_bind in H.
  destruct (Fstat E d w) as [held w1] eqn:E1. pose proof E1 as [S1 _]%sys_look. rewrite Hid in Hs.
  pose proof (Fstat_runs _ _ _ _ _ s U E1 Hd Hs) as ->. destruct (Lstat E path w1) as [named w2] eqn:E2.
  pose proof (undisturbed_reach _ _ U (sl_reach _ _ S1)) as T1. rewrite <- T1 in Hp, Hs. rewrite <- Hid in Hs.
  pose proof (Lstat_runs _ _ _ _ _ s U E2 Hp Hs) as ->.
  unfold sameUnixIdentity in H. rewrite Hid, Hdir, !bool_decide_true in H by done. by injection H.
Qed.

Lemma validate_plain s : is_ok (validateUnixDirectory s) = true \/ is_ok (validateUnixFile s) = true ->
  (Z.land (st_mode s) Durable.S_IFMT =? Durable.S_IFLNK) = false.
Proof.
  unfold validateUnixDirectory, validateUnixFile, is_directory.
  destruct (Z.eqb_spec (Z.land (st_mode s) Durable.S_IFMT) Durable.S_IFDIR) as [->|]; [done|].
  destruct (Z.eqb_spec (Z.land (st_mode s) Durable.S_IFMT) Durable.S_IFREG) as [->|]; [done|]. by intros [?|?].
Qed.

Lemma open_checked_runs validate directory parent name w r w' pid s : undisturbed ->
  open_checked E validate directory parent name w = (r, w') -> held_object w parent = Some pid -> names (w_tree w) pid name s ->
  is_ok (validate s) = true -> (Z.land (st_mode s) Durable.S_IFMT =? Durable.S_IFLNK) = false -> (directory = true -> is_directory s = true) ->
  exists d, r = Ok (d, s).
Proof.
  intros U H Hp Hn Hv Hlink Hdir. unfold open_checked in H. unfold st_bind at 1 in H.
  destruct (unixStatAt E parent name w) as [before w1] eqn:E1. pose proof E1 as [S1 _]%sys_look.
  pose proof (unixStatAt_runs _ _ _ _ _ _ _ U E1 Hp Hn) as ->. rewrite Hv in H. cbn [negb] in H.
  pose proof (undisturbed_reach _ _ U (sl_reach _ _ S1)) as T1. rewrite <- (held_still _ _ parent S1) in Hp. rewrite <- T1 in Hn. clear E1.
  unfold st_bind at 1 in H. destruct (Openat E parent name directory w1) as [d w2] eqn:E2. pose proof E2 as G%sys_open_inv.
  assert (exists d', d = Ok d') as [d' ->].
  { apply (sys_runs _ _ _ _ _ U) in E2. pose proof (entry_of _ _ _ _ _ Hp Hn) as He. unfold entry, held_object in E2, He. cbn in E2, He.
    rewrite He in E2. destruct Hn as (i&_&_&Hs). unfold stat_of in Hs. unfold open_object in E2. cbn in E2.
    destruct (t_inodes (w_tree w1) !! st_ident s) as [j|]; [|done]. cbn in E2. injection Hs as Hs. rewrite <- Hs in Hlink, Hdir.
    cbn in Hlink. rewrite Hlink in E2. unfold is_directory in Hdir. cbn in Hdir.
    destruct directory; [rewrite (Hdir eq_refl) in E2|]; cbn in E2; injection E2 as <- _; by eexists. }
  destruct G as (o&Ho&G). pose proof (undisturbed_reach _ _ U (gr_reach _ _ _ _ G)) as T2.
  assert (o = st_ident s) as ->.
  { rewrite (entry_of _ _ pid name s) in Ho; [by injection Ho|exact Hp|]. cbn. by rewrite (un_change U). }
  assert (held_object w2 parent = Some pid) as Hp2.
  { unfold held_object in *. rewrite (gr_fds _ _ _ _ G), lookup_insert_ne; [done|]. intros ->. by rewrite (gr_new _ _ _ _ G) in Hp. }
  rewrite <- T2 in Hn. unfold st_bind at 1 in H. destruct (unixStatAt E parent name w2) as [current w3] eqn:E3. pose proof E3 as [S3 _]%sys_look.
  pose proof (unixStatAt_runs _ _ _ _ _ _ _ U E3 Hp2 Hn) as ->. unfold st_bind at 1 in H. destruct (Fstat E d' w3) as [held w4] eqn:E4.
  pose proof (undisturbed_reach _ _ U (sl_reach _ _ S3)) as T3. destruct Hn as (i&_&_&Hs). rewrite <- T3 in Hs.
  assert (held_object w3 d' = Some (st_ident s)) as Hd by (rewrite (held_still _ _ _ S3); exact (held_grown _ _ _ _ G)).
  pose proof (Fstat_runs _ _ _ _ _ s U E4 Hd Hs) as ->.
  unfold sameUnixIdentity in H. rewrite Hv, !bool_decide_true in H by done. injection H as <- <-. by exists d'.
Qed.

Lemma descend_runs parent components opened w r opened' w' pid id : undisturbed ->
  descend E parent components opened w = ((r, opened'), w') -> held_object w parent = Some pid ->
  directory_at (w_tree w) pid components = Some id -> exists last, r = Ok last /\ held_object w' last = Some id.
Proof.
  intros U. revert parent opened w pid. induction components as [|name rest IH]; intros parent opened w pid H Hp Hat; unfold descend in H; cbn [walk] in H.
  - injection H as <- <- <-. injection Hat as <-. by exists parent.
  - cbn [directory_at] in Hat. destruct (t_inodes (w_tree w) !! pid) as [i|] eqn:Ei; [|done]. cbn in Hat.
    destruct (in_entries i !! name) as [id'|] eqn:Ee; [|done]. cbn in Hat. destruct (stat_of (w_tree w) id') as [s|] eqn:Es; [|done].
    pose proof (stat_of_ident _ _ _ Es) as ->. destruct (is_directory s) eqn:Ed; [|done].
    unfold st_bind in H. destruct (open_checked E _ true parent name w) as [next w1] eqn:E1.
    assert (is_ok (validateUnixDirectory s) = true) as Hv by (unfold validateUnixDirectory; by rewrite Ed).
    destruct (open_checked_runs _ _ _ _ _ _ _ pid s U E1) as (d&->); [done|by exists i|done|apply validate_plain; by left|done|].
    apply open_checked_inv in E1 as (G&_). fold (descend E) in H. apply (IH _ _ _ (st_ident s)) in H; [done|exact (held_grown _ _ _ _ G)|].
    by rewrite (undisturbed_reach _ _ U (gr_reach _ _ _ _ G)).
Qed.

Lemma on_file_runs d g w r w' file : undisturbed -> on_file E d g w = (r, w') -> w_fds w !! d = Some (InTemp file) -> r = Ok tt.
Proof. intros U H%sys_runs Hd; [|done]. cbn in H. rewrite Hd in H. by injection H. Qed.

Lemma Read_runs d off count w r w' id i : undisturbed -> Read E d off count w = (r, w') ->
  held_object w d = Some id -> t_inodes (w_tree w) !! id = Some i ->
  r = Ok (slice (in_data i) (Z.min off (len (in_data i))) (Z.min (off + count) (len (in_data i)))).
Proof.
  intros U H%sys_runs Hd Hi; [|done]. unfold held_object in *. cbn in *. rewrite Hd in H. cbn in H. rewrite Hi in H. by injection H.
Qed.

Lemma wrapping_runs {A} format (m : M A) w r w' a r0 : wrapping format m w = (r, w') -> m w = (r0, w') -> r0 = Ok a -> r = Ok a.
Proof. unfold wrapping. intros H E0 ->. rewrite E0 in H. by injection H. Qed.

Lemma copy_runs fuel source destination off left written w r w' id i file : undisturbed ->
  copy E fuel source destination off left written w = (r, w') -> held_object w source = Some id -> t_inodes (w_tree w) !! id = Some i ->
  w_fds w !! destination = Some (InTemp file) -> 0 <= off -> 0 <= left -> off + left <= len (in_data i) -> (Z.to_nat left < fuel)%nat ->
  exists content, r = Some (Ok content).
Proof.
  intros U. revert off left written w. induction fuel as [|fuel IH]; intros off left written w H Hs Hi Hd Hoff Hleft Hle Hfuel; [lia|].
  cbn [copy] in H. destruct (Z.leb_spec left 0); [injection H as <- _; by eexists|].
  unfold st_bind at 1 in H. destruct (Read _ _ _ _ w) as [chunk w1] eqn:E1. pose proof E1 as [S1 _]%sys_look.
  pose proof (Read_runs _ _ _ _ _ _ _ _ U E1 Hs Hi) as ->.
  replace (Z.min off (len (in_data i))) with off in H by lia.
  replace (Z.min (off + Z.min 32768 left) (len (in_data i))) with (off + Z.min 32768 left) in H by lia.
  assert (len (slice (in_data i) off (off + Z.min 32768 left)) = Z.min 32768 left) as Hl by (rewrite len_slice; lia).
  destruct (String.eqb_spec (slice (in_data i) off (off + Z.min 32768 left)) "") as [He|_]; [rewrite He in Hl; unfold len in Hl; cbn in Hl; lia|].
  unfold st_bind in H. destruct (Write _ _ _ w1) as [put w2] eqn:E2. rewrite <- (sl_fds _ _ S1) in Hd.
  pose proof (on_file_runs _ _ _ _ _ _ U E2 Hd) as ->. apply on_file_inv in E2 as [K2 _]. rewrite Hl in H.
  apply IH in H; [done| | | |lia..].
  - by rewrite (held_keeps _ _ _ K2), (held_still _ _ _ S1).
  - by rewrite (undisturbed_reach _ _ U (kp_reach _ _ K2)), (undisturbed_reach _ _ U (sl_reach _ _ S1)).
  - by rewrite (kp_fds _ _ K2).
Qed.

Lemma fill_runs source destination directory modTime w r w' id i file : undisturbed ->
  fill E source destination directory (len (in_data i)) modTime w = (r, w') ->
  held_object w source = Some id -> t_inodes (w_tree w) !! id = Some i -> w_fds w !! destination = Some (InTemp file) ->
  (td ← w_dirs w !! directory; td_names td !! "source") = Some file -> exists digest, r = Ok digest.
Proof.
  intros U H Hs Hi Hd Hn. unfold fill in H. unfold st_try at 1 in H. destruct (wrapping _ _ w) as [r1 w1] eqn:E1.
  pose proof E1 as (q1&F1&_)%wrapping_inv. pose proof F1 as [S1 _]%sys_look.
  rewrite (wrapping_runs _ _ _ _ _ tt _ E1 F1) in H by (apply (sys_runs _ _ _ _ _ U) in F1; by injection F1).
  rewrite <- (held_still _ _ _ S1) in Hs. rewrite <- (undisturbed_reach _ _ U (sl_reach _ _ S1)) in Hi. rewrite <- (sl_fds _ _ S1) in Hd. rewrite <- (sl_dirs _ _ S1) in Hn.
  unfold st_bind at 1 in H. destruct (CopyN _ _ _ _ w1) as [r2 w2] eqn:E2. pose proof E2 as [K2 _]%CopyN_inv.
  assert (exists content, r2 = Ok content) as (content&->).
  { unfold CopyN, st_bind in E2. destruct (copy _ _ _ _ _ _ _ w1) as [c w2'] eqn:Ec. injection E2 as <- <-.
    eapply copy_runs in Ec as (content&->); [by eexists|done|done|done|done|lia|apply len_nonneg|lia|lia]. }
  rewrite <- (held_keeps _ _ _ K2) in Hs. rewrite <- (undisturbed_reach _ _ U (kp_reach _ _ K2)) in Hi. rewrite <- (kp_fds _ _ K2) in Hd. rewrite <- (kp_dirs _ _ K2) in Hn.
  unfold st_bind at 1 in H. destruct (Read _ _ _ _ w2) as [r3 w3] eqn:E3. pose proof E3 as [S3 _]%sys_look.
  pose proof (Read_runs _ _ _ _ _ _ _ _ U E3 Hs Hi) as ->. rewrite Z.min_id in H.
  replace (Z.min (len (in_data i) + 1) (len (in_data i))) with (len (in_data i)) in H by lia. rewrite slice_empty in H. cbn [String.eqb negb] in H.
  rewrite <- (sl_fds _ _ S3) in Hd. rewrite <- (sl_dirs _ _ S3) in Hn.
  unfold st_try at 1 in H. destruct (wrapping _ _ w3) as [r4 w4] eqn:E4. pose proof E4 as (q4&F4&_)%wrapping_inv. pose proof F4 as [K4 _]%on_file_inv.
  rewrite (wrapping_runs _ _ _ _ _ tt _ E4 F4) in H by (by eapply on_file_runs). rewrite <- (kp_fds _ _ K4) in Hd. rewrite <- (kp_dirs _ _ K4) in Hn.
  unfold st_try at 1 in H. destruct (wrapping _ _ w4) as [r5 w5] eqn:E5. pose proof E5 as (q5&F5&_)%wrapping_inv. pose proof F5 as [K5 _]%Chtimes_inv.
  rewrite (wrapping_runs _ _ _ _ _ tt _ E5 F5) in H by (apply (sys_runs _ _ _ _ _ U) in F5; cbn [w_dirs] in F5; rewrite Hn in F5; by injection F5).
  rewrite <- (kp_fds _ _ K5) in Hd.
  unfold st_try at 1 in H. destruct (wrapping _ _ w5) as [r6 w6] eqn:E6. pose proof E6 as (q6&F6&_)%wrapping_inv.
  rewrite (wrapping_runs _ _ _ _ _ tt _ E6 F6) in H by (by eapply on_file_runs).
  unfold st_try at 1 in H. destruct (wrapping _ _ w6) as [r7 w7] eqn:E7. pose proof E7 as (q7&F7&_)%wrapping_inv.
  rewrite (wrapping_runs _ _ _ _ _ tt _ E7 F7) in H by (apply (sys_runs _ _ _ _ _ U) in F7; by injection F7).
  injection H as <- _. by eexists.
Qed.

Lemma populate_runs source directory modTime w r w' id i : undisturbed ->
  populate E source directory (len (in_data i)) modTime w = (r, w') -> w_dirs w !! directory = Some (mkTDir 448 ∅) ->
  held_object w source = Some id -> t_inodes (w_tree w) !! id = Some i -> exists v, r = Ok v.
Proof.
  intros U H Hdir Hs Hi. unfold populate in H. unfold st_try at 1 in H. destruct (wrapping _ _ w) as [r1 w1] eqn:E1.
  pose proof E1 as (q1&F1&_)%wrapping_inv. pose proof (ChmodDir_inv _ _ _ _ _ _ Hdir F1) as S1.
  rewrite (wrapping_runs _ _ _ _ _ tt _ E1 F1) in H by (apply (sys_runs _ _ _ _ _ U) in F1; cbn [w_dirs] in F1; rewrite Hdir in F1; by injection F1).
  rewrite <- (held_still _ _ _ S1) in Hs. rewrite <- (undisturbed_reach _ _ U (sl_reach _ _ S1)) in Hi. rewrite <- (sl_dirs _ _ S1) in Hdir.
  unfold st_try in H. destruct (wrapping _ _ w1) as [r2 w2] eqn:E2. pose proof E2 as (q2&F2&_)%wrapping_inv.
  assert (exists d, q2 = Ok d) as (d&->).
  { apply (sys_runs _ _ _ _ _ U) in F2. cbn [w_dirs] in F2. rewrite Hdir in F2. cbn [td_names] in F2. rewrite lookup_empty in F2.
    injection F2 as <- _. by eexists. }
  rewrite (wrapping_runs _ _ _ _ _ d _ E2 F2 eq_refl) in H. pose proof (CreateIn_inv _ _ _ _ Hdir F2) as (file&Hn&Hm&_&Hdirs&R).
  unfold st_bind at 1 in H. destruct (fill _ _ _ _ _ _ w2) as [r3 w3] eqn:E3.
  eapply fill_runs in E3 as (digest&->); [injection H as <- _; by eexists|done| | | |].
  - unfold held_object in *. rewrite Hm, lookup_insert_ne; [exact Hs|]. intros ->. by rewrite Hn in Hs.
  - by rewrite (undisturbed_reach _ _ U R).
  - rewrite Hm. apply lookup_insert_eq.
  - rewrite Hdirs, lookup_insert_eq. cbn. apply lookup_singleton_eq.
Qed.

(** Names of private directories are free. *)
Definition names_free (w : world) : Prop :=
  forall n, w_dirs w !! (os_TempDir E +:+ "/" +:+ "history-rag-snapshot-" +:+ os_random E n) = None.

Lemma newPrivate_runs sourcePath source modTime maxBytes identity w r w' id i : undisturbed ->
  newPrivateSnapshotWithIdentity E sourcePath source (len (in_data i)) modTime maxBytes identity w = (r, w') -> names_free w ->
  held_object w source = Some id -> t_inodes (w_tree w) !! id = Some i -> len (in_data i) <= maxBytes -> exists s, r = Ok s.
Proof.
  intros U H Hfree Hs Hi Hle. unfold newPrivateSnapshotWithIdentity in H. pose proof (len_nonneg (in_data i)).
  destruct (Z.ltb_spec (len (in_data i)) 0); [lia|]. destruct (Z.ltb_spec maxBytes (len (in_data i))); [lia|]. cbn [orb] in H.
  unfold st_try in H. destruct (wrapping _ _ w) as [r1 w1] eqn:E1. pose proof E1 as (q1&F1&_)%wrapping_inv.
  assert (exists directory, q1 = Ok directory) as (directory&->).
  { unfold MkdirTemp in F1. destruct (Z.to_nat 10000) as [|attempts] eqn:Ea; [done|]. clear Ea. cbn [mkdir_temp] in F1.
    unfold st_bind at 1 in F1. unfold st_bind in F1. destruct (sys E CMake _ w) as [made w1'] eqn:Es. apply (sys_runs _ _ _ _ _ U) in Es.
    cbn [w_dirs] in Es. rewrite (Hfree (w_calls w)) in Es. injection Es as <- <-. injection F1 as <- _. by eexists. }
  rewrite (wrapping_runs _ _ _ _ _ directory _ E1 F1 eq_refl) in H. apply mkdir_temp_inv in F1 as (_&Hm&R&_&Hd).
  unfold st_bind at 1 in H. destruct (populate _ _ _ _ _ w1) as [r2 w2] eqn:E2.
  eapply populate_runs in E2 as ([d digest]&->); [injection H as <- _; by eexists|done|by rewrite Hd, lookup_insert_eq| |by rewrite (undisturbed_reach _ _ U R)].
  unfold held_object in *. by rewrite Hm.
Qed.

Lemma copy_source_runs r rootPath sourcePath maxBytes parent name source held w res w' d pid i : undisturbed ->
  copy_source E r rootPath sourcePath maxBytes parent name source held w = (res, w') -> names_free w ->
  held_object w source = Some (st_ident held) -> t_inodes (w_tree w) !! st_ident held = Some i -> len (in_data i) <= maxBytes ->
  held_object w parent = Some pid -> names (w_tree w) pid name held -> is_ok (validateUnixFile held) = true ->
  pf_file r = Some d -> held_object w d = Some (st_ident (pf_stat r)) -> pinned r rootPath (w_tree w) -> exists s, res = Ok s.
Proof.
  intros U H Hfree Hs Hi Hle Hp Hn Hv Hf Hd Hpin. unfold copy_source in H. unfold st_bind at 1 in H.
  assert (forall w0 x w1, reach (w_tree w) (w_tree w0) -> held_object w0 source = Some (st_ident held) -> Stat E source w0 = (x, w1) ->
    x = Ok (mkInfo (len (in_data i)) (in_mtime i))) as Hstat.
  { intros w0 x w1 R Hs0 Hx. apply (sys_runs _ _ _ _ _ U) in Hx. unfold held_object in Hx, Hs0. cbn in Hx. rewrite Hs0 in Hx. cbn in Hx.
    rewrite (undisturbed_reach _ _ U R), Hi in Hx. by injection Hx. }
  destruct (Stat E source w) as [b w1] eqn:E1. pose proof E1 as [S1 _]%sys_look. rewrite (Hstat w b w1 (rtc_refl _ _) Hs E1) in H.
  cbn [fi_Size fi_ModTime] in H. unfold st_try in H. destruct (newPrivateSnapshotWithIdentity _ _ _ _ _ _ _ w1) as [r2 w2] eqn:E2.
  pose proof (undisturbed_reach _ _ U (sl_reach _ _ S1)) as T1.
  assert (exists s, r2 = Ok s) as (s&->).
  { eapply newPrivate_runs in E2; [exact E2|done| |by rewrite (held_still _ _ _ S1)|by rewrite T1|done]. intros n. rewrite (sl_dirs _ _ S1). apply Hfree. }
  apply newPrivate_inv in E2 as (R2&c&file&content&Hnew&Hm&_). rewrite (sl_fds _ _ S1) in Hnew, Hm.
  assert (forall x y, held_object w x = Some y -> held_object w2 x = Some y) as Hkeep.
  { intros x y Hx. unfold held_object in *. rewrite Hm, lookup_insert_ne; [done|]. intros ->. by rewrite Hnew in Hx. }
  assert (reach (w_tree w) (w_tree w2)) as R by (eapply rtc_trans; [apply S1|done]). pose proof (undisturbed_reach _ _ U R) as T2.
  unfold st_bind at 1 in H. destruct (Stat E source w2) as [a w3] eqn:E3. pose proof E3 as [S3 _]%sys_look.
  rewrite (Hstat w2 a w3 R (Hkeep _ _ Hs) E3) in H. unfold st_bind at 1 in H. destruct (unixStatAt E parent name w3) as [f w4] eqn:E4.
  pose proof E4 as [S4 _]%sys_look. pose proof (undisturbed_reach _ _ U (sl_reach _ _ S3)) as T3.
  eapply (unixStatAt_runs _ _ _ _ _ pid held U) in E4 as ->; [|rewrite (held_still _ _ _ S3); by apply Hkeep|by rewrite T3, T2].
  unfold sameUnixIdentity in H. rewrite Hv, bool_decide_true, !Z.eqb_refl in H by done. cbn [negb orb] in H.
  unfold st_bind in H. destruct (verify E r rootPath w4) as [v w5] eqn:E5.
  rewrite (verify_runs _ _ _ _ _ d U E5 Hf) in H; [injection H as <- _; by eexists| |].
  - rewrite (held_still _ _ _ S4), (held_still _ _ _ S3). by apply Hkeep.
  - by rewrite (undisturbed_reach _ _ U (sl_reach _ _ S4)), T3, T2.
Qed.

(** The held root is usable: its descriptor names what its path names. *)
Definition root_held (r : platformRoot) (rootPath : string) (w : world) : Prop :=
  exists d, pf_file r = Some d /\ held_object w d = Some (st_ident (pf_stat r)) /\ pinned r rootPath (w_tree w).

Lemma file_at_inv t root parts id i : file_at t root parts = Some (id, i) ->
  exists pid s, directory_at t root (removelast parts) = Some pid /\ names t pid (List.last parts "") s /\ st_ident s = id /\
    t_inodes t !! id = Some i /\ is_ok (validateUnixFile s) = true.
Proof.
  unfold file_at. destruct (directory_at _ _ _) as [pid|]; [|done]. cbn. destruct (t_inodes t !! pid) as [j|] eqn:Ej; [|done]. cbn.
  destruct (in_entries j !! _) as [id'|] eqn:Ee; [|done]. cbn. destruct (t_inodes t !! id') as [f|] eqn:Ef; [|done]. cbn.
  destruct (is_ok _) eqn:Ev; [|done]. intros [= <- <-]. exists pid, (mkStat id' (in_mode f) (in_nlink f)). split_and!; try done.
  exists j. split; [done|]. split; [done|]. unfold stat_of. cbn. by rewrite Ef.
Qed.

Lemma snapshot_runs r rootPath sourcePath parts maxBytes w res w' id i : undisturbed ->
  snapshot E r rootPath sourcePath parts maxBytes w = (res, w') -> names_free w -> root_held r rootPath w ->
  file_at (w_tree w) (st_ident (pf_stat r)) parts = Some (id, i) -> len (in_data i) <= maxBytes -> exists s, res = Ok s.
Proof.
  intros U H Hfree (d&Hf&Hd&Hpin) (pid&s&Hdir&Hn&<-&Hi&Hv)%file_at_inv Hle. unfold snapshot, with_source, around_source in H. unfold st_try at 1 in H.
  destruct (verify E r rootPath w) as [v w1] eqn:E1. pose proof E1 as [S1 _]%verify_inv. rewrite (verify_runs _ _ _ _ _ d U E1 Hf Hd Hpin) in H. clear E1.
  pose proof (undisturbed_reach _ _ U (sl_reach _ _ S1)) as T1. rewrite <- (held_still _ _ _ S1) in Hd.
  unfold st_bind at 1 in H. change (walk (open_checked E validateUnixDirectory true)) with (descend E) in H. destruct (descend E d _ [] w1) as [[walked opened] w2] eqn:E2.
  pose proof E2 as E2'. apply (descend_inv _ _ _ _ _ _ _ _ Hd) in E2' as (Hdirs&_&R2&l&_&Hl&_).
  eapply descend_runs in E2 as (parent&->&Hparent); [|done|exact Hd|rewrite T1; exact Hdir]. pose proof (undisturbed_reach _ _ U R2) as T2.
  assert (held_object w2 d = Some (st_ident (pf_stat r))) as Hd2.
  { unfold held_object in Hd |- *. destruct Hl as [Hl Hl']. destruct (decide (d ∈ l)) as [Hin|Hin]; [|by rewrite Hl'].
    destruct (Hl d Hin) as [Hno _]. by rewrite Hno in Hd. }
  cbn [fst snd] in H. unfold st_bind at 1, st_try in H. destruct (open_checked E validateUnixFile false parent _ w2) as [o w3] eqn:E3.
  destruct (open_checked_runs _ _ _ _ _ _ _ pid s U E3 Hparent) as (source&->); [by rewrite T2, T1|done|apply validate_plain; by right|done|].
  apply open_checked_inv in E3 as (G&_). cbn [fst snd] in H. pose proof (undisturbed_reach _ _ U (gr_reach _ _ _ _ G)) as T3.
  assert (forall x y, held_object w2 x = Some y -> held_object w3 x = Some y) as Hkeep.
  { intros x y Hx. unfold held_object in *. rewrite (gr_fds _ _ _ _ G), lookup_insert_ne; [done|]. intros ->. by rewrite (gr_new _ _ _ _ G) in Hx. }
  unfold st_bind at 1 in H. destruct (copy_source _ _ _ _ _ _ _ _ _ w3) as [rb w4] eqn:E4.
  assert (exists x, rb = Ok x) as (x&->).
  { eapply copy_source_runs in E4; [exact E4|done| |exact (held_grown _ _ _ _ G)|by rewrite T3, T2, T1|done|by apply Hkeep|by rewrite T3, T2, T1|done
      |exact Hf|by apply Hkeep|by rewrite T3, T2, T1]. intros n. rewrite (gr_dirs _ _ _ _ G), Hdirs, (sl_dirs _ _ S1). apply Hfree. }
  unfold st_bind in H. destruct (CloseFd E source w4) as [? w5]. cbn in H. destruct (close_all E opened w5) as [? w6].
  injection H as <- _. by eexists.
Qed.

(** [bind] holds the directory that its path names, or leaves nothing open; a root
    that is bound stays bound to the same object. *)
Lemma bind_pins r path w res r' w' : bind E r path w = ((res, r'), w') ->
  (pf_file r <> None -> r' = r) /\ w_dirs w' = w_dirs w /\
  match res with
  | Ok true => exists d t s, pf_file r' = Some d /\ between (w_tree w) t (w_tree w') /\
      t_paths t !! path = Some (st_ident s) /\ is_directory s = true /\ st_ident s = st_ident (pf_stat r') /\
      (pf_file r = None -> w_fds w !! d = None /\ w_fds w' = <[d := InTree (st_ident s)]> (w_fds w))
  | _ => r' = r /\ w_fds w' = w_fds w
  end.
Proof.
  unfold bind. destruct (pf_file r) as [d|] eqn:Ef.
  { unfold st_bind. destruct (verify E r path w) as [v w1] eqn:E1. apply verify_inv in E1 as [[Hd _ Hm R] Hv]. intros [= <- <- <-].
    split; [done|]. split; [done|]. destruct v as [d'|e]; [|done]. destruct (Hv d' eq_refl) as (Hf&_&s&Hp&_&Hid&Hdir).
    exists d, (w_tree w1), s. split; [done|]. split; [split; [done|apply rtc_refl]|]. by split_and!. }
  unfold st_bind at 1. destruct (Lstat E path w) as [b w1] eqn:E1. pose proof E1 as [S1 _]%sys_look. pose proof S1 as [Hd1 _ Hm1 R1]. destruct b as [b|e].
  2:{ intros [= <- <- <-]. split; [done|]. split; [done|]. by destruct (errors_Is e _). }
  apply Lstat_ok in E1 as (_&Hp&_). destruct (is_directory b) eqn:Edir; [|by intros [= <- <- <-]]. cbn [negb].
  unfold st_bind at 1. destruct (Open E path w1) as [o w2] eqn:E2. apply (sys_open_inv true (fun w => t_paths (w_tree w) !! path)) in E2.
  destruct o as [d|e]; [|intros [= <- <- <-]; destruct E2; split_and!; congruence]. destruct E2 as (o&_&G).
  unfold st_bind at 1. destruct (Fstat E d w2) as [h w3] eqn:E3. pose proof E3 as [S3 _]%sys_look.
  assert (grown d (InTree o) w w3) as G3 by (eapply grown_still; [by eapply still_grown|done]).
  assert (forall u w4, CloseFd E d w3 = (u, w4) -> w_dirs w4 = w_dirs w /\ w_fds w4 = w_fds w) as Hclose
    by (intros u w4 Hc; by destruct (grown_closed _ _ _ _ _ _ G3 Hc)).
  destruct h as [h|e].
  2:{ unfold st_bind. destruct (CloseFd E d w3) as [u w4] eqn:E4. intros [= <- <- <-]. by destruct (Hclose u w4 eq_refl). }
  destruct (_ || _) eqn:Ec.
  { unfold st_bind. destruct (CloseFd E d w3) as [u w4] eqn:E4. intros [= <- <- <-]. by destruct (Hclose u w4 eq_refl). }
  intros [= <- <- <-]. split; [done|]. split; [apply G3|]. apply orb_false_iff in Ec as [Hsame%negb_false_iff%bool_decide_eq_true _].
  exists d, (w_tree w1), b. split; [done|]. split; [split; [done|eapply rtc_trans; [apply G|apply S3]]|]. do 3 (split; [done|]). intros _.
  split; [apply G3|]. rewrite (gr_fds _ _ _ _ G3). apply Fstat_ok in E3 as (_&Hheld&_).
  rewrite (held_grown _ _ _ _ G) in Hheld. injection Hheld as ->. by rewrite Hsame.
Qed.

(** ** Properties *)

(** What [forwardSourceIdentity] returns is the identity of an object that was
    reached in the same way as the source of a snapshot; nothing is left open. *)
Lemma sourceIdentity_inv r rootPath parts w res w' : sourceIdentity E r rootPath parts w = (res, w') ->
  w_dirs w' = w_dirs w /\ w_fds w' = w_fds w /\
  forall v, res = Ok v -> exists pid id, v = mkIdentity (fst id) (snd id) /\
    reached (w_tree w) (w_tree w') (st_ident (pf_stat r)) (removelast parts) pid /\
    seen validateUnixFile w w' pid (List.last parts "") id.
Proof.
  unfold sourceIdentity. intros [([Hd _ Hm _]&e&->)|(parent&name&source&held&w1&w2&A&Hb&Hd&Hf&Hr&Hx)]%with_source_inv; [done|].
  unfold st_bind in Hb. destruct (verify E r rootPath w1) as [v w3] eqn:E3. apply verify_inv in E3 as [S3 _].
  assert (w3 = w2) as -> by (destruct v; by injection Hb). destruct (Hx []) as [Hm%adds_nil _]; [apply adds_nil, S3|].
  split; [rewrite Hd, (sl_dirs _ _ S3); apply A|]. split; [done|]. intros u ->. destruct v as [v|e]; [|done]. injection Hb as <-.
  destruct A as [_ (pid&_&Hreached&t&s&Hb&Hs) _ -> _ _ _ _]. rewrite List.map_id in Hreached. exists pid, (st_ident held).
  assert (reach (w_tree w1) (w_tree w')) as R by (eapply rtc_trans; [apply S3|done]).
  split; [done|]. split; [eapply reached_mono; [apply rtc_refl|exact R|done]|].
  exists t, s. split; [eapply between_mono; [apply rtc_refl|exact R|done]|done].
Qed.


(** C22: a snapshot leaks nothing, whichever calls fail: when it is refused every
    descriptor that was opened is closed again, and the private directory is gone
    unless a removal failed; when it is taken it holds one new descriptor and one
    new directory of mode 0700 with a file of mode 0400 in it, which closing it
    gives back, and closing it again changes nothing. *)
Theorem snapshot_released r rootPath sourcePath parts maxBytes w res w' :
  snapshot E r rootPath sourcePath parts maxBytes w = (res, w') ->
  match res with
  | Fail _ => w_fds w' = w_fds w /\ (removals_work -> w_dirs w' = w_dirs w)
  | Ok s => exists d file f, ss_file s = Some d /\ w_fds w !! d = None /\ delete d (w_fds w') = w_fds w /\
      w_dirs w !! ss_directory s = None /\
      w_dirs w' = <[ss_directory s := mkTDir 448 {["source" := file]}]> (w_dirs w) /\
      w_files w' !! file = Some f /\ tf_mode f = 256 /\
      forall failures s' w'', CloseSnapshot E s w' = ((failures, s'), w'') ->
        w_fds w'' = w_fds w /\ (removals_work -> w_dirs w'' = w_dirs w) /\
        forall w3, CloseSnapshot E s' w3 = ((failures, s'), w3) /\ Reader s' w3 = Fail ErrSnapshotClosed
  end.
Proof.
  intros H%snapshot_inv. destruct res as [s|e]; [|done].
  destruct H as (d&file&content&parent&name&source&held&w1&w2&_&_&_&[Ha1 Ha2]&Hp&_). pose proof Hp as [Hfile Hopen [Hd Hf] Hnew Hdirs _ _].
  destruct (Ha1 d) as [Hnone _]; [by left|].
  assert (delete d (w_fds w') = w_fds w) as Hdel.
  { apply map_eq. intros x. destruct (decide (x = d)) as [->|Hne]; [by rewrite lookup_delete_eq|].
    rewrite lookup_delete_ne by done. apply Ha2. set_solver. }
  exists d, file, (mkTFile 256 content (ss_modTime s)). do 7 (split; [done|]). intros failures s' w'' Hc.
  destruct (CloseSnapshot_inv _ _ _ _ _ _ _ _ _ Hp Hc) as (Hm&_&Hrem&Hagain). split; [by rewrite Hm|done].
Qed.

Lemma reached_directory t root components pid : undisturbed -> reached t t root components pid -> directory_at t root components = Some pid.
Proof.
  intros U. induction 1 as [|root name id rest pid u s [Hb _] (i&Hi&He&Hs) <- Hd _ IH]; [done|].
  rewrite (undisturbed_reach _ _ U Hb) in *. cbn [directory_at]. rewrite Hi. cbn. rewrite He. cbn. by rewrite Hs, Hd.
Qed.

(** With nothing else at work a source can be copied exactly when it is there:
    below a root that is held, [snapshot] succeeds exactly for the regular files
    with one link that the parts lead to through directories and that fit the
    limit, and the copy is the data of that file. *)
Theorem snapshot_exact r rootPath sourcePath parts maxBytes w res w' : undisturbed -> names_free w -> root_held r rootPath w ->
  snapshot E r rootPath sourcePath parts maxBytes w = (res, w') ->
  match file_at (w_tree w) (st_ident (pf_stat r)) parts with
  | Some (id, i) =>
      if len (in_data i) <=? maxBytes
      then exists s, res = Ok s /\ Reader s w' = Ok (in_data i) /\ ss_digest s = Sum256 (in_data i) /\
             ss_identity s = mkIdentity (fst id) (snd id)
      else is_ok res = false
  | None => is_ok res = false
  end.
Proof.
  intros U Hfree Hroot H.
  assert (forall s, res = Ok s -> exists id i, file_at (w_tree w) (st_ident (pf_stat r)) parts = Some (id, i) /\ len (in_data i) <= maxBytes /\
    Reader s w' = Ok (in_data i) /\ ss_digest s = Sum256 (in_data i) /\ ss_identity s = mkIdentity (fst id) (snd id)) as Hsound.
  { intros s ->. assert (honest) as Hh by (intros n t id i Hi; exists i; by rewrite (un_change U)).
    pose proof H as (d&file&content&parent&name&source&held&w1&w2&A&R1&R2&_&Hp&_&Hident&Hle&_&Hc)%snapshot_inv.
    destruct (Hc Hh) as (t&i&[Hb _]&Hi&->&_). destruct A as [_ (pid&_&Hreached&t'&s'&[Hb' _]&(j&Hj&He&Hs)&Hid&Hv) _ -> _ _ _ R0]. rewrite List.map_id in Hreached. cbn [id] in He.
    rewrite (undisturbed_reach _ _ U Hb), (undisturbed_reach _ _ U R0) in Hi. rewrite (undisturbed_reach _ _ U R0) in Hreached.
    rewrite (undisturbed_reach _ _ U Hb') in *. exists (st_ident held), i. split.
    - unfold file_at. rewrite (reached_directory _ _ _ _ U Hreached). cbn. rewrite Hj. cbn. rewrite He, Hid. cbn. rewrite Hi. cbn.
      unfold stat_of in Hs. rewrite Hid, Hi in Hs. injection Hs as <-. cbn in Hid, Hv. by rewrite Hv.
    - split; [destruct Hp; lia|]. split; [by eapply private_copy_reader|]. destruct Hp. done. }
  destruct (file_at _ _ parts) as [[id i]|] eqn:Ef.
  - destruct (Z.leb_spec (len (in_data i)) maxBytes) as [Hle|Hgt].
    + destruct (snapshot_runs _ _ _ _ _ _ _ _ id i U H Hfree Hroot Ef Hle) as (s&->). exists s. split; [done|].
      destruct (Hsound s eq_refl) as (id'&i'&[= <- <-]&_&?&?&?). done.
    + destruct res as [s|]; [|done]. destruct (Hsound s eq_refl) as (id'&i'&[= <- <-]&?&_). lia.
  - destruct res as [s|]; [|done]. by destruct (Hsound s eq_refl) as (id'&i'&?&_).
Qed.

End Spec.

(** ** The watcher's view *)

(** What the watcher reads of a snapshot. *)
Definition view (s : Snapshot) (w : world) : Watch.Snapshot :=
  Watch.mkSnapshot (match Reader s w with Ok content => content | Fail _ => "" end) (ss_sourcePath s) (ss_identity s) (ss_size s) (ss_digest s).

(** An environment of the watcher whose snapshots are those of a platform keeps
    the promise on digests that the theorems of the watcher rely on. *)
Lemma platform_digests W :
  (forall l c parts n s, e_snapshot W l c parts n = Ok s ->
     exists E r rootPath w s' w', snapshot E r rootPath c parts n w = (Ok s', w') /\ s = view s' w') ->
  digests_ok W.
Proof.
  intros H l c parts n s Hs. destruct (H _ _ _ _ _ Hs) as (E&r&rootPath&w&s'&w'&Hr&->).
  apply snapshot_inv in Hr as (d&file&content&parent&name&source&held&w1&w2&_&_&_&_&Hp&_). cbn.
  rewrite (pc_digest _ _ _ _ _ _ Hp). unfold len. by rewrite Sum256_length.
Qed.

(** ** Examples *)

Module WatchRootSamples.

Definition root_stat : stat := mkStat (1, 1) (Durable.S_IFDIR + 448) 2.
Definition sample_tree : tree := mkTree {["/w" := (1, 1)]}
  (<[(1, 1) := mkInode (Durable.S_IFDIR + 448) 2 "" 10 {["p" := (1, 2)]}]>
   (<[(1, 2) := mkInode (Durable.S_IFDIR + 448) 2 "" 10 {["s.jsonl" := (1, 3)]}]>
    {[(1, 3) := mkInode (Durable.S_IFREG + 384) 1 "one line" 20 ∅]})).
Definition sample_root : platformRoot := mkPlatformRoot (Some 0%nat) root_stat.
Definition sample_world : world := mkWorld sample_tree ∅ ∅ {[0%nat := InTree (1, 1)]} 0.

(** Another process appends to the source before the first call. *)
Definition append (t : tree) : tree :=
  mkTree (t_paths t) (alter (fun i => mkInode (in_mode i) (in_nlink i) (in_data i +:+ "!") (in_mtime i + 1) (in_entries i)) (1, 3) (t_inodes t)).
Definition busy : OS := mkOS (fun n t => match n with O => append t | _ => t end) (fun _ _ => None) (fun _ => "7") "/tmp".
(** Nothing else is at work. *)
Definition calm : OS := mkOS (fun _ t => t) (fun _ _ => None) (fun _ => "7") "/tmp".
Definition sample_run (E : OS) : result Snapshot * world := snapshot E sample_root "/w" "/w/p/s.jsonl" ["p"; "s.jsonl"] 100 sample_world.

Lemma busy_honest : honest busy.
Proof.
  intros n t id i Hi. destruct n as [|n]; [|by exists i]. destruct (decide (id = (1, 3))) as [->|Hne].
  - eexists. split; [cbn; rewrite lookup_alter_eq, Hi; reflexivity|]. cbn. split; lia.
  - exists i. cbn. rewrite lookup_alter_ne by done. by split_and!.
Qed.


Lemma snapshot_released_witness : exists s w' d, sample_run busy = (Ok s, w') /\ ss_file s = Some d.
Proof.
  destruct (sample_run busy) as [r w'] eqn:Er. destruct r as [s|e].
  2:{ exfalso. assert (is_ok (fst (sample_run busy)) = true) as H by (vm_compute; reflexivity). rewrite Er in H. discriminate. }
  destruct (snapshot_released busy _ _ _ _ _ _ (Ok s) w' Er) as (d&file&f&Hd&_). exists s, w', d. split; [reflexivity|exact Hd].
Defined.

Lemma snapshot_exact_witness : exists s w', sample_run calm = (Ok s, w') /\ Reader s w' = Ok "one line".
Proof.
  destruct (sample_run calm) as [r w'] eqn:Er.
  destruct (snapshot_exact calm sample_root "/w" "/w/p/s.jsonl" ["p"; "s.jsonl"] 100 sample_world r w') as (s&->&Hr&_).
  - split; reflexivity.
  - intros n. reflexivity.
  - exists 0%nat. split; [reflexivity|]. split; [reflexivity|]. exists root_stat. split_and!; vm_compute; reflexivity.
  - exact Er.
  - exists s, w'. split; [reflexivity|exact Hr].
Defined.

(** The appended byte is part of the copy; what is too large or not a file is refused. *)
Example busy_copy : (let '(r, w) := sample_run busy in match r with Ok s => Reader s w | Fail e => Fail e end) = Ok "one line!".
Proof. vm_compute. reflexivity. Qed.
Example limit_refused : fst (snapshot calm sample_root "/w" "/w/p/s.jsonl" ["p"; "s.jsonl"] 7 sample_world) = Fail ErrSnapshotLimit.
Proof. vm_compute. reflexivity. Qed.
Example directory_refused : fst (snapshot calm sample_root "/w" "/w/p" ["p"] 100 sample_world) = Fail ErrUnsafeSource.
Proof. vm_compute. reflexivity. Qed.
End WatchRootSamples.
