(* ===== verification/WatchRootWindows.v ===== *)
(** * Pinned roots on Windows

    [internal/history/watch/root_windows.go] and [forward_identity_windows.go], over
    the system of [WatchRoot]: the mode of an object has its type in the [S_IFMT]
    bits, which give the directory attribute, and the other file attributes above
    bit 16; the entries of a directory are kept under the names that
    [OBJ_CASE_INSENSITIVE] compares. An entry is opened relative to the handle of its
    directory, and opened again to see that it still names the same object. *)
From Stdlib Require Import ZArith Lia Bool.
From Stdlib Require Import String Ascii.
From stdpp Require Import base tactics option list gmap infinite strings relations.
From S2P Require Import Prelude GoStrings Watch Sha256 Durable DurableWindows WatchRoot WatchRootSpec.
Open Scope Z_scope.

Module WatchRootWindows.
Import WatchRoot.

Definition STATUS_REPARSE_POINT_ENCOUNTERED : error := Sentinel "STATUS_REPARSE_POINT_ENCOUNTERED".
Definition STATUS_NOT_A_DIRECTORY : error := Sentinel "STATUS_NOT_A_DIRECTORY".
Definition STATUS_FILE_IS_A_DIRECTORY : error := Sentinel "STATUS_FILE_IS_A_DIRECTORY".

(** The name an entry is compared under, and the strings that
    [windows.NewNTUnicodeString] and [windows.UTF16PtrFromString] refuse. *)
Class WinNames : Type := {
  win_fold : string -> string;
  NewNTUnicodeString : string -> option error;
  UTF16PtrFromString : string -> option error
}.

Definition reparse (s : stat) : bool := DurableWindows.is_reparse (st_mode s).
Definition symlink (s : stat) : bool := Z.land (st_mode s) Durable.S_IFMT =? Durable.S_IFLNK.

(** [platformRoot]: the handle, what [Stat] gave when it was opened (its identity is
    all that is used), and the identity of the handle. *)
Record platformRoot : Type := mkPlatformRoot { pw_file : option nat; pw_info : ident; pw_identity : RootIdentity }.
Definition isBound (r : platformRoot) : bool := match pw_file r with Some _ => true | None => false end.
Definition identity (r : platformRoot) : RootIdentity := pw_identity r.

Section Calls.
Context `{WinNames} (E : OS).

(** [os.Lstat] and [windows.GetFileAttributes] with the checks; the identity of the
    result is taken from the path when [os.SameFile] needs it. *)
Definition windowsLstat (path : string) (directory : bool) : M unit :=
  let? info := Lstat E path in
  match UTF16PtrFromString path with
  | Some err => fail err
  | None =>
      let? attributes := Lstat E path in
      if symlink info || reparse attributes || negb (eqb (is_directory info) directory) then fail ErrUnsafeRoot else ret tt
  end.

(** [os.SameFile] of an opened file and the result of [windowsLstat]. *)
Definition same_named (id : ident) (path : string) : st world bool :=
  let* named := Lstat E path in
  st_ret (match named with Ok named => bool_decide (st_ident named = id) | Fail _ => false end).

(** [windows.CreateFile] with [FILE_FLAG_OPEN_REPARSE_POINT]: a link is not
    followed, and not refused either. *)
Definition CreateFile (path : string) : M nat := sys E COpen (fun w =>
  match t_paths (w_tree w) !! path with
  | None => (Fail ENOENT, w)
  | Some id => let '(d, w) := add_fd w (InTree id) in (Ok d, w)
  end).

(** [windows.NtCreateFile] relative to a directory, with [OBJ_DONT_REPARSE]. *)
Definition NtCreateFile (parent : nat) (name : string) (directory : bool) : M nat := sys E COpen (fun w =>
  match entry w parent (win_fold name) ≫= fun id => i ← t_inodes (w_tree w) !! id; Some (id, i) with
  | None => (Fail ENOENT, w)
  | Some (id, i) =>
      let s := mkStat id (in_mode i) (in_nlink i) in
      if reparse s then (Fail STATUS_REPARSE_POINT_ENCOUNTERED, w)
      else if directory && negb (is_directory s) then (Fail STATUS_NOT_A_DIRECTORY, w)
      else if negb directory && is_directory s then (Fail STATUS_FILE_IS_A_DIRECTORY, w)
      else let '(d, w) := add_fd w (InTree id) in (Ok d, w)
  end).

(** ** The held root *)

Definition same_identity (s : stat) (r : RootIdentity) : bool :=
  (fst (st_ident s) =? Volume r mod 2 ^ 32) && (snd (st_ident s) =? Object r).

Definition verify (r : platformRoot) (path : string) : M nat :=
  match pw_file r with
  | None => fail ErrRootUnbound
  | Some handle =>
      let* held := Fstat E handle in
      match held with
      | Fail _ => fail ErrRootChanged
      | Ok held =>
          let* heldInfo := Fstat E handle in
          match heldInfo with
          | Fail _ => fail ErrRootChanged
          | Ok heldInfo =>
              if reparse heldInfo || negb (is_directory heldInfo) || negb (same_identity heldInfo (pw_identity r)) then fail ErrRootChanged
              else
                let* named := windowsLstat path true in
                match named with
                | Fail _ => fail ErrRootChanged
                | Ok _ =>
                    if negb (bool_decide (pw_info r = st_ident held)) then fail ErrRootChanged
                    else
                      let* same := same_named (st_ident held) path in
                      if negb same then fail ErrRootChanged else ret handle
                end
          end
      end
  end.

(** [bind]: whether the root is bound now, and its new state. *)
Definition bind (r : platformRoot) (path : string) : st world (result bool * platformRoot) :=
  match pw_file r with
  | Some _ =>
      let* v := verify r path in
      st_ret (match v with Fail e => Fail e | Ok _ => Ok true end, r)
  | None =>
      let* before := windowsLstat path true in
      match before with
      | Fail e => st_ret (if errors_Is e ENOENT then Ok false else Fail e, r)
      | Ok _ =>
          match UTF16PtrFromString path with
          | Some err => st_ret (Fail err, r)
          | None =>
              let* handle := CreateFile path in
              match handle with
              | Fail e => st_ret (Fail (Wrapf "hold watch root: %w" [] e), r)
              | Ok handle =>
                  let refuse e := let* _ := CloseFd E handle in st_ret (Fail e, r) in
                  let* opened := Fstat E handle in
                  match opened with
                  | Fail _ => refuse ErrRootChanged
                  | Ok opened =>
                      let* same := same_named (st_ident opened) path in
                      if negb same then refuse ErrRootChanged
                      else
                        let* handleInfo := Fstat E handle in
                        match handleInfo with
                        | Fail _ => refuse ErrUnsafeRoot
                        | Ok handleInfo =>
                            if reparse handleInfo then refuse ErrUnsafeRoot
                            else st_ret (Ok true, mkPlatformRoot (Some handle) (st_ident opened) (identity_of handleInfo))
                        end
                  end
              end
          end
      end
  end.

Definition close (r : platformRoot) : st world (result unit * platformRoot) :=
  match pw_file r with
  | None => st_ret (Ok tt, r)
  | Some handle => let* err := CloseFd E handle in st_ret (err, mkPlatformRoot None (pw_info r) (pw_identity r))
  end.

(** ** Entries *)

Definition safe_entry (directory : bool) (information : stat) : result unit :=
  if reparse information || negb (eqb directory (is_directory information)) || (negb directory && negb (st_nlink information =? 1))
  then Fail ErrUnsafeSource else Ok tt.

Definition openWindowsRelative (parent : nat) (name : string) (directory : bool) : M (nat * stat) :=
  match NewNTUnicodeString name with
  | Some err => fail err
  | None =>
      let? handle := NtCreateFile parent name directory in
      let* information := Fstat E handle in
      match information with
      | Fail err => let* _ := CloseFd E handle in fail err
      | Ok information =>
          match safe_entry directory information with
          | Fail err => let* _ := CloseFd E handle in fail err
          | Ok _ => ret (handle, information)
          end
      end
  end.

Definition sameWindowsIdentity (left right : stat) : bool := bool_decide (st_ident left = st_ident right).

Definition reopenWindowsRelative (parent : nat) (name : string) (directory : bool) (expected : stat) : M unit :=
  let* current := openWindowsRelative parent name directory in
  match current with
  | Fail _ => fail ErrUnsafeSource
  | Ok (current, information) =>
      let* _ := CloseFd E current in
      if negb (sameWindowsIdentity expected information) then fail ErrUnsafeSource else ret tt
  end.

(** What the code does around opening an entry. *)
Definition open_entry (directory : bool) (parent : nat) (name : string) : M (nat * stat) :=
  let* opened := openWindowsRelative parent name directory in
  match opened with
  | Fail _ => fail ErrUnsafeSource
  | Ok (opened, identity) =>
      let* again := reopenWindowsRelative parent name directory identity in
      match again with
      | Fail err => let* _ := CloseFd E opened in fail err
      | Ok _ => ret (opened, identity)
      end
  end.

(** ** Snapshots and identities of sources *)

Definition copy_source (r : platformRoot) (rootPath sourcePath : string) (maxBytes : Z)
  (parent : nat) (name : string) (source : nat) (identity : stat) : M Snapshot :=
  let* before := Stat E source in
  match before with
  | Fail _ => fail ErrUnsafeSource
  | Ok before =>
      let? snapshot := newPrivateSnapshotWithIdentity E sourcePath source (fi_Size before) (fi_ModTime before) maxBytes
                         (identity_of identity) in
      let* after := Stat E source in
      match after with
      | Fail _ => refuse E snapshot ErrSourceChanged
      | Ok after =>
          if negb (fi_Size before =? fi_Size after) || negb (fi_ModTime before =? fi_ModTime after) then refuse E snapshot ErrSourceChanged
          else
            let* again := reopenWindowsRelative parent name false identity in
            match again with
            | Fail _ => refuse E snapshot ErrSourceChanged
            | Ok _ =>
                let* v := verify r rootPath in
                match v with
                | Fail e => refuse E snapshot e
                | Ok _ => ret snapshot
                end
            end
      end
  end.

Definition snapshot (r : platformRoot) (rootPath sourcePath : string) (parts : list string) (maxBytes : Z) : M Snapshot :=
  around_source E (verify r rootPath) (open_entry true) (open_entry false) parts (copy_source r rootPath sourcePath maxBytes).

(** [forwardSourceIdentity] after its checks on the path and the root. *)
Definition sourceIdentity (r : platformRoot) (rootPath : string) (parts : list string) : M RootIdentity :=
  around_source E (verify r rootPath) (open_entry true) (open_entry false) parts (fun _ _ _ identity =>
    let* v := verify r rootPath in
    match v with
    | Fail e => fail e
    | Ok _ => ret (identity_of identity)
    end).
End Calls.

End WatchRootWindows.

(** ** What a pinned root promises on Windows

    The promises of [WatchRootSpec] for the Windows build: the checks of the platform
    meet the contracts [opens] and [verifies], and the snapshot and the identity of a
    source follow from the lemmas on [around_source]. *)
Import WatchRoot.
Import WatchRootWindows.

Section Spec.
Context `{WinNames} (E : OS).

#[local] Instance still_pre : PreOrder (still E) := WatchRootSpec.still_preorder E.

Lemma windowsLstat_still path directory w res w' : windowsLstat E path directory w = (res, w') -> still E w w'.
Proof.
  unfold windowsLstat, st_try. destruct (Lstat E path w) as [r1 w1] eqn:E1. apply sys_look in E1 as [S1 _].
  destruct r1; [|by intros [= <- <-]]. destruct (UTF16PtrFromString path); [by intros [= <- <-]|].
  destruct (Lstat E path w1) as [r2 w2] eqn:E2. apply sys_look in E2 as [S2 _].
  destruct r2; [destruct (_ || _)|]; intros [= <- <-]; by transitivity w1.
Qed.

Lemma same_named_inv id path w b w' : same_named E id path w = (b, w') ->
  still E w w' /\ (b = true -> t_paths (w_tree w') !! path = Some id).
Proof.
  unfold same_named, st_bind. destruct (Lstat E path w) as [r1 w1] eqn:E1. pose proof E1 as [S1 _]%sys_look. intros [= <- <-].
  split; [done|]. destruct r1 as [s|]; [|done]. apply Lstat_ok in E1 as (_&Hp&_). by intros <-%bool_decide_eq_true.
Qed.

(** The path names the object that the root was bound to. *)
Definition windows_pinned (r : platformRoot) (path : string) (t : tree) : Prop := t_paths t !! path = Some (pw_info r).

Lemma windows_verifies r path : verifies E (windows_pinned r path) (pw_info r) (verify E r path).
Proof.
  intros w res w'. unfold verify. destruct (pw_file r) as [d|]; [|by intros [= <- <-]].
  unfold st_bind at 1. destruct (Fstat E d w) as [held w1] eqn:E1. pose proof E1 as [S1 _]%sys_look.
  destruct held as [held|]; [|by intros [= <- <-]]. apply Fstat_ok in E1 as (_&Hd&_).
  unfold st_bind at 1. destruct (Fstat E d w1) as [info w2] eqn:E2. apply sys_look in E2 as [S2 _].
  assert (still E w w2) as S02 by (by transitivity w1). destruct info as [info|]; [|by intros [= <- <-]].
  destruct (_ || _); [by intros [= <- <-]|]. unfold st_bind at 1. destruct (windowsLstat E path true w2) as [named w3] eqn:E3.
  apply windowsLstat_still in E3. assert (still E w w3) as S03 by (by transitivity w2). destruct named; [|by intros [= <- <-]].
  case_bool_decide as Hi; [|by intros [= <- <-]]. cbn [negb]. unfold st_bind. destruct (same_named E (st_ident held) path w3) as [b w4] eqn:E4.
  apply same_named_inv in E4 as [S4 Hp]. assert (still E w w4) as S04 by (by transitivity w3).
  destruct b; intros [= <- <-]; (split; [done|]); [|done]. intros d' [= <-]. unfold windows_pinned. rewrite Hi. auto.
Qed.

(** ** Entries *)

(** What the open itself guarantees: no reparse point, and the right kind. *)
Definition kind_entry (directory : bool) (s : stat) : result unit :=
  if reparse s || negb (eqb directory (is_directory s)) then Fail ErrUnsafeSource else Ok tt.

Lemma NtCreateFile_inv parent name directory w r w' : NtCreateFile E parent name directory w = (r, w') ->
  match r with
  | Fail _ => still E w w'
  | Ok d => exists pid s, held_object w parent = Some pid /\ names (w_tree w') pid (win_fold name) s /\
      is_ok (kind_entry directory s) = true /\ grown E d (InTree (st_ident s)) w w'
  end.
Proof.
  intros [(e&_&->&->)|[_ Ha]]%sys_inv; [apply tick_still|]. revert Ha. unfold entry.
  change (held_object (tick E w) parent) with (held_object w parent).
  destruct (held_object w parent) as [pid|]; cbn [mbind option_bind]; [|intros [= <- <-]; apply tick_still].
  destruct (t_inodes (w_tree (tick E w)) !! pid) as [p|] eqn:Ep; cbn [mbind option_bind]; [|intros [= <- <-]; apply tick_still].
  destruct (in_entries p !! win_fold name) as [o|] eqn:Eo; cbn [mbind option_bind]; [|intros [= <- <-]; apply tick_still].
  destruct (t_inodes (w_tree (tick E w)) !! o) as [i|] eqn:Ei; cbn [mbind option_bind]; [|intros [= <- <-]; apply tick_still].
  set (s := mkStat o (in_mode i) (in_nlink i)).
  destruct (reparse s) eqn:Er; [intros [= <- <-]; apply tick_still|].
  destruct (directory && _) eqn:E1; [intros [= <- <-]; apply tick_still|]. destruct (negb directory && _) eqn:E2; [intros [= <- <-]; apply tick_still|].
  intros [= <- <-]. exists pid, s. split; [done|]. split; [|split].
  - exists p. split; [done|]. split; [done|]. unfold stat_of. cbn. cbn in Ei. by rewrite Ei.
  - unfold kind_entry. rewrite Er. by destruct directory, (is_directory s).
  - split; try done; [apply fresh_fd|apply tick_reach].
Qed.

Lemma openWindowsRelative_inv parent name directory w r w' : openWindowsRelative E parent name directory w = (r, w') ->
  match r with
  | Fail _ => still E w w'
  | Ok (d, held) => grown E d (InTree (st_ident held)) w w' /\ held_as E (safe_entry directory) w w' held /\
      exists pid, held_object w parent = Some pid /\ seen E (kind_entry directory) w w' pid (win_fold name) (st_ident held)
  end.
Proof.
  unfold openWindowsRelative. destruct (NewNTUnicodeString name); [by intros [= <- <-]|].
  unfold st_try. destruct (NtCreateFile E parent name directory w) as [h w1] eqn:E1. apply NtCreateFile_inv in E1.
  destruct h as [d|e]; [|by intros [= <- <-]]. destruct E1 as (pid&s&Hp&Hn&Hk&G).
  unfold st_bind at 1. destruct (Fstat E d w1) as [info w2] eqn:E2. pose proof E2 as [S2 _]%sys_look.
  assert (grown E d (InTree (st_ident s)) w w2) as G2 by (by eapply grown_still).
  assert (forall u w3, CloseFd E d w2 = (u, w3) -> still E w w3) as Hclose by (intros u w3; by apply grown_closed with (h := InTree (st_ident s))).
  destruct info as [info|e]; [|unfold st_bind; destruct (CloseFd E d w2) as [u w3] eqn:E3; intros [= <- <-]; by eapply Hclose].
  destruct (safe_entry directory info) eqn:Es; [|unfold st_bind; destruct (CloseFd E d w2) as [u w3] eqn:E3; intros [= <- <-]; by eapply Hclose].
  intros [= <- <-]. apply Fstat_ok in E2 as (_&Hh&Hs). rewrite (held_grown _ _ _ _ _ G) in Hh. injection Hh as Hid. rewrite <- Hid in *. split; [done|].
  split; [split; [by rewrite Es|]; exists (w_tree w2); rewrite <- Hid; split; [split; [apply G2|apply rtc_refl]|done]|].
  exists pid. split; [done|]. exists (w_tree w1), s. split; [split; [apply G|apply S2]|done].
Qed.

Lemma reopen_still parent name directory expected w r w' : reopenWindowsRelative E parent name directory expected w = (r, w') ->
  still E w w' /\ (forall e, r = Fail e -> e = ErrUnsafeSource).
Proof.
  unfold reopenWindowsRelative, st_bind at 1. destruct (openWindowsRelative E parent name directory w) as [o w1] eqn:E1.
  apply openWindowsRelative_inv in E1. destruct o as [[d held]|e]; [|intros [= <- <-]; split; [done|congruence]]. destruct E1 as (G&_).
  unfold st_bind. destruct (CloseFd E d w1) as [u w2] eqn:E2. pose proof (grown_closed _ _ _ _ _ _ _ G E2) as S2.
  destruct (negb _); intros [= <- <-]; (split; [done|congruence]).
Qed.

Lemma open_entry_opens directory : opens E (kind_entry directory) (safe_entry directory) win_fold (open_entry E directory).
Proof.
  intros parent name w r w'. unfold open_entry, st_bind at 1.
  destruct (openWindowsRelative E parent name directory w) as [o w1] eqn:E1. apply openWindowsRelative_inv in E1.
  destruct o as [[d held]|e]; [|by intros [= <- <-]]. destruct E1 as (G&(Hc&t&Hb&Ht)&pid&Hp&t'&s&Hb'&Hs).
  unfold st_bind at 1. destruct (reopenWindowsRelative E parent name directory held w1) as [a w2] eqn:E2. apply reopen_still in E2 as [S2 He].
  destruct a as [u|e].
  - intros [= <- <-]. split; [by eapply grown_still|]. split.
    + split; [done|]. exists t. split; [|done]. eapply between_mono; [apply rtc_refl|apply S2|done].
    + exists pid. split; [done|]. exists t', s. split; [|done]. eapply between_mono; [apply rtc_refl|apply S2|done].
  - unfold st_bind. destruct (CloseFd E d w2) as [u w3] eqn:E3. intros [= <- <-]. split; [|by apply He].
    eapply grown_closed; [by eapply grown_still|done].
Qed.

Lemma kind_directory s : is_ok (kind_entry true s) = true -> is_directory s = true.
Proof. unfold kind_entry. by destruct (reparse s), (is_directory s). Qed.

Definition windows_source (r : platformRoot) (rootPath : string) : list string -> world -> world -> nat -> string -> nat -> stat -> Prop :=
  around E (windows_pinned r rootPath) (pw_info r) (kind_entry false) (safe_entry false) win_fold.

Lemma windows_around_inv {A} r rootPath parts (body : nat -> string -> nat -> stat -> M A) w res w' :
  around_source E (verify E r rootPath) (open_entry E true) (open_entry E false) parts body w = (res, w') ->
  (still E w w' /\ exists e, res = Fail e) \/
  exists parent name source held w1 w2, windows_source r rootPath parts w w1 parent name source held /\
    body parent name source held w1 = (res, w2) /\
    w_dirs w' = w_dirs w2 /\ w_files w' = w_files w2 /\ reach E (w_tree w2) (w_tree w') /\
    forall x, adds x (w_fds w1) (w_fds w2) -> adds x (w_fds w) (w_fds w') /\ (forall d, d ∈ x -> w_fds w' !! d = w_fds w2 !! d).
Proof. apply around_source_inv with (vdir := kind_entry true) (cdir := safe_entry true); [apply windows_verifies|apply open_entry_opens|apply open_entry_opens|apply kind_directory]. Qed.

(** ** Snapshots *)

(** Refusing a snapshot that was just taken leaves nothing of it. *)
Lemma windows_refused s d file content w w2 e (x : result Snapshot) w0 w5 :
  reach E (w_tree w) (w_tree w2) -> w_fds w !! d = None -> w_fds w2 = <[d := InTemp file]> (w_fds w) ->
  private_copy s d file content (w_dirs w) w2 -> still E w2 w0 -> refuse E s e w0 = (x, w5) ->
  x = Fail e /\ reach E (w_tree w) (w_tree w5) /\ w_fds w5 = w_fds w /\ (removals_work E -> w_dirs w5 = w_dirs w).
Proof.
  intros R Hn Hm Hp S0 Hr. eapply refuse_inv in Hr as (->&Hf&Hr&Hd); [|by eapply private_copy_still]. split_and!; [done| | |done].
  - eapply rtc_trans; [exact R|]. eapply rtc_trans; [apply S0|done].
  - rewrite Hf, (sl_fds _ _ _ S0), Hm. by apply delete_insert_id.
Qed.

Lemma windows_copy_inv r rootPath sourcePath maxBytes parent name source held w res w' :
  held_object w source = Some (st_ident held) ->
  copy_source E r rootPath sourcePath maxBytes parent name source held w = (res, w') ->
  reach E (w_tree w) (w_tree w') /\
  match res with
  | Fail _ => w_fds w' = w_fds w /\ (removals_work E -> w_dirs w' = w_dirs w)
  | Ok s => exists d file content, w_fds w !! d = None /\ w_fds w' = <[d := InTemp file]> (w_fds w) /\
      private_copy s d file content (w_dirs w) w' /\
      ss_sourcePath s = sourcePath /\ ss_identity s = identity_of held /\ ss_size s <= maxBytes /\ windows_pinned r rootPath (w_tree w') /\
      (honest E -> exists t i, between E (w_tree w) t (w_tree w') /\ t_inodes t !! st_ident held = Some i /\
         content = in_data i /\ ss_modTime s = in_mtime i)
  end.
Proof.
  intros Hheld. unfold copy_source, st_bind at 1. destruct (Stat E source w) as [b w1] eqn:E1. destruct b as [b|e].
  2:{ intros [= <- <-]. apply sys_look in E1 as [[] _]. done. }
  apply Stat_ok in E1 as (S1&id&i&Hid&Hi&->). rewrite Hheld in Hid. injection Hid as <-. cbn [fi_Size fi_ModTime].
  unfold st_try. destruct (newPrivateSnapshotWithIdentity _ _ _ _ _ _ _ w1) as [r2 w2] eqn:E2. apply newPrivate_inv in E2 as [R2 H2].
  rewrite (sl_fds _ _ _ S1), (sl_dirs _ _ _ S1) in H2. assert (reach E (w_tree w) (w_tree w2)) as R by (eapply rtc_trans; [apply S1|done]).
  destruct r2 as [s|e]; [|by intros [= <- <-]]. destruct H2 as (d&file&content&Hn&Hm&Hp&Hpath&Hident&Hsize&Hmod&Hle&Hc).
  assert (forall e w0, still E w2 w0 -> refuse E s e w0 = (res, w') -> reach E (w_tree w) (w_tree w') /\ match res with
    | Fail _ => w_fds w' = w_fds w /\ (removals_work E -> w_dirs w' = w_dirs w) | Ok _ => False end) as Hrefuse.
  { intros e w0 S0 Hr. by destruct (windows_refused _ _ _ _ _ _ _ _ _ _ R Hn Hm Hp S0 Hr) as (->&?&?&?). }
  unfold st_bind at 1. destruct (Stat E source w2) as [a w3] eqn:E3. pose proof E3 as [S3 _]%sys_look.
  destruct a as [a|e]; [|intros []%(Hrefuse _ _ S3); by destruct res].
  destruct (_ || _) eqn:Ec; [intros []%(Hrefuse _ _ S3); by destruct res|].
  unfold st_bind at 1. destruct (reopenWindowsRelative E parent name false held w3) as [g w4] eqn:E4. apply reopen_still in E4 as [S34 _].
  assert (still E w2 w4) as S4 by (by transitivity w3). destruct g as [g|e]; [|intros []%(Hrefuse _ _ S4); by destruct res].
  unfold st_bind. destruct (verify E r rootPath w4) as [v w5] eqn:E5. apply windows_verifies in E5 as [S5 Hv].
  assert (still E w2 w5) as S25 by (by transitivity w4). destruct v as [v|e]; [|intros []%(Hrefuse _ _ S25); by destruct res].
  intros [= <- <-]. split; [eapply rtc_trans; [done|apply S25]|]. exists d, file, content.
  split; [done|]. split; [by rewrite (sl_fds _ _ _ S25)|]. split; [by eapply private_copy_still|].
  split; [done|]. split; [done|]. split; [lia|]. split; [by apply (Hv v)|]. intros Hh.
  apply orb_false_iff in Ec as [_ Hmt%negb_false_iff%Z.eqb_eq].
  apply Stat_ok in E3 as (_&id'&j&Hid'&Hj&->). cbn [fi_ModTime fi_Size] in *.
  assert (id' = st_ident held) as ->.
  { unfold held_object in Hheld, Hid'. rewrite Hm, lookup_insert_ne, Hheld in Hid'; [by injection Hid' as <-|]. intros ->. by rewrite Hn in Hheld. }
  pose proof (honest_stable _ _ _ _ _ _ Hh Hi Hj Hmt) as Hst. exists (w_tree w1), i.
  split; [split; [apply S1|eapply rtc_trans; [exact R2|apply S25]]|]. split; [done|]. split; [|done].
  apply (Hc (st_ident held)); [by rewrite (held_still _ _ _ _ S1)| |done]. eapply stable_mono; [apply rtc_refl|apply S3|done].
Qed.


(** What [forwardSourceIdentity] returns is the identity of an object that was
    reached in the same way; nothing is left open. *)
Theorem windows_source_identity r rootPath parts w res w' : sourceIdentity E r rootPath parts w = (res, w') ->
  w_dirs w' = w_dirs w /\ w_fds w' = w_fds w /\
  forall v, res = Ok v -> exists pid held, v = identity_of held /\
    reached E (w_tree w) (w_tree w') (pw_info r) (map win_fold (removelast parts)) pid /\
    seen E (kind_entry false) w w' pid (win_fold (List.last parts "")) (st_ident held).
Proof.
  unfold sourceIdentity. intros [([Hd _ Hm _]&e&->)|(parent&name&source&held&w1&w2&A&Hb&Hd&Hf&Hr&Hx)]%windows_around_inv; [done|].
  unfold st_bind in Hb. destruct (verify E r rootPath w1) as [v w3] eqn:E3. apply windows_verifies in E3 as [S3 _].
  assert (w3 = w2) as -> by (destruct v; by injection Hb). destruct (Hx []) as [Hm%adds_nil _]; [apply adds_nil, S3|].
  split; [rewrite Hd, (sl_dirs _ _ _ S3); apply A|]. split; [done|]. intros u ->. destruct v as [v|e]; [|done]. injection Hb as <-.
  destruct A as [_ (pid&_&Hreached&t&s&Hb&Hs) _ -> _ _ _ _]. exists pid, held.
  assert (reach E (w_tree w1) (w_tree w')) as R by (eapply rtc_trans; [apply S3|done]).
  split; [done|]. split; [eapply reached_mono; [apply rtc_refl|exact R|done]|].
  exists t, s. split; [eapply between_mono; [apply rtc_refl|exact R|done]|done].
Qed.

(** [bind] holds the object that its path names, or leaves nothing open; a root that
    is bound stays bound to the same object. *)
Theorem windows_bind_pins r path w res r' w' : bind E r path w = ((res, r'), w') ->
  (pw_file r <> None -> r' = r) /\ w_dirs w' = w_dirs w /\
  match res with
  | Ok true => exists d t, pw_file r' = Some d /\ between E (w_tree w) t (w_tree w') /\ windows_pinned r' path t /\
      (pw_file r = None -> w_fds w !! d = None /\ w_fds w' = <[d := InTree (pw_info r')]> (w_fds w))
  | _ => r' = r /\ w_fds w' = w_fds w
  end.
Proof.
  unfold bind. destruct (pw_file r) as [d|] eqn:Ef.
  { unfold st_bind. destruct (verify E r path w) as [v w1] eqn:E1. apply windows_verifies in E1 as [[Hd _ Hm R] Hv]. intros [= <- <- <-].
    split; [done|]. split; [done|]. destruct v as [d'|e]; [|done]. destruct (Hv d' eq_refl) as [_ Hp].
    exists d, (w_tree w1). split; [done|]. split; [split; [done|apply rtc_refl]|]. by split. }
  unfold st_bind at 1. destruct (windowsLstat E path true w) as [b w1] eqn:E1. apply windowsLstat_still in E1 as S1.
  pose proof S1 as [Hd1 _ Hm1 R1]. destruct b as [b|e]; [|intros [= <- <- <-]; split; [done|]; split; [done|]; by destruct (errors_Is e _)].
  destruct (UTF16PtrFromString path); [by intros [= <- <- <-]|].
  unfold st_bind at 1. destruct (CreateFile E path w1) as [h w2] eqn:E2. apply sys_inv in E2.
  assert (match h with Fail _ => still E w w2 | Ok d => exists o, grown E d (InTree o) w w2 end) as G2.
  { destruct E2 as [(e&_&->&->)|[_ Ha]]; [transitivity w1; [done|apply tick_still]|].
    destruct (t_paths (w_tree (tick E w1)) !! path) as [o|].
    - injection Ha as <- <-. exists o. eapply still_grown; [exact S1|]. split; try done; [apply fresh_fd|apply tick_reach].
    - injection Ha as <- <-. transitivity w1; [done|apply tick_still]. }
  clear E2. destruct h as [d|e]; [|intros [= <- <- <-]; destruct G2; by split_and!]. destruct G2 as (o&G2).
  assert (forall e w3 (G : grown E d (InTree o) w w3), st_bind (CloseFd E d) (fun _ => st_ret (@Fail bool e, r)) w3 = ((res, r'), w') ->
    (@None nat <> None -> r' = r) /\ w_dirs w' = w_dirs w /\ res = Fail e /\ r' = r /\ w_fds w' = w_fds w) as Hrefuse.
  { intros e w3 G. unfold st_bind. destruct (CloseFd E d w3) as [u w4] eqn:E4. pose proof (grown_closed _ _ _ _ _ _ _ G E4) as [].
    intros [= <- <- <-]. by split_and!. }
  unfold st_bind at 1. destruct (Fstat E d w2) as [op w3] eqn:E3. pose proof E3 as [S3 _]%sys_look.
  assert (grown E d (InTree o) w w3) as G3 by (by eapply grown_still).
  destruct op as [op|e]; [|intros (?&?&->&?&?)%(Hrefuse _ _ G3); by split_and!].
  apply Fstat_ok in E3 as (_&Hh&_). rewrite (held_grown _ _ _ _ _ G2) in Hh. injection Hh as ->.
  unfold st_bind at 1. destruct (same_named E (st_ident op) path w3) as [sn w4] eqn:E4. apply same_named_inv in E4 as [S4 Hsn].
  assert (grown E d (InTree (st_ident op)) w w4) as G4 by (by eapply grown_still).
  destruct sn; cbn [negb]; [|intros (?&?&->&?&?)%(Hrefuse _ _ G4); by split_and!].
  unfold st_bind at 1. destruct (Fstat E d w4) as [hi w5] eqn:E5. pose proof E5 as [S5 _]%sys_look.
  assert (grown E d (InTree (st_ident op)) w w5) as G5 by (by eapply grown_still).
  destruct hi as [hi|e]; [|intros (?&?&->&?&?)%(Hrefuse _ _ G5); by split_and!].
  destruct (reparse hi); [intros (?&?&->&?&?)%(Hrefuse _ _ G5); by split_and!|].
  intros [= <- <- <-]. split; [done|]. split; [apply G5|]. exists d, (w_tree w4). split; [done|]. split; [split; [apply G4|apply S5]|].
  split; [by apply Hsn|]. intros _. split; apply G5.
Qed.
End Spec.

(** ** Samples *)

Module WindowsRootSamples.
Import WatchRootSamples.

(** Names are compared as they are. *)
#[local] Instance sample_names : WinNames := { win_fold name := name; NewNTUnicodeString _ := None; UTF16PtrFromString _ := None }.

Definition windows_root : platformRoot := mkPlatformRoot (Some 0%nat) (1, 1) (mkIdentity 1 1).
(** A process appends to the source before the first call. *)
Definition windows_run : result Snapshot * world := snapshot busy windows_root "/w" "/w/p/s.jsonl" ["p"; "s.jsonl"] 100 sample_world.


End WindowsRootSamples.
