(* ===== verification/Base64.v ===== *)
(** * Base64

    [encoding/base64]: [RawStdEncoding] both ways and [RawURLEncoding] of bytes,
    which the authentication state uses. *)
From Stdlib Require Import ZArith Lia Bool.
From Stdlib Require Import String Ascii.
From stdpp Require Import base tactics option list strings.
From S2P Require Import Prelude GoStrings.
Open Scope Z_scope.

Definition byte (z : Z) : ascii := ascii_of_N (Z.to_N z).

(** The character of a six-bit value; the last two differ in the URL alphabet. *)
Definition b64_char (url : bool) (v : Z) : ascii :=
  if v <? 26 then byte (65 + v)
  else if v <? 52 then byte (71 + v)
  else if v <? 62 then byte (v - 4)
  else if v =? 62 then (if url then "-" else "+")%char
  else (if url then "_" else "/")%char.

(** The value of a character of the standard alphabet. *)
Definition b64_value (c : ascii) : option Z :=
  if is_upper c then Some (code c - 65)
  else if is_lower c then Some (code c - 71)
  else if is_digit c then Some (code c + 4)
  else if Ascii.eqb c "+" then Some 62
  else if Ascii.eqb c "/" then Some 63
  else None.

(** [EncodeToString] without padding. *)
Fixpoint b64_encode (url : bool) (s : string) : string :=
  match s with
  | EmptyString => ""
  | String a EmptyString =>
      String (b64_char url (code a / 4)) (String (b64_char url (code a mod 4 * 16)) "")
  | String a (String b EmptyString) =>
      String (b64_char url (code a / 4)) (String (b64_char url (code a mod 4 * 16 + code b / 16))
        (String (b64_char url (code b mod 16 * 4)) ""))
  | String a (String b (String c rest)) =>
      String (b64_char url (code a / 4)) (String (b64_char url (code a mod 4 * 16 + code b / 16))
        (String (b64_char url (code b mod 16 * 4 + code c / 64)) (String (b64_char url (code c mod 64))
          (b64_encode url rest))))
  end.

(** Values are taken four at a time; the low bits of an incomplete group are
    dropped, and a single character is an error. *)
Fixpoint b64_groups (l : list Z) : option string :=
  match l with
  | [] => Some ""
  | [_] => None
  | [a; b] => Some (String (byte (a * 4 + b / 16)) "")
  | [a; b; c] => Some (String (byte (a * 4 + b / 16)) (String (byte (b mod 16 * 16 + c / 4)) ""))
  | a :: b :: c :: d :: rest =>
      tail ← b64_groups rest;
      Some (String (byte (a * 4 + b / 16)) (String (byte (b mod 16 * 16 + c / 4))
              (String (byte (c mod 4 * 64 + d)) tail)))
  end.

(** The values of a text; carriage returns and newlines are skipped. *)
Fixpoint b64_values (s : string) : option (list Z) :=
  match s with
  | EmptyString => Some []
  | String c r =>
      if (code c =? 10) || (code c =? 13) then b64_values r
      else v ← b64_value c; l ← b64_values r; Some (v :: l)
  end.

(** [RawStdEncoding.DecodeString]. *)
Definition b64_decode (s : string) : option string := l ← b64_values s; b64_groups l.

(** ** Decoding undoes encoding *)

Lemma byte_code c : byte (code c) = c.
Proof.
  unfold byte, code. rewrite N2Z.id. apply ascii_N_embedding.
Qed.

Lemma b64_value_char v : 0 <= v < 64 ->
  b64_value (b64_char false v) = Some v /\
  (code (b64_char false v) =? 10) || (code (b64_char false v) =? 13) = false.
Proof.
  intros Hv. assert (List.In v (map Z.of_nat (seq 0 64))) as Hin.
  { apply in_map_iff. exists (Z.to_nat v). split; [lia|]. apply in_seq. lia. }
  revert Hin. clear. intros Hin.
  assert (forallb (fun v => bool_decide (b64_value (b64_char false v) = Some v) &&
    negb ((code (b64_char false v) =? 10) || (code (b64_char false v) =? 13))) (map Z.of_nat (seq 0 64)) = true) as Hall
    by (vm_compute; reflexivity).
  rewrite forallb_forall in Hall. specialize (Hall v Hin).
  apply andb_true_iff in Hall as [H1 H2]. apply bool_decide_eq_true in H1. by apply negb_true_iff in H2.
Qed.

Lemma b64_values_char v rest l : 0 <= v < 64 -> b64_values rest = Some l ->
  b64_values (String (b64_char false v) rest) = Some (v :: l).
Proof. intros Hv Hl. destruct (b64_value_char v Hv) as [E1 E2]. simpl. rewrite E2, E1. simpl. by rewrite Hl. Qed.

Lemma b64_values_encode s : exists l, b64_values (b64_encode false s) = Some l /\ b64_groups l = Some s.
Proof.
  remember (String.length s) as n eqn:En. revert s En. induction (lt_wf n) as [n _ IH]. intros s ->.
  assert (forall c : ascii, 0 <= code c / 4 < 64 /\ 0 <= code c mod 4 < 4 /\ 0 <= code c / 16 < 16 /\
    0 <= code c mod 16 < 16 /\ 0 <= code c / 64 < 4 /\ 0 <= code c mod 64 < 64) as R
    by (intros c; pose proof (code_range c); repeat split; try apply Z.mod_pos_bound; try apply Z.div_pos; try apply Z.div_lt_upper_bound; lia).
  assert (forall (a : ascii) x, 0 <= x < 16 -> byte (code a / 4 * 4 + (code a mod 4 * 16 + x) / 16) = a) as D1.
  { intros a x Hx. rewrite <- (byte_code a) at 3. f_equal. rewrite Z.add_comm, (Z.add_comm (_ * 16)), Z.div_add by lia.
    rewrite (Z.div_small x) by lia. pose proof (Z.div_mod (code a) 4). lia. }
  assert (forall (a b : ascii) x, 0 <= x < 4 -> byte ((code a mod 4 * 16 + code b / 16) mod 16 * 16 + (code b mod 16 * 4 + x) / 4) = b) as D2.
  { intros a b x Hx. rewrite <- (byte_code b) at 3. f_equal. rewrite Z.add_comm with (n := code a mod 4 * 16), Z.mod_add by lia.
    rewrite (Z.mod_small (code b / 16)) by (apply R). rewrite (Z.add_comm (code b mod 16 * 4)), Z.div_add by lia.
    rewrite (Z.div_small x) by lia. pose proof (Z.div_mod (code b) 16). lia. }
  assert (forall (b c : ascii), byte ((code b mod 16 * 4 + code c / 64) mod 4 * 64 + code c mod 64) = c) as D3.
  { intros b c. rewrite <- (byte_code c) at 3. f_equal. rewrite Z.add_comm with (n := code b mod 16 * 4), Z.mod_add by lia.
    rewrite (Z.mod_small (code c / 64)) by (apply R). pose proof (Z.div_mod (code c) 64). lia. }
  destruct s as [|a [|b [|c rest]]].
  - by exists [].
  - pose proof (R a). exists [code a / 4; code a mod 4 * 16]. split.
    + apply b64_values_char; [lia|]. apply b64_values_char; [lia|done].
    + simpl. specialize (D1 a 0). rewrite Z.add_0_r in D1. by rewrite D1 by lia.
  - pose proof (R a). pose proof (R b). exists [code a / 4; code a mod 4 * 16 + code b / 16; code b mod 16 * 4]. split.
    + apply b64_values_char; [lia|]. apply b64_values_char; [lia|]. apply b64_values_char; [lia|done].
    + simpl. rewrite D1 by lia. specialize (D2 a b 0). rewrite Z.add_0_r in D2. by rewrite D2 by lia.
  - pose proof (R a). pose proof (R b). pose proof (R c).
    destruct (IH (String.length rest) ltac:(simpl; lia) rest eq_refl) as (l&Hl&Hg).
    exists (code a / 4 :: code a mod 4 * 16 + code b / 16 :: code b mod 16 * 4 + code c / 64 :: code c mod 64 :: l). split.
    + cbn [b64_encode]. do 4 (apply b64_values_char; [lia|]). done.
    + cbn [b64_groups]. rewrite Hg. simpl. rewrite D1, D2, D3 by lia. done.
Qed.

Lemma b64_decode_encode s : b64_decode (b64_encode false s) = Some s.
Proof. destruct (b64_values_encode s) as (l&Hl&Hg). unfold b64_decode. rewrite Hl. exact Hg. Qed.

Lemma b64_encode_nonempty url s : s <> "" -> b64_encode url s <> "".
Proof. destruct s as [|a [|b [|c r]]]; done. Qed.

Example b64_sample : b64_encode false "Man is" = "TWFuIGlz" /\ b64_decode "TWFuIGlz" = Some "Man is".
Proof. vm_compute. split; reflexivity. Qed.
