(* ===== verification/Auth.v ===== *)
(** * The authentication state

    [internal/history/auth/auth.go]: the credential file with an active and a
    pending key, verification of bearer headers, and key rotation, over the
    durable root. Duplicate keys are refused as in [auth/google_selector.go]. *)
From Stdlib Require Import ZArith Lia Bool.
From Stdlib Require Import String Ascii.
From stdpp Require Import base tactics option list gmap strings.
From S2P Require Import Prelude GoStrings GoPath JsonKeys Sha256 Durable Base64.
Open Scope Z_scope.

Module Auth.

Definition PBKDF2Rounds : Z := 200000.
Definition MaxCredentialBytes : Z := 256.
Definition maxStateBytes : Z := 16384.
Definition derivedKeyBytes : Z := 32.
Definition saltBytes : Z := 16.

Definition ErrInvalidCredential : error := Sentinel "invalid credential".
Definition ErrMalformedBearer : error := Sentinel "malformed bearer credential".
Definition ErrStateInvalid : error := Sentinel "authentication state invalid".
Definition ErrRotationPending : error := Sentinel "authentication rotation already pending".
Definition ErrNoPendingKey : error := Sentinel "authentication rotation has no pending key".
Definition ErrGoogleScopeContract : error := Sentinel "google credential scope contract invalid".

Inductive KeyKind : Type := ActiveKey | PendingKey.

Record credential : Type := mkCredential { k_ID : string; k_Salt : string; k_Digest : string; k_Rounds : Z }.
Record state : Type := mkState { Version : Z; Active : credential; Pending : option credential }.
Record RotationState_ : Type := mkRotation { ActiveID : string; PendingID : string }.

(** [Manager]: the held root and the file name. *)
Record Manager : Type := mkManager { m_root : Durable.Root; m_name : string }.

(** [pbkdf2.Key] with SHA-256, [PBKDF2Rounds] and [derivedKeyBytes]. *)
Class Pbkdf2 : Type := pbkdf2_Key : string -> string -> result string.

(** [json.Marshal] of a state, the tokens of a payload, and strict decoding of a
    payload ([DisallowUnknownFields], nothing after the value). *)
Class AuthCodec : Type := {
  auth_Marshal : state -> result string;
  auth_tokens : string -> decoder;
  auth_Decode : string -> option state
}.

(** ** Pure parts *)

Definition filepathBase (name : string) : string :=
  if ContainsAny name ("/" +:+ String (ascii_of_N 92) "") || (name ==s ".") || (name ==s "..") then "" else name.

Definition NewManager (root : option Durable.Root) (name : string) (random : bool) : result Manager :=
  match root with
  | None => Fail ErrStateInvalid
  | Some root =>
      if negb random || (name ==s "") || (name !=s filepathBase name) then Fail ErrStateInvalid
      else Ok (mkManager root name)
  end.

Definition secret_spaces : string :=
  String (ascii_of_N 13) (String (ascii_of_N 10) (String (ascii_of_N 9) " ")).

Definition validateSecret (secret : string) : result unit :=
  if (len secret <? 16) || (MaxCredentialBytes <? len secret) || negb (ValidString secret) ||
     (TrimSpace secret !=s secret) || ContainsAny secret secret_spaces
  then Fail ErrInvalidCredential
  else if existsb (fun r => (fst r <? 33) || (126 <? fst r)) (runes secret) then Fail ErrInvalidCredential
  else Ok tt.

Definition parseBearer (header : string) : result string :=
  if (len "Bearer " + MaxCredentialBytes <? len header) || negb (HasPrefix header "Bearer ") then Fail ErrMalformedBearer
  else
    let secret := TrimPrefix header "Bearer " in
    if negb (is_ok (validateSecret secret)) || Contains secret " " then Fail ErrMalformedBearer else Ok secret.

Definition validateCredential (value : credential) : result unit :=
  if negb (k_Rounds value =? PBKDF2Rounds) || (k_ID value ==s "") then Fail ErrStateInvalid
  else
    match b64_decode (k_Salt value) with
    | None => Fail ErrStateInvalid
    | Some salt =>
        if negb (len salt =? saltBytes) then Fail ErrStateInvalid
        else
          match b64_decode (k_Digest value) with
          | None => Fail ErrStateInvalid
          | Some digest => if negb (len digest =? derivedKeyBytes) then Fail ErrStateInvalid else Ok tt
          end
    end.

(** [rejectDuplicateJSONKeys] of [auth/google_selector.go]. *)
Definition auth_errors : walk_errors :=
  mkWalkErrors (fun e => e) (fun e => e) ErrGoogleScopeContract (fun _ => ErrGoogleScopeContract)
    ErrGoogleScopeContract ErrGoogleScopeContract (fun _ => ErrGoogleScopeContract).
Definition walkJSONValue : decoder -> result decoder := walk_all auth_errors.
Definition rejectDuplicateKeys (d : decoder) : result unit :=
  rest ← walkJSONValue d;
  match rest with
  | [] => Ok tt
  | _ => Fail ErrGoogleScopeContract
  end.

Section Auth.
Context `{Pbkdf2} `{AuthCodec}.

(** The credential for a secret and a salt. *)
Definition make_credential (salt digest : string) : credential :=
  mkCredential (b64_encode true (slice (Sum256 (salt +:+ digest)) 0 9)) (b64_encode false salt)
    (b64_encode false digest) PBKDF2Rounds.

Definition verify (secret : string) (value : credential) : result bool :=
  _ ← validateCredential value;
  let salt := default "" (b64_decode (k_Salt value)) in
  let want := default "" (b64_decode (k_Digest value)) in
  got ← pbkdf2_Key secret salt;
  Ok (got ==s want).

(** [loadLocked] after the read. *)
Definition load_payload (payload : string) : result state :=
  match rejectDuplicateKeys (auth_tokens payload) with
  | Fail _ => Fail ErrStateInvalid
  | Ok _ =>
      match auth_Decode payload with
      | None => Fail ErrStateInvalid
      | Some current =>
          if negb (Version current =? 1) || negb (is_ok (validateCredential (Active current))) then Fail ErrStateInvalid
          else
            match Pending current with
            | Some p => if negb (is_ok (validateCredential p)) then Fail ErrStateInvalid else Ok current
            | None => Ok current
            end
      end
  end.

(** The verdict of [VerifyBearer] on a loaded state. *)
Definition judge (secret : string) (current : state) : result KeyKind :=
  let active := verify secret (Active current) in
  let pending := match Pending current with
                 | Some p => verify secret p
                 | None => _ ← pbkdf2_Key secret (Sha256.zeros 16); Ok false
                 end in
  match active, pending with
  | Ok activeMatch, Ok pendingMatch =>
      if activeMatch then Ok ActiveKey else if pendingMatch then Ok PendingKey else Fail ErrInvalidCredential
  | _, _ => Fail ErrStateInvalid
  end.

(** ** Operations

    The state is the file system, the number of the next call, and what the
    random reader has left. *)

Definition A (T : Type) : Type := st ((Durable.fs * nat) * string) (result T).

Definition on_root {T} (m : Durable.D T) : A T := fun s =>
  let '(d, random) := s in let '(r, d') := m d in (r, (d', random)).
Definition aret {T} (a : T) : A T := fun s => (Ok a, s).
Definition afail {T} (e : error) : A T := fun s => (Fail e, s).
Definition alift {T} (r : result T) : A T := fun s => (r, s).
Definition wrapping {T} (format : string) (m : A T) : A T := fun s =>
  match m s with
  | (Ok a, s') => (Ok a, s')
  | (Fail e, s') => (Fail (Wrapf format [] e), s')
  end.

(** [io.ReadFull(m.random, salt)]: all the bytes or an error. *)
Definition ReadFull (n : Z) : A string := fun s =>
  let '(d, random) := s in
  if len random <? n then (Fail (if random ==s "" then io_EOF else Sentinel "io.ErrUnexpectedEOF"), (d, ""))
  else (Ok (slice random 0 n), (d, slice_from random n)).

Context (E : Durable.OS) (m : Manager).

Definition derive (secret : string) : A credential :=
  let? salt := ReadFull saltBytes in
  let? digest := alift (pbkdf2_Key secret salt) in
  aret (make_credential salt digest).

Definition loadLocked : A state :=
  let? payload := wrapping "read authentication state: %w" (on_root (Durable.Read E (m_root m) (m_name m) maxStateBytes)) in
  alift (load_payload payload).

Definition saveLocked (current : state) : A unit :=
  match auth_Marshal current with
  | Fail _ => afail ErrStateInvalid
  | Ok payload =>
      if maxStateBytes <? len payload then afail ErrStateInvalid
      else wrapping "write authentication state: %w" (on_root (Durable.WriteAtomic E (m_root m) (m_name m) payload))
  end.

Definition Initialize (secret : string) : A unit :=
  let? _ := alift (validateSecret secret) in
  let? exists_ := wrapping "inspect authentication state: %w" (on_root (Durable.Exists E (m_root m) (m_name m))) in
  if (exists_ : bool) then
    let? current := loadLocked in
    match verify secret (Active current) with
    | Ok true => aret tt
    | _ => afail ErrInvalidCredential
    end
  else
    let? active := wrapping "initialize authentication state: %w" (derive secret) in
    saveLocked (mkState 1 active None).

Definition VerifyBearer (header : string) : A KeyKind :=
  let? secret := alift (parseBearer header) in
  let? current := loadLocked in
  alift (judge secret current).

Definition BeginRotation (secret : string) : A unit :=
  let? _ := alift (validateSecret secret) in
  let? current := loadLocked in
  match Pending current with
  | Some _ => afail ErrRotationPending
  | None =>
      let? pending := wrapping "derive pending credential: %w" (derive secret) in
      saveLocked (mkState (Version current) (Active current) (Some pending))
  end.

Definition PromotePending : A unit :=
  let? current := loadLocked in
  match Pending current with
  | None => afail ErrNoPendingKey
  | Some pending => saveLocked (mkState (Version current) pending None)
  end.

Definition RotationState : A RotationState_ :=
  let? current := loadLocked in
  aret (mkRotation (k_ID (Active current)) (match Pending current with Some p => k_ID p | None => "" end)).
End Auth.
End Auth.

(** ** The carrier document of [auth/google_selector.go] *)

Module GoogleSelector.

Definition GoogleCloudPlatformScope : string := "https://www.googleapis.com/auth/cloud-platform".
Definition GoogleADCType : string := "google_adc".
Definition MaxGoogleCarrierDocumentBytes : Z := 4096.

Record GoogleSelector : Type := mkGoogleSelector { scope : string }.
Record GoogleCarrierDocument : Type := mkDocument { carrierType : string; selector : GoogleSelector }.
Record googleCarrierWire : Type := mkWire { w_Type : string; w_Scopes : list string }.

(** The tokens of a payload; a strict decode of its first value with what the
    decoder has left after it. *)
Class GoogleCodec : Type := {
  google_tokens : string -> decoder;
  google_Decode : string -> option (googleCarrierWire * decoder)
}.

Definition NewGoogleSelector (scopes : list string) : result GoogleSelector :=
  match scopes with
  | [only] => if only ==s GoogleCloudPlatformScope then Ok (mkGoogleSelector GoogleCloudPlatformScope)
              else Fail Auth.ErrGoogleScopeContract
  | _ => Fail Auth.ErrGoogleScopeContract
  end.

Definition Scopes (s : GoogleSelector) : list string :=
  if scope s !=s GoogleCloudPlatformScope then [] else [GoogleCloudPlatformScope].

Definition ParseGoogleCarrierDocument `{GoogleCodec} (payload : string) : result GoogleCarrierDocument :=
  if (len payload =? 0) || (MaxGoogleCarrierDocumentBytes <? len payload) then Fail Auth.ErrGoogleScopeContract
  else
    match Auth.rejectDuplicateKeys (google_tokens payload) with
    | Fail _ => Fail Auth.ErrGoogleScopeContract
    | Ok _ =>
        match google_Decode payload with
        | Some (wire, []) =>
            if w_Type wire !=s GoogleADCType then Fail Auth.ErrGoogleScopeContract
            else s ← NewGoogleSelector (w_Scopes wire); Ok (mkDocument GoogleADCType s)
        | _ => Fail Auth.ErrGoogleScopeContract
        end
    end.

(** A document is accepted exactly for the one type and the one scope, which it
    then reports. *)
Lemma carrier_document_exact `{GoogleCodec} payload d :
  ParseGoogleCarrierDocument payload = Ok d <->
  d = mkDocument GoogleADCType (mkGoogleSelector GoogleCloudPlatformScope) /\ Scopes (selector d) = [GoogleCloudPlatformScope] /\
  0 < len payload <= MaxGoogleCarrierDocumentBytes /\ Auth.rejectDuplicateKeys (google_tokens payload) = Ok tt /\
  google_Decode payload = Some (mkWire GoogleADCType [GoogleCloudPlatformScope], []).
Proof.
  unfold ParseGoogleCarrierDocument. pose proof (len_nonneg payload). split.
  - destruct (Z.eqb_spec (len payload) 0); [done|]. destruct (Z.ltb_spec MaxGoogleCarrierDocumentBytes (len payload)); [done|]. cbn [orb].
    destruct (Auth.rejectDuplicateKeys _) as [[]|]; [|done]. destruct (google_Decode payload) as [[[t l] [|]]|]; try done. cbn [w_Type w_Scopes].
    destruct (String.eqb_spec t GoogleADCType) as [->|]; [|done]. unfold NewGoogleSelector. destruct l as [|x [|]]; try done.
    destruct (String.eqb_spec x GoogleCloudPlatformScope) as [->|]; [|done]. cbn. intros [= <-]. split_and!; [done|done|lia|done|done|done].
  - intros (->&_&[H1 H2]&H3&H4). destruct (Z.eqb_spec (len payload) 0); [lia|].
    destruct (Z.ltb_spec MaxGoogleCarrierDocumentBytes (len payload)); [lia|]. cbn [orb]. by rewrite H3, H4.
Qed.

End GoogleSelector.
