(* ===== verification/AuthSpec.v ===== *)
(** * Properties of the authentication state

    Verification fails closed, and the operations refine a two-key rotation
    machine whatever calls of the operating system fail. *)
From Stdlib Require Import ZArith Lia Bool.
From Stdlib Require Import String Ascii.
From stdpp Require Import base tactics option list gmap strings.
From S2P Require Import Prelude GoStrings GoPath JsonKeys Sha256 Durable DurableSpec Base64 Auth.
Open Scope Z_scope.
Import Auth.

(** ** What is relied on *)

Definition credential_text (c : credential) : Prop :=
  ValidString (k_ID c) = true /\ ValidString (k_Salt c) = true /\ ValidString (k_Digest c) = true.
Definition state_text (s : state) : Prop :=
  credential_text (Active s) /\ forall p, Pending s = Some p -> credential_text p.

(** The derived key has the length that was asked for. *)
Definition kdf_ok (K : Pbkdf2) : Prop :=
  forall secret salt digest, pbkdf2_Key secret salt = Ok digest -> len digest = derivedKeyBytes.

(** What is encoded is decoded again, and decoded strings are valid UTF-8. *)
Record codec_ok (C : AuthCodec) : Prop := mk_codec_ok {
  co_roundtrip : forall s payload, state_text s -> auth_Marshal s = Ok payload ->
    auth_Decode payload = Some s /\ rejectDuplicateKeys (auth_tokens payload) = Ok tt;
  co_text : forall payload s, auth_Decode payload = Some s -> state_text s
}.

(** A failing call does not claim that a file is missing. *)
Definition honest (E : Durable.OS) : Prop :=
  forall n e, Durable.os_error E n = Some e -> errors_Is e Durable.ENOENT = false.

(** ** Credentials *)

Lemma b64_char_ascii url v : 0 <= v < 64 -> code (b64_char url v) < 128.
Proof.
  intros Hv. unfold b64_char, byte.
  destruct (Z.ltb_spec v 26); [rewrite code_ascii_of; lia|]. destruct (Z.ltb_spec v 52); [rewrite code_ascii_of; lia|].
  destruct (Z.ltb_spec v 62); [rewrite code_ascii_of; lia|]. destruct (v =? 62), url; done.
Qed.

Lemma b64_encode_ascii url s : is_ascii (b64_encode url s) = true.
Proof.
  remember (String.length s) as n eqn:En. revert s En. induction (lt_wf n) as [n _ IH]. intros s ->.
  assert (forall c : ascii, 0 <= code c / 4 < 64 /\ 0 <= code c mod 4 < 4 /\ 0 <= code c / 16 < 16 /\
    0 <= code c mod 16 < 16 /\ 0 <= code c / 64 < 4 /\ 0 <= code c mod 64 < 64) as R
    by (intros c; pose proof (code_range c); repeat split; try apply Z.mod_pos_bound; try apply Z.div_pos; try apply Z.div_lt_upper_bound; lia).
  assert (forall v r, 0 <= v < 64 -> is_ascii r = true -> is_ascii (String (b64_char url v) r) = true) as C.
  { intros v r Hv Hr. unfold is_ascii in *. simpl. rewrite Hr, andb_true_r. apply Z.ltb_lt. by apply b64_char_ascii. }
  destruct s as [|a [|b [|c rest]]]; [done|pose proof (R a)|pose proof (R a); pose proof (R b)|pose proof (R a); pose proof (R b); pose proof (R c)].
  - repeat (apply C; [lia|]). done.
  - repeat (apply C; [lia|]). done.
  - cbn [b64_encode]. do 4 (apply C; [lia|]). apply (IH (String.length rest)); [simpl; lia|done].
Qed.

Lemma b64_encode_text url s : ValidString (b64_encode url s) = true.
Proof. apply ascii_valid, b64_encode_ascii. Qed.

Section Spec.
Context `{K : Pbkdf2} `{C : AuthCodec} (HK : kdf_ok K) (HC : codec_ok C).

(** A credential that the manager makes is valid and is the secret's. *)
Lemma make_credential_ok secret salt digest :
  len salt = saltBytes -> pbkdf2_Key secret salt = Ok digest ->
  let c := make_credential salt digest in
  validateCredential c = Ok tt /\ credential_text c /\ verify secret c = Ok true.
Proof.
  intros Hs Hd. pose proof (HK _ _ _ Hd) as Hl. simpl.
  assert (validateCredential (make_credential salt digest) = Ok tt) as Hv.
  { unfold validateCredential, make_credential. cbn [k_Rounds k_ID k_Salt k_Digest].
    rewrite Z.eqb_refl, !b64_decode_encode, Hs, Hl, !Z.eqb_refl. cbn [negb orb].
    destruct (b64_encode true _ ==s "") eqn:Ei; [|done]. apply String.eqb_eq in Ei. exfalso. revert Ei. apply b64_encode_nonempty.
    intros Es. apply (f_equal len) in Es. rewrite len_slice in Es; [done|lia|]. unfold len. rewrite Sum256_length. lia. }
  split; [done|]. split; [repeat split; apply b64_encode_text|].
  unfold verify. rewrite Hv. cbn [mbind result_bind]. unfold make_credential. cbn [k_Salt k_Digest].
  rewrite !b64_decode_encode. cbn [default]. unfold id. rewrite Hd. cbn [mbind result_bind]. by rewrite String.eqb_refl.
Qed.

(** ** What is stored *)

Definition valid_state (s : state) : Prop :=
  Version s = 1 /\ validateCredential (Active s) = Ok tt /\
  (forall p, Pending s = Some p -> validateCredential p = Ok tt) /\ state_text s.

Lemma load_payload_ok payload s : load_payload payload = Ok s -> auth_Decode payload = Some s /\ valid_state s.
Proof.
  unfold load_payload. destruct (rejectDuplicateKeys _) as [[]|]; [|done].
  destruct (auth_Decode payload) as [c|] eqn:Ed; [|done].
  destruct (negb (Version c =? 1) || negb (is_ok (validateCredential (Active c)))) eqn:Ea; [done|]. to_prop.
  destruct (validateCredential (Active c)) as [[]|] eqn:Ev; [|done].
  destruct (Pending c) as [p|] eqn:Ep; [destruct (validateCredential p) as [[]|] eqn:Evp; [|done]|]; intros [= <-];
    (split; [done|]; split; [done|]; split; [done|]; split; [|by eapply co_text]); rewrite Ep; [|done].
  by intros p' [= <-].
Qed.

Lemma load_saved s payload : valid_state s -> auth_Marshal s = Ok payload -> load_payload payload = Ok s.
Proof.
  intros (Hv&Ha&Hp&Ht) Hm. destruct (co_roundtrip C HC s payload Ht Hm) as [Hd Hk].
  unfold load_payload. rewrite Hk, Hd, Hv, Ha. cbn. destruct (Pending s) as [p|]; [|done]. by rewrite (Hp p eq_refl).
Qed.

(** The state that the file of a manager holds, if it is a valid one. *)
Definition stored (m : Manager) (f : Durable.fs) : option state :=
  match content f (m_name m) with
  | Some payload => match load_payload payload with Ok s => Some s | Fail _ => None end
  | None => None
  end.

(** ** The rotation machine *)

Inductive op : Type := OInitialize (secret : string) | OBegin (secret : string) | OPromote.

(** [verify secret c = Ok true]: the secret is the credential's. *)
Inductive rotation : option state -> op -> option state -> Prop :=
| rot_create secret a :
    verify secret a = Ok true -> rotation None (OInitialize secret) (Some (mkState 1 a None))
| rot_known secret s :
    verify secret (Active s) = Ok true -> rotation (Some s) (OInitialize secret) (Some s)
| rot_begin secret v a p :
    verify secret p = Ok true -> rotation (Some (mkState v a None)) (OBegin secret) (Some (mkState v a (Some p)))
| rot_promote v a p : rotation (Some (mkState v a (Some p))) OPromote (Some (mkState v p None)).

Context (E : Durable.OS) (HE : undisturbed E) (m : Manager).

Definition run_op (o : op) : A unit :=
  match o with
  | OInitialize secret => Initialize E m secret
  | OBegin secret => BeginRotation E m secret
  | OPromote => PromotePending E m
  end.

(** Loading leaves the file system alone and gives what is stored. *)
Lemma load_cases f n random :
  (exists e n', loadLocked E m ((f, n), random) = (Fail e, ((f, n'), random))) \/
  (exists s n', loadLocked E m ((f, n), random) = (Ok s, ((f, n'), random)) /\ stored m f = Some s /\ valid_state s).
Proof.
  unfold loadLocked, st_try, wrapping, on_root, alift.
  pose proof (keeps_Read E HE (m_root m) (m_name m) maxStateBytes f n) as Hkeep.
  destruct (Durable.Read E (m_root m) (m_name m) maxStateBytes (f, n)) as [[payload|e] [f' n']] eqn:Er;
    simpl in Hkeep; subst f'; [|left; eauto].
  apply (Read_content E HE) in Er as [Hc _]. destruct (load_payload payload) as [s|e] eqn:El; [|left; eauto].
  right. exists s, n'. split; [done|]. split; [unfold stored; by rewrite Hc, El|by eapply load_payload_ok].
Qed.

(** Saving a valid state keeps what is stored or replaces it by that state. *)
Lemma save_cases s f n random res f' n' random' :
  fs_ok f -> valid_state s -> saveLocked E m s ((f, n), random) = (res, ((f', n'), random')) ->
  fs_ok f' /\ ((stored m f' = stored m f /\ is_ok res = false) \/ stored m f' = Some s).
Proof.
  intros Hok Hs. unfold saveLocked. destruct (auth_Marshal s) as [payload|e] eqn:Em; [|by intros [= <- <- <- <-]; auto].
  destruct (maxStateBytes <? len payload); [by intros [= <- <- <- <-]; auto|].
  unfold wrapping, on_root. destruct (Durable.WriteAtomic E (m_root m) (m_name m) payload (f, n)) as [r [f1 n1]] eqn:Ew.
  apply (WriteAtomic_cases E HE) in Ew as (Hok1&_&Hc); [|done]. intros Hr.
  assert (f1 = f' /\ is_ok r = is_ok res) as [-> Er] by (destruct r; by simplify_eq). split; [done|].
  unfold stored. destruct Hc as [[-> Hf]|Hc]; [left; split; [done|congruence]|right].
  by rewrite Hc, (load_saved s payload Hs Em).
Qed.

(** Deriving leaves the file system alone and gives a credential of the secret. *)
Lemma derive_cases secret f n random :
  (exists e s', derive secret ((f, n), random) = (Fail e, ((f, n), s'))) \/
  (exists c s', derive secret ((f, n), random) = (Ok c, ((f, n), s')) /\
     validateCredential c = Ok tt /\ credential_text c /\ verify secret c = Ok true).
Proof.
  unfold derive, st_try, ReadFull, alift, aret. destruct (Z.ltb_spec (len random) saltBytes) as [|Hl]; [left; eauto|].
  destruct (pbkdf2_Key secret _) as [digest|e] eqn:Ek; [|left; eauto]. right. eexists _, _. split; [done|].
  apply make_credential_ok; [|done]. apply len_slice; unfold saltBytes in *; lia.
Qed.

(** [Exists] gives [false] only when the name is free. *)
Lemma exists_false f n n' : honest E -> fs_ok f ->
  Durable.Exists E (m_root m) (m_name m) (f, n) = (Ok false, (f, n')) -> content f (m_name m) = None.
Proof.
  intros Hh Hok. unfold Durable.Exists, st_try. unfold Durable.lift at 1.
  destruct (Durable.validateName _) as [[]|]; [|done].
  pose proof (keeps_verify E HE (m_root m) f n) as K1. destruct (Durable.verify E (m_root m) (f, n)) as [[[]|e] [f1 n1]]; simpl in K1; subst f1; [|done].
  unfold Durable.outcome, Durable.statAt, Durable.sys. rewrite HE. destruct (Durable.os_error E n1) as [e|] eqn:Ee.
  { rewrite (Hh _ _ Ee). done. }
  unfold content. destruct (Durable.f_names f !! m_name m) as [id|] eqn:El; [|done].
  destruct (Hok _ _ El) as [i Hi]. unfold Durable.stat_of. rewrite Hi. unfold Durable.lift.
  by destruct (Durable.validateFile _) as [[]|].
Qed.

(** What an operation does to the stored state. *)
Definition refines (o : op) (f f' : Durable.fs) (res : result unit) : Prop :=
  fs_ok f' /\ ((stored m f' = stored m f /\ is_ok res = false) \/ rotation (stored m f) o (stored m f')).

Lemma refines_same o f e : fs_ok f -> refines o f f (Fail e).
Proof. intros Hok. split; [done|]. by left. Qed.

Lemma refines_save o f s n random res f' n' random' :
  fs_ok f -> valid_state s -> rotation (stored m f) o (Some s) ->
  saveLocked E m s ((f, n), random) = (res, ((f', n'), random')) -> refines o f f' res.
Proof.
  intros Hok Hs Hr Hw. apply save_cases in Hw as [Hok' Hc]; [|done|done]. split; [done|].
  destruct Hc as [?| ->]; [by left|by right].
Qed.

Lemma run_refines o f n random res f' n' random' :
  honest E -> fs_ok f -> run_op o ((f, n), random) = (res, ((f', n'), random')) -> refines o f f' res.
Proof.
  intros Hh Hok. destruct o as [secret|secret|]; simpl.
  - unfold Initialize, st_try. unfold alift. destruct (validateSecret secret) as [[]|e];
      [|intros [= <- <- <- <-]; by apply refines_same].
    unfold wrapping at 1, on_root at 1. pose proof (keeps_Exists E HE (m_root m) (m_name m) f n) as Kx.
    destruct (Durable.Exists E (m_root m) (m_name m) (f, n)) as [[ex|e] [f1 n1]] eqn:Ex; simpl in Kx; subst f1;
      [|intros [= <- <- <- <-]; by apply refines_same].
    destruct ex.
    + destruct (load_cases f n1 random) as [(e&n2&->)|(s&n2&->&Hs&Hv)]; [intros [= <- <- <- <-]; by apply refines_same|].
      destruct (verify secret (Active s)) as [[]|e] eqn:Ev; unfold aret, afail; intros [= <- <- <- <-];
        try by apply refines_same. split; [done|]. right. rewrite Hs. by constructor.
    + apply exists_false in Ex as Hnone; [|done|done].
      unfold wrapping. destruct (derive_cases secret f n1 random) as [(e&s'&->)|(c&s'&->&Hc&Ht&Hver)];
        [intros [= <- <- <- <-]; by apply refines_same|].
      apply refines_save; [done| |unfold stored; rewrite Hnone; by constructor].
      split; [done|]. split; [done|]. split; [done|]. split; [done|]. done.
  - unfold BeginRotation, st_try. unfold alift. destruct (validateSecret secret) as [[]|e];
      [|intros [= <- <- <- <-]; by apply refines_same].
    destruct (load_cases f n random) as [(e&n2&->)|(s&n2&->&Hs&Hv)]; [intros [= <- <- <- <-]; by apply refines_same|].
    destruct s as [v a [p|]]; cbn [Pending Active Version]; [intros [= <- <- <- <-]; by apply refines_same|].
    unfold wrapping. destruct (derive_cases secret f n2 random) as [(e&s'&->)|(c&s'&->&Hc&Ht&Hver)];
      [intros [= <- <- <- <-]; by apply refines_same|].
    apply refines_save; [done| |rewrite Hs; by constructor].
    destruct Hv as (V1&V2&_&V4&_). split; [done|]. split; [done|].
    split; [by intros p [= <-]|]. split; [done|]. by intros p [= <-].
  - unfold PromotePending, st_try.
    destruct (load_cases f n random) as [(e&n2&->)|(s&n2&->&Hs&Hv)]; [intros [= <- <- <- <-]; by apply refines_same|].
    destruct s as [v a [p|]]; cbn [Pending Active Version]; [|intros [= <- <- <- <-]; by apply refines_same].
    apply refines_save; [done| |rewrite Hs; by constructor].
    destruct Hv as (V1&_&V3&_&V5). split; [done|]. split; [by apply V3|]. split; [done|]. split; [by apply V5|]. done.
Qed.
End Spec.

(** ** Properties *)

(** C10: With no other process at work and whatever calls fail, initialisation,
    the start of a rotation and promotion refine the two-key machine: an
    operation that succeeds takes the stored state along its transition (create
    an active key of the secret, add a pending key of the secret to the same
    active key, make the pending key the active one), and one that fails leaves
    the stored state alone or has made just that transition. *)
Theorem rotation_refined (K : Pbkdf2) (C : AuthCodec) E m o f n random res f' n' random' :
  kdf_ok K -> codec_ok C -> undisturbed E -> honest E -> fs_ok f ->
  run_op E m o ((f, n), random) = (res, ((f', n'), random')) ->
  fs_ok f' /\
  (res = Ok tt -> rotation (stored m f) o (stored m f')) /\
  (stored m f' = stored m f \/ rotation (stored m f) o (stored m f')).
Proof.
  intros HK HC HE Hh Hok Hr. apply run_refines in Hr as [Hok' Hc]; try done. split; [done|]. split.
  - intros ->. by destruct Hc as [[_ ?]|].
  - destruct Hc as [[? _]|]; auto.
Qed.


(** ** Witnesses *)

Module AuthSamples.

#[local] Instance kdf : Pbkdf2 := fun secret salt => Ok (Sum256 (secret +:+ salt)).

Definition secret0 : string := "first-secret-0123".
Definition secret1 : string := "second-secret-0123".
Definition salt0 : string := "0123456789abcdef".
Definition salt1 : string := "fedcba9876543210".
Definition cred0 : credential := make_credential salt0 (Sum256 (secret0 +:+ salt0)).
Definition cred1 : credential := make_credential salt1 (Sum256 (secret1 +:+ salt1)).
Definition state0 : state := mkState 1 cred0 None.
Definition state1 : state := mkState 1 cred0 (Some cred1).

#[local] Instance credential_eq_dec : EqDecision credential.
Proof. solve_decision. Defined.
#[local] Instance state_eq_dec : EqDecision state.
Proof. solve_decision. Defined.

(** A codec for these two states. *)
#[local] Instance codec : AuthCodec := {|
  auth_Marshal s := if decide (s = state0) then Ok "0" else if decide (s = state1) then Ok "1"
                    else Fail (errors_New "unsupported value");
  auth_tokens _ := [Ok TScalar];
  auth_Decode payload := if payload ==s "0" then Some state0 else if payload ==s "1" then Some state1 else None
|}.

Lemma kdf_sample_ok : kdf_ok kdf.
Proof. intros secret salt digest [= <-]. unfold len. by rewrite Sum256_length. Qed.

Lemma codec_sample_ok : codec_ok codec.
Proof.
  assert (forall salt digest, credential_text (make_credential salt digest)) as Ht by (repeat split; apply b64_encode_text).
  assert (state_text state0 /\ state_text state1) as [T0 T1].
  { split; (split; [apply Ht|]); [done|]. intros p [= <-]. apply Ht. }
  constructor.
  - intros s payload _. simpl. destruct (decide (s = state0)) as [->|]; [by intros [= <-]|].
    destruct (decide (s = state1)) as [->|]; [by intros [= <-]|done].
  - intros payload s. simpl. destruct (payload ==s "0"); [by intros [= <-]|]. destruct (payload ==s "1"); [by intros [= <-]|done].
Qed.

Definition manager : Manager := mkManager DurableSamples.root "auth.json".
Definition files : Durable.fs :=
  Durable.mkFS (<["auth.json" := (1, 10)]> ∅)
    (<[(1, 10) := Durable.mkInode (Z.lor Durable.S_IFREG 384) 1 "0"]> ∅) DurableSamples.dir_stat (Ok DurableSamples.dir_stat).
Definition after : (Durable.fs * nat) * string :=
  snd (run_op DurableSamples.quiet_os manager (OBegin secret1) ((files, 0%nat), salt1)).

Lemma sample_files_ok : fs_ok files.
Proof.
  intros name id H. unfold files in H. cbn [Durable.f_names] in H.
  apply lookup_insert_Some in H as [[_ <-]|[_ H]]; [|by rewrite lookup_empty in H].
  unfold files. cbn [Durable.f_inodes]. rewrite lookup_insert_eq. eauto.
Qed.

Lemma rotation_refined_witness :
  stored manager (fst (fst after)) = Some state1 /\
  rotation (stored manager files) (OBegin secret1) (stored manager (fst (fst after))).
Proof.
  split; [vm_compute; reflexivity|].
  apply (rotation_refined kdf codec DurableSamples.quiet_os manager (OBegin secret1) files 0 salt1 (Ok tt)
           (fst (fst after)) (snd (fst after)) (snd after)).
  - apply kdf_sample_ok.
  - apply codec_sample_ok.
  - intros n f. reflexivity.
  - intros n e H. discriminate H.
  - apply sample_files_ok.
  - vm_compute. reflexivity.
  - reflexivity.
Defined.

End AuthSamples.
