(* ===== verification/GoTime.v ===== *)
(** * Formatting of times

    The parts of Go's [time] package that turn a UTC time into text: the civil
    date of an instant and the layouts that the source parsers use. *)
From Stdlib Require Import ZArith Lia Bool.
From Stdlib Require Import String Ascii.
From stdpp Require Import base tactics option list strings.
From S2P Require Import Prelude GoStrings.
Open Scope Z_scope.

(** ** Civil dates *)

Definition is_leap (y : Z) : bool := (y mod 4 =? 0) && (negb (y mod 100 =? 0) || (y mod 400 =? 0)).

(** Days of the year before month [m], from 1. *)
Definition days_before_month (leap : bool) (m : Z) : Z :=
  let extra := if leap && (2 <? m) then 1 else 0 in
  extra + nth (Z.to_nat (m - 1)) [0; 31; 59; 90; 120; 151; 181; 212; 243; 273; 304; 334] 365.

(** Days from January 1, year 1 to January 1, year [y]. *)
Definition days_before_year (y : Z) : Z :=
  let p := y - 1 in 365 * p + p / 4 - p / 100 + p / 400.

(** The year of a day number, and the day in it. *)
Definition year_of_days (days : Z) : Z * Z :=
  let n400 := days / 146097 in
  let d := days mod 146097 in
  let n100 := Z.min 3 (d / 36524) in
  let d := d - 36524 * n100 in
  let n4 := d / 1461 in
  let d := d - 1461 * n4 in
  let n1 := Z.min 3 (d / 365) in
  (400 * n400 + 100 * n100 + 4 * n4 + n1 + 1, d - 365 * n1).

(** The month that holds a day of the year. *)
Fixpoint month_from (leap : bool) (yday : Z) (m : Z) (n : nat) : Z :=
  match n with
  | O => m
  | S n => if yday <? days_before_month leap (m + 1) then m else month_from leap yday (m + 1) n
  end.

Record civil : Type := mkCivil { cv_year : Z; cv_month : Z; cv_day : Z }.

Definition civil_of_days (days : Z) : civil :=
  let '(y, yday) := year_of_days days in
  let leap := is_leap y in
  let m := month_from leap yday 1 11 in
  mkCivil y m (yday - days_before_month leap m + 1).

Definition days_of_civil (c : civil) : Z :=
  days_before_year (cv_year c) + days_before_month (is_leap (cv_year c)) (cv_month c) + cv_day c - 1.

(** ** Layouts *)

Definition zero_string (n : nat) : string := String.concat "" (repeat "0" n).
(** [fmt.Sprintf("%0<w>d", z)] for [z >= 0]. *)
Definition pad_int (w : Z) (z : Z) : string :=
  let digits := Itoa z in zero_string (Z.to_nat (w - len digits)) +:+ digits.

Definition format_year (y : Z) : string := if y <? 0 then "-" +:+ pad_int 4 (- y) else pad_int 4 y.

Fixpoint trim_zeros_left (s : string) : string :=
  match s with
  | String c r => if Ascii.eqb c "0" then trim_zeros_left r else s
  | EmptyString => EmptyString
  end.
(** [strings.TrimRight(s, "0")]. *)
Definition TrimRightZeros (s : string) : string := srev (trim_zeros_left (srev s)).

Definition Nanosecond (t : Time) : Z := instant t mod second.

(** [t.Format("2006-01-02 15:04:05")] in UTC. *)
Definition format_seconds (t : Time) : string :=
  let secs := instant t / second in
  let day := secs mod 86400 in
  let c := civil_of_days (secs / 86400) in
  format_year (cv_year c) +:+ "-" +:+ pad_int 2 (cv_month c) +:+ "-" +:+ pad_int 2 (cv_day c) +:+ " " +:+
  pad_int 2 (day / 3600) +:+ ":" +:+ pad_int 2 (day mod 3600 / 60) +:+ ":" +:+ pad_int 2 (day mod 60).

(** The layout's [.999999999]: nothing for a whole second, else the nine digits
    of the fraction without trailing zeros. *)
Definition format_fraction (nanos : Z) : string :=
  if nanos =? 0 then "" else "." +:+ TrimRightZeros (pad_int 9 nanos).

(** ** The civil date is right *)

Lemma year_of_days_spec days :
  let '(y, d) := year_of_days days in
  days = days_before_year y + d /\ 0 <= d < (if is_leap y then 366 else 365).
Proof.
  unfold year_of_days, days_before_year.
  pose proof (Z.div_mod days 146097 ltac:(lia)) as E. pose proof (Z.mod_pos_bound days 146097 ltac:(lia)) as B.
  set (n400 := days / 146097) in *. set (r := days mod 146097) in *.
  set (n100 := Z.min 3 (r / 36524)). set (r1 := r - 36524 * n100).
  assert (0 <= n100 <= 3 /\ 0 <= r1 /\ (n100 < 3 -> r1 < 36524) /\ r1 <= 36524) as (N1&R1&R1'&R1'')
    by (unfold n100, r1; pose proof (Z.div_mod r 36524); pose proof (Z.mod_pos_bound r 36524); lia).
  set (n4 := r1 / 1461). set (r2 := r1 - 1461 * n4).
  assert (0 <= n4 <= 24 /\ 0 <= r2 < 1461 /\ (n100 < 3 -> n4 = 24 -> r2 < 1460)) as (N2&R2&R2')
    by (unfold n4, r2; pose proof (Z.div_mod r1 1461); pose proof (Z.mod_pos_bound r1 1461); lia).
  set (n1 := Z.min 3 (r2 / 365)). set (r3 := r2 - 365 * n1).
  assert (0 <= n1 <= 3 /\ 0 <= r3 /\ (n1 < 3 -> r3 < 365) /\ r3 <= 365) as (N3&R3&R3'&R3'')
    by (unfold n1, r3; pose proof (Z.div_mod r2 365); pose proof (Z.mod_pos_bound r2 365); lia).
  set (p := 400 * n400 + 100 * n100 + 4 * n4 + n1).
  replace (p + 1 - 1) with p by lia.
  assert (p / 4 = 100 * n400 + 25 * n100 + n4) as -> by (unfold p; symmetry; apply Z.div_unique with n1; lia).
  assert (p / 100 = 4 * n400 + n100) as -> by (unfold p; symmetry; apply Z.div_unique with (4 * n4 + n1); lia).
  assert (p / 400 = n400) as -> by (unfold p; symmetry; apply Z.div_unique with (100 * n100 + 4 * n4 + n1); lia).
  split; [unfold p; lia|]. split; [lia|].
  destruct (Z.eq_dec n1 3) as [En|Hn]; [|destruct (is_leap _); lia].
  enough (r3 = 365 -> is_leap (p + 1) = true) as Hl.
  { destruct (Z.eq_dec r3 365) as [E3|]; [rewrite (Hl E3)|destruct (is_leap _)]; lia. }
  intros E3. unfold is_leap. apply andb_true_iff. split.
  - apply Z.eqb_eq. unfold p. symmetry. apply Z.mod_unique with (100 * n400 + 25 * n100 + n4 + 1); lia.
  - apply orb_true_iff. destruct (Z.eq_dec n4 24) as [E4|H4].
    + right. assert (n100 = 3) as E1 by lia. apply Z.eqb_eq. unfold p. symmetry.
      apply Z.mod_unique with (n400 + 1); lia.
    + left. apply negb_true_iff, Z.eqb_neq. unfold p.
      rewrite <- (Z.mod_unique (400 * n400 + 100 * n100 + 4 * n4 + n1 + 1) 100 (4 * n400 + n100) (4 * n4 + n1 + 1)); lia.
Qed.

Lemma month_from_spec (leap : bool) yday :
  0 <= yday < (if leap then 366 else 365) ->
  let m := month_from leap yday 1 11 in
  1 <= m <= 12 /\ days_before_month leap m <= yday < days_before_month leap (m + 1).
Proof.
  intros H. simpl. unfold days_before_month; destruct leap; simpl in *;
    repeat (match goal with |- context [yday <? ?k] => destruct (Z.ltb_spec yday k) end; simpl; [lia|]); lia.
Qed.

(** The civil date of a day number denotes that day, with a month from 1 to 12. *)
Lemma civil_of_days_spec days :
  days_of_civil (civil_of_days days) = days /\
  1 <= cv_month (civil_of_days days) <= 12 /\ 1 <= cv_day (civil_of_days days) <= 31.
Proof.
  unfold civil_of_days, days_of_civil. pose proof (year_of_days_spec days) as H.
  destruct (year_of_days days) as [y d]. destruct H as [E B]. cbn [cv_year cv_month cv_day].
  pose proof (month_from_spec (is_leap y) d B) as [Hm Hd]. split; [lia|]. split; [lia|].
  set (m := month_from _ _ _ _) in *.
  enough (days_before_month (is_leap y) (m + 1) <= days_before_month (is_leap y) m + 31) by lia.
  clearbody m. clear - Hm. assert (List.In m [1;2;3;4;5;6;7;8;9;10;11;12]) as Hin by (simpl; lia).
  destruct (is_leap y); repeat (destruct Hin as [<-|Hin]; [vm_compute; discriminate|]); destruct Hin.
Qed.

Example format_epoch : format_seconds (time_Unix_UTC 0) = "1970-01-01 00:00:00".
Proof. vm_compute. reflexivity. Qed.
Example format_leap_day :
  format_seconds (time_Unix_UTC (1709251199 * second)) = "2024-02-29 23:59:59".
Proof. vm_compute. reflexivity. Qed.
