(* ===== verification/SplitContent.v ===== *)
(** * Splitting long messages

    [splitContent] of the source parsers: [source/claude/claude.go] has one
    version, [source/codex/codex.go], [source/gemini/gemini.go] and
    [source/chatgpt/chatgpt.go] share another. A message over
    [MaxChunkContentLength] bytes is cut into parts at paragraph or sentence
    ends, each part starting [ChunkOverlap] bytes before the end of the previous
    one. *)
From Stdlib Require Import ZArith Lia Bool.
From Stdlib Require Import String Ascii.
From stdpp Require Import base tactics option list strings.
From S2P Require Import Prelude GoStrings.
Open Scope Z_scope.

Definition MaxChunkContentLength : Z := 8000.
Definition ChunkOverlap : Z := 1500.

Definition newline : string := String (ascii_of_N 10) "".

(** The end of a part whose window is [content[start:stop]]: after the last
    paragraph end in the last 1000 bytes, else after the last sentence or line
    end there, else [stop]. *)
Definition break_end (content : string) (start stop : Z) : Z :=
  let regionStart := Z.max start (stop - 1000) in
  let region := slice content regionStart stop in
  let at_ := LastIndex region (newline +:+ newline) in
  if 0 <? at_ then regionStart + at_ + 2
  else
    let at_ := Z.max (Z.max (Z.max (LastIndex region ". ") (LastIndex region "! ")) (LastIndex region "? "))
                 (LastIndex region newline) in
    if 0 <? at_ then regionStart + at_ + 1 else stop.

(** ** The two loops *)

(** The loop of Claude's version; [None] when [fuel] iterations are not enough. *)
Fixpoint claude_loop (fuel : nat) (content : string) (start : Z) : option (list string) :=
  match fuel with
  | O => None
  | S fuel =>
      if start <? len content then
        let stop := start + MaxChunkContentLength in
        if len content <=? stop then Some [slice_from content start]
        else
          let stop := break_end content start stop in
          parts ← claude_loop fuel content (Z.max (start + 1) (stop - ChunkOverlap));
          Some (slice content start stop :: parts)
      else Some []
  end.

(** The loop of the other version. *)
Fixpoint codex_loop (fuel : nat) (content : string) (start : Z) : option (list string) :=
  match fuel with
  | O => None
  | S fuel =>
      if start <? len content then
        let stop := Z.min (start + MaxChunkContentLength) (len content) in
        let stop := if stop <? len content then break_end content start stop else stop in
        parts ← codex_loop fuel content (Z.max (start + 1) (stop - ChunkOverlap));
        Some (slice content start stop :: parts)
      else Some []
  end.

(** Every iteration moves [start] forward, so one for each byte and a last one
    are enough. *)
Definition split_fuel (content : string) : nat := S (String.length content).

Definition claude_splitContent (content : string) : list string :=
  if len content <=? MaxChunkContentLength then [content]
  else default [] (claude_loop (split_fuel content) content 0).

Definition codex_splitContent (content : string) : list string :=
  if len content <=? MaxChunkContentLength then [content]
  else default [] (codex_loop (split_fuel content) content 0).

(** Gemini and ChatGPT have the same function. *)
Definition gemini_splitContent (content : string) : list string := codex_splitContent content.
Definition chatgpt_splitContent (content : string) : list string := codex_splitContent content.

(** ** Where a window ends *)

Lemma last_index_window s sub :
  0 < len sub -> 0 < LastIndex s sub -> LastIndex s sub + len sub <= len s.
Proof. intros. destruct (LastIndex_upper s sub); lia. Qed.

(** A full window ends after its first 7000 bytes and never after its own end. *)
Lemma break_end_bounds content start stop :
  0 <= start -> stop = start + MaxChunkContentLength -> stop <= len content ->
  start + 7002 <= break_end content start stop <= stop.
Proof.
  unfold break_end, MaxChunkContentLength. intros Hs -> Hl.
  replace (Z.max start (start + 8000 - 1000)) with (start + 7000) by lia.
  set (region := slice _ _ _).
  assert (len region = 1000) as Hr by (unfold region; rewrite len_slice; lia).
  pose proof (last_index_window region (newline +:+ newline) ltac:(done)) as H1.
  pose proof (last_index_window region ". " ltac:(done)) as H2.
  pose proof (last_index_window region "! " ltac:(done)) as H3.
  pose proof (last_index_window region "? " ltac:(done)) as H4.
  pose proof (last_index_window region newline ltac:(done)) as H5.
  change (len (newline +:+ newline)) with 2 in *. change (len ". ") with 2 in *.
  change (len "! ") with 2 in *. change (len "? ") with 2 in *. change (len newline) with 1 in *.
  destruct (Z.ltb_spec 0 (LastIndex region (newline +:+ newline))); [lia|].
  destruct (Z.ltb_spec 0 (Z.max (Z.max (Z.max (LastIndex region ". ") (LastIndex region "! "))
    (LastIndex region "? ")) (LastIndex region newline))); lia.
Qed.

(** ** The parts as windows

    [cuts content start parts]: the parts are consecutive windows of the content
    from [start] to its end, each but the last followed by one that starts
    [ChunkOverlap] bytes before its end. *)
Inductive cuts (content : string) : Z -> list string -> Prop :=
| cuts_last start :
    0 <= start < len content -> len content - start <= MaxChunkContentLength ->
    cuts content start [slice_from content start]
| cuts_next start stop parts :
    0 <= start -> start + 7002 <= stop <= start + MaxChunkContentLength -> stop < len content ->
    cuts content (stop - ChunkOverlap) parts ->
    cuts content start (slice content start stop :: parts).

(** Putting parts together again: a part that is followed by another gives all
    but its last [ChunkOverlap] bytes. *)
Fixpoint reassemble (parts : list string) : string :=
  match parts with
  | [] => ""
  | [p] => p
  | p :: rest => slice p 0 (len p - ChunkOverlap) +:+ reassemble rest
  end.

Lemma slice_slice s i j k : 0 <= i -> i <= k -> k <= j -> j <= len s -> slice (slice s i j) 0 (k - i) = slice s i k.
Proof.
  intros. rewrite (slice_split s i k j) by lia. set (a := slice s i k).
  assert (len a = k - i) as <- by (unfold a; rewrite len_slice; lia).
  generalize (slice s k j) as b. intros b. unfold slice. rewrite Z.sub_0_r. change (Z.to_nat 0) with 0%nat.
  unfold len. rewrite Nat2Z.id. induction a as [|c a IH]; simpl; [by destruct b|]. by rewrite IH.
Qed.

Lemma cuts_reassemble content start parts :
  cuts content start parts -> reassemble parts = slice_from content start.
Proof.
  induction 1 as [|start stop parts Hs Hb Hl Hc IH]; [done|].
  assert (reassemble (slice content start stop :: parts) =
    slice (slice content start stop) 0 (len (slice content start stop) - ChunkOverlap) +:+ reassemble parts) as ->
    by (destruct parts; [by inversion Hc|done]).
  rewrite IH.
  unfold slice_from. unfold MaxChunkContentLength, ChunkOverlap in *.
  rewrite len_slice by lia. replace (stop - start - 1500) with ((stop - 1500) - start) by lia.
  rewrite slice_slice by lia. symmetry. apply slice_split; lia.
Qed.

Lemma cuts_parts content start parts :
  cuts content start parts ->
  Forall (fun p => 0 < len p <= MaxChunkContentLength) parts /\
  5502 * Z.of_nat (length parts) <= len content - start + 5502.
Proof.
  unfold MaxChunkContentLength.
  induction 1 as [start Hs Hl|start stop parts Hs Hb Hl Hc [IH1 IH2]]; unfold MaxChunkContentLength, ChunkOverlap in *.
  - split; [repeat constructor; unfold slice_from; rewrite len_slice; lia|]. simpl. lia.
  - split; [constructor; [rewrite len_slice; lia|done]|]. cbn [length]. lia.
Qed.

Lemma claude_loop_cuts content fuel start :
  0 <= start < len content -> len content - start < Z.of_nat fuel ->
  exists parts, claude_loop fuel content start = Some parts /\ cuts content start parts.
Proof.
  revert start. induction fuel as [|fuel IH]; intros start Hs Hf; [lia|].
  cbn [claude_loop]. destruct (Z.ltb_spec start (len content)); [|lia].
  destruct (Z.leb_spec (len content) (start + MaxChunkContentLength)) as [Hl|Hl].
  - eexists. split; [done|]. constructor; lia.
  - pose proof (break_end_bounds content start _ ltac:(lia) eq_refl ltac:(lia)) as Hb.
    set (stop := break_end _ _ _) in *. unfold MaxChunkContentLength in *.
    replace (Z.max (start + 1) (stop - ChunkOverlap)) with (stop - ChunkOverlap) by (unfold ChunkOverlap; lia).
    destruct (IH (stop - ChunkOverlap)) as (parts&E&Hc); unfold ChunkOverlap in *; [lia|lia|].
    rewrite E. simpl. eexists. split; [done|]. constructor; unfold MaxChunkContentLength, ChunkOverlap; try lia. done.
Qed.

(** The fuel is enough, and the parts are windows of the content. *)
Lemma claude_split_cuts content :
  MaxChunkContentLength < len content ->
  claude_loop (split_fuel content) content 0 = Some (claude_splitContent content) /\
  cuts content 0 (claude_splitContent content).
Proof.
  intros H. unfold claude_splitContent. destruct (Z.leb_spec (len content) MaxChunkContentLength); [lia|].
  destruct (claude_loop_cuts content (split_fuel content) 0) as (parts&E&Hc).
  - unfold MaxChunkContentLength in *. lia.
  - unfold split_fuel, len. lia.
  - rewrite E. done.
Qed.

(** ** The other version *)

(** The suffixes of the content of [n], [n-1], ..., 1 bytes. *)
Fixpoint suffixes (content : string) (n : nat) : list string :=
  match n with
  | O => []
  | S m => slice_from content (len content - Z.of_nat n) :: suffixes content m
  end.

Lemma suffixes_length content n : length (suffixes content n) = n.
Proof. induction n; simpl; congruence. Qed.

(** Once a part reaches the end, the loop goes on one byte at a time. *)
Lemma codex_loop_tail content fuel n :
  Z.of_nat n <= ChunkOverlap -> Z.of_nat n <= len content -> (n < fuel)%nat ->
  codex_loop fuel content (len content - Z.of_nat n) = Some (suffixes content n).
Proof.
  revert fuel. unfold ChunkOverlap. induction n as [|n IH]; intros fuel Hn Hl Hf;
    (destruct fuel as [|fuel]; [lia|]); cbn [codex_loop].
  - destruct (Z.ltb_spec (len content - Z.of_nat 0) (len content)); [lia|done].
  - destruct (Z.ltb_spec (len content - Z.of_nat (S n)) (len content)); [|lia].
    unfold MaxChunkContentLength, ChunkOverlap in *.
    replace (Z.min (len content - Z.of_nat (S n) + 8000) (len content)) with (len content) by lia.
    destruct (Z.ltb_spec (len content) (len content)); [lia|].
    replace (Z.max (len content - Z.of_nat (S n) + 1) (len content - 1500)) with (len content - Z.of_nat n) by lia.
    rewrite IH by lia. done.
Qed.

(** From a start that leaves more than [ChunkOverlap] bytes, the loop gives the
    parts of Claude's version and then every shorter suffix. *)
Lemma codex_loop_claude content fuel start :
  0 <= start -> start + ChunkOverlap < len content -> len content - start < Z.of_nat fuel ->
  codex_loop fuel content start =
    (fun parts => parts ++ suffixes content (Z.to_nat ChunkOverlap)) <$> claude_loop fuel content start.
Proof.
  revert start. unfold ChunkOverlap. induction fuel as [|fuel IH]; intros start Hs Ho Hf; [lia|].
  cbn [claude_loop codex_loop]. destruct (Z.ltb_spec start (len content)); [|lia].
  destruct (Z.leb_spec (len content) (start + MaxChunkContentLength)) as [Hl|Hl].
  - rewrite Z.min_r by lia. destruct (Z.ltb_spec (len content) (len content)); [lia|].
    unfold ChunkOverlap. replace (Z.max (start + 1) (len content - 1500)) with (len content - Z.of_nat 1500) by lia.
    rewrite codex_loop_tail by (unfold ChunkOverlap; lia). done.
  - rewrite Z.min_l by lia. destruct (Z.ltb_spec (start + MaxChunkContentLength) (len content)); [|lia].
    pose proof (break_end_bounds content start _ ltac:(lia) eq_refl ltac:(lia)) as Hb.
    set (stop := break_end _ _ _) in *. unfold MaxChunkContentLength, ChunkOverlap in *.
    rewrite IH by lia. by destruct (claude_loop fuel content _).
Qed.

Lemma codex_split_claude content :
  codex_splitContent content =
    claude_splitContent content ++
    (if len content <=? MaxChunkContentLength then [] else suffixes content (Z.to_nat ChunkOverlap)).
Proof.
  unfold codex_splitContent. destruct (Z.leb_spec (len content) MaxChunkContentLength) as [Hl|Hl].
  - unfold claude_splitContent. by destruct (Z.leb_spec (len content) MaxChunkContentLength); [|lia].
  - destruct (claude_split_cuts content Hl) as [E _].
    rewrite codex_loop_claude, E; [done|lia|unfold MaxChunkContentLength, ChunkOverlap in *; lia|].
    unfold split_fuel, len. lia.
Qed.

(** ** Properties *)

(** C29: Claude's [splitContent] is total and loses nothing: dropping the last
    1500 bytes of every part but the last and joining them gives the message
    again; no part is over 8000 bytes; and a message of n bytes has at most
    n/5502 + 1 parts. *)
Theorem claude_split_exact content :
  let parts := claude_splitContent content in
  reassemble parts = content /\
  Forall (fun p => len p <= MaxChunkContentLength) parts /\
  Z.of_nat (length parts) <= len content / 5502 + 1.
Proof.
  simpl. destruct (Z.leb_spec (len content) MaxChunkContentLength) as [Hl|Hl].
  - unfold claude_splitContent. destruct (Z.leb_spec (len content) MaxChunkContentLength); [|lia].
    split; [done|]. split; [by repeat constructor|]. pose proof (len_nonneg content).
    pose proof (Z.div_pos (len content) 5502). simpl. lia.
  - destruct (claude_split_cuts content Hl) as [_ Hc]. pose proof (cuts_parts _ _ _ Hc) as [Hp Hn].
    rewrite (cuts_reassemble _ _ _ Hc). split; [apply slice_full|].
    split; [eapply Forall_impl; [exact Hp|]; simpl; lia|].
    pose proof (Z.div_le_lower_bound (len content) 5502 (Z.of_nat (length (claude_splitContent content)) - 1)).
    lia.
Qed.

(** The [splitContent] of Codex, Gemini and ChatGPT gives the same parts as
    Claude's, and for a message over 8000 bytes it goes on to emit the last 1500
    bytes, the last 1499, and so on down to the last byte as further parts. *)
Theorem codex_split_tail content :
  codex_splitContent content =
    claude_splitContent content ++
    (if len content <=? MaxChunkContentLength then [] else suffixes content 1500) /\
  gemini_splitContent content = codex_splitContent content /\
  chatgpt_splitContent content = codex_splitContent content.
Proof. split; [apply codex_split_claude|done]. Qed.
