(* ===== verification/SourceText.v ===== *)
(** * What the source parsers share

    The decoded JSON values the parsers walk, the line reader of the JSONL
    parsers ([readLine] and [boundedReader] of [source/claude/claude.go], also
    in [source/codex/codex.go]), chunk identifiers and the numbering of the parts
    of a long message. *)
From Stdlib Require Import ZArith Lia Bool SpecFloat.
From Stdlib Require Import String Ascii.
From stdpp Require Import base tactics option list strings.
From S2P Require Import Prelude GoStrings StoreTypes StorePlans Sha256 GoTime.
Open Scope Z_scope.

(** ** JSON values *)

(** What [json.Unmarshal] stores in an [any]; an object is the list of its
    bindings, with distinct keys. *)
Inductive json : Type :=
| JNull
| JBool (b : bool)
| JNumber (f : float)
| JString (s : string)
| JArray (l : list json)
| JObject (m : list (string * json)).

(** The decoders of the standard library: [json.Unmarshal] into an [any],
    [json.Marshal] of one, and [time.Parse(time.RFC3339Nano, s)]. *)
Class GoDecode : Type := {
  json_Unmarshal : string -> option json;
  json_Marshal : json -> option string;
  time_Parse : string -> option Time
}.

Fixpoint jlookup (k : string) (m : list (string * json)) : option json :=
  match m with
  | [] => None
  | (k', v) :: rest => if k ==s k' then Some v else jlookup k rest
  end.

(** [m[k]] on a [map[string]any], nil when absent. *)
Definition jget (m : list (string * json)) (k : string) : json := default JNull (jlookup k m).

(** [m, _ := v.(map[string]any)]: a nil map unless [v] is an object. *)
Definition as_object (v : json) : list (string * json) :=
  match v with JObject m => m | _ => [] end.
Definition is_object (v : json) : bool := match v with JObject _ => true | _ => false end.

Definition stringValue (v : json) : string := match v with JString s => s | _ => "" end.
Definition boolValue (v : json) : bool := match v with JBool b => b | _ => false end.

Fixpoint firstNonEmpty (values : list string) : string :=
  match values with
  | [] => ""
  | v :: rest => if v !=s "" then v else firstNonEmpty rest
  end.

Fixpoint jsonDepth (v : json) (depth : Z) : Z :=
  match v with
  | JObject m => fold_left (fun acc kv => Z.max acc (jsonDepth (snd kv) (depth + 1))) m depth
  | JArray l => fold_left (fun acc c => Z.max acc (jsonDepth c (depth + 1))) l depth
  | _ => depth
  end.

(** ** Lines *)

Definition MaxFileBytes : Z := 10737418240.
Definition MaxLineBytes : Z := 524288.
Definition MaxJSONDepth : Z := 50.

Record Issue : Type := mkIssue { is_Line : Z; is_Reason : string }.

(** One result of [readLine]: the bytes without the newline, or [None] when
    the line, with its newline, is over [MaxLineBytes]. *)
Definition read_line (last : bool) (line : string) : option string :=
  if MaxLineBytes <? len line + (if last then 0 else 1) then None else Some line.

Fixpoint number_lines (n : Z) (lines : list string) : list (Z * option string) :=
  match lines with
  | [] => []
  | [l] => [(n, read_line true l)]
  | l :: rest => (n, read_line false l) :: number_lines (n + 1) rest
  end.

(** The lines [readLine] returns for an input, with their numbers. *)
Definition read_lines (content : string) : list (Z * option string) :=
  number_lines 1 (Split (ascii_of_N 10) content).

Section ParseLines.
Context {A : Type} (kind : string) (parse : string -> A + string).

(** The loop of [Parse]: an entry or an issue for every line that is not blank. *)
Fixpoint parse_lines (lines : list (Z * option string)) : list (A * Z) * list Issue :=
  match lines with
  | [] => ([], [])
  | (n, line) :: rest =>
      let '(entries, issues) := parse_lines rest in
      match line with
      | None => (entries, mkIssue n "line_too_long" :: issues)
      | Some line =>
          let text := TrimSpace line in
          if text ==s "" then (entries, issues)
          else match parse text with
               | inl e => ((e, n) :: entries, issues)
               | inr reason => (entries, mkIssue n reason :: issues)
               end
      end
  end.

(** [Parse]. The bounded reader fails once it has delivered [maxBytes + 1]
    bytes, so an input over [maxBytes] is refused whatever its lines are. *)
Definition parse_input (content : string) (maxBytes : Z) : result (list (A * Z) * list Issue) :=
  let maxBytes := if maxBytes =? 0 then MaxFileBytes else maxBytes in
  if (maxBytes <? 1) || (MaxFileBytes <? maxBytes)
  then Fail (Errorf "%s source byte limit is invalid" [FStr kind])
  else if maxBytes <? len content
  then Fail (Errorf "%s source exceeds %d bytes" [FStr kind; FInt maxBytes])
  else Ok (parse_lines (read_lines content)).
End ParseLines.

(** ** Identifiers *)

Definition chunkID (content session timestamp : string) : string :=
  slice (hex_encode (Sum256 (content +:+ session +:+ timestamp))) 0 16.

(** [value.UTC().Format("2006-01-02 15:04:05.999999999+00:00")]. *)
Definition timestampKey (t : Time) : string :=
  format_seconds (UTC t) +:+ format_fraction (Nanosecond (UTC t)) +:+ "+00:00".

Definition canonicalTimestamp (value : Time) : string :=
  let value := UTC value in
  let result := format_seconds value in
  let nanos := Nanosecond value in
  let result := if negb (nanos =? 0) then result +:+ "." +:+ TrimRightZeros (pad_int 9 nanos) else result in
  result +:+ "+00:00".

(** ** Parts *)

Definition part_label (index total : Z) (part : string) : string :=
  "[Part " +:+ Itoa (index + 1) +:+ "/" +:+ Itoa total +:+ "] " +:+ part.

(** The loop that turns parts into chunks: [emit id content parent] builds one. *)
Fixpoint emit_parts (emit : string -> string -> string -> Chunk) (base session key : string)
    (total index : Z) (parts : list string) : list Chunk :=
  match parts with
  | [] => []
  | part :: rest =>
      (if 1 <? total then
         let part := part_label index total part in
         emit (chunkID part session (key +:+ "_part" +:+ Itoa (index + 1))) part (if 0 <? index then base else "")
       else emit base part "")
      :: emit_parts emit base session key total (index + 1) rest
  end.

Definition part_chunks (emit : string -> string -> string -> Chunk) (content session key : string)
    (parts : list string) : list Chunk :=
  emit_parts emit (chunkID content session key) session key (Z.of_nat (length parts)) 0 parts.

Definition set_children (c : Chunk) (ids : list string) : Chunk :=
  mkChunk (c_ID c) (c_Content c) (c_Vector c) (c_ChunkType c) (c_SessionID c) (c_ProjectPath c) (c_ProjectName c)
    (c_Timestamp c) (c_UserUUID c) (c_AssistantUUID c) (c_FilePath c) (c_Operation c) (c_Model c)
    (c_SourceFile c) (c_SourceLine c) (c_ParentChunkID c) ids (c_MachineID c).

(** [turns[0].ChildChunkIDs] is the list of the files' identifiers, if any. *)
Definition attach_children (turns files : list Chunk) : list Chunk :=
  match turns, files with
  | t :: rest, _ :: _ => set_children t (map c_ID files) :: rest
  | _, _ => turns
  end.

(** ** Shared lemmas *)

Definition hex_id (id : string) : Prop := String.length id = 16%nat /\ sforall is_lower_hex id = true.

Lemma hex_encode_length s : String.length (hex_encode s) = (2 * String.length s)%nat.
Proof. induction s as [|c s IH]; [done|]. cbn [hex_encode]. rewrite str_length_app, hex_fixed_length, IH. simpl. lia. Qed.
Lemma hex_encode_lower_hex s : sforall is_lower_hex (hex_encode s) = true.
Proof. induction s as [|c s IH]; [done|]. cbn [hex_encode]. by rewrite sforall_app, hex_fixed_lower_hex, IH. Qed.

Lemma sforall_slice p s i j : sforall p s = true -> sforall p (slice s i j) = true.
Proof.
  unfold slice. generalize (Z.to_nat i) (Z.to_nat (j - i)). induction s as [|c s IH]; intros [|n] [|m]; simpl; try done.
  - intros H. to_prop. rewrite (IH 0%nat m) by done. rewrite H. done.
  - intros H. to_prop. by apply IH.
  - intros H. to_prop. by apply IH.
Qed.

(** Every identifier is sixteen lower-case hexadecimal digits. *)
Lemma chunkID_hex content session key : hex_id (chunkID content session key).
Proof.
  unfold chunkID. set (h := hex_encode _). split.
  - unfold slice. rewrite substring_length. unfold h. rewrite hex_encode_length, Sum256_length. done.
  - apply sforall_slice, hex_encode_lower_hex.
Qed.

Lemma hex_id_shard id : hex_id id -> hasLowerHexShardPrefix id = true.
Proof. intros [Hl Hh]. destruct id as [|a [|b r]]; try done. simpl in *. to_prop. by rewrite H, H0. Qed.

Lemma emit_parts_length emit base session key total index parts :
  length (emit_parts emit base session key total index parts) = length parts.
Proof. revert index. induction parts as [|p parts IH]; intros index; simpl; [done|]. by rewrite IH. Qed.

Lemma part_chunks_length emit content session key parts :
  length (part_chunks emit content session key parts) = length parts.
Proof. apply emit_parts_length. Qed.

(** A chunk of a message is [emit] of an identifier, a part, perhaps labelled,
    and a parent that is an identifier or empty. *)
Lemma part_chunks_inv (P : Chunk -> Prop) emit content session key parts :
  (forall id part parent, hex_id id -> parent = "" \/ hex_id parent ->
     (exists p, p ∈ parts /\ (part = p \/ exists i n, part = part_label i n p)) -> P (emit id part parent)) ->
  Forall P (part_chunks emit content session key parts).
Proof.
  intros H. unfold part_chunks. generalize 0. set (total := Z.of_nat (length parts)). clearbody total.
  assert (forall p, p ∈ parts -> p ∈ parts) as Hsub by done. revert Hsub. generalize parts at 1 3 as l.
  induction l as [|p l IH]; intros Hsub i; simpl; constructor.
  - assert (p ∈ parts) by (apply Hsub; by left). destruct (1 <? total).
    + apply H; [apply chunkID_hex| |eauto 8]. destruct (0 <? i); [right; apply chunkID_hex|by left].
    + apply H; [apply chunkID_hex|by left|eauto].
  - apply IH. intros q Hq. apply Hsub. by right.
Qed.

Lemma part_label_nonempty i n p : part_label i n p <> "".
Proof. done. Qed.

Lemma number_lines_pos n lines k l : 1 <= n -> (k, l) ∈ number_lines n lines -> 1 <= k.
Proof.
  revert n. induction lines as [|x lines IH]; intros n Hn Hin; [by inversion Hin|].
  destruct lines as [|y lines].
  - apply list_elem_of_singleton in Hin. by simplify_eq.
  - change (number_lines n (x :: y :: lines)) with ((n, read_line false x) :: number_lines (n + 1) (y :: lines)) in Hin.
    apply elem_of_cons in Hin as [[= -> ->]|Hin]; [lia|]. eapply IH; [|exact Hin]. lia.
Qed.

(** Every parsed entry comes from a line with its number, and is what the line
    parser gives. *)
Lemma parse_lines_entries {A} (parse : string -> A + string) lines e n :
  (e, n) ∈ fst (parse_lines parse lines) ->
  exists line, (n, Some line) ∈ lines /\ parse (TrimSpace line) = inl e.
Proof.
  induction lines as [|[k l] lines IH]; simpl; [by inversion 1|].
  destruct (parse_lines parse lines) as [es iss]. simpl in IH.
  assert ((e, n) ∈ es -> exists line, (n, Some line) ∈ (k, l) :: lines /\ parse (TrimSpace line) = inl e) as IH'.
  { intros (line&?&?)%IH. exists line. split; [by right|done]. }
  destruct l as [line|]; simpl; [|done]. destruct (TrimSpace line ==s ""); [done|].
  destruct (parse (TrimSpace line)) as [e'|r] eqn:E; [|done]. simpl. intros [[= -> ->]|Hin]%elem_of_cons; [|by apply IH'].
  exists line. split; [by left|done].
Qed.
