(* ===== verification/GoStream.v ===== *)
(** * Byte streams

    An [io.Reader] that delivers its bytes in pieces of its own choice, the bounded
    readers of the source packages, [bufio.Reader], [io.ReadAll], and the two line
    readers: [readLine] of [source/claude/claude.go] and [source/codex/codex.go],
    and that of [source/antigravity/antigravity.go]. *)
From Stdlib Require Import ZArith Lia Bool.
From Stdlib Require Import String Ascii.
From stdpp Require Import base tactics option list strings.
From S2P Require Import Prelude GoStrings SourceText.
Open Scope Z_scope.

Module GoStream.

Definition nl : ascii := ascii_of_N 10.
#[global] Arguments nl : simpl never.
Definition newline : string := String nl "".
Definition bufio_ErrBufferFull : error := Sentinel "bufio: buffer full".

(** The first [n] bytes of a string, and the rest. *)
Fixpoint cut_at (n : nat) (s : string) : string * string :=
  match n, s with
  | S n, String a s => let '(x, y) := cut_at n s in (String a x, y)
  | _, _ => ("", s)
  end.

(** The bytes through the first newline, and the rest. *)
Fixpoint cut_line (s : string) : option (string * string) :=
  match s with
  | EmptyString => None
  | String a s =>
      if Ascii.eqb a nl then Some (String a "", s)
      else '(line, rest) ← cut_line s; Some (String a line, rest)
  end.

(** ** Readers *)

(** What is left to deliver, how many bytes the next calls give at most, the error
    after the last byte ([io.EOF] for a file that can be read), and whether it comes
    together with the last bytes. A call that gives no error gives a byte. *)
Record Reader : Type := mkReader {
  r_data : string;
  r_plan : list Z;
  r_end : error;
  r_joined : bool
}.

Definition reader_Read (n : Z) (r : Reader) : (string * option error) * Reader :=
  if r_data r ==s "" then (("", Some (r_end r)), r)
  else
    let k := Z.max 1 (Z.min n (default n (head (r_plan r)))) in
    let '(got, rest) := cut_at (Z.to_nat k) (r_data r) in
    ((got, if r_joined r && (rest ==s "") then Some (r_end r) else None),
     mkReader rest (tail (r_plan r)) (r_end r) (r_joined r)).

(** [boundedReader] of the source packages, [bounded] and [bound] in two of them,
    each with a sentinel of its package. *)
Record boundedReader : Type := mkBounded { reader : Reader; remain : Z }.

Section Bounded.
Context (errSourceTooLarge : error).

Definition bounded_Read (n : Z) (b : boundedReader) : (string * option error) * boundedReader :=
  if remain b =? 0 then (("", Some errSourceTooLarge), b)
  else
    let n := if remain b <? n then remain b else n in
    let '((got, err), r) := reader_Read n (reader b) in
    ((got, err), mkBounded r (remain b - len got)).

(** ** [io.ReadAll] *)

(** The slice has capacity 512 at first; [grow] is what [append] makes of a full
    one. *)
Fixpoint read_all (grow : Z -> Z) (fuel : nat) (data : string) (capacity : Z) (b : boundedReader) : result string :=
  match fuel with
  | O => Fail (errors_New "fuel")
  | S fuel =>
      let '((got, err), b) := bounded_Read (capacity - len data) b in
      let data := data +:+ got in
      match err with
      | Some err => if decide (err = io_EOF) then Ok data else Fail err
      | None => read_all grow fuel data (if len data =? capacity then grow capacity else capacity) b
      end
  end.
Definition ReadAll (grow : Z -> Z) (b : boundedReader) : result string :=
  read_all grow (String.length (r_data (reader b)) + 2) "" 512 b.

(** ** [bufio.Reader] *)

(** The bytes in the buffer, the error to give after them, and the reader. *)
Record bufioReader : Type := mkBufio { b_buf : string; b_err : option error; b_rd : boundedReader }.

(** [bufio.NewReaderSize(..., MaxLineBytes+1)]. *)
Definition buffer_size : Z := MaxLineBytes + 1.
Definition NewReaderSize (b : boundedReader) : bufioReader := mkBufio "" None b.

Definition fill (b : bufioReader) : bufioReader :=
  let '((got, err), rd) := bounded_Read (buffer_size - len (b_buf b)) (b_rd b) in
  mkBufio (b_buf b +:+ got) err rd.

Definition bytes_left (b : bufioReader) : nat := String.length (b_buf b) + String.length (r_data (reader (b_rd b))).

(** [ReadSlice('\n')]; a round takes a byte from the reader or its error. *)
Fixpoint read_slice (fuel : nat) (b : bufioReader) : (string * option error) * bufioReader :=
  match fuel with
  | O => (("", Some (errors_New "fuel")), b)
  | S fuel =>
      match cut_line (b_buf b) with
      | Some (line, rest) => ((line, None), mkBufio rest (b_err b) (b_rd b))
      | None =>
          match b_err b with
          | Some err => ((b_buf b, Some err), mkBufio "" None (b_rd b))
          | None =>
              if buffer_size <=? len (b_buf b) then ((b_buf b, Some bufio_ErrBufferFull), mkBufio "" None (b_rd b))
              else read_slice fuel (fill b)
          end
      end
  end.
Definition ReadSlice (b : bufioReader) : (string * option error) * bufioReader := read_slice (bytes_left b + 2) b.

(** [ReadBytes('\n')]: the fragments of a line, together. *)
Fixpoint read_bytes (fuel : nat) (acc : string) (b : bufioReader) : (string * option error) * bufioReader :=
  match fuel with
  | O => ((acc, Some (errors_New "fuel")), b)
  | S fuel =>
      let '((fragment, err), b) := ReadSlice b in
      if decide (err = Some bufio_ErrBufferFull) then read_bytes fuel (acc +:+ fragment) b
      else ((acc +:+ fragment, err), b)
  end.
Definition ReadBytes (b : bufioReader) : (string * option error) * bufioReader := read_bytes (S (bytes_left b)) "" b.

(** ** Lines *)

(** A line, whether it was too long, and whether the input has ended. *)
Definition lineRead : Type := (string * bool * bool)%type.

(** The inner loop of [readLine], which drops the rest of a long line. *)
Fixpoint skip_line (fuel : nat) (err : option error) (b : bufioReader) : option error * bufioReader :=
  match fuel with
  | O => (Some (errors_New "fuel"), b)
  | S fuel =>
      if decide (err = Some bufio_ErrBufferFull) then
        let '((_, err), b) := ReadSlice b in skip_line fuel err b
      else (err, b)
  end.

Fixpoint read_line_loop (fuel : nat) (line : string) (b : bufioReader) : result lineRead * bufioReader :=
  match fuel with
  | O => (Fail (errors_New "fuel"), b)
  | S fuel =>
      let '((fragment, err), b) := ReadSlice b in
      let line := line +:+ fragment in
      if MaxLineBytes <? len line then
        let '(err, b) := skip_line (bytes_left b + 2) err b in
        match err with
        | Some err => if decide (err = io_EOF) then (Ok ("", true, true), b) else (Fail err, b)
        | None => (Ok ("", true, false), b)
        end
      else
        match err with
        | None => (Ok (TrimSuffix line newline, false, false), b)
        | Some err =>
            if decide (err = bufio_ErrBufferFull) then read_line_loop fuel line b
            else if decide (err = io_EOF) then (Ok (line, false, true), b)
            else (Fail err, b)
        end
  end.
Definition readLine (b : bufioReader) : result lineRead * bufioReader := read_line_loop (bytes_left b + 2) "" b.

(** [readLine] of the Antigravity package. *)
Definition antigravity_readLine (b : bufioReader) : result lineRead * bufioReader :=
  let '((line, err), b) := ReadBytes b in
  if MaxLineBytes <? len line then (Ok ("", true, bool_decide (err = Some io_EOF)), b)
  else
    match err with
    | None => (Ok (TrimSuffix line newline, false, false), b)
    | Some err => if decide (err = io_EOF) then (Ok (line, false, true), b) else (Fail err, b)
    end.

Section Lines.
Context {A : Type} (parse : string -> A + string) (next_line : bufioReader -> result lineRead * bufioReader).

(** The loop over the lines; every line that is not the last takes a byte. *)
Fixpoint parse_loop (fuel : nat) (n : Z) (b : bufioReader) : result (list (A * Z) * list Issue) :=
  match fuel with
  | O => Fail (errors_New "fuel")
  | S fuel =>
      match next_line b with
      | (Fail err, _) => Fail err
      | (Ok (line, tooLong, done), b) =>
          let rest := if done then Ok ([], []) else parse_loop fuel (n + 1) b in
          '(entries, issues) ← rest;
          Ok (if tooLong then (entries, mkIssue n "line_too_long" :: issues)
              else
                let text := TrimSpace line in
                if text ==s "" then (entries, issues)
                else match parse text with
                     | inl e => ((e, n) :: entries, issues)
                     | inr reason => (entries, mkIssue n reason :: issues)
                     end)
      end
  end.

End Lines.
End Bounded.

(** ** The head of [Parse] *)

(** What differs between the source packages: the sentinel of the bounded reader,
    the largest limit, and the messages for a missing input, a bad limit, an input
    over the limit and a read error. *)
Record package : Type := mkPackage {
  errSourceTooLarge : error;
  limit : Z;
  m_required : error;
  m_invalid : error;
  m_exceeds : Z -> error;
  m_read : error -> error
}.

Definition with_input {T} (p : package) (input : option Reader) (maxBytes : Z) (body : boundedReader -> result T) : result T :=
  match input with
  | None => Fail (m_required p)
  | Some input =>
      let maxBytes := if maxBytes =? 0 then limit p else maxBytes in
      if (maxBytes <? 1) || (limit p <? maxBytes) then Fail (m_invalid p)
      else
        match body (mkBounded input (maxBytes + 1)) with
        | Ok r => Ok r
        | Fail err => if errors_Is err (errSourceTooLarge p) then Fail (m_exceeds p maxBytes) else Fail (m_read p err)
        end
  end.

(** [Parse] of the line formats. *)
Definition Parse {A} (p : package) (parse : string -> A + string) (next_line : error -> bufioReader -> result lineRead * bufioReader)
  (input : option Reader) (maxBytes : Z) : result (list (A * Z) * list Issue) :=
  with_input p input maxBytes (fun b =>
    let reader := NewReaderSize b in parse_loop parse (next_line (errSourceTooLarge p)) (S (bytes_left reader)) 1 reader).

(** The bytes that [Parse] of the document formats decodes. *)
Definition read_source (p : package) (grow : Z -> Z) (input : option Reader) (maxBytes : Z) : result string :=
  with_input p input maxBytes (ReadAll (errSourceTooLarge p) grow).

Definition line_package (kind : string) : package :=
  mkPackage (Sentinel (kind +:+ " source too large")) MaxFileBytes
    (errors_New (kind +:+ " source input is required"))
    (Errorf "%s source byte limit is invalid" [FStr kind])
    (fun n => Errorf "%s source exceeds %d bytes" [FStr kind; FInt n])
    (Wrapf "read %s source: %w" [FStr kind]).

Definition antigravity_package : package :=
  mkPackage (Sentinel "Antigravity source too large") 2147483648
    (errors_New "Antigravity input is required") (errors_New "Antigravity byte limit is invalid")
    (fun n => Errorf "Antigravity source exceeds %d bytes" [FInt n]) (fun err => err).

Definition gemini_package : package :=
  mkPackage (Sentinel "Gemini source too large") 2147483648
    (errors_New "Gemini source input is required") (errors_New "Gemini source byte limit is invalid")
    (fun n => Errorf "Gemini source exceeds %d bytes" [FInt n]) (Wrapf "read Gemini source: %w" []).

Definition chatgpt_package : package :=
  mkPackage (Sentinel "ChatGPT export too large") MaxFileBytes
    (errors_New "ChatGPT export input is required") (errors_New "ChatGPT export byte limit is invalid")
    (fun n => Errorf "ChatGPT export exceeds %d bytes" [FInt n]) (Wrapf "read ChatGPT export: %w" []).

Definition claudeapp_package : package :=
  mkPackage (Sentinel "Claude App export too large") MaxFileBytes
    (errors_New "Claude App input is required") (errors_New "Claude App byte limit is invalid")
    (fun n => Errorf "Claude App export exceeds %d bytes" [FInt n]) (fun err => err).

End GoStream.
