(* ===== verification/Regex.v ===== *)
(** * Regular expressions

    The part of Go's [regexp] that the parsers use: leftmost-first matching with
    one capture group, on the expressions of [shellRules] and [shellRE] and on the
    anchored expressions of [internal/gcpauth]. All classes of these
    expressions are ASCII classes or complements of ASCII classes, so matching
    bytes and matching runes give the same spans. *)
From Stdlib Require Import ZArith Lia Bool.
From Stdlib Require Import String Ascii.
From stdpp Require Import base tactics option list strings.
From S2P Require Import Prelude GoStrings.
Open Scope Z_scope.

Inductive regex : Type :=
| RClass (p : ascii -> bool)
| RSeq (l : list regex)
| RPlus (p : ascii -> bool)
| RStar (p : ascii -> bool)
| RUpTo (n : nat) (p : ascii -> bool)
| ROpt (r : regex)
| RAlt (r r' : regex)
| RWordBoundary
| REnd
| RGroup (r : regex).

(** Where a match stands: the bytes before it, newest first, the bytes after,
    and the capture so far. *)
Record mstate : Type := mkM { m_before : string; m_rest : string; m_group : option string }.

Definition is_space (c : ascii) : bool :=
  (code c =? 9) || (code c =? 10) || (code c =? 12) || (code c =? 13) || (code c =? 32).
Definition is_word (c : ascii) : bool := is_lower c || is_upper c || is_digit c || (code c =? 95).
Definition not_newline (c : ascii) : bool := negb (code c =? 10).

Definition word_at (s : string) : bool := match s with String c _ => is_word c | EmptyString => false end.

Definition step (p : ascii -> bool) (m : mstate) : option mstate :=
  match m_rest m with
  | String c r => if p c then Some (mkM (String c (m_before m)) r (m_group m)) else None
  | EmptyString => None
  end.

(** Greedy repetition of a class, giving back one byte at a time. *)
Fixpoint star (fuel : nat) (p : ascii -> bool) (k : mstate -> option mstate) (m : mstate) : option mstate :=
  match fuel with
  | O => k m
  | S fuel =>
      match step p m with
      | Some m' => match star fuel p k m' with Some r => Some r | None => k m end
      | None => k m
      end
  end.

(** Backtracking match with a continuation. *)
Fixpoint rmatch (r : regex) (k : mstate -> option mstate) (m : mstate) : option mstate :=
  match r with
  | RClass p => match step p m with Some m' => k m' | None => None end
  | RSeq l => (fix go l k m := match l with [] => k m | r :: l => rmatch r (go l k) m end) l k m
  | RPlus p => match step p m with Some m' => star (String.length (m_rest m)) p k m' | None => None end
  | RStar p => star (String.length (m_rest m)) p k m
  | RUpTo n p => star n p k m
  | ROpt r => match rmatch r k m with Some x => Some x | None => k m end
  | RAlt r r' => match rmatch r k m with Some x => Some x | None => rmatch r' k m end
  | RWordBoundary => if xorb (word_at (m_before m)) (word_at (m_rest m)) then k m else None
  | REnd => match m_rest m with EmptyString => k m | _ => None end
  | RGroup r =>
      rmatch r (fun m' =>
        k (mkM (m_before m') (m_rest m')
             (Some (srev (slice (m_before m') 0 (len (m_before m') - len (m_before m))))))) m
  end.

(** The capture of the leftmost match: [FindStringSubmatch(s)[1]], [None] when
    there is no match. *)
Fixpoint find_from (r : regex) (before s : string) : option string :=
  match rmatch r Some (mkM before s None) with
  | Some m => Some (default "" (m_group m))
  | None => match s with
            | EmptyString => None
            | String c rest => find_from r (String c before) rest
            end
  end.
Definition FindSubmatch (r : regex) (s : string) : option string := find_from r "" s.

(** [MatchString] of an expression [^...$]. *)
Definition MatchWhole (l : list regex) (s : string) : bool :=
  match rmatch (RSeq (l ++ [REnd])) Some (mkM "" s None) with Some _ => true | None => false end.

Fixpoint literal (s : string) : list regex :=
  match s with
  | EmptyString => []
  | String c r => RClass (Ascii.eqb c) :: literal r
  end.

(** [\s+] and [([^\s]+)]. *)
Definition spaces : regex := RPlus is_space.
Definition not_space (c : ascii) : bool := negb (is_space c).
Definition argument : regex := RGroup (RPlus not_space).

(** ** [shellRules] *)

Record shellRule : Type := mkRule { expression : regex; r_kind : string; r_summary : string }.

Definition shellRules : list shellRule := [
  mkRule (RSeq (RWordBoundary :: literal "rm" ++
            [spaces; ROpt (RSeq (literal "-" ++ [RPlus not_space; spaces])); argument])) "delete" "Deleted file";
  mkRule (RSeq (RWordBoundary :: literal "mv" ++ [spaces; RPlus not_space; spaces; argument])) "move" "Moved file";
  mkRule (RSeq (RWordBoundary :: literal "cp" ++ [spaces; RPlus not_space; spaces; argument])) "write" "Copied file";
  mkRule (RSeq (RWordBoundary :: literal "touch" ++ [spaces; argument])) "write" "Touched file";
  mkRule (RSeq (RWordBoundary :: literal "mkdir" ++
            [spaces; ROpt (RSeq (literal "-p" ++ [spaces])); argument])) "write" "Created directory";
  mkRule (RSeq (literal ">" ++ [RStar is_space; argument])) "write" "Wrote file";
  mkRule (RSeq (RWordBoundary :: literal "tee" ++
            [spaces; ROpt (RSeq (literal "-a" ++ [spaces])); argument])) "write" "Wrote file";
  mkRule (RSeq (RWordBoundary :: literal "sed" ++ [spaces] ++ literal "-i" ++
            [RStar not_newline; spaces; argument; REnd])) "edit" "Edited file"
].

(** The first rule that matches, with its capture. *)
Fixpoint first_rule (rules : list shellRule) (command : string) : option (string * string * string) :=
  match rules with
  | [] => None
  | rule :: rest =>
      match FindSubmatch (expression rule) command with
      | Some path => Some (path, r_kind rule, r_summary rule)
      | None => first_rule rest command
      end
  end.

Example rule_rm : first_rule shellRules "cd /x && rm -rf build/out y" = Some ("build/out", "delete", "Deleted file").
Proof. vm_compute. reflexivity. Qed.
Example rule_redirect : first_rule shellRules "echo hi >  out.txt" = Some ("out.txt", "write", "Wrote file").
Proof. vm_compute. reflexivity. Qed.
Example rule_sed : first_rule shellRules "sed -i s/a/b/ x.go y.go" = Some ("y.go", "edit", "Edited file").
Proof. vm_compute. reflexivity. Qed.
Example rule_none : first_rule shellRules "ls charm dir" = None.
Proof. vm_compute. reflexivity. Qed.

(** ** A capture is a non-empty run of non-space bytes *)

Definition arg_ok (s : string) : Prop := s <> "" /\ sforall not_space s = true.

(** ** Helper lemmas on matching *)

Lemma slice_prefix_app a b n : len a = n -> slice (a +:+ b) 0 n = a.
Proof.
  intros <-. unfold slice. rewrite Z.sub_0_r. change (Z.to_nat 0) with 0%nat.
  unfold len. rewrite Nat2Z.id. induction a as [|c a IH]; simpl; [by destruct b|]. by rewrite IH.
Qed.

(** [star] and [RPlus] reach the continuation only in states that consumed
    bytes of the class, without touching the capture. *)
Definition reaches (p : ascii -> bool) (m m' : mstate) : Prop :=
  exists w, m_before m' = w +:+ m_before m /\ sforall p w = true /\ m_group m' = m_group m.

Lemma step_reaches p m m' : step p m = Some m' ->
  exists c, p c = true /\ m_before m' = String c (m_before m) /\ m_group m' = m_group m.
Proof.
  unfold step. destruct (m_rest m) as [|c r]; [done|]. destruct (p c) eqn:E; [|done]. intros [= <-]. by exists c.
Qed.

Lemma star_inv fuel p k m r : star fuel p k m = Some r -> exists m', reaches p m m' /\ k m' = Some r.
Proof.
  revert m. induction fuel as [|fuel IH]; intros m; simpl; [intros H; exists m; split; [by exists ""|done]|].
  destruct (step p m) as [m1|] eqn:E.
  - destruct (star fuel p k m1) as [x|] eqn:Es.
    + intros [= <-]. destruct (IH m1 Es) as (m'&(w&Hb&Hw&Hg)&Hk).
      apply step_reaches in E as (c&Hc&Hb1&Hg1). exists m'. split; [|done].
      exists (w +:+ String c ""). rewrite Hb, Hb1, str_app_assoc, sforall_app, Hw. simpl. rewrite Hc. split; [done|]. by rewrite Hg.
    + intros H. exists m. split; [by exists ""|done].
  - intros H. exists m. split; [by exists ""|done].
Qed.

Lemma plus_inv p k m r : rmatch (RPlus p) k m = Some r ->
  exists m' w, w <> "" /\ m_before m' = w +:+ m_before m /\ sforall p w = true /\ m_group m' = m_group m /\ k m' = Some r.
Proof.
  simpl. destruct (step p m) as [m1|] eqn:E; [|done]. intros (m'&(w&Hb&Hw&Hg)&Hk)%star_inv.
  apply step_reaches in E as (c&Hc&Hb1&Hg1).
  exists m', (w +:+ String c ""). split; [by destruct w|].
  rewrite Hb, Hb1, str_app_assoc, sforall_app, Hw. simpl. rewrite Hc. repeat split; try done. by rewrite Hg.
Qed.

(** The capture of [argument]. *)
Lemma argument_inv k m r : rmatch argument k m = Some r ->
  exists m' g, arg_ok g /\ m_group m' = Some g /\ k m' = Some r.
Proof.
  unfold argument. cbn [rmatch]. intros H. apply (plus_inv not_space) in H as (m'&w&Hne&Hb&Hw&_&Hk).
  eexists _, (srev w). split; [split; [by rewrite srev_nil|by rewrite sforall_srev]|]. split; [|exact Hk].
  simpl. do 2 f_equal. rewrite Hb. apply slice_prefix_app. rewrite len_app. lia.
Qed.

(** A match that succeeds has reached its continuation. *)
Fixpoint rmatch_cont (r : regex) {struct r} :
  forall k m x, rmatch r k m = Some x -> exists m', k m' = Some x.
Proof.
  intros k m x H. destruct r as [p|l|p|p|n p|r|r r'| | |r]; cbn [rmatch] in H.
  - destruct (step p m); [eauto|done].
  - revert m H. induction l as [|r l IHl]; intros m H; [eauto|].
    apply rmatch_cont in H as [m' H]. exact (IHl m' H).
  - apply (plus_inv p k) in H as (m'&_&_&_&_&_&H). eauto.
  - apply star_inv in H as (m'&_&H). eauto.
  - apply star_inv in H as (m'&_&H). eauto.
  - destruct (rmatch r k m) eqn:E; [|eauto]. injection H as ->. by apply rmatch_cont in E.
  - destruct (rmatch r k m) eqn:E; [injection H as ->; by apply rmatch_cont in E|by apply rmatch_cont in H].
  - destruct (xorb _ _); [eauto|done].
  - destruct (m_rest m); [eauto|done].
  - apply rmatch_cont in H as [m' H]. eauto.
Qed.

(** A sequence that ends with an argument, or with one at the end of the text,
    captures a non-empty run of non-space bytes. *)
Definition ends_with_argument (r : regex) : Prop :=
  exists l tail, r = RSeq (l ++ argument :: tail) /\ (tail = [] \/ tail = [REnd]).

Lemma seq_cons r l k m : rmatch (RSeq (r :: l)) k m = rmatch r (rmatch (RSeq l) k) m.
Proof. done. Qed.

Lemma ends_with_argument_captures r m x :
  ends_with_argument r -> rmatch r Some m = Some x -> exists g, m_group x = Some g /\ arg_ok g.
Proof.
  intros (l&tail&->&Ht). revert m. induction l as [|r l IH]; intros m H.
  - cbn [app] in H. rewrite seq_cons in H. apply argument_inv in H as (m'&g&Hg&Hm&H). exists g.
    destruct Ht as [->| ->]; simpl in H; [|destruct (m_rest m'); [|done]]; injection H as <-; done.
  - cbn [app] in H. rewrite seq_cons in H. apply rmatch_cont in H as [m' H]. by apply (IH m').
Qed.

Lemma find_from_captures r before s g :
  ends_with_argument r -> find_from r before s = Some g -> arg_ok g.
Proof.
  intros Hr. revert before. induction s as [|c s IH]; intros before; cbn [find_from].
  - destruct (rmatch _ _ _) eqn:E; [|done]. apply (ends_with_argument_captures r) in E as (g'&Eg&Hg); [|done].
    rewrite Eg. by intros [= <-].
  - destruct (rmatch _ _ _) eqn:E; [|apply IH]. apply (ends_with_argument_captures r) in E as (g'&Eg&Hg); [|done].
    rewrite Eg. by intros [= <-].
Qed.

Lemma shellRules_arguments : Forall (fun rule => ends_with_argument (expression rule)) shellRules.
Proof.
  repeat constructor; unfold ends_with_argument; cbn [expression].
  1: exists (RWordBoundary :: literal "rm" ++ [spaces; ROpt (RSeq (literal "-" ++ [RPlus not_space; spaces]))]), [].
  2: exists (RWordBoundary :: literal "mv" ++ [spaces; RPlus not_space; spaces]), [].
  3: exists (RWordBoundary :: literal "cp" ++ [spaces; RPlus not_space; spaces]), [].
  4: exists (RWordBoundary :: literal "touch" ++ [spaces]), [].
  5: exists (RWordBoundary :: literal "mkdir" ++ [spaces; ROpt (RSeq (literal "-p" ++ [spaces]))]), [].
  6: exists (literal ">" ++ [RStar is_space]), [].
  7: exists (RWordBoundary :: literal "tee" ++ [spaces; ROpt (RSeq (literal "-a" ++ [spaces]))]), [].
  8: exists (RWordBoundary :: literal "sed" ++ [spaces] ++ literal "-i" ++ [RStar not_newline; spaces]), [REnd].
  all: split; [reflexivity|auto].
Qed.

(** The path of a recognised shell command is a non-empty word, and its kind and
    summary are those of a rule. *)
Lemma first_rule_ok command path kind summary :
  first_rule shellRules command = Some (path, kind, summary) ->
  arg_ok path /\ List.In kind ["delete"; "move"; "write"; "edit"].
Proof.
  pose proof shellRules_arguments as Hr.
  assert (Forall (fun rule => List.In (r_kind rule) ["delete"; "move"; "write"; "edit"]) shellRules) as Hk
    by (unfold shellRules; repeat apply Forall_cons_2; simpl; auto using Forall_nil_2).
  revert Hr Hk. generalize shellRules as rules. induction rules as [|rule rules IH]; intros Hr Hk; simpl; [done|].
  inversion Hr; inversion Hk; subst. destruct (FindSubmatch _ _) as [p|] eqn:E; [|auto].
  intros [= <- <- <-]. split; [by eapply find_from_captures|done].
Qed.
