(* ===== verification/ClaudeSource.v ===== *)
(** * The Claude Code source

    [internal/history/source/claude/claude.go]: parsing of JSONL entries, and
    the pairing of user and assistant entries into turn, file-change and summary
    chunks. *)
From Stdlib Require Import ZArith Lia Bool.
From Stdlib Require Import String Ascii.
From stdpp Require Import base tactics option list strings.
From S2P Require Import Prelude GoStrings GoPath StoreTypes StorePlans GoTime SplitContent SourceText.
Open Scope Z_scope.

Module Claude.

Definition userContentTruncate : Z := 200.

Record Source : Type := mkSource {
  ProjectEncoded : string;
  FilePath : string;
  MachineID : string;
  MaxBytes : Z
}.

Record Message : Type := mkMessage { Role : string; Model : string; Content : json }.

Record Entry : Type := mkEntry {
  e_Type : string;
  e_Message : option Message;
  e_Summary : string;
  e_CompactSummary : bool;
  e_UUID : string;
  e_Timestamp : Time;
  e_HasTimestamp : bool;
  e_SessionID : string;
  e_VisibleOnly : bool;
  e_MetadataOnly : bool
}.

(** The zero [Entry]. *)
Definition no_entry : Entry := mkEntry "" None "" false "" zero_time false "" false false.

(** ** Parsing *)

Definition parseMessage (value : json) (entryType : string) : option Message :=
  match value with
  | JObject object =>
      match jlookup "content" object with
      | None => None
      | Some content =>
          if (entryType ==s "user") && negb (match content with JString _ | JArray _ => true | _ => false end)
          then None
          else if (entryType ==s "assistant") && negb (match content with JArray _ => true | _ => false end)
          then None
          else Some (mkMessage (stringValue (jget object "role")) (stringValue (jget object "model")) content)
      end
  | _ => None
  end.

(** The entry, or the reason why there is none. *)
Definition parseEntry `{GoDecode} (raw : string) : Entry + string :=
  match json_Unmarshal raw with
  | None => inr "invalid_json"
  | Some value =>
      if MaxJSONDepth <? jsonDepth value 0 then inr "json_too_deep"
      else match value with
      | JObject object =>
          let typeValue := stringValue (jget object "type") in
          if typeValue ==s "" then inr "missing_type"
          else
            let entry timestamp has message :=
              mkEntry typeValue message (stringValue (jget object "summary"))
                (boolValue (jget object "isCompactSummary")) (stringValue (jget object "uuid")) timestamp has
                (stringValue (jget object "sessionId")) (boolValue (jget object "isVisibleInTranscriptOnly"))
                (boolValue (jget object "isMeta")) in
            let message :=
              match jget object "message" with
              | JNull => None
              | rawMessage => parseMessage rawMessage typeValue
              end in
            let timestamp := stringValue (jget object "timestamp") in
            if timestamp ==s "" then inl (entry zero_time false message)
            else match time_Parse timestamp with
                 | None => inr "invalid_timestamp"
                 | Some parsed => inl (entry (UTC parsed) true message)
                 end
      | _ => inr "entry_not_object"
      end
  end.

Definition Parse `{GoDecode} (content : string) (maxBytes : Z) : result (list (Entry * Z) * list Issue) :=
  parse_input "Claude" parseEntry content maxBytes.

(** ** Text *)

Definition DecodeProjectPath (encoded : string) : string :=
  if Contains encoded ".." then "/invalid/path"
  else
    let encoded := TrimPrefix encoded "-" in
    let decoded := "/" +:+ smap (fun c => if Ascii.eqb c "-" then "/"%char else c) encoded in
    if Contains decoded ".." || negb (HasPrefix decoded "/") then "/invalid/path" else decoded.

Definition truncate (value : string) (limit : Z) : string :=
  if limit <? len value then slice value 0 limit else value.
Definition ellipsis (value : string) (limit : Z) : string :=
  if limit <? len value then "..." else "".

(** [strings.NewReplacer("\n", " ", "\r", " ").Replace]. *)
Definition one_line (s : string) : string :=
  smap (fun c => if (code c =? 10) || (code c =? 13) then " "%char else c) s.

(** The text of a content block, if it gives any. *)
Definition block_text (block : list (string * json)) : option string :=
  let kind := stringValue (jget block "type") in
  if kind ==s "text" then Some (stringValue (jget block "text"))
  else if kind ==s "tool_use" then
    let input := as_object (jget block "input") in
    let name := stringValue (jget block "name") in
    if (name ==s "Read") || (name ==s "Edit") || (name ==s "Write") then
      Some ("[Used " +:+ name +:+ " on " +:+ firstNonEmpty [stringValue (jget input "file_path"); "unknown"] +:+ "]")
    else if name ==s "Bash" then
      Some ("[Ran command: " +:+ one_line (truncate (stringValue (jget input "command")) 100) +:+ "]")
    else Some ("[Used " +:+ name +:+ "]")
  else if kind ==s "tool_result" then
    match jget block "content" with
    | JString result => Some (if len result <? 500 then "[Result: " +:+ result +:+ "]" else "[Tool result truncated]")
    | _ => Some "[Tool result truncated]"
    end
  else None.

Definition textContent (message : option Message) : string :=
  match message with
  | None => ""
  | Some m =>
      match Content m with
      | JString text => text
      | JArray blocks =>
          Join (omap (fun raw => match raw with JObject block => block_text block | _ => None end) blocks) newline
      | _ => ""
      end
  end.

Definition messageModel (message : option Message) : string :=
  match message with None => "" | Some m => Model m end.

Definition entryTimestamp (first second : Entry) (sourceLine : Z) : Time :=
  if e_HasTimestamp first then e_Timestamp first
  else if e_HasTimestamp second then e_Timestamp second
  else time_Unix_UTC (wrap64 (sourceLine * 1000)).

(** ** Chunks *)

Definition turn_content (projectName userText assistantText : string) : string :=
  if (userText !=s "") && (assistantText !=s "") then
    "In project " +:+ projectName +:+ ", user asked:" +:+ newline +:+ userText +:+ newline +:+ newline +:+
    "Assistant responded:" +:+ newline +:+ assistantText
  else if userText !=s "" then
    "In project " +:+ projectName +:+ ", user asked:" +:+ newline +:+ userText +:+ newline +:+ newline +:+
    "[No assistant response]"
  else "In project " +:+ projectName +:+ ", assistant response:" +:+ newline +:+ assistantText.

Definition turnChunks (user assistant : Entry) (sourceLine consumedLine : Z) (projectPath : string) (source : Source)
  : list Chunk :=
  let userText := TrimSpace (textContent (e_Message user)) in
  let assistantText := TrimSpace (textContent (e_Message assistant)) in
  if (userText ==s "") && (assistantText ==s "") then []
  else
    let projectName := Base projectPath in
    let content := turn_content projectName userText assistantText in
    let timestamp := entryTimestamp assistant user consumedLine in
    let session := firstNonEmpty [e_SessionID user; e_SessionID assistant; "unknown"] in
    part_chunks
      (fun id part parent =>
         mkChunk id part [] "turn" session projectPath projectName timestamp (e_UUID user) (e_UUID assistant)
           "" "" (messageModel (e_Message assistant)) (FilePath source) sourceLine parent [] (MachineID source))
      content session (canonicalTimestamp timestamp) (claude_splitContent content).

Definition summaryChunk (entry : Entry) (sourceLine : Z) (projectPath : string) (source : Source) : option Chunk :=
  let text := TrimSpace (firstNonEmpty [e_Summary entry; textContent (e_Message entry)]) in
  if text ==s "" then None
  else
    let timestamp := entryTimestamp entry no_entry sourceLine in
    let session := firstNonEmpty [e_SessionID entry; "unknown"] in
    let projectName := Base projectPath in
    let content := "Session summary for " +:+ projectName +:+ ":" +:+ newline +:+ text in
    Some (mkChunk (chunkID content session (canonicalTimestamp timestamp)) content [] "summary" session projectPath
            projectName timestamp "" "" "" "" "" (FilePath source) sourceLine "" [] (MachineID source)).

Record operation : Type := mkOperation { o_path : string; o_kind : string; o_summary : string; o_id : string }.

Definition block_operation (raw : json) : option operation :=
  match raw with
  | JObject block =>
      if stringValue (jget block "type") !=s "tool_use" then None
      else
        let input := as_object (jget block "input") in
        let path := stringValue (jget input "file_path") in
        let path := if path ==s "" then "unknown" else path in
        let name := stringValue (jget block "name") in
        let id := stringValue (jget block "id") in
        if name ==s "Write" then Some (mkOperation path "write" "Created/overwrote file" id)
        else if name ==s "Edit" then
          match jget input "old_string", jget input "new_string" with
          | JString old, JString new =>
              Some (mkOperation path "edit"
                      ("Replaced '" +:+ truncate old 100 +:+ ellipsis old 100 +:+ "' with '" +:+
                       truncate new 100 +:+ ellipsis new 100 +:+ "'") id)
          | _, _ => None
          end
        else None
  | _ => None
  end.

Definition fileOperations (message : Message) : list operation :=
  match Content message with
  | JArray blocks => omap block_operation blocks
  | _ => []
  end.

(** The chunk of the operation at [index]. *)
Definition file_chunk (entry : Entry) (userText : string) (sourceLine : Z) (parent projectPath : string)
    (source : Source) (index : Z) (operation : operation) : Chunk :=
  let timestamp := entryTimestamp entry no_entry sourceLine in
  let projectName := Base projectPath in
  let session := firstNonEmpty [e_SessionID entry; "unknown"] in
  let prompt := if userContentTruncate <? len userText then slice userText 0 userContentTruncate +:+ "..." else userText in
  let content := "In project " +:+ projectName +:+ ", file " +:+ o_path operation +:+ " was " +:+ o_kind operation +:+
                 ". " +:+ o_summary operation +:+ ". This was in response to: " +:+ prompt in
  let toolID := if o_id operation ==s "" then "idx" +:+ Itoa index else o_id operation in
  mkChunk (chunkID content session (canonicalTimestamp timestamp +:+ o_path operation +:+ toolID)) content []
    "file_change" session projectPath projectName timestamp "" (e_UUID entry) (o_path operation) (o_kind operation)
    (messageModel (e_Message entry)) (FilePath source) sourceLine parent [] (MachineID source).

Definition fileChunks (entry : Entry) (userText : string) (sourceLine : Z) (parent projectPath : string)
    (source : Source) : list Chunk :=
  match e_Message entry with
  | None => []
  | Some message =>
      imap (fun index => file_chunk entry userText sourceLine parent projectPath source (Z.of_nat index))
        (fileOperations message)
  end.

(** The loop of [Chunks] over the entries; [pending] is the user entry that no
    assistant entry has answered. *)
Fixpoint chunk_entries (projectPath : string) (source : Source) (pending : option (Entry * Z))
    (entries : list (Entry * Z)) : list Chunk :=
  match entries with
  | [] => []
  | (entry, line) :: rest =>
      if e_CompactSummary entry || (e_Type entry ==s "summary") then
        match summaryChunk entry line projectPath source with
        | Some chunk => [chunk]
        | None => []
        end ++ chunk_entries projectPath source pending rest
      else if e_Type entry ==s "user" then chunk_entries projectPath source (Some (entry, line)) rest
      else if e_Type entry ==s "assistant" then
        match pending with
        | None =>
            fileChunks entry "[unpaired assistant message]" line "" projectPath source ++
            chunk_entries projectPath source None rest
        | Some (user, userLine) =>
            let turns := turnChunks user entry userLine line projectPath source in
            match turns with
            | [] => []
            | first :: _ =>
                let files := fileChunks entry (textContent (e_Message user)) line (c_ID first) projectPath source in
                attach_children turns files ++ files
            end ++ chunk_entries projectPath source None rest
        end
      else chunk_entries projectPath source pending rest
  end.

Definition Chunks `{GoDecode} (input : string) (source : Source) : result (list Chunk * list Issue) :=
  if FilePath source ==s "" then Fail (errors_New "Claude source file identity is required")
  else
    let projectPath := DecodeProjectPath (ProjectEncoded source) in
    parsed ← Parse input (MaxBytes source);
    let '(entries, issues) := parsed in
    Ok (chunk_entries projectPath source None entries, issues).

End Claude.
