(* ===== verification/ClaudeSourceSpec.v ===== *)
(** * Properties of the Claude Code source

    Every chunk it makes has the shape the store requires, and the references
    between turns and file changes are closed. *)
From Stdlib Require Import ZArith Lia Bool.
From Stdlib Require Import String Ascii.
From stdpp Require Import base tactics option list strings.
From S2P Require Import Prelude GoStrings GoPath StoreTypes StorePlans GoTime SplitContent SourceText ClaudeSource.
Open Scope Z_scope.
Import Claude.

(** ** Shape *)

(** What a source's chunks have whatever its input says. *)
Record chunk_shape (source : Source) (projectPath : string) (c : Chunk) : Prop := mk_chunk_shape {
  sh_id : hex_id (c_ID c);
  sh_content : c_Content c <> "";
  sh_vector : c_Vector c = [];
  sh_kind : List.In (c_ChunkType c) ["turn"; "file_change"; "summary"];
  sh_session : c_SessionID c <> "";
  sh_project : c_ProjectPath c = projectPath /\ c_ProjectName c = Base projectPath;
  sh_file : c_SourceFile c = FilePath source /\ c_MachineID c = MachineID source;
  sh_line : 1 <= c_SourceLine c;
  sh_operation : List.In (c_Operation c) [""; "write"; "edit"];
  sh_path : c_ChunkType c = "file_change" -> c_FilePath c <> "";
  sh_parent : c_ParentChunkID c = "" \/ hex_id (c_ParentChunkID c);
  sh_children : Forall hex_id (c_ChildChunkIDs c)
}.

Lemma firstNonEmpty_last l : firstNonEmpty (l ++ ["unknown"]) <> "".
Proof.
  induction l as [|x l IH]; [done|]. simpl. destruct (x ==s "") eqn:E; simpl; [done|]. by apply String.eqb_neq.
Qed.

Lemma app_nonempty_l a b : a <> "" -> a +:+ b <> "".
Proof. by destruct a. Qed.

(** A message that is not empty has no empty part. *)
Lemma claude_split_nonempty content p : content <> "" -> p ∈ claude_splitContent content -> p <> "".
Proof.
  intros Hc Hp. destruct (Z.leb_spec (len content) MaxChunkContentLength) as [Hl|Hl].
  - unfold claude_splitContent in Hp. destruct (Z.leb_spec (len content) MaxChunkContentLength); [|lia].
    apply list_elem_of_singleton in Hp. by subst.
  - destruct (claude_split_cuts content Hl) as [_ Hcut]. destruct (cuts_parts _ _ _ Hcut) as [Hf _].
    rewrite Forall_forall in Hf. specialize (Hf p Hp). intros ->. destruct Hf as [Hf _]. done.
Qed.

Lemma turn_content_nonempty name u a : turn_content name u a <> "".
Proof. unfold turn_content. destruct (u !=s ""), (a !=s ""); done. Qed.

Lemma set_children_shape source path c ids :
  chunk_shape source path c -> Forall hex_id ids -> chunk_shape source path (set_children c ids).
Proof. intros [] Hids. by constructor. Qed.

Lemma attach_children_shape source path turns files :
  Forall (chunk_shape source path) turns -> Forall (chunk_shape source path) files ->
  Forall (chunk_shape source path) (attach_children turns files).
Proof.
  intros Ht Hf. destruct turns as [|t rest]; [done|]. destruct files as [|f files]; [done|].
  inversion Ht; subst. constructor; [|done]. apply set_children_shape; [done|].
  apply Forall_map. eapply Forall_impl; [exact Hf|]. intros c []. done.
Qed.

Section Shape.
Context (source : Source) (path : string).

Lemma turnChunks_shape user assistant line consumed :
  1 <= line -> Forall (chunk_shape source path) (turnChunks user assistant line consumed path source).
Proof.
  intros Hl. unfold turnChunks. set (u := TrimSpace _). set (a := TrimSpace _).
  destruct ((u ==s "") && (a ==s "")); [constructor|].
  apply part_chunks_inv. intros id part parent Hid Hpar (p&Hp&Hpart).
  assert (part <> "").
  { destruct Hpart as [->|(i&n&->)]; [|done].
    eapply claude_split_nonempty; [|exact Hp]. apply turn_content_nonempty. }
  constructor; simpl; try done; auto.
  apply (firstNonEmpty_last [e_SessionID user; e_SessionID assistant]).
Qed.

Lemma summaryChunk_shape entry line c :
  1 <= line -> summaryChunk entry line path source = Some c -> chunk_shape source path c.
Proof.
  unfold summaryChunk. intros Hl. destruct (_ ==s ""); [done|]. intros [= <-].
  constructor; simpl; try done; auto; [apply chunkID_hex|].
  apply (firstNonEmpty_last [e_SessionID entry]).
Qed.

Lemma block_operation_kind raw o : block_operation raw = Some o -> List.In (o_kind o) ["write"; "edit"] /\ o_path o <> "".
Proof.
  unfold block_operation. intros H. destruct raw as [| | | |l|block]; try done.
  set (file := if _ ==s "" then "unknown" else _) in H.
  assert (file <> "") by (unfold file; destruct (_ ==s "") eqn:E; [done|by apply String.eqb_neq]).
  clearbody file. break_all H; simplify_eq; simpl; auto.
Qed.

Lemma fileChunks_shape entry text line parent :
  1 <= line -> parent = "" \/ hex_id parent ->
  Forall (chunk_shape source path) (fileChunks entry text line parent path source).
Proof.
  intros Hl Hp. unfold fileChunks. destruct (e_Message entry) as [m|]; [|constructor].
  apply Forall_forall. intros c Hc. apply elem_of_lookup_imap in Hc as (i&o&->&Ho).
  apply list_elem_of_lookup_2 in Ho. unfold fileOperations in Ho. destruct (Content m) as [| | | |blocks|]; try by inversion Ho.
  apply list_elem_of_omap in Ho as (raw&_&[Hk Hpath]%block_operation_kind).
  constructor; simpl; try done; auto; [apply chunkID_hex|].
  apply (firstNonEmpty_last [e_SessionID entry]).
Qed.

Lemma chunk_entries_shape pending entries :
  (forall u n, pending = Some (u, n) -> 1 <= n) -> Forall (fun e => 1 <= snd e) entries ->
  Forall (chunk_shape source path) (chunk_entries path source pending entries).
Proof.
  revert pending. induction entries as [|[entry line] entries IH]; intros pending Hp He; [constructor|].
  inversion He as [|? ? Hl He']; subst. simpl in Hl. cbn [chunk_entries].
  destruct (_ || _).
  { apply Forall_app. split; [|by apply IH]. destruct (summaryChunk _ _ _ _) eqn:E; [|constructor].
    constructor; [by eapply summaryChunk_shape|constructor]. }
  destruct (_ ==s "user"); [apply IH; [|done]; intros ? ? [= <- <-]; done|].
  destruct (_ ==s "assistant"); [|by apply IH].
  destruct pending as [[user userLine]|].
  - apply Forall_app. split; [|by apply IH]. specialize (Hp _ _ eq_refl).
    pose proof (turnChunks_shape user entry userLine line Hp) as Ht. destruct (turnChunks _ _ _ _ _ _) as [|t rest]; [constructor|].
    assert (Forall (chunk_shape source path) (fileChunks entry (textContent (e_Message user)) line (c_ID t) path source)).
    { apply fileChunks_shape; [done|]. right. inversion Ht as [|? ? []]; subst. done. }
    apply Forall_app. split; [by apply attach_children_shape|done].
  - apply Forall_app. split; [apply fileChunks_shape; auto|by apply IH].
Qed.
End Shape.

Lemma parse_input_lines {A} kind (parse : string -> A + string) content maxBytes entries issues :
  parse_input kind parse content maxBytes = Ok (entries, issues) -> Forall (fun e => 1 <= snd e) entries.
Proof.
  unfold parse_input. destruct (_ || _); [done|]. destruct (_ <? len content); [done|]. intros [= E].
  apply Forall_forall. intros [e n] Hin. simpl.
  assert ((e, n) ∈ fst (parse_lines parse (read_lines content))) as Hin' by (by rewrite E).
  apply parse_lines_entries in Hin' as (line&Hline&_). by eapply number_lines_pos; [|exact Hline].
Qed.

(** ** References *)

(** A file change with a parent has a turn of that identifier in the list that
    names it as a child, and every child a chunk names is a file change in the
    list with that parent. *)
Record links_closed (chunks : list Chunk) : Prop := mk_links {
  lk_parent : forall f, f ∈ chunks -> c_ChunkType f = "file_change" -> c_ParentChunkID f <> "" ->
    exists t, t ∈ chunks /\ c_ChunkType t = "turn" /\ c_ID t = c_ParentChunkID f /\ c_ID f ∈ c_ChildChunkIDs t;
  lk_child : forall t id, t ∈ chunks -> id ∈ c_ChildChunkIDs t ->
    exists f, f ∈ chunks /\ c_ChunkType f = "file_change" /\ c_ID f = id /\ c_ParentChunkID f = c_ID t
}.

(** A chunk that needs nothing of others. *)
Definition unlinked (c : Chunk) : Prop :=
  c_ChildChunkIDs c = [] /\ (c_ChunkType c <> "file_change" \/ c_ParentChunkID c = "").

Lemma links_app a b : links_closed a -> links_closed b -> links_closed (a ++ b).
Proof.
  intros [A1 A2] [B1 B2]. constructor.
  - intros f Hf Hk Hp. apply elem_of_app in Hf as [Hf|Hf].
    + destruct (A1 f Hf Hk Hp) as (t&?&?). exists t. rewrite elem_of_app. auto.
    + destruct (B1 f Hf Hk Hp) as (t&?&?). exists t. rewrite elem_of_app. auto.
  - intros t id Ht Hid. apply elem_of_app in Ht as [Ht|Ht].
    + destruct (A2 t id Ht Hid) as (f&?&?). exists f. rewrite elem_of_app. auto.
    + destruct (B2 t id Ht Hid) as (f&?&?). exists f. rewrite elem_of_app. auto.
Qed.

Lemma links_unlinked l : Forall unlinked l -> links_closed l.
Proof.
  intros H. rewrite Forall_forall in H. constructor.
  - intros f Hf Hk Hp. destruct (H f Hf) as [_ []]; done.
  - intros t id Ht Hid. destruct (H t Ht) as [E _]. rewrite E in Hid. by inversion Hid.
Qed.

(** A turn, the rest of its parts and the file changes attached to it. *)
Lemma links_turn t rest files :
  Forall (fun c => c_ChunkType c = "turn" /\ c_ChildChunkIDs c = []) (t :: rest) ->
  Forall (fun c => c_ChunkType c = "file_change" /\ c_ParentChunkID c = c_ID t /\ c_ChildChunkIDs c = []) files ->
  links_closed (attach_children (t :: rest) files ++ files).
Proof.
  intros Ht Hf. inversion Ht as [|? ? [Kt Ct] Hr]; subst. rewrite Forall_forall in Hr, Hf.
  destruct files as [|f0 files'].
  { simpl. rewrite app_nil_r. apply links_unlinked. eapply Forall_impl; [exact Ht|]. intros c [K C].
    split; [done|]. left. by rewrite K. }
  set (files := f0 :: files') in *. change (attach_children _ _) with (set_children t (map c_ID files) :: rest).
  set (t' := set_children t (map c_ID files)).
  assert (t' ∈ (t' :: rest) ++ files) as Hin by (apply elem_of_app; left; by left).
  constructor.
  - intros f Hff Kf Pf. apply elem_of_app in Hff as [[->|Hff]%elem_of_cons|Hff].
    + exfalso. simpl in Kf. congruence.
    + destruct (Hr f Hff) as [? _]. congruence.
    + destruct (Hf f Hff) as (_&P&_). exists t'. split; [done|]. split; [done|]. split; [done|].
      apply list_elem_of_fmap. eauto.
  - intros c id Hc Hid. apply elem_of_app in Hc as [[->|Hc]%elem_of_cons|Hc].
    + apply list_elem_of_fmap in Hid as (f&->&Hff). exists f. destruct (Hf f Hff) as (?&?&_).
      split; [apply elem_of_app; by right|done].
    + destruct (Hr c Hc) as [_ E]. rewrite E in Hid. by inversion Hid.
    + destruct (Hf c Hc) as (_&_&E). rewrite E in Hid. by inversion Hid.
Qed.

Lemma turnChunks_kind user assistant line consumed path source :
  Forall (fun c => c_ChunkType c = "turn" /\ c_ChildChunkIDs c = [])
    (turnChunks user assistant line consumed path source).
Proof. unfold turnChunks. destruct (_ && _); [constructor|]. by apply part_chunks_inv. Qed.

Lemma fileChunks_kind entry text line parent path source :
  Forall (fun c => c_ChunkType c = "file_change" /\ c_ParentChunkID c = parent /\ c_ChildChunkIDs c = [])
    (fileChunks entry text line parent path source).
Proof.
  unfold fileChunks. destruct (e_Message entry); [|constructor]. apply Forall_forall. intros c Hc.
  by apply elem_of_lookup_imap in Hc as (i&o&->&_).
Qed.

Lemma chunk_entries_links path source pending entries :
  links_closed (chunk_entries path source pending entries).
Proof.
  revert pending. induction entries as [|[entry line] entries IH]; intros pending; [by apply links_unlinked|].
  cbn [chunk_entries]. destruct (_ || _).
  { apply links_app; [|done]. apply links_unlinked. unfold summaryChunk. destruct (_ ==s ""); constructor; [|constructor].
    split; [done|by left]. }
  destruct (_ ==s "user"); [done|]. destruct (_ ==s "assistant"); [|done].
  destruct pending as [[user userLine]|]; apply links_app; try done.
  - pose proof (turnChunks_kind user entry userLine line path source) as Ht.
    destruct (turnChunks _ _ _ _ _ _) as [|t rest]; [by apply links_unlinked|].
    apply links_turn; [done|]. apply fileChunks_kind.
  - apply links_unlinked. eapply Forall_impl; [apply fileChunks_kind|]. intros c (_&P&C). split; auto.
Qed.

Lemma claude_result `{GoDecode} input source chunks issues :
  Chunks input source = Ok (chunks, issues) ->
  Forall (chunk_shape source (DecodeProjectPath (ProjectEncoded source))) chunks /\ links_closed chunks.
Proof.
  unfold Chunks. destruct (FilePath source ==s ""); [done|]. intros Hc. apply bind_ok in Hc as ([entries is']&Hp&Hc).
  injection Hc as <- _. apply parse_input_lines in Hp. split; [by apply chunk_entries_shape|apply chunk_entries_links].
Qed.

(** ** Properties *)

(** Whatever a Claude transcript holds, every chunk made from it has a
    16-digit lower-case hexadecimal identifier (so the store can shard it), a
    content, a session, the project decoded from the source, the source's file
    and machine, a line number from 1, a known kind and operation; and references
    are closed: a file change with a parent has that turn in the same result, the
    turn names it as a child, and every child a chunk names is such a file change. *)
Theorem claude_chunks_well_formed `{GoDecode} input source chunks issues :
  Chunks input source = Ok (chunks, issues) ->
  Forall (chunk_shape source (DecodeProjectPath (ProjectEncoded source))) chunks /\
  Forall (fun c => hasLowerHexShardPrefix (c_ID c) = true) chunks /\
  links_closed chunks.
Proof.
  intros [Hs Hl]%claude_result. split; [done|]. split; [|done].
  eapply Forall_impl; [exact Hs|]. intros c []. by apply hex_id_shard.
Qed.

(** ** Witnesses *)

Module ClaudeSamples.

Definition user_line : json :=
  JObject [("type", JString "user"); ("sessionId", JString "s1"); ("uuid", JString "u1");
           ("message", JObject [("role", JString "user"); ("content", JString "rename it")])].
Definition edit_block : json :=
  JObject [("type", JString "tool_use"); ("name", JString "Edit"); ("id", JString "t1");
           ("input", JObject [("file_path", JString "/a.go"); ("old_string", JString "x"); ("new_string", JString "y")])].
Definition assistant_line : json :=
  JObject [("type", JString "assistant"); ("sessionId", JString "s1"); ("uuid", JString "a1");
           ("message", JObject [("role", JString "assistant"); ("model", JString "m");
                                ("content", JArray [JObject [("type", JString "text"); ("text", JString "done")]; edit_block])])].

#[export] Instance decode : GoDecode := {|
  json_Unmarshal s := if s ==s "U" then Some user_line else if s ==s "A" then Some assistant_line else None;
  json_Marshal _ := None;
  time_Parse _ := None
|}.

(** A user line, an assistant line that edits a file, and a line that is not JSON. *)
Definition transcript : string := "U" +:+ newline +:+ "A" +:+ newline +:+ "broken".
Definition source : Source := mkSource "" "/h/s.jsonl" "m1" 0.
Definition chunks : list Chunk := match Chunks transcript source with Ok (c, _) => c | Fail _ => [] end.

Example chunks_made :
  map c_ChunkType chunks = ["turn"; "file_change"] /\ map c_Operation chunks = [""; "edit"].
Proof. vm_compute. split; reflexivity. Qed.

Lemma claude_chunks_well_formed_witness :
  length chunks = 2%nat /\
  Forall (chunk_shape source "/") chunks /\ Forall (fun c => hasLowerHexShardPrefix (c_ID c) = true) chunks /\
  links_closed chunks.
Proof.
  split; [vm_compute; reflexivity|].
  apply (claude_chunks_well_formed transcript source chunks [mkIssue 3 "invalid_json"]). vm_compute. reflexivity.
Defined.
End ClaudeSamples.
