(* ===== verification/CodexSource.v ===== *)
(** * The Codex source

    [internal/history/source/codex/codex.go]: parsing of JSONL events, and the
    loop that gathers a user message, the assistant fragments and the tool calls
    after it into one turn. *)
From Stdlib Require Import ZArith Lia Bool.
From Stdlib Require Import String Ascii.
From stdpp Require Import base tactics option list strings.
From S2P Require Import Prelude GoStrings GoPath StoreTypes StorePlans GoTime SplitContent SourceText Regex.
Open Scope Z_scope.

Module Codex.

Record Source : Type := mkSource { FilePath : string; MachineID : string; MaxBytes : Z }.

(** [Payload] is a [map[string]any]; [None] is the nil map. *)
Record Event : Type := mkEvent {
  v_Type : string;
  v_Payload : option (list (string * json));
  v_Timestamp : Time;
  v_HasTime : bool
}.

Definition payload_get (p : option (list (string * json))) (k : string) : json :=
  match p with None => JNull | Some m => jget m k end.
(** The payload as an [any]: a nil map encodes as [null]. *)
Definition payload_json (p : option (list (string * json))) : json :=
  match p with None => JNull | Some m => JObject m end.

Record fileOperation : Type := mkFileOperation { o_path : string; o_kind : string; o_summary : string }.
Record pendingUser : Type := mkPending { p_content : string; p_timestamp : Time; p_line : Z }.

(** ** Text *)

Definition projectPath (last session : string) : string :=
  if last !=s "" then last else if session !=s "" then session else "/unknown".

Definition projectName (project : string) : string :=
  let name := Base project in
  if (name !=s ".") && (name !=s "/") && (name !=s "") then name else "unknown".

Definition eventTimestamp (event : Event) (line : Z) : Time :=
  if v_HasTime event then v_Timestamp event else time_Unix_UTC (wrap64 (line * 1000)).

Definition uuid_byte (c : ascii) : bool := is_hex c || Ascii.eqb c "-".

Definition sessionIDFromFilename (path : string) : string :=
  let stem := Base (TrimSuffix path (Ext path)) in
  if len stem <? 36 then ""
  else
    let candidate := slice_from stem (len stem - 36) in
    if sforall uuid_byte candidate then smap lower_byte candidate else "".

Section Codex.
Context `{GoDecode}.

(** [jsonValue] of an [any] that is not a nil map. *)
Definition jsonValue (v : json) : string :=
  match v with
  | JNull => ""
  | _ => default "" (json_Marshal v)
  end.
(** [jsonValue] of a [map[string]any], which is never the nil interface. *)
Definition mapValue (p : option (list (string * json))) : string := default "" (json_Marshal (payload_json p)).

Definition valueText (v : json) : string :=
  let text := stringValue v in if text !=s "" then text else jsonValue v.

(** ** Parsing *)

Definition parseEvent (raw : string) : Event + string :=
  match json_Unmarshal raw with
  | None => inr "invalid_json"
  | Some value =>
      if MaxJSONDepth <? jsonDepth value 0 then inr "json_too_deep"
      else match value with
      | JObject object =>
          let kind := stringValue (jget object "type") in
          if kind ==s "" then inr "missing_type"
          else
            let payload := match jget object "payload" with JObject m => Some m | _ => None end in
            let rawTimestamp := stringValue (jget object "timestamp") in
            if rawTimestamp ==s "" then inl (mkEvent kind payload zero_time false)
            else match time_Parse rawTimestamp with
                 | None => inr "invalid_timestamp"
                 | Some parsed => inl (mkEvent kind payload (UTC parsed) true)
                 end
      | _ => inr "entry_not_object"
      end
  end.

Definition Parse (content : string) (maxBytes : Z) : result (list (Event * Z) * list Issue) :=
  parse_input "Codex" parseEvent content maxBytes.

(** ** Messages and tools *)

Definition message_item (raw : json) : option string :=
  match raw with
  | JObject item =>
      let kind := stringValue (jget item "type") in
      if (kind ==s "input_text") || (kind ==s "output_text") || (kind ==s "text") then
        let text := stringValue (jget item "text") in if text !=s "" then Some text else None
      else None
  | _ => None
  end.

Definition messageText (payload : option (list (string * json))) : string :=
  match payload_get payload "content" with
  | JArray items => Join (omap message_item items) newline
  | _ => ""
  end.

Definition shellOperations (name : string) (args : json) : list fileOperation :=
  if (name !=s "shell") && (name !=s "shell_command") then []
  else
    let command :=
      match args with
      | JObject object => stringValue (jget object "command")
      | JString raw =>
          match json_Unmarshal raw with
          | Some (JObject object) => stringValue (jget object "command")
          | _ => ""
          end
      | _ => ""
      end in
    match first_rule shellRules command with
    | Some (path, kind, summary) => [mkFileOperation path kind summary]
    | None => []
    end.

Definition patch_prefixes : list (string * string * string) :=
  [("*** Add File: ", "write", "Added file"); ("*** Update File: ", "edit", "Updated file");
   ("*** Delete File: ", "delete", "Deleted file"); ("*** Move to: ", "move", "Moved file")].

(** The inner loop over the prefixes: the first one that changes the line ends
    it, with an operation unless the path is empty. *)
Fixpoint patch_line (prefixes : list (string * string * string)) (line : string) : option fileOperation :=
  match prefixes with
  | [] => None
  | (prefix, kind, summary) :: rest =>
      let path := TrimSpace (TrimPrefix line prefix) in
      if path !=s line then
        if path !=s "" then Some (mkFileOperation path kind summary) else None
      else patch_line rest line
  end.

(** [json.Unmarshal] into a map accepts an object, or [null], which leaves it nil. *)
Definition patchOperations (arguments : string) : list fileOperation :=
  match json_Unmarshal arguments with
  | Some (JObject object) =>
      omap (patch_line patch_prefixes) (Split (ascii_of_N 10) (stringValue (jget object "patch")))
  | Some JNull => omap (patch_line patch_prefixes) (Split (ascii_of_N 10) "")
  | _ => []
  end.

Definition summarizeTool (payload : option (list (string * json))) : string * list fileOperation :=
  let kind := stringValue (payload_get payload "type") in
  if kind ==s "function_call" then
    let name := stringValue (payload_get payload "name") in
    let name := if name ==s "" then "unknown" else name in
    let args := payload_get payload "arguments" in
    let text := stringValue args in
    let text := if text ==s "" then jsonValue args else text in
    let ops := shellOperations name args in
    let ops := if (name ==s "apply_patch") && (text !=s "") then patchOperations text else ops in
    (TrimSpace ("[Tool call] " +:+ name +:+ " " +:+ text), ops)
  else if kind ==s "function_call_output" then
    (TrimSpace ("[Tool output] " +:+ valueText (payload_get payload "output")), [])
  else if kind ==s "web_search_call" then
    let action := as_object (payload_get payload "action") in
    (TrimSpace ("[Web search] " +:+ stringValue (jget action "query")), [])
  else if kind ==s "reasoning" then
    let items := match payload_get payload "summary" with JArray l => l | _ => [] end in
    let parts := List.filter (fun t => t !=s "") (map valueText items) in
    match parts with
    | [] => ("[Reasoning summary]", [])
    | _ => ("[Reasoning summary] " +:+ Join parts " ", [])
    end
  else if kind ==s "ghost_snapshot" then ("[Ghost snapshot captured]", [])
  else ("", []).

End Codex.

(** ** Chunks *)

Definition makeChunks (content kind project session : string) (timestamp : Time) (source : Source) (line : Z)
    (model : string) : list Chunk :=
  part_chunks
    (fun id part parent =>
       mkChunk id part [] kind session project (projectName project) timestamp "" "" "" "" model
         (FilePath source) line parent [] (MachineID source))
    content session (timestampKey timestamp) (codex_splitContent content).

Definition turnChunks (user assistant project session : string) (timestamp : Time) (source : Source) (line : Z)
    (model : string) : list Chunk :=
  makeChunks ("In project " +:+ projectName project +:+ ", user asked:" +:+ newline +:+ user +:+ newline +:+ newline +:+
              "Assistant responded:" +:+ newline +:+ TrimSpace assistant)
    "turn" project session timestamp source line model.

Definition assistantChunks (text project session : string) (timestamp : Time) (source : Source) (line : Z)
    (model : string) : list Chunk :=
  if TrimSpace text ==s "" then []
  else makeChunks ("In project " +:+ projectName project +:+ ", assistant responded:" +:+ newline +:+ text)
         "turn" project session timestamp source line model.

Definition userChunks (text project session : string) (timestamp : Time) (source : Source) (line : Z)
    (model : string) : list Chunk :=
  if TrimSpace text ==s "" then []
  else makeChunks ("In project " +:+ projectName project +:+ ", user said:" +:+ newline +:+ text)
         "turn" project session timestamp source line model.

Definition file_chunk (project session : string) (timestamp : Time) (source : Source) (line : Z) (parent : string)
    (index : Z) (op : fileOperation) : Chunk :=
  let name := projectName project in
  let content := "In project " +:+ name +:+ ", file " +:+ o_path op +:+ " was " +:+ o_kind op +:+ "." +:+ newline +:+
                 "Summary: " +:+ o_summary op in
  mkChunk (chunkID content session (timestampKey timestamp +:+ o_path op +:+ Itoa index)) content [] "file_change"
    session project name timestamp "" "" (o_path op) (o_kind op) "" (FilePath source) line parent [] (MachineID source).

Definition fileChunks (ops : list fileOperation) (project session : string) (timestamp : Time) (source : Source)
    (line : Z) (parent : string) : list Chunk :=
  imap (fun index => file_chunk project session timestamp source line parent (Z.of_nat index)) ops.

(** Turn chunks with the file changes attached to the first of them. *)
Definition with_files (turns : list Chunk) (files : string -> list Chunk) : list Chunk :=
  match turns with
  | [] => []
  | first :: _ => attach_children turns (files (c_ID first)) ++ files (c_ID first)
  end.

(** ** The loop of [Chunks] *)

(** The variables the loop updates, with the chunks made so far. *)
Record loop_state : Type := mkLoop {
  l_sessionID : string;
  l_sessionCWD : string;
  l_lastCWD : string;
  l_model : string;
  l_pending : option pendingUser;
  l_fragments : list string;
  l_ops : list fileOperation;
  l_chunks : list Chunk
}.

Definition add_chunks (s : loop_state) (chunks : list Chunk) : loop_state :=
  mkLoop (l_sessionID s) (l_sessionCWD s) (l_lastCWD s) (l_model s) (l_pending s) (l_fragments s) (l_ops s)
    (l_chunks s ++ chunks).
Definition current_project (s : loop_state) : string := projectPath (l_lastCWD s) (l_sessionCWD s).
Definition add_fragment (s : loop_state) (text : string) (ops : list fileOperation) : loop_state :=
  mkLoop (l_sessionID s) (l_sessionCWD s) (l_lastCWD s) (l_model s) (l_pending s)
    (if text !=s "" then l_fragments s ++ [text] else l_fragments s) (l_ops s ++ ops) (l_chunks s).
Definition set_pending (s : loop_state) (p : pendingUser) : loop_state :=
  mkLoop (l_sessionID s) (l_sessionCWD s) (l_lastCWD s) (l_model s) (Some p) (l_fragments s) (l_ops s) (l_chunks s).

Section Loop.
Context `{GoDecode} (source : Source).

Definition finalize (s : loop_state) : loop_state :=
  match l_pending s with
  | None => s
  | Some p =>
      let project := current_project s in
      let turns := turnChunks (p_content p) (Join (l_fragments s) newline) project (l_sessionID s) (p_timestamp p)
                     source (p_line p) (l_model s) in
      let files := fileChunks (l_ops s) project (l_sessionID s) (p_timestamp p) source (p_line p) in
      mkLoop (l_sessionID s) (l_sessionCWD s) (l_lastCWD s) (l_model s) None [] [] (l_chunks s ++ with_files turns files)
  end.

Definition assistant_text (s : loop_state) (text : string) (event : Event) (line : Z) : list Chunk :=
  assistantChunks text (current_project s) (l_sessionID s) (eventTimestamp event line) source line (l_model s).

(** The [response_item] case. *)
Definition response_item (s : loop_state) (event : Event) (line : Z) : loop_state :=
  let payload := v_Payload event in
  if stringValue (payload_get payload "type") ==s "message" then
    let text := TrimSpace (messageText payload) in
    if text ==s "" then s
    else
      let role := stringValue (payload_get payload "role") in
      if role ==s "user" then set_pending (finalize s) (mkPending text (eventTimestamp event line) line)
      else if role ==s "assistant" then
        match l_pending s with
        | None => add_chunks s (assistant_text s text event line)
        | Some _ => add_fragment s text []
        end
      else add_chunks s (assistant_text s text event line)
  else
    let '(summary, foundOps) := summarizeTool payload in
    match l_pending s with
    | Some _ => add_fragment s summary foundOps
    | None =>
        if summary !=s "" then
          add_chunks s (with_files (assistant_text s summary event line)
            (fileChunks foundOps (current_project s) (l_sessionID s) (eventTimestamp event line) source line))
        else s
    end.

Definition loop_event (s : loop_state) (located : Event * Z) : loop_state :=
  let '(event, line) := located in
  let payload := v_Payload event in
  if v_Type event ==s "session_meta" then
    let id := stringValue (payload_get payload "id") in
    let cwd := stringValue (payload_get payload "cwd") in
    mkLoop (if id !=s "" then id else l_sessionID s) (if cwd !=s "" then cwd else l_sessionCWD s) (l_lastCWD s)
      (l_model s) (l_pending s) (l_fragments s) (l_ops s) (l_chunks s)
  else if v_Type event ==s "turn_context" then
    let cwd := stringValue (payload_get payload "cwd") in
    let model := stringValue (payload_get payload "model") in
    mkLoop (l_sessionID s) (l_sessionCWD s) (if cwd !=s "" then cwd else l_lastCWD s)
      (if model !=s "" then model else l_model s) (l_pending s) (l_fragments s) (l_ops s) (l_chunks s)
  else if v_Type event ==s "event_msg" then
    let text := stringValue (payload_get payload "message") in
    let text := if text ==s "" then mapValue payload else text in
    if text ==s "" then s
    else if stringValue (payload_get payload "type") ==s "user_message" then
      add_chunks s (userChunks text (current_project s) (l_sessionID s) (eventTimestamp event line) source line (l_model s))
    else add_chunks s (assistant_text s text event line)
  else if v_Type event ==s "response_item" then response_item s event line
  else add_chunks s (assistant_text s
         (jsonValue (JObject [("type", JString (v_Type event)); ("payload", payload_json payload)])) event line).

Definition Chunks (input : string) : result (list Chunk * list Issue) :=
  if FilePath source ==s "" then Fail (errors_New "Codex source file identity is required")
  else
    parsed ← Parse input (MaxBytes source);
    let '(events, issues) := parsed in
    let sessionID := sessionIDFromFilename (FilePath source) in
    let sessionID := if sessionID ==s "" then "unknown" else sessionID in
    let final := finalize (fold_left loop_event events (mkLoop sessionID "" "" "" None [] [] [])) in
    Ok (l_chunks final, issues).

End Loop.
End Codex.
