(* ===== verification/CodexSourceSpec.v ===== *)
(** * Properties of the Codex source *)
From Stdlib Require Import ZArith Lia Bool.
From Stdlib Require Import String Ascii.
From stdpp Require Import base tactics option list strings.
From S2P Require Import Prelude GoStrings GoPath StoreTypes StorePlans GoTime SplitContent SourceText Regex.
From S2P Require Import ClaudeSourceSpec CodexSource.
Open Scope Z_scope.
Import Codex.

(** ** Shape *)

(** What the chunks of a Codex session have whatever its events say. *)
Record codex_shape (source : Source) (c : Chunk) : Prop := mk_codex_shape {
  cx_id : hex_id (c_ID c);
  cx_content : c_Content c <> "";
  cx_vector : c_Vector c = [];
  cx_kind : List.In (c_ChunkType c) ["turn"; "file_change"];
  cx_session : c_SessionID c <> "";
  cx_project : c_ProjectPath c <> "" /\ c_ProjectName c = projectName (c_ProjectPath c);
  cx_file : c_SourceFile c = FilePath source /\ c_MachineID c = MachineID source;
  cx_line : 1 <= c_SourceLine c;
  cx_operation : List.In (c_Operation c) [""; "write"; "edit"; "delete"; "move"];
  cx_path : c_ChunkType c = "file_change" -> c_FilePath c <> "";
  cx_parent : c_ParentChunkID c = "" \/ hex_id (c_ParentChunkID c);
  cx_children : Forall hex_id (c_ChildChunkIDs c)
}.

Lemma codex_split_nonempty content p : content <> "" -> p ∈ codex_splitContent content -> p <> "".
Proof.
  intros Hc. rewrite codex_split_claude, elem_of_app. intros [Hp|Hp]; [by eapply claude_split_nonempty|].
  destruct (Z.leb_spec (len content) MaxChunkContentLength) as [|Hl]; [by inversion Hp|].
  assert (Z.of_nat (Z.to_nat ChunkOverlap) <= len content) as Hn by (unfold MaxChunkContentLength, ChunkOverlap in *; lia).
  revert Hn Hp. induction (Z.to_nat ChunkOverlap) as [|n IH]; cbn [suffixes]; intros Hn Hp; [by inversion Hp|].
  apply elem_of_cons in Hp as [->|Hp]; [|apply IH; [lia|done]]. intros E. apply (f_equal len) in E.
  unfold slice_from in E. rewrite len_slice in E by lia. change (len "") with 0 in E. lia.
Qed.

(** An operation that the parser made. *)
Definition op_ok (op : fileOperation) : Prop :=
  o_path op <> "" /\ List.In (o_kind op) ["write"; "edit"; "delete"; "move"].

Section Ops.
Context `{GoDecode}.

Lemma shellOperations_ok name args : Forall op_ok (shellOperations name args).
Proof.
  unfold shellOperations. destruct (_ && _); [constructor|].
  destruct (first_rule _ _) as [[[path kind] summary]|] eqn:E; [|constructor].
  apply first_rule_ok in E as [[Hp _] Hk]. constructor; [|constructor]. split; [done|]. simpl in *. intuition.
Qed.

Lemma patch_line_ok prefixes line op :
  Forall (fun p => List.In (snd (fst p)) ["write"; "edit"; "delete"; "move"]) prefixes ->
  patch_line prefixes line = Some op -> op_ok op.
Proof.
  induction prefixes as [|[[prefix kind] summary] prefixes IH]; simpl; [done|]. intros Hf. inversion Hf; subst.
  destruct (TrimSpace _ ==s line); simpl; [auto|]. destruct (TrimSpace _ ==s "") eqn:E; simpl; [done|].
  intros [= <-]. split; [by apply String.eqb_neq|done].
Qed.

Lemma patchOperations_ok arguments : Forall op_ok (patchOperations arguments).
Proof.
  unfold patchOperations.
  assert (forall lines, Forall op_ok (omap (patch_line patch_prefixes) lines)) as Hl.
  { intros lines. apply Forall_forall. intros op (line&_&Hp)%list_elem_of_omap. eapply patch_line_ok; [|exact Hp].
    unfold patch_prefixes. repeat apply Forall_cons_2; simpl; auto using Forall_nil_2. }
  destruct (json_Unmarshal arguments) as [[]|]; auto using Forall_nil_2.
Qed.

Lemma summarizeTool_ok payload : Forall op_ok (snd (summarizeTool payload)).
Proof.
  unfold summarizeTool. destruct (_ ==s "function_call"); simpl.
  { destruct (_ && _); [apply patchOperations_ok|apply shellOperations_ok]. }
  destruct (_ ==s "function_call_output"); [constructor|]. destruct (_ ==s "web_search_call"); [constructor|].
  destruct (_ ==s "reasoning"); [destruct (List.filter _ _); constructor|]. destruct (_ ==s _); constructor.
Qed.
End Ops.

Section Shape.
Context (source : Source).

Lemma makeChunks_shape content kind project session timestamp line model :
  content <> "" -> kind = "turn" -> project <> "" -> session <> "" -> 1 <= line ->
  Forall (codex_shape source) (makeChunks content kind project session timestamp source line model).
Proof.
  intros Hc -> Hp Hs Hl. apply part_chunks_inv. intros id part parent Hid Hpar (p&Hin&Hpart).
  assert (part <> "") by (destruct Hpart as [->|(i&n&->)]; [exact (codex_split_nonempty _ _ Hc Hin)|done]).
  constructor; simpl; auto; done.
Qed.

Lemma makeChunks_kind content project session timestamp line model :
  Forall (fun c => c_ChunkType c = "turn" /\ c_ChildChunkIDs c = [])
    (makeChunks content "turn" project session timestamp source line model).
Proof. by apply part_chunks_inv. Qed.

Lemma codex_file_shape ops project session timestamp line parent :
  Forall op_ok ops -> project <> "" -> session <> "" -> 1 <= line -> parent = "" \/ hex_id parent ->
  Forall (codex_shape source) (fileChunks ops project session timestamp source line parent).
Proof.
  intros Ho Hp Hs Hl Hpar. apply Forall_forall. intros c Hc. apply elem_of_lookup_imap in Hc as (i&op&->&Hop).
  apply list_elem_of_lookup_2 in Hop. rewrite Forall_forall in Ho. destruct (Ho op Hop) as [Hne Hk].
  constructor; simpl; auto; try done. apply chunkID_hex.
Qed.

Lemma codex_file_kind ops project session timestamp line parent :
  Forall (fun c => c_ChunkType c = "file_change" /\ c_ParentChunkID c = parent /\ c_ChildChunkIDs c = [])
    (fileChunks ops project session timestamp source line parent).
Proof. apply Forall_forall. intros c Hc. by apply elem_of_lookup_imap in Hc as (i&op&->&_). Qed.

(** What holds of the chunks made so far and of every batch that is added. *)
Definition good (chunks : list Chunk) : Prop := Forall (codex_shape source) chunks /\ links_closed chunks.

Lemma good_app a b : good a -> good b -> good (a ++ b).
Proof. intros [] []. split; [by apply Forall_app|by apply links_app]. Qed.

Lemma good_nil : good [].
Proof. split; [constructor|by apply links_unlinked]. Qed.

Lemma good_makeChunks content project session timestamp line model :
  content <> "" -> project <> "" -> session <> "" -> 1 <= line ->
  good (makeChunks content "turn" project session timestamp source line model).
Proof.
  intros. split; [by apply makeChunks_shape|]. apply links_unlinked. eapply Forall_impl; [apply makeChunks_kind|].
  intros c [K C]. split; [done|]. left. by rewrite K.
Qed.

Lemma codex_children_shape c ids : codex_shape source c -> Forall hex_id ids -> codex_shape source (set_children c ids).
Proof. intros [] Hids. by constructor. Qed.

Lemma good_with_files turns ops project session timestamp line :
  Forall (codex_shape source) turns -> Forall (fun c => c_ChunkType c = "turn" /\ c_ChildChunkIDs c = []) turns ->
  Forall op_ok ops -> project <> "" -> session <> "" -> 1 <= line ->
  good (with_files turns (fileChunks ops project session timestamp source line)).
Proof.
  intros Ht Hk Ho Hp Hs Hl. unfold with_files. destruct turns as [|t rest]; [apply good_nil|].
  set (files := fileChunks ops project session timestamp source line (c_ID t)).
  assert (Forall (codex_shape source) files) as Hf.
  { apply codex_file_shape; try done. right. inversion Ht as [|? ? []]; subst. done. }
  split; [|apply links_turn; [done|apply codex_file_kind]].
  apply Forall_app. split; [|done]. destruct files as [|f rest_files] eqn:Ef; [done|]. inversion Ht; subst.
  constructor; [|done]. apply codex_children_shape; [done|]. apply Forall_map.
  eapply Forall_impl; [exact Hf|]. intros c []. done.
Qed.

(** ** The loop *)

Record loop_ok (s : loop_state) : Prop := mk_loop_ok {
  lo_session : l_sessionID s <> "";
  lo_pending : forall p, l_pending s = Some p -> 1 <= p_line p;
  lo_ops : Forall op_ok (l_ops s);
  lo_chunks : good (l_chunks s)
}.

Context `{GoDecode}.

Lemma current_project_nonempty s : current_project s <> "".
Proof.
  unfold current_project, projectPath. destruct (l_lastCWD s ==s "") eqn:E1; simpl; [|by apply String.eqb_neq].
  destruct (l_sessionCWD s ==s "") eqn:E2; simpl; [done|by apply String.eqb_neq].
Qed.

Lemma good_assistant_text s text event line : loop_ok s -> 1 <= line -> good (assistant_text source s text event line).
Proof.
  intros Hs Hl. unfold assistant_text, assistantChunks. destruct (_ ==s ""); [apply good_nil|].
  apply good_makeChunks; try done; [apply current_project_nonempty|apply Hs].
Qed.

Lemma add_chunks_ok s chunks : loop_ok s -> good chunks -> loop_ok (add_chunks s chunks).
Proof. intros [] Hg. constructor; simpl; try done. by apply good_app. Qed.

Lemma add_fragment_ok s text ops : loop_ok s -> Forall op_ok ops -> loop_ok (add_fragment s text ops).
Proof. intros [] Ho. constructor; simpl; try done. by apply Forall_app. Qed.

Lemma finalize_ok s : loop_ok s -> loop_ok (finalize source s).
Proof.
  intros Hs. unfold finalize. destruct (l_pending s) as [p|] eqn:Ep; [|done].
  pose proof (lo_pending s Hs p Ep). pose proof (current_project_nonempty s). destruct Hs.
  constructor; cbn [l_sessionID l_pending l_ops l_chunks]; try done. apply good_app; [done|]. apply good_with_files; try done.
  - by apply makeChunks_shape.
  - apply makeChunks_kind.
Qed.

Lemma response_item_ok s event line : loop_ok s -> 1 <= line -> loop_ok (response_item source s event line).
Proof.
  intros Hs Hl. unfold response_item. destruct (_ ==s "message").
  - destruct (_ ==s ""); [done|]. destruct (_ ==s "user").
    { destruct (finalize_ok s Hs). constructor; simpl; try done. by intros p [= <-]. }
    destruct (_ ==s "assistant"); [|by apply add_chunks_ok, good_assistant_text].
    destruct (l_pending s); [by apply add_fragment_ok|by apply add_chunks_ok, good_assistant_text].
  - pose proof (summarizeTool_ok (v_Payload event)) as Ho. destruct (summarizeTool _) as [summary ops]. simpl in Ho.
    destruct (l_pending s); [by apply add_fragment_ok|]. destruct (_ ==s ""); simpl; [done|].
    apply add_chunks_ok; [done|]. apply good_with_files; try done; try apply Hs; [| |apply current_project_nonempty].
    + apply good_assistant_text; done.
    + unfold assistant_text, assistantChunks. destruct (_ ==s ""); [constructor|apply makeChunks_kind].
Qed.

Lemma loop_event_ok s located : loop_ok s -> 1 <= snd located -> loop_ok (loop_event source s located).
Proof.
  intros Hs Hl. destruct located as [event line]. simpl in Hl. unfold loop_event.
  destruct (_ ==s "session_meta").
  { destruct Hs. constructor; simpl; try done. destruct (_ ==s "") eqn:E; simpl; [done|by apply String.eqb_neq]. }
  destruct (_ ==s "turn_context"); [destruct Hs; by constructor|]. destruct (_ ==s "event_msg").
  { match goal with |- loop_ok (if ?b then _ else _) => destruct b end; [done|].
    destruct (_ ==s "user_message"); apply add_chunks_ok; try done; [|by apply good_assistant_text].
    unfold userChunks. destruct (_ ==s ""); [apply good_nil|].
    apply good_makeChunks; try done; [apply current_project_nonempty|apply Hs]. }
  destruct (_ ==s "response_item"); [by apply response_item_ok|by apply add_chunks_ok, good_assistant_text].
Qed.

Lemma loop_ok_fold events s :
  loop_ok s -> Forall (fun e => 1 <= snd e) events -> loop_ok (fold_left (loop_event source) events s).
Proof.
  revert s. induction events as [|e events IH]; intros s Hs He; [done|]. inversion He; subst. simpl.
  apply IH; [by apply loop_event_ok|done].
Qed.
End Shape.

Lemma codex_result `{GoDecode} source input chunks issues :
  Chunks source input = Ok (chunks, issues) ->
  Forall (codex_shape source) chunks /\ links_closed chunks.
Proof.
  unfold Chunks. destruct (FilePath source ==s ""); [done|]. intros Hc. apply bind_ok in Hc as ([events is']&Hp&Hc).
  injection Hc as <- _. apply parse_input_lines in Hp.
  apply (lo_chunks source), finalize_ok, loop_ok_fold; [|done].
  constructor; simpl; try done; [|apply good_nil]. destruct (_ ==s "") eqn:E; [done|by apply String.eqb_neq].
Qed.

(** ** Properties *)

(** Whatever a Codex session holds, every chunk made from it has a 16-digit
    hexadecimal identifier, a content, a session and a project, the source's
    file and machine, a line from 1 and a known kind and operation; a file change
    names a path; and parents and children refer to each other inside the result. *)
Theorem codex_chunks_well_formed `{GoDecode} source input chunks issues :
  Chunks source input = Ok (chunks, issues) ->
  Forall (codex_shape source) chunks /\ links_closed chunks.
Proof. apply codex_result. Qed.

(** A message over 8000 bytes makes more chunks than an upsert takes. *)
Lemma makeChunks_count content kind project session timestamp source line model :
  MaxChunkContentLength < len content ->
  (1500 < length (makeChunks content kind project session timestamp source line model))%nat.
Proof.
  intros Hl. unfold makeChunks. rewrite part_chunks_length, codex_split_claude, length_app.
  destruct (Z.leb_spec (len content) MaxChunkContentLength); [lia|].
  rewrite suffixes_length. destruct (claude_split_cuts content Hl) as [_ Hc].
  assert (claude_splitContent content <> []) by (intros E; rewrite E in Hc; inversion Hc).
  destruct (claude_splitContent content); [done|]. cbn [length]. unfold ChunkOverlap. lia.
Qed.

(** C40: A Codex message over 8000 bytes cannot be stored: every batch that holds
    its chunks is over the store's limit of 500, and [BuildUpsertPlan] refuses
    it under every configuration. *)
Theorem codex_long_message_refused config before after content kind project session timestamp source line model :
  MaxChunkContentLength < len content ->
  is_ok (BuildUpsertPlan config
           (before ++ makeChunks content kind project session timestamp source line model ++ after)) = false.
Proof.
  intros Hl. pose proof (makeChunks_count content kind project session timestamp source line model Hl) as Hn.
  set (l := _ ++ _). assert (500 < Z.of_nat (length l)) as H5 by (unfold l; rewrite !length_app; lia).
  unfold BuildUpsertPlan. destruct (Validate config) as [[]|]; simpl; [|done].
  destruct (bool_decide (l = [])); [done|]. by destruct (Z.ltb_spec 500 (Z.of_nat (length l))); [|lia].
Qed.

(** In a patch every line that begins with a space and holds more, as context
    lines do, is taken for an added file named after its text. *)
Lemma patch_context_line rest :
  TrimSpace (" " +:+ rest) <> "" -> HasPrefix (" " +:+ rest) "*** Add File: " = false ->
  TrimSpace (" " +:+ rest) <> " " +:+ rest ->
  patch_line patch_prefixes (" " +:+ rest) = Some (mkFileOperation (TrimSpace (" " +:+ rest)) "write" "Added file").
Proof.
  intros H1 H2 H3. unfold patch_prefixes. cbn [patch_line]. unfold TrimPrefix. rewrite H2.
  apply String.eqb_neq in H1, H3. by rewrite H1, H3.
Qed.

(** ** Witnesses *)

Module CodexSamples.

Definition user_event : json :=
  JObject [("type", JString "response_item");
           ("payload", JObject [("type", JString "message"); ("role", JString "user");
                                ("content", JArray [JObject [("type", JString "input_text"); ("text", JString "clean up")]])])].
Definition shell_event : json :=
  JObject [("type", JString "response_item");
           ("payload", JObject [("type", JString "function_call"); ("name", JString "shell");
                                ("arguments", JObject [("command", JString "rm -f a.o")])])].

#[local] Instance decode : GoDecode := {|
  json_Unmarshal s := if s ==s "U" then Some user_event else if s ==s "S" then Some shell_event else None;
  json_Marshal _ := Some "{}";
  time_Parse _ := None
|}.

Definition session : string := "U" +:+ newline +:+ "S" +:+ newline.
Definition source : Source := mkSource "/h/rollout.jsonl" "m1" 0.
Definition chunks : list Chunk := match Chunks source session with Ok (c, _) => c | Fail _ => [] end.

Example codex_chunks_made :
  map c_Operation chunks = [""; "delete"] /\ map c_FilePath chunks = [""; "a.o"].
Proof. vm_compute. split; reflexivity. Qed.

Lemma codex_chunks_well_formed_witness :
  length chunks = 2%nat /\ Forall (codex_shape source) chunks /\ links_closed chunks.
Proof.
  split; [vm_compute; reflexivity|]. apply (codex_chunks_well_formed source session chunks []). vm_compute. reflexivity.
Defined.

Lemma codex_long_message_refused_witness :
  is_ok (BuildUpsertPlan (productionStoreConfig "p" "i" "d")
           ([] ++ makeChunks (zero_string (Z.to_nat 8001)) "turn" "/w" "s1" zero_time source 1 "m" ++ [])) = false.
Proof. apply codex_long_message_refused. vm_compute. reflexivity. Defined.

(** A context line of a patch becomes an added file. *)
Example patch_context_sample :
  patch_line patch_prefixes " return nil" = Some (mkFileOperation "return nil" "write" "Added file").
Proof. vm_compute. reflexivity. Qed.
End CodexSamples.
