(* ===== verification/SourceJson.v ===== *)
(** * What the export parsers share

    The Gemini, ChatGPT, Claude-app and Antigravity sources read a bounded input,
    decode it as one JSON value (or as lines) and walk it. This file has the
    bounded read, the reading of members of an object inside a recursive walk,
    [sort.SliceStable], conversions of numbers to times, and the shape of the
    chunks a source returns. *)
From Stdlib Require Import ZArith Lia Bool SpecFloat.
From Stdlib Require Import String Ascii.
From stdpp Require Import base tactics option list strings sorting pretty.
From S2P Require Import Prelude GoStrings StoreTypes StorePlans SourceText.
Open Scope Z_scope.

(** ** Bounded input *)

(** The head of [Parse]: the default limit, its range, and [io.ReadAll] of a
    reader that fails once it has delivered one byte more than the limit. *)
Definition read_bounded (limit : Z) (invalid exceeds : string) (content : string) (maxBytes : Z) : result string :=
  let maxBytes := if maxBytes =? 0 then limit else maxBytes in
  if (maxBytes <? 1) || (limit <? maxBytes) then Fail (errors_New invalid)
  else if maxBytes <? len content then Fail (Errorf exceeds [FInt maxBytes])
  else Ok content.

Lemma read_bounded_ok limit invalid exceeds content maxBytes data :
  read_bounded limit invalid exceeds content maxBytes = Ok data -> data = content /\ len content <= limit.
Proof.
  unfold read_bounded. set (m := if maxBytes =? 0 then _ else _). destruct (_ || _) eqn:E; [done|].
  apply orb_false_iff in E as [_ E]. apply Z.ltb_ge in E.
  destruct (Z.ltb_spec m (len content)); [done|]. intros [= <-]. split; [done|lia].
Qed.

(** The error that [json.Unmarshal] gives for an input it refuses. *)
Class GoDecodeError : Type := json_error : string -> error.

(** ** Members *)

Definition jkeys (m : list (string * json)) : list string := map fst m.

(** The member [k] of an object whose values were mapped by [f]. *)
Fixpoint assoc {A} (k : string) (m : list (string * A)) : option A :=
  match m with
  | [] => None
  | (k', v) :: rest => if k ==s k' then Some v else assoc k rest
  end.
Definition member {A} (f : json -> A) (m : list (string * json)) (k : string) : A :=
  default (f JNull) (assoc k (map (fun kv => (fst kv, f (snd kv))) m)).

Lemma member_jget {A} (f : json -> A) m k : member f m k = f (jget m k).
Proof.
  unfold member, jget. induction m as [|[k' v] m IH]; [done|]. simpl. destruct (k ==s k'); [done|exact IH].
Qed.

Lemma jlookup_in k m v : jlookup k m = Some v -> (k, v) ∈ m.
Proof.
  induction m as [|[k' v'] m IH]; simpl; [done|]. destruct (String.eqb_spec k k') as [->|]; [|right; by apply IH].
  intros [= ->]. by left.
Qed.

Lemma jlookup_nodup k m v : NoDup (jkeys m) -> (k, v) ∈ m -> jlookup k m = Some v.
Proof.
  induction m as [|[k' v'] m IH]; intros Hn Hin; [by inversion Hin|]. simpl. apply NoDup_cons in Hn as [Hk Hn].
  apply elem_of_cons in Hin as [[= -> ->]|Hin]; [by rewrite String.eqb_refl|].
  destruct (String.eqb_spec k k') as [->|]; [|by apply IH]. exfalso. apply Hk. apply list_elem_of_fmap. by exists (k', v).
Qed.

(** Looking a key up does not depend on the order in which the members are kept. *)
Lemma jlookup_perm k m m' : NoDup (jkeys m) -> m ≡ₚ m' -> jlookup k m = jlookup k m'.
Proof.
  intros Hn Hp. assert (NoDup (jkeys m')) as Hn' by (unfold jkeys; by rewrite <- Hp).
  destruct (jlookup k m) as [v|] eqn:E.
  - symmetry. apply jlookup_nodup; [done|]. rewrite <- Hp. by apply jlookup_in.
  - destruct (jlookup k m') as [v|] eqn:E'; [|done]. apply jlookup_in in E'. rewrite <- Hp in E'.
    apply jlookup_nodup in E'; [|done]. congruence.
Qed.

Lemma jget_perm k m m' : NoDup (jkeys m) -> m ≡ₚ m' -> jget m k = jget m' k.
Proof. intros Hn Hp. unfold jget. by rewrite (jlookup_perm k m m'). Qed.

Lemma elem_of_concat {A} (x : A) (l : list (list A)) : x ∈ concat l <-> exists k, k ∈ l /\ x ∈ k.
Proof. setoid_rewrite list_elem_of_In. apply in_concat. Qed.

(** ** Order of strings *)

Lemma ltb_false_le a b : String.ltb b a = false <-> str_le a b.
Proof.
  rewrite str_le_compare. unfold String.ltb. rewrite (String.compare_antisym a b).
  destruct (String.compare b a); simpl; split; congruence.
Qed.
Lemma ltb_asym a b : String.ltb a b = true -> String.ltb b a = false.
Proof. intros Hl. by apply ltb_false_le, str_ltb_le. Qed.
Lemma ltb_weak a b c : String.ltb b a = false -> String.ltb c b = false -> String.ltb c a = false.
Proof. rewrite !ltb_false_le. apply transitivity. Qed.

(** ** Decimals *)

Lemma pretty_N_go_longer x s : (String.length s <= String.length (pretty_N_go x s))%nat.
Proof.
  revert s. induction x as [x IH] using (well_founded_induction N.lt_wf_0). intros s.
  destruct (decide (0 < x)%N) as [Hx|Hx].
  - rewrite pretty_N_go_step by done. specialize (IH (x `div` 10)%N ltac:(apply N.div_lt; lia) (String (pretty_N_char (x `mod` 10)) s)).
    simpl in IH. lia.
  - replace x with 0%N by lia. by rewrite pretty_N_go_0.
Qed.

Lemma Itoa_nonempty z : Itoa z <> "".
Proof.
  assert (forall n : N, pretty n <> "") as Hn.
  { intros n. unfold pretty, pretty_N. destruct (decide (n = 0)%N); [done|]. rewrite pretty_N_go_step by lia. intros E.
    pose proof (pretty_N_go_longer (n `div` 10) (String (pretty_N_char (n `mod` 10)) "")) as Hl. rewrite E in Hl. simpl in Hl. lia. }
  unfold Itoa. destruct z as [|p|p]; [done|apply (Hn (Npos p))|done].
Qed.

(** ** [sort.SliceStable] *)

Section SliceStable.
Context {A : Type} (less : A -> A -> bool).

(** An element goes after the elements that are less, before the equal ones,
    which followed it. *)
Fixpoint insert_stable (x : A) (l : list A) : list A :=
  match l with
  | [] => [x]
  | y :: rest => if less y x then y :: insert_stable x rest else x :: l
  end.

Definition SliceStable (l : list A) : list A := fold_right insert_stable [] l.

Lemma insert_stable_perm x l : insert_stable x l ≡ₚ x :: l.
Proof. induction l as [|y l IH]; simpl; [done|]. destruct (less y x); [|done]. rewrite IH. apply Permutation_swap. Qed.

Lemma SliceStable_perm l : SliceStable l ≡ₚ l.
Proof. induction l as [|x l IH]; simpl; [done|]. by rewrite insert_stable_perm, IH. Qed.

(** No element is less than one before it. *)
Definition in_order (a b : A) : Prop := less b a = false.

Hypothesis less_asym : forall a b, less a b = true -> less b a = false.
(** Incomparable elements are comparable to the same others. *)
Hypothesis less_weak : forall a b c, less b a = false -> less c b = false -> less c a = false.

Lemma insert_stable_sorted x l : StronglySorted in_order l -> StronglySorted in_order (insert_stable x l).
Proof.
  induction l as [|y l IH]; intros Hs; simpl; [repeat constructor|]. inversion Hs as [|? ? Hs' Hf]; subst.
  destruct (less y x) eqn:E.
  - constructor; [by apply IH|]. rewrite (insert_stable_perm x l). constructor; [by apply less_asym|done].
  - constructor; [done|]. constructor; [done|]. eapply Forall_impl; [exact Hf|]. intros z Hz.
    by apply (less_weak x y z).
Qed.

Lemma SliceStable_sorted l : StronglySorted in_order (SliceStable l).
Proof. induction l as [|x l IH]; simpl; [constructor|by apply insert_stable_sorted]. Qed.
End SliceStable.

(** ** Numbers and times *)

(** [int64(f)] of a [float64] whose integer part is no [int64] depends on the
    processor. *)
Class GoFloat : Type := int64_out_of_range : float -> Z.

Definition float_trunc (f : float) : Z :=
  match f with
  | S754_finite s m e => cond_Zopp s (if 0 <=? e then Zpos m * 2 ^ e else Zpos m / 2 ^ (- e))
  | _ => 0
  end.
Definition float_integral (f : float) : bool :=
  match f with
  | S754_infinity _ | S754_nan => false
  | _ => (- 9223372036854775808 <=? float_trunc f) && (float_trunc f <=? 9223372036854775807)
  end.
Definition int64_of_float `{GoFloat} (f : float) : Z :=
  if float_integral f then float_trunc f else wrap64 (int64_out_of_range f).

(** [time.Unix(sec, nsec).UTC()]. *)
Definition time_Unix (sec nsec : Z) : Time :=
  let '(sec, nsec) :=
    if (nsec <? 0) || (second <=? nsec) then
      let n := Z.quot nsec second in
      let sec := sec + n in
      let nsec := nsec - n * second in
      if nsec <? 0 then (sec - 1, nsec + second) else (sec, nsec)
    else (sec, nsec) in
  mkTime (wrap64 (sec + 62135596800) * second + nsec) 0.

(** [time.Unix(int64(t), int64((t-float64(int64(t)))*1e9)).UTC()]. *)
Definition time_of_float `{GoFloat} (t : float) : Time :=
  let sec := int64_of_float t in
  time_Unix sec (int64_of_float (SFmul 53 1024 (SFsub 53 1024 t (float_of_int sec)) (float_of_int second))).

Example time_of_float_sample `{GoFloat} :
  time_of_float (S754_finite false 3 (-1)) = mkTime (unix_epoch + 1500000000) 0.
Proof. vm_compute. reflexivity. Qed.
Example time_of_negative `{GoFloat} :
  time_of_float (S754_finite true 3 (-1)) = mkTime (unix_epoch - 1500000000) 0.
Proof. vm_compute. reflexivity. Qed.

(** ** Turns *)

(** What a message is to the loop that pairs questions with answers. *)
Inductive turn_role : Type := Skips | Asks | Answers.

Section Pairs.
Context {M : Type} (role : M -> turn_role).

(** The loop over the messages of a conversation: a question replaces the
    pending one, an answer takes it, with the answer's index. *)
Fixpoint pair_turns (pending : option M) (index : Z) (l : list M) : list (M * M * Z) :=
  match l with
  | [] => []
  | m :: rest =>
      match role m, pending with
      | Asks, _ => pair_turns (Some m) (index + 1) rest
      | Answers, Some u => (u, m, index) :: pair_turns None (index + 1) rest
      | _, _ => pair_turns pending (index + 1) rest
      end
  end.

(** The first message that is not skipped is the answer [a], at [j]. *)
Definition first_at (l : list M) (a : M) (j : nat) : Prop :=
  l !! j = Some a /\ role a = Answers /\ (forall k m, (k < j)%nat -> l !! k = Some m -> role m = Skips).

(** The answer [a] at [j] follows the question [u] with nothing but skipped
    messages between them. *)
Definition pair_at (l : list M) (u a : M) (j : nat) : Prop :=
  exists i, (i < j)%nat /\ l !! i = Some u /\ role u = Asks /\ l !! j = Some a /\ role a = Answers /\
    (forall k m, (i < k < j)%nat -> l !! k = Some m -> role m = Skips).

Lemma first_at_cons m l a j :
  first_at (m :: l) a j <->
  (j = 0%nat /\ a = m /\ role m = Answers) \/ (exists j', j = S j' /\ role m = Skips /\ first_at l a j').
Proof.
  split.
  - intros (Ha&Ra&Hb). destruct j as [|j]; [left; by simplify_eq/=|]. right. exists j. split; [done|].
    split; [apply (Hb 0%nat m); [lia|done]|]. split; [done|]. split; [done|].
    intros k x Hk Hx. apply (Hb (S k) x); [lia|done].
  - intros [(->&->&R)|(j'&->&R&Ha&Ra&Hb)].
    + split; [done|]. split; [done|]. intros k x Hk. lia.
    + split; [done|]. split; [done|]. intros [|k] x Hk Hx; [by simplify_eq/=|]. apply (Hb k x); [lia|done].
Qed.

Lemma pair_at_cons m l u a j :
  pair_at (m :: l) u a j <->
  exists j', j = S j' /\ ((u = m /\ role m = Asks /\ first_at l a j') \/ pair_at l u a j').
Proof.
  split.
  - intros (i&Hij&Hu&Ru&Ha&Ra&Hb). destruct j as [|j]; [lia|]. exists j. split; [done|].
    destruct i as [|i]; simpl in Hu, Ha.
    + left. simplify_eq. split; [done|]. split; [done|]. split; [done|]. split; [done|].
      intros k x Hk Hx. apply (Hb (S k) x); [lia|done].
    + right. exists i. split; [lia|]. repeat (split; [done|]). intros k x Hk Hx. apply (Hb (S k) x); [lia|done].
  - intros (j'&->&[(->&R&Ha&Ra&Hb)|(i&Hij&Hu&Ru&Ha&Ra&Hb)]).
    + exists 0%nat. split; [lia|]. repeat (split; [done|]). intros [|k] x Hk Hx; [lia|]. apply (Hb k x); [lia|done].
    + exists (S i). split; [lia|]. repeat (split; [done|]). intros [|k] x Hk Hx; [lia|]. apply (Hb k x); [lia|done].
Qed.

(** The loop makes exactly these pairs, and the one of the pending question. *)
Lemma pair_turns_elem pending start l u a index :
  (u, a, index) ∈ pair_turns pending start l <->
  exists j, index = start + Z.of_nat j /\ (pair_at l u a j \/ (pending = Some u /\ first_at l a j)).
Proof.
  revert pending start. induction l as [|m l IH]; intros pending start.
  { split; [by inversion 1|]. intros (j&_&[(i&_&Hi&_)|(_&Hi&_)]); by rewrite lookup_nil in Hi. }
  assert (forall pending, (u, a, index) ∈ pair_turns pending (start + 1) l <->
    exists j, index = start + Z.of_nat (S j) /\ (pair_at l u a j \/ (pending = Some u /\ first_at l a j))) as IH'.
  { intros q. rewrite IH. split; intros (j&->&Hj); exists j; (split; [lia|done]). }
  assert (forall P : nat -> Prop, (exists j, index = start + Z.of_nat j /\ P j) <->
    (index = start /\ P 0%nat) \/ (exists j, index = start + Z.of_nat (S j) /\ P (S j))) as Hsplit.
  { intros P. split; [intros ([|j]&->&Hj); [left; split; [lia|done]|right; eauto]|].
    intros [[-> Hp]|(j&->&Hp)]; [exists 0%nat; split; [lia|done]|eauto]. }
  rewrite (Hsplit (fun j => pair_at (m :: l) u a j \/ pending = Some u /\ first_at (m :: l) a j)). clear Hsplit IH.
  assert (forall j, pair_at (m :: l) u a (S j) <-> (u = m /\ role m = Asks /\ first_at l a j) \/ pair_at l u a j) as Hp.
  { intros j. rewrite pair_at_cons. split; [by intros (j'&[= <-]&?)|intros; exists j; done]. }
  assert (~ pair_at (m :: l) u a 0) as H0 by (rewrite pair_at_cons; by intros (j'&?&_)).
  assert (forall j, first_at (m :: l) a (S j) <-> role m = Skips /\ first_at l a j) as Hf.
  { intros j. rewrite first_at_cons. split; [by intros [(?&_)|(j'&[= <-]&?)]|intros; right; exists j; done]. }
  assert (first_at (m :: l) a 0 <-> a = m /\ role m = Answers) as Hf0.
  { rewrite first_at_cons. split; [by intros [(_&?)|(j'&?&_)]|intros; by left]. }
  setoid_rewrite Hp. setoid_rewrite Hf. rewrite Hf0. clear Hp Hf Hf0. cbn [pair_turns].
  destruct (role m) eqn:R; [|destruct pending as [p|]..]; rewrite ?elem_of_cons, IH'; clear IH'; split.
  all: intros Hx; repeat match goal with
    | H : _ /\ _ |- _ => destruct H
    | H : _ \/ _ |- _ => destruct H
    | H : exists _, _ |- _ => destruct H
    end; simplify_eq; try done; eauto 9.
Qed.
End Pairs.
