(* ===== verification/GoStreamSpec.v ===== *)
(** * Properties of the byte streams

    However a reader cuts its bytes into pieces, the bounded reader, the buffered
    reader and the line readers over it give the lines of the whole input
    ([parse_stream]), and [io.ReadAll] gives the whole input. *)
From Stdlib Require Import ZArith Lia Bool.
From Stdlib Require Import String Ascii.
From stdpp Require Import base tactics option list strings.
From S2P Require Import Prelude GoStrings SourceText SourceJson GoStream.
Import GoStream.
Open Scope Z_scope.

(** ** Cutting strings *)

Lemma cut_at_spec n s x y : cut_at n s = (x, y) -> s = x +:+ y /\ String.length x = Nat.min n (String.length s).
Proof.
  revert s x y. induction n as [|n IH]; intros [|a s] x y; cbn; try (intros [= <- <-]; done).
  destruct (cut_at n s) as [x' y'] eqn:E. intros [= <- <-]. destruct (IH _ _ _ E) as [-> Hl]. cbn. split; [done|by rewrite Hl].
Qed.

Lemma cut_at_all n s : (String.length s <= n)%nat -> cut_at n s = (s, "").
Proof.
  revert s. induction n as [|n IH]; intros [|a s] H; cbn in *; try done; [lia|]. by rewrite IH by lia.
Qed.

Lemma cut_at_app n x y : String.length x = n -> cut_at n (x +:+ y) = (x, y).
Proof. intros <-. induction x as [|a x IH]; [by destruct y|]. cbn. by rewrite IH. Qed.

Lemma cut_at_app_le n x y : (String.length x <= n)%nat -> fst (cut_at n (x +:+ y)) = x +:+ fst (cut_at (n - String.length x) y).
Proof.
  revert n. induction x as [|a x IH]; intros n H; [cbn; by rewrite Nat.sub_0_r|]. destruct n as [|n]; [cbn in H; lia|]. cbn in *.
  specialize (IH n ltac:(lia)). destruct (cut_at n (x +:+ y)). cbn in *. by rewrite IH.
Qed.

Lemma cut_line_some s line rest : cut_line s = Some (line, rest) ->
  exists l, line = l +:+ newline /\ s = line +:+ rest /\ cut_line l = None /\ Split nl s = l :: Split nl rest.
Proof.
  revert line. induction s as [|a s IH]; intros line; [done|]. cbn [cut_line Split]. destruct (Ascii.eqb_spec a nl) as [->|Hn].
  - intros [= <- <-]. by exists "".
  - destruct (cut_line s) as [[l' r']|]; [|done]. cbn. intros [= <- ->].
    destruct (IH l' eq_refl) as (l&->&Hs&Hc&Hsp). exists (String a l).
    rewrite Hsp. split_and!; [done|by rewrite Hs at 1| |done].
    cbn. rewrite (proj2 (Ascii.eqb_neq a nl) Hn), Hc. done.
Qed.

Lemma cut_line_none s : cut_line s = None -> Split nl s = [s].
Proof.
  induction s as [|a s IH]; [done|]. cbn [cut_line Split]. destruct (Ascii.eqb a nl); [done|].
  destruct (cut_line s) as [[]|]; [done|]. intros _. by rewrite IH.
Qed.

Lemma cut_line_app s t : cut_line (s +:+ t) =
  match cut_line s with
  | Some (line, rest) => Some (line, rest +:+ t)
  | None => '(line, rest) ← cut_line t; Some (s +:+ line, rest)
  end.
Proof.
  induction s as [|a s IH]; [cbn; by destruct (cut_line t) as [[]|]|]. cbn [String.append cut_line]. rewrite IH.
  destruct (Ascii.eqb a nl); [done|]. destruct (cut_line s) as [[]|]; [done|]. cbn. by destruct (cut_line t) as [[]|].
Qed.

Lemma TrimSuffix_append l s : TrimSuffix (l +:+ s) s = l.
Proof.
  unfold TrimSuffix. rewrite HasSuffix_append, len_app. replace (len l + len s - len s) with (0 + len l) by lia.
  pose proof (len_nonneg l). unfold slice. replace (Z.to_nat (0 + len l - 0)) with (String.length l) by (unfold len; lia).
  cbn. induction l as [|a l IH]; [by destruct s|]. cbn. f_equal. apply IH. apply len_nonneg.
Qed.

Lemma str_length_len s : Z.of_nat (String.length s) = len s.
Proof. done. Qed.

(** ** What a reader delivers *)

Section Stream.
Context (tooLarge : error).

(** The bytes that are still to come, and the error after them. *)
Definition delivers (b : boundedReader) : string * error :=
  if remain b <=? len (r_data (reader b)) then (fst (cut_at (Z.to_nat (remain b)) (r_data (reader b))), tooLarge)
  else (r_data (reader b), r_end (reader b)).

(** The end of the input does not come together with the last byte of the limit. *)
Definition aligned (b : boundedReader) : Prop :=
  0 <= remain b /\ (r_joined (reader b) = false \/ remain b <> len (r_data (reader b))).

Lemma reader_read_cases n r got err r' : 0 < n -> reader_Read n r = ((got, err), r') ->
  r_data r = got +:+ r_data r' /\ len got <= n /\ r_end r' = r_end r /\ r_joined r' = r_joined r /\
  ((got = "" /\ r_data r = "" /\ err = Some (r_end r)) \/
   (got <> "" /\ err = if r_joined r && (r_data r' ==s "") then Some (r_end r) else None)).
Proof.
  intros Hn. unfold reader_Read. destruct (String.eqb_spec (r_data r) "") as [He|He].
  - intros [= <- <- <-]. split_and!; [done|change (0 <= n); lia|done|done|by left].
  - set (k := Z.max 1 _). destruct (cut_at (Z.to_nat k) (r_data r)) as [x y] eqn:Ec. apply cut_at_spec in Ec as [Es El].
    intros [= <- <- <-]. cbn [r_data r_end r_joined].
    assert (0 < len (r_data r)) as Hl by (pose proof (len_nonneg (r_data r)); assert (len (r_data r) <> 0) by (by rewrite len_empty); lia).
    split_and!; [done| |done|done|].
    + unfold len. rewrite El. unfold k. lia.
    + right. split; [|done]. intros ->. cbn in El. unfold len in Hl. unfold k in El. lia.
Qed.

Lemma bounded_read_spec n b got err b' : 0 < n -> aligned b -> bounded_Read tooLarge n b = ((got, err), b') ->
  exists rest, fst (delivers b) = got +:+ rest /\ delivers b' = (rest, snd (delivers b)) /\ aligned b' /\ len got <= n /\
    len (r_data (reader b')) = len (r_data (reader b)) - len got /\
    ((err = None /\ got <> "") \/ (err = Some (snd (delivers b)) /\ rest = "")).
Proof.
  intros Hn [Hr Ha]. unfold bounded_Read. destruct (Z.eqb_spec (remain b) 0) as [H0|H0].
  - intros [= <- <- <-]. exists "". unfold delivers, aligned. rewrite H0. pose proof (len_nonneg (r_data (reader b))).
    destruct (Z.leb_spec 0 (len (r_data (reader b)))); [|lia]. cbn [Z.to_nat fst snd].
    change (len "") with 0. rewrite H0 in Ha. split_and!; auto; lia.
  - set (m := if remain b <? n then remain b else n). assert (0 < m <= n /\ m <= remain b) as Hm by (unfold m; destruct (Z.ltb_spec (remain b) n); lia).
    destruct (reader_Read m (reader b)) as [[g e] r] eqn:Er. apply reader_read_cases in Er as (Hd&Hl&He&Hj&Hc); [|lia].
    intros [= <- <- <-]. unfold delivers. cbn [reader remain].
    assert (len (r_data (reader b)) = len g + len (r_data r)) as Hlen by (rewrite Hd; apply len_app).
    pose proof (len_nonneg g). pose proof (len_nonneg (r_data r)). rewrite He.
    exists (fst (delivers (mkBounded r (remain b - len g)))). unfold delivers. cbn [reader remain]. rewrite He.
    assert (aligned (mkBounded r (remain b - len g))) as Ha' by (split; cbn [reader remain]; [lia|rewrite Hj; destruct Ha; [by left|right; lia]]).
    destruct (Z.leb_spec (remain b) (len (r_data (reader b)))) as [Hle|Hgt];
      destruct (Z.leb_spec (remain b - len g) (len (r_data r))) as [Hle'|Hgt']; try lia; cbn [fst snd].
    + split_and!; [| |done|lia|lia|].
      * rewrite Hd, cut_at_app_le by (unfold len in *; lia). do 3 f_equal. unfold len. lia.
      * done.
      * destruct Hc as [(->&Hz&->)|(Hg&->)]; [rewrite Hz in Hle; change (len "") with 0 in Hle; lia|]. left. split; [|done].
        destruct (r_joined (reader b)) eqn:Ej; [|done]. destruct (String.eqb_spec (r_data r) "") as [Hz|]; [|done].
        rewrite Hz in Hlen, Hle'. change (len "") with 0 in *. destruct Ha as [|Ha]; [done|]. lia.
    + split_and!; [done|done|done|lia|lia|].
      destruct Hc as [(->&Hz&->)|(Hg&->)]; [right; split; [done|]; by rewrite Hz in Hd|].
      destruct (r_joined (reader b) && (r_data r ==s "")) eqn:Ej; [right|by left]. split; [done|].
      apply andb_true_iff in Ej as [_ Ej]. by apply String.eqb_eq in Ej.
Qed.

(** ** [io.ReadAll] *)

Lemma read_all_spec grow fuel data capacity b :
  (forall c, c < grow c) -> aligned b -> len data < capacity -> (String.length (r_data (reader b)) + 1 < fuel)%nat ->
  read_all tooLarge grow fuel data capacity b =
  if decide (snd (delivers b) = io_EOF) then Ok (data +:+ fst (delivers b)) else Fail (snd (delivers b)).
Proof.
  intros Hg. revert data capacity b. induction fuel as [|fuel IH]; intros data capacity b Ha Hc Hf; [lia|]. cbn [read_all].
  destruct (bounded_Read tooLarge (capacity - len data) b) as [[got err] b'] eqn:Er.
  apply bounded_read_spec in Er as (rest&Hd&Hd'&Ha'&Hl&Hlen&Hc'); [|lia|done].
  destruct Hc' as [[-> Hgot]|[-> ->]].
  - assert (len got <> 0) as Hpos by (by rewrite len_empty). pose proof (len_nonneg got). specialize (Hg capacity).
    rewrite IH; [| |rewrite len_app; case_match; lia|unfold len in *; lia]; [|done].
    rewrite Hd', Hd. cbn [fst snd]. by rewrite str_app_assoc.
  - rewrite Hd, app_empty_r. done.
Qed.

Lemma ReadAll_spec grow b : (forall c, c < grow c) -> aligned b ->
  ReadAll tooLarge grow b = if decide (snd (delivers b) = io_EOF) then Ok (fst (delivers b)) else Fail (snd (delivers b)).
Proof. intros Hg Ha. unfold ReadAll. rewrite read_all_spec; [done|done|done|reflexivity|lia]. Qed.

(** ** The buffered reader *)

(** What is still to be read through the buffer. *)
Record holds (b : bufioReader) (rest : string) (e : error) : Prop := mk_holds {
  h_aligned : aligned (b_rd b);
  h_rest : rest = b_buf b +:+ fst (delivers (b_rd b));
  h_end : snd (delivers (b_rd b)) = e;
  h_err : forall e', b_err b = Some e' -> e' = e /\ fst (delivers (b_rd b)) = "";
  h_size : len (b_buf b) <= buffer_size
}.

Lemma holds_fill b rest e : holds b rest e -> b_err b = None -> len (b_buf b) < buffer_size -> holds (fill tooLarge b) rest e.
Proof.
  intros [Ha Hr He _ Hs] Hn Hl. unfold fill. destruct (bounded_Read tooLarge _ (b_rd b)) as [[got err] rd] eqn:Er.
  apply bounded_read_spec in Er as (x&Hd&Hd'&Ha'&Hg&_&Hc); [|lia|done].
  constructor; cbn [b_rd b_buf b_err]; rewrite ?Hd'; cbn [fst snd]; [done| |done| |rewrite len_app; lia].
  - rewrite Hr, Hd. by rewrite str_app_assoc.
  - intros e' ->. destruct Hc as [[? _]|[[= ->] ->]]; done.
Qed.

(** A fill takes a byte from the reader, or leaves an error. *)
Lemma fill_progress b rest e : holds b rest e -> len (b_buf b) < buffer_size ->
  is_Some (b_err (fill tooLarge b)) \/ (String.length (r_data (reader (b_rd (fill tooLarge b)))) < String.length (r_data (reader (b_rd b))))%nat.
Proof.
  intros [Ha _ _ _ _] Hl. unfold fill. destruct (bounded_Read tooLarge _ (b_rd b)) as [[got err] rd] eqn:Er.
  apply bounded_read_spec in Er as (x&_&_&_&_&Hlen&Hc); [|lia|done]. cbn [b_err b_rd].
  destruct Hc as [[-> Hg]|[-> _]]; [right|by left].
  assert (len got <> 0) by (by rewrite len_empty). pose proof (len_nonneg got). unfold len in *. lia.
Qed.

(** What [ReadSlice] gives: the next line; a full buffer without a newline; or all
    that is left, with the error. *)
Inductive sliced (rest : string) (e : error) : string -> option error -> string -> Prop :=
| sl_line line rest' : cut_line rest = Some (line, rest') -> sliced rest e line None rest'
| sl_full fragment rest' : rest = fragment +:+ rest' -> cut_line fragment = None -> len fragment = buffer_size ->
    sliced rest e fragment (Some bufio_ErrBufferFull) rest'
| sl_end : cut_line rest = None -> sliced rest e rest (Some e) "".

Lemma read_slice_spec fuel b rest e fragment err b' : holds b rest e ->
  (String.length (r_data (reader (b_rd b))) + (match b_err b with Some _ => 0 | None => 1 end) < fuel)%nat ->
  read_slice tooLarge fuel b = ((fragment, err), b') ->
  exists rest', sliced rest e fragment err rest' /\ holds b' rest' e.
Proof.
  revert b. induction fuel as [|fuel IH]; intros b Hh Hf; [lia|]. pose proof Hh as [Ha Hr He Hp Hs]. cbn [read_slice].
  destruct (cut_line (b_buf b)) as [[line r']|] eqn:Ec.
  - intros [= <- <- <-]. exists (r' +:+ fst (delivers (b_rd b))). split; [constructor; by rewrite Hr, cut_line_app, Ec|].
    apply cut_line_some in Ec as (l&Hline&Hb&_). constructor; cbn [b_rd b_buf b_err]; try done.
    rewrite Hb, len_app in Hs. pose proof (len_nonneg line). lia.
  - destruct (b_err b) as [e'|] eqn:Ee.
    + intros [= <- <- <-]. destruct (Hp e' eq_refl) as [-> Hd]. exists "". rewrite Hd, app_empty_r in Hr. split.
      * rewrite Hr. by apply sl_end.
      * constructor; cbn [b_rd b_buf b_err]; done.
    + destruct (Z.leb_spec buffer_size (len (b_buf b))) as [Hfull|Hroom].
      * intros [= <- <- <-]. exists (fst (delivers (b_rd b))). split; [constructor; [done|done|lia]|].
        constructor; cbn [b_rd b_buf b_err]; done.
      * intros Hs'. eapply IH; [by apply holds_fill| |done].
        destruct (fill_progress _ _ _ Hh Hroom) as [[x Hx]|Hlt]; [|destruct (b_err (fill tooLarge b)); lia].
        rewrite Hx. unfold fill in *. destruct (bounded_Read tooLarge _ (b_rd b)) as [[got err'] rd] eqn:Er.
        apply bounded_read_spec in Er as (y&_&_&_&_&Hlen&_); [|lia|done]. cbn [b_rd]. pose proof (len_nonneg got). unfold len in *. lia.
Qed.

Lemma ReadSlice_spec b rest e fragment err b' : holds b rest e -> ReadSlice tooLarge b = ((fragment, err), b') ->
  exists rest', sliced rest e fragment err rest' /\ holds b' rest' e.
Proof. intros Hh. apply read_slice_spec; [done|]. unfold bytes_left. destruct (b_err b); lia. Qed.

Lemma bytes_left_holds b rest e : holds b rest e -> (String.length rest <= bytes_left b)%nat.
Proof.
  intros [Ha Hr _ _ _]. rewrite Hr, str_length_app. unfold bytes_left, delivers. destruct (_ <=? _); cbn [fst]; [|lia].
  destruct (cut_at _ (r_data _)) as [x y] eqn:Ec. apply cut_at_spec in Ec as [_ Hl]. cbn [fst]. lia.
Qed.

(** ** The line readers *)

(** What [Parse] needs of a line reader: the next line without its newline, or that
    it is over the limit; at the end of the input the last line, or the error, which
    a reader may first report as a line over the limit. *)
Definition line_value (line text : string) (done : bool) : lineRead :=
  if MaxLineBytes <? len line then ("", true, done) else (text, false, done).

Class LineReader (next_line : bufioReader -> result lineRead * bufioReader) : Prop :=
  reads : forall b rest e, holds b rest e -> e <> bufio_ErrBufferFull ->
  match cut_line rest with
  | Some (line, rest') => exists b', next_line b = (Ok (line_value line (TrimSuffix line newline) false), b') /\ holds b' rest' e
  | None => exists b', (e = io_EOF /\ next_line b = (Ok (line_value rest rest true), b')) \/
      (e <> io_EOF /\ (next_line b = (Fail e, b') \/ rest <> "" /\ next_line b = (Ok ("", true, false), b') /\ holds b' "" e))
  end.

(** Where a line that does not fit the buffer ends. *)
Definition line_ended (rest : string) (e : error) (err : option error) (b : bufioReader) : Prop :=
  match cut_line rest with
  | Some (_, rest') => err = None /\ holds b rest' e
  | None => err = Some e /\ holds b "" e
  end.

Lemma cut_line_full fragment rest : cut_line fragment = None ->
  cut_line (fragment +:+ rest) = '(line, rest') ← cut_line rest; Some (fragment +:+ line, rest').
Proof. intros Hf. by rewrite cut_line_app, Hf. Qed.

Lemma line_ended_full fragment rest e err b : cut_line fragment = None -> line_ended rest e err b -> line_ended (fragment +:+ rest) e err b.
Proof. intros Hf. unfold line_ended. rewrite cut_line_full by done. by destruct (cut_line rest) as [[]|]. Qed.

Lemma buffer_positive fragment : len fragment = buffer_size -> (0 < String.length fragment)%nat.
Proof. unfold buffer_size, MaxLineBytes, len. lia. Qed.

Lemma skip_line_spec fuel b rest e : holds b rest e -> e <> bufio_ErrBufferFull -> (String.length rest + 1 < fuel)%nat ->
  exists err b', skip_line tooLarge fuel (Some bufio_ErrBufferFull) b = (err, b') /\ line_ended rest e err b'.
Proof.
  intros Hh Hn. revert b rest Hh. induction fuel as [|fuel IH]; intros b rest Hh Hf; [lia|]. cbn [skip_line].
  rewrite decide_True by done. destruct (ReadSlice tooLarge b) as [[fragment err] b1] eqn:Er.
  apply ReadSlice_spec with (1 := Hh) in Er as (rest'&Hsl&Hh').
  destruct Hsl as [line rest' Hc|fragment rest' -> Hc Hl|Hc].
  - exists None, b1. split; [by destruct fuel; [lia|]|]. unfold line_ended. by rewrite Hc.
  - destruct (IH b1 rest' Hh') as (err&b2&Hs&He); [apply buffer_positive in Hl; rewrite str_length_app in Hf; lia|].
    exists err, b2. split; [done|]. by apply line_ended_full.
  - exists (Some e), b1. split; [|unfold line_ended; by rewrite Hc].
    destruct fuel; [lia|]. cbn [skip_line]. rewrite decide_False; [done|congruence].
Qed.

Lemma holds_fuel b rest e n : holds b rest e -> (String.length rest + n < bytes_left b + S n)%nat.
Proof. intros Hh%bytes_left_holds. lia. Qed.

#[export] Instance readLine_reads : LineReader (readLine tooLarge).
Proof.
  intros b rest e Hh Hn. unfold readLine. rewrite (Nat.add_comm _ 2). cbn [Nat.add read_line_loop].
  destruct (ReadSlice tooLarge b) as [[fragment err] b1] eqn:Er. apply ReadSlice_spec with (1 := Hh) in Er as (rest'&Hsl&Hh').
  change ("" +:+ fragment) with fragment. destruct Hsl as [line rest' Hc|fragment rest' -> Hc Hl|Hc].
  - rewrite Hc. exists b1. split; [|done]. unfold line_value. destruct (Z.ltb_spec MaxLineBytes (len line)); [|done].
    rewrite (Nat.add_comm _ 2). cbn [Nat.add skip_line]. done.
  - destruct (Z.ltb_spec MaxLineBytes (len fragment)) as [_|Hlt]; [|unfold buffer_size in Hl; lia].
    destruct (skip_line_spec (bytes_left b1 + 2) b1 rest' e Hh' Hn) as (err&b2&->&He); [by eapply holds_fuel|].
    unfold line_ended in He. rewrite cut_line_full by done. destruct (cut_line rest') as [[line r]|]; cbn [mbind option_bind].
    + destruct He as [-> He]. exists b2. split; [|done]. unfold line_value. rewrite len_app.
      pose proof (len_nonneg line). destruct (Z.ltb_spec MaxLineBytes (len fragment + len line)); [done|unfold buffer_size in Hl; lia].
    + destruct He as [-> He]. exists b2. destruct (decide (e = io_EOF)) as [->|Hne]; [left|right; split; [done|by left]].
      split; [done|]. unfold line_value. rewrite len_app. pose proof (len_nonneg rest').
      destruct (Z.ltb_spec MaxLineBytes (len fragment + len rest')); [done|unfold buffer_size in Hl; lia].
  - rewrite Hc. exists b1. unfold line_value. destruct (Z.ltb_spec MaxLineBytes (len rest)) as [Hlt|Hge].
    + rewrite (Nat.add_comm _ 2). cbn [Nat.add skip_line]. rewrite decide_False by congruence.
      destruct (decide (e = io_EOF)) as [->|Hne]; [by left|right; split; [done|by left]].
    + rewrite decide_False by done. destruct (decide (e = io_EOF)) as [->|Hne]; [by left|right; split; [done|by left]].
Qed.

Lemma read_bytes_spec fuel acc b rest e : holds b rest e -> e <> bufio_ErrBufferFull -> (String.length rest < fuel)%nat ->
  exists err b', line_ended rest e err b' /\
    read_bytes tooLarge fuel acc b = ((acc +:+ match cut_line rest with Some (line, _) => line | None => rest end, err), b').
Proof.
  intros Hh Hn. revert acc b rest Hh. induction fuel as [|fuel IH]; intros acc b rest Hh Hf; [lia|]. cbn [read_bytes].
  destruct (ReadSlice tooLarge b) as [[fragment err] b1] eqn:Er. apply ReadSlice_spec with (1 := Hh) in Er as (rest'&Hsl&Hh').
  destruct Hsl as [line rest' Hc|fragment rest' -> Hc Hl|Hc].
  - exists None, b1. unfold line_ended. rewrite Hc. done.
  - rewrite decide_True by done. destruct (IH (acc +:+ fragment) b1 rest' Hh') as (err&b2&He&->); [apply buffer_positive in Hl; rewrite str_length_app in Hf; lia|].
    exists err, b2. split; [by apply line_ended_full|]. rewrite cut_line_full by done.
    destruct (cut_line rest') as [[line r]|]; cbn [mbind option_bind]; by rewrite str_app_assoc.
  - exists (Some e), b1. unfold line_ended. rewrite Hc, decide_False by congruence. done.
Qed.

#[export] Instance antigravity_readLine_reads : LineReader (antigravity_readLine tooLarge).
Proof.
  intros b rest e Hh Hn. unfold antigravity_readLine, ReadBytes.
  destruct (read_bytes_spec (S (bytes_left b)) "" b rest e Hh Hn) as (err&b'&He&->); [apply bytes_left_holds in Hh; lia|].
  unfold line_ended in He. unfold line_value. destruct (cut_line rest) as [[line r]|] eqn:Ec; destruct He as [-> He]; exists b'.
  - split; [|done]. change ("" +:+ line) with line. destruct (MaxLineBytes <? len line); done.
  - change ("" +:+ rest) with rest. destruct (Z.ltb_spec MaxLineBytes (len rest)) as [Hlt|Hge].
    + case_bool_decide as Hd; [injection Hd as ->; by left|]. right. split; [congruence|]. right. split; [|done].
      intros ->. unfold MaxLineBytes in Hlt. change (len "") with 0 in Hlt. lia.
    + destruct (decide (e = io_EOF)) as [->|Hne]; [by left|right; split; [done|by left]].
Qed.

(** ** The loop over the lines *)

Section Lines.
Context {A : Type} (parse : string -> A + string) (next_line : bufioReader -> result lineRead * bufioReader) `{!LineReader next_line}.

(** What [Parse] does with one line. *)
Definition add_line (n : Z) (line : option string) (r : list (A * Z) * list Issue) : list (A * Z) * list Issue :=
  let '(entries, issues) := r in
  match line with
  | None => (entries, mkIssue n "line_too_long" :: issues)
  | Some line =>
      let text := TrimSpace line in
      if text ==s "" then (entries, issues)
      else match parse text with
           | inl e => ((e, n) :: entries, issues)
           | inr reason => (entries, mkIssue n reason :: issues)
           end
  end.

Lemma parse_lines_cons n line rest : parse_lines parse ((n, line) :: rest) = add_line n line (parse_lines parse rest).
Proof. cbn [parse_lines]. by destruct (parse_lines parse rest). Qed.

Lemma parse_loop_ok fuel n b line tooLong done b' : next_line b = (Ok (line, tooLong, done), b') ->
  parse_loop parse next_line (S fuel) n b =
  add_line n (if tooLong then None else Some line) <$> (if done then Ok ([], []) else parse_loop parse next_line fuel (n + 1) b').
Proof.
  intros Hl. cbn [parse_loop]. rewrite Hl. destruct (if done then _ else _) as [[entries issues]|]; [|done]. cbn. by destruct tooLong.
Qed.

Lemma parse_loop_fail fuel n b e b' : next_line b = (Fail e, b') -> parse_loop parse next_line (S fuel) n b = Fail e.
Proof. intros Hl. cbn [parse_loop]. by rewrite Hl. Qed.

Lemma parse_loop_spec fuel n b rest e : holds b rest e -> e <> bufio_ErrBufferFull -> (String.length rest < fuel)%nat ->
  parse_loop parse next_line fuel n b =
  if decide (e = io_EOF) then Ok (parse_lines parse (number_lines n (Split nl rest))) else Fail e.
Proof.
  intros Hh Hn. revert n b rest Hh. induction fuel as [|fuel IH]; intros n b rest Hh Hf; [lia|].
  pose proof (reads b rest e Hh Hn) as Hr. destruct (cut_line rest) as [[line rest']|] eqn:Ec.
  - destruct Hr as (b'&Hl&Hh'). apply cut_line_some in Ec as (l&->&->&_&->). rewrite TrimSuffix_append in Hl.
    rewrite !str_length_app in Hf. cbn [String.length newline] in Hf.
    assert (number_lines n (l :: Split nl rest') = (n, read_line false l) :: number_lines (n + 1) (Split nl rest')) as ->.
    { destruct (Split nl rest') as [|w ws] eqn:Es; [|done]. destruct rest' as [|a r]; [done|]. cbn in Es. destruct (Ascii.eqb a nl); [done|]. by destruct (Split nl r). }
    rewrite parse_lines_cons. unfold line_value in Hl. unfold read_line.
    replace (len l + 1) with (len (l +:+ newline)) by (by rewrite len_app).
    destruct (MaxLineBytes <? len (l +:+ newline)); rewrite (parse_loop_ok _ _ _ _ _ _ _ Hl), (IH _ b' rest' Hh') by lia;
      destruct (decide (e = io_EOF)); done.
  - rewrite (cut_line_none _ Ec). destruct Hr as (b'&[[-> Hl]|(Hne&[Hl|(Hr&Hl&Hh')])]).
    + rewrite decide_True by done. cbn [number_lines]. rewrite parse_lines_cons. unfold line_value in Hl. unfold read_line. rewrite Z.add_0_r.
      destruct (MaxLineBytes <? len rest); by rewrite (parse_loop_ok _ _ _ _ _ _ _ Hl).
    + rewrite decide_False by done. by eapply parse_loop_fail.
    + rewrite decide_False by done. rewrite (parse_loop_ok _ _ _ _ _ _ _ Hl), (IH _ b' "" Hh'); [by rewrite decide_False|].
      destruct rest; [done|cbn in Hf |- *; lia].
Qed.
End Lines.
End Stream.

(** ** [Parse] over a stream *)

(** The input as a whole: its bytes, unless there are more than the limit or a read
    failed. *)
Definition whole (p : package) (input : Reader) (maxBytes : Z) : result string :=
  let maxBytes := if maxBytes =? 0 then limit p else maxBytes in
  if (maxBytes <? 1) || (limit p <? maxBytes) then Fail (m_invalid p)
  else if maxBytes <? len (r_data input) then Fail (m_exceeds p maxBytes)
  else if decide (r_end input = io_EOF) then Ok (r_data input) else Fail (m_read p (r_end input)).

(** The reader's own error is not one of the program's, and the end of the input
    does not come together with the byte after the limit. *)
Record usable (p : package) (input : Reader) (maxBytes : Z) : Prop := mk_usable {
  u_error : errors_Is (r_end input) (errSourceTooLarge p) = false;
  u_full : r_end input <> bufio_ErrBufferFull;
  u_sentinel : errSourceTooLarge p <> bufio_ErrBufferFull /\ errSourceTooLarge p <> io_EOF;
  u_joined : r_joined input = false \/ len (r_data input) <> (if maxBytes =? 0 then limit p else maxBytes) + 1
}.

(** A body that handles the delivered bytes handles the whole input. *)
Lemma with_input_whole {T} p input maxBytes (body : boundedReader -> result T) (f : string -> T) : usable p input maxBytes ->
  (forall b, aligned b -> snd (delivers (errSourceTooLarge p) b) <> bufio_ErrBufferFull ->
    body b = if decide (snd (delivers (errSourceTooLarge p) b) = io_EOF) then Ok (f (fst (delivers (errSourceTooLarge p) b)))
             else Fail (snd (delivers (errSourceTooLarge p) b))) ->
  with_input p (Some input) maxBytes body = f <$> whole p input maxBytes.
Proof.
  intros [Hu Hf [Hs1 Hs2] Hj] Hb. unfold with_input, whole. set (m := if maxBytes =? 0 then limit p else maxBytes) in *.
  destruct ((m <? 1) || (limit p <? m)) eqn:Em; [done|]. apply orb_false_iff in Em as [Em _]. apply Z.ltb_ge in Em.
  rewrite Hb.
  - unfold delivers. cbn [reader remain]. destruct (Z.ltb_spec m (len (r_data input))); destruct (Z.leb_spec (m + 1) (len (r_data input))); try lia; cbn [fst snd].
    + rewrite decide_False by done. by rewrite errors_Is_refl.
    + destruct (decide (r_end input = io_EOF)); [done|]. by rewrite Hu.
  - split; cbn [reader remain]; [lia|]. destruct Hj; [by left|right; lia].
  - unfold delivers. destruct (_ <=? _); done.
Qed.

Lemma parse_whole {A} p (parse : string -> A + string) next_line input maxBytes :
  LineReader (errSourceTooLarge p) (next_line (errSourceTooLarge p)) -> usable p input maxBytes ->
  Parse p parse next_line (Some input) maxBytes = (fun data => parse_lines parse (read_lines data)) <$> whole p input maxBytes.
Proof.
  intros Hl Hu. unfold Parse. apply with_input_whole; [done|]. intros b Ha Hn. cbn zeta.
  assert (holds (errSourceTooLarge p) (NewReaderSize b) (fst (delivers (errSourceTooLarge p) b)) (snd (delivers (errSourceTooLarge p) b))) as Hh.
  { constructor; cbn [NewReaderSize b_rd b_buf b_err]; try done. }
  apply (parse_loop_spec _ parse _ _ _ _ _ _ Hh Hn). apply bytes_left_holds in Hh. lia.
Qed.

Lemma read_source_whole p grow input maxBytes : (forall c, c < grow c) -> usable p input maxBytes ->
  read_source p grow (Some input) maxBytes = whole p input maxBytes.
Proof.
  intros Hg Hu. unfold read_source. rewrite (with_input_whole _ _ _ _ id Hu); [by destruct (whole p input maxBytes)|].
  intros b Ha _. by apply ReadAll_spec.
Qed.
