(* ===== verification/JsonCanon.v ===== *)
(** * JSON objects up to the order of their members

    Go keeps a decoded object in a map, whose order is random; here it is a list.
    [canon] sorts the members at every level, and two values with distinct keys
    are the same Go value when their canonical forms are equal. A parser that
    gives the same result on a value and on its canonical form depends on the Go
    value alone. *)
From Stdlib Require Import ZArith Lia Bool.
From Stdlib Require Import String Ascii.
From stdpp Require Import base tactics option list strings sorting.
From S2P Require Import Prelude GoStrings StoreTypes SourceText SourceJson.
Open Scope Z_scope.

(** Induction with the hypothesis for the elements and the members. *)
Section JsonInd.
Context (P : json -> Prop).
Hypothesis (Hnull : P JNull) (Hbool : forall b, P (JBool b)) (Hnumber : forall f, P (JNumber f)) (Hstring : forall s, P (JString s)).
Hypothesis Harray : forall l, Forall P l -> P (JArray l).
Hypothesis Hobject : forall m, Forall (fun kv => P (snd kv)) m -> P (JObject m).

Fixpoint json_nested_ind (v : json) : P v :=
  match v with
  | JNull => Hnull
  | JBool b => Hbool b
  | JNumber f => Hnumber f
  | JString s => Hstring s
  | JArray l =>
      Harray l ((fix go l : Forall P l :=
        match l with [] => Forall_nil_2 _ | x :: l => Forall_cons_2 _ _ _ (json_nested_ind x) (go l) end) l)
  | JObject m =>
      Hobject m ((fix go m : Forall (fun kv => P (snd kv)) m :=
        match m with [] => Forall_nil_2 _ | kv :: m => Forall_cons_2 _ _ _ (json_nested_ind (snd kv)) (go m) end) m)
  end.
End JsonInd.

(** Every object has distinct keys, as a decoded one does. *)
Fixpoint distinct (v : json) : Prop :=
  match v with
  | JArray l => fold_right (fun x acc => distinct x /\ acc) True l
  | JObject m => NoDup (jkeys m) /\ fold_right (fun kv acc => distinct (snd kv) /\ acc) True m
  | _ => True
  end.

Lemma distinct_array l : distinct (JArray l) <-> Forall distinct l.
Proof. induction l as [|x l IH]; simpl in *; [done|]. rewrite Forall_cons. by rewrite <- IH. Qed.
Lemma distinct_members (m : list (string * json)) : fold_right (fun kv acc => distinct (snd kv) /\ acc) True m <-> Forall (fun kv => distinct (snd kv)) m.
Proof. induction m as [|x m IH]; simpl; [done|]. rewrite Forall_cons. by rewrite IH. Qed.
Lemma distinct_object m : distinct (JObject m) <-> NoDup (jkeys m) /\ Forall (fun kv => distinct (snd kv)) m.
Proof. cbn [distinct]. by rewrite distinct_members. Qed.

Definition sort_members (m : list (string * json)) : list (string * json) :=
  SliceStable (fun a b => String.ltb (fst a) (fst b)) m.

Fixpoint canon (v : json) : json :=
  match v with
  | JArray l => JArray (map canon l)
  | JObject m => JObject (sort_members (map (fun kv => (fst kv, canon (snd kv))) m))
  | _ => v
  end.
Definition canon_members (m : list (string * json)) : list (string * json) :=
  sort_members (map (fun kv => (fst kv, canon (snd kv))) m).

(** The same Go value. *)
Definition same_value (v v' : json) : Prop := distinct v /\ distinct v' /\ canon v = canon v'.

Lemma canon_members_perm m : canon_members m ≡ₚ map (fun kv => (fst kv, canon (snd kv))) m.
Proof. apply SliceStable_perm. Qed.

Lemma canon_keys m : jkeys (canon_members m) ≡ₚ jkeys m.
Proof. unfold jkeys. rewrite canon_members_perm, map_map. done. Qed.

Lemma jlookup_canon_map m k :
  jlookup k (map (fun kv => (fst kv, canon (snd kv))) m) = canon <$> jlookup k m.
Proof. induction m as [|[k' v] m IH]; [done|]. simpl. by destruct (k ==s k'). Qed.

(** The member of a canonical object is the canonical member. *)
Lemma jlookup_canon m k : NoDup (jkeys m) -> jlookup k (canon_members m) = canon <$> jlookup k m.
Proof.
  intros Hn. rewrite <- jlookup_canon_map. apply jlookup_perm; [|apply canon_members_perm].
  by rewrite (canon_keys m).
Qed.

Lemma jget_canon m k : NoDup (jkeys m) -> jget (canon_members m) k = canon (jget m k).
Proof. intros Hn. unfold jget. rewrite jlookup_canon by done. by destruct (jlookup k m). Qed.

Lemma distinct_jget m k : distinct (JObject m) -> distinct (jget m k).
Proof.
  rewrite distinct_object. intros [_ Hf]. unfold jget. destruct (jlookup k m) as [v|] eqn:E; [|done].
  apply jlookup_in in E. rewrite Forall_forall in Hf. exact (Hf _ E).
Qed.

Lemma sort_keys_canon m : sort_Strings (jkeys (canon_members m)) = sort_Strings (jkeys m).
Proof.
  apply (StronglySorted_unique str_le); [apply sort_Strings_sorted..|].
  by rewrite !sort_Strings_perm, canon_keys.
Qed.

Lemma stringValue_canon v : stringValue (canon v) = stringValue v.
Proof. by destruct v. Qed.

(** ** Depth *)

Definition max_from (d : Z) (l : list Z) : Z := fold_left Z.max l d.

Lemma max_from_perm d l l' : l ≡ₚ l' -> max_from d l = max_from d l'.
Proof.
  intros Hp. revert d. induction Hp as [|x l l' _ IH|x y l|l1 l2 l3 _ IH1 _ IH2]; intros d; unfold max_from in *; simpl; auto.
  - f_equal. lia.
  - by rewrite IH1.
Qed.

Lemma fold_max_map {A} (f : A -> Z) l d : fold_left (fun acc x => Z.max acc (f x)) l d = max_from d (map f l).
Proof. revert d. induction l as [|x l IH]; intros d; simpl; [done|]. apply IH. Qed.

Lemma jsonDepth_canon v d : jsonDepth (canon v) d = jsonDepth v d.
Proof.
  revert d. induction v as [| | | |l IH|m IH] using json_nested_ind; intros d; try done.
  - cbn [canon jsonDepth]. rewrite !fold_max_map, map_map. f_equal. apply map_ext_in. intros x Hx.
    rewrite Forall_forall in IH. apply IH. by apply list_elem_of_In.
  - cbn [canon jsonDepth]. fold (canon_members m).
    rewrite !(fold_max_map (fun kv => jsonDepth (snd kv) (d + 1))).
    rewrite (max_from_perm d _ (map (fun kv => jsonDepth (snd kv) (d + 1)) (map (fun kv => (fst kv, canon (snd kv))) m))).
    2:{ by rewrite canon_members_perm. }
    rewrite map_map. f_equal. apply map_ext_in. intros x Hx. rewrite Forall_forall in IH. apply IH. by apply list_elem_of_In.
Qed.
