(* ===== verification/SourceShape.v ===== *)
(** * The shape of the chunks a source returns

    What every source promises of its chunks whatever its input holds, the
    closure lemmas its proofs share, and what the promise is worth to the store:
    a chunk of this shape is refused only for the size of a field, a zero
    timestamp or an empty session. *)
From Stdlib Require Import ZArith Lia Bool.
From Stdlib Require Import String Ascii.
From stdpp Require Import base tactics option list strings.
From S2P Require Import Prelude GoStrings StoreTypes StorePlans SplitContent SourceText ClaudeSourceSpec CodexSourceSpec.
Open Scope Z_scope.

Definition operations : list string := [""; "write"; "edit"; "delete"; "move"].

Record source_shape (file machine : string) (c : Chunk) : Prop := mk_source_shape {
  ss_id : hex_id (c_ID c);
  ss_content : c_Content c <> "";
  ss_vector : c_Vector c = [];
  ss_kind : List.In (c_ChunkType c) ["turn"; "file_change"; "summary"; "antigravity_history"];
  ss_project : c_ProjectPath c <> "" /\ c_ProjectName c <> "";
  ss_file : c_SourceFile c = file /\ c_MachineID c = machine;
  ss_line : 0 <= c_SourceLine c;
  ss_operation : List.In (c_Operation c) operations;
  ss_path : c_ChunkType c = "file_change" -> c_FilePath c <> "";
  ss_parent : c_ParentChunkID c = "" \/ hex_id (c_ParentChunkID c);
  ss_children : Forall hex_id (c_ChildChunkIDs c)
}.

(** ** What the store makes of it *)

(** The limits of [validateChunk] on the sizes of the fields. *)
Definition sizes_fit (c : Chunk) : bool :=
  (len (c_Content c) <=? 8388608) && (len (c_SessionID c) <=? 128) && (len (c_ProjectPath c) <=? 8192) &&
  (len (c_ProjectName c) <=? 256) && (len (c_SourceFile c) <=? 8192) && (len (c_UserUUID c) <=? 128) &&
  (len (c_AssistantUUID c) <=? 128) && (len (c_FilePath c) <=? 8192) && (len (c_Model c) <=? 256) &&
  (len (c_MachineID c) <=? 256) && (Z.of_nat (length (c_ChildChunkIDs c)) <=? 10000).

Lemma check_required_spec fields :
  is_ok (check_required fields) = forallb (fun f => (snd (fst f) !=s "") && (len (snd (fst f)) <=? snd f)) fields.
Proof.
  induction fields as [|[[n v] m] fields IH]; simpl; [done|]. destruct (v ==s ""); simpl; [done|].
  rewrite Z.ltb_antisym. by destruct (len v <=? m).
Qed.

Lemma check_optional_spec fields :
  is_ok (check_optional fields) = forallb (fun f => len (snd (fst f)) <=? snd f) fields.
Proof.
  induction fields as [|[[n v] m] fields IH]; simpl; [done|]. rewrite Z.ltb_antisym. by destruct (len v <=? m).
Qed.

Lemma hex_id_len id : hex_id id -> len id = 16 /\ id <> "".
Proof. intros [Hl _]. unfold len. rewrite Hl. split; [done|]. by intros ->. Qed.

Lemma check_children_hex ids : Forall hex_id ids -> check_children ids = Ok tt.
Proof.
  induction 1 as [|id ids Hid _ IH]; [done|]. cbn [check_children]. apply hex_id_len in Hid as [Hl Hn].
  apply String.eqb_neq in Hn. by rewrite Hn, Hl.
Qed.

Lemma is_ok_bind {A B} (r : result A) (f : A -> result B) :
  is_ok (r ≫= f) = match r with Ok a => is_ok (f a) | Fail _ => false end.
Proof. by destruct r. Qed.

Lemma result_unit_ok (r : result unit) : is_ok r = true -> r = Ok tt.
Proof. by destruct r as [[]|]. Qed.

Ltac in_cases H := simpl in H; repeat destruct H as [<-|H]; try (exfalso; exact H).

(** The store accepts exactly the chunks whose fields fit, with a session and a
    timestamp. *)
Lemma shape_valid file machine c : file <> "" -> source_shape file machine c ->
  is_ok (validateChunk c) = sizes_fit c && (c_SessionID c !=s "") && negb (IsZero (c_Timestamp c)).
Proof.
  intros Hf [Hid Hc _ Hk [Hp1 Hp2] [HF _] Hl Ho _ Hpar Hch].
  assert ((len (c_ChunkType c) <=? 32) = true /\ (c_ChunkType c !=s "") = true) as [Hk1 Hk2] by (in_cases Hk; done).
  assert ((len (c_Operation c) <=? 32) = true) as Ho1 by (in_cases Ho; done).
  assert ((len (c_ParentChunkID c) <=? 64) = true) as Hpar1.
  { destruct Hpar as [->|Hp]; [done|]. apply hex_id_len in Hp as [-> _]. done. }
  apply hex_id_len in Hid as [Hid1 Hid2].
  apply String.eqb_neq in Hid2, Hc, Hp1, Hp2. rewrite <- HF in Hf. apply String.eqb_neq in Hf.
  unfold validateChunk, sizes_fit.
  pose proof (check_required_spec
    [("id", c_ID c, 64); ("content", c_Content c, 8388608);
     ("chunk_type", c_ChunkType c, 32); ("session_id", c_SessionID c, 128);
     ("project_path", c_ProjectPath c, 8192); ("project_name", c_ProjectName c, 256);
     ("source_file", c_SourceFile c, 8192)]) as Hr.
  pose proof (check_optional_spec
    [("user_uuid", c_UserUUID c, 128); ("assistant_uuid", c_AssistantUUID c, 128);
     ("file_path", c_FilePath c, 8192); ("operation", c_Operation c, 32);
     ("model", c_Model c, 256); ("parent_chunk_id", c_ParentChunkID c, 64);
     ("machine_id", c_MachineID c, 256)]) as Hopt.
  cbn [forallb fst snd] in Hr, Hopt. rewrite Hid1, Hid2, Hc, Hk1, Hk2, Hp1, Hp2, Hf in Hr.
  rewrite Ho1, Hpar1 in Hopt. cbn [negb andb] in Hr.
  change (16 <=? 64) with true in Hr. cbn [andb] in Hr.
  rewrite is_ok_bind. destruct (check_required _) as [u|e]; cbn [is_ok] in Hr.
  2:{ destruct (len (c_Content c) <=? _), (len (c_SessionID c) <=? _), (len (c_ProjectPath c) <=? _),
        (len (c_ProjectName c) <=? _), (len (c_SourceFile c) <=? _), (c_SessionID c ==s ""); simpl in *; try done;
      rewrite ?andb_false_r; done. }
  rewrite is_ok_bind. destruct (check_optional _) as [u'|e]; cbn [is_ok] in Hopt.
  2:{ destruct (len (c_UserUUID c) <=? _), (len (c_AssistantUUID c) <=? _), (len (c_FilePath c) <=? _),
        (len (c_Model c) <=? _), (len (c_MachineID c) <=? _); simpl in *; try done;
      rewrite ?andb_false_r; done. }
  symmetry in Hr, Hopt. rewrite !andb_true_iff in Hr, Hopt.
  destruct Hr as (R1&(R2&R3)&R4&R5&R6&_). destruct Hopt as (O1&O2&O3&_&O4&_&O5). rewrite andb_true_r in O5.
  rewrite R1, R2, R3, R4, R5, R6, O1, O2, O3, O4, O5. cbn [andb].
  destruct (IsZero (c_Timestamp c)); [by rewrite !andb_false_r|].
  destruct (Z.ltb_spec (c_SourceLine c) 0); [lia|]. rewrite Z.ltb_antisym.
  destruct (Z.of_nat _ <=? 10000); [|done]. by rewrite check_children_hex.
Qed.

Lemma firstNonEmpty_default x d : d <> "" -> firstNonEmpty [x; d] <> "".
Proof.
  intros Hd. simpl. destruct (x ==s "") eqn:E; simpl; [|by apply String.eqb_neq]. by destruct d.
Qed.

(** ** Closure *)

(** A property of chunks that gives identifiers and survives attaching children. *)
Class ChunkShape (shape : Chunk -> Prop) : Prop := {
  shape_id : forall c, shape c -> hex_id (c_ID c);
  shape_children : forall c ids, shape c -> Forall hex_id ids -> shape (set_children c ids)
}.

#[export] Instance source_shape_chunk file machine : ChunkShape (source_shape file machine).
Proof. split; [by intros c []|]. intros c ids [] Hids. by constructor. Qed.

(** The shape of a chunk that has a session and a line number. *)
Definition located_shape (file machine : string) (c : Chunk) : Prop :=
  source_shape file machine c /\ c_SessionID c <> "" /\ 1 <= c_SourceLine c.

#[export] Instance located_shape_chunk file machine : ChunkShape (located_shape file machine).
Proof. split; [by intros c [[] _]|]. intros c ids [[] ?] Hids. split; [by constructor|done]. Qed.

Section Good.
Context (shape : Chunk -> Prop) `{!ChunkShape shape}.

Definition source_good (chunks : list Chunk) : Prop := Forall shape chunks /\ links_closed chunks.

Lemma source_good_nil : source_good [].
Proof. split; [constructor|by apply links_unlinked]. Qed.

Lemma source_good_app a b : source_good a -> source_good b -> source_good (a ++ b).
Proof. intros [] []. split; [by apply Forall_app|by apply links_app]. Qed.

Lemma source_good_concat l : Forall source_good l -> source_good (concat l).
Proof. induction 1; simpl; [apply source_good_nil|by apply source_good_app]. Qed.

(** A part of a turn before files are attached, and a file change of a parent. *)
Definition turn_ok (c : Chunk) : Prop := shape c /\ c_ChunkType c = "turn" /\ c_ChildChunkIDs c = [].
Definition file_ok (parent : string) (c : Chunk) : Prop :=
  shape c /\ c_ChunkType c = "file_change" /\ c_ParentChunkID c = parent /\ c_ChildChunkIDs c = [].

Lemma turns_good l : Forall turn_ok l -> source_good l.
Proof.
  intros Ht. split; [eapply Forall_impl; [exact Ht|]; by intros c []|].
  apply links_unlinked. eapply Forall_impl; [exact Ht|]. intros c (_&K&C). split; [done|left; by rewrite K].
Qed.

Lemma parts_turn_ok emit content session key parts :
  (forall p, p ∈ parts -> p <> "") ->
  (forall id part parent, hex_id id -> parent = "" \/ hex_id parent -> part <> "" -> turn_ok (emit id part parent)) ->
  Forall turn_ok (part_chunks emit content session key parts).
Proof.
  intros Hp He. apply part_chunks_inv. intros id part parent Hid Hpar (p&Hin&Hpart).
  apply He; try done. destruct Hpart as [->|(i&n&->)]; [by apply Hp|done].
Qed.

Lemma turn_files_good t rest files :
  Forall turn_ok (t :: rest) -> Forall (file_ok (c_ID t)) files -> source_good (attach_children (t :: rest) files ++ files).
Proof.
  intros Ht Hf. split.
  - apply Forall_app. split; [|eapply Forall_impl; [exact Hf|]; by intros c []].
    assert (Forall shape (t :: rest)) as Hs by (eapply Forall_impl; [exact Ht|]; by intros c []).
    destruct files as [|f files']; [done|]. inversion Hs as [|? ? St Sr]; subst. constructor; [|done].
    apply shape_children; [done|]. apply Forall_map. eapply Forall_impl; [exact Hf|]. intros c [Sc _]. by apply shape_id.
  - apply links_turn; (eapply Forall_impl; [eassumption|]); [by intros c (_&?&?)|by intros c (_&?&?&?)].
Qed.
End Good.
