(* ===== verification/GeminiSource.v ===== *)
(** * The Gemini source

    [internal/history/source/gemini/gemini.go]: a session document with messages,
    or an array of log events, and the loop that gathers a user message, the
    answers and the tool calls after it into one turn. *)
From Stdlib Require Import ZArith Lia Bool.
From Stdlib Require Import String Ascii.
From stdpp Require Import base tactics option list strings.
From S2P Require Import Prelude GoStrings GoPath StoreTypes StorePlans GoTime SplitContent SourceText Regex.
From S2P Require Import ClaudeSourceSpec CodexSourceSpec SourceJson SourceShape.
Open Scope Z_scope.

Module Gemini.

Definition MaxFileBytes : Z := 2147483648.

Record Source : Type := mkSource { FilePath : string; MachineID : string; MaxBytes : Z }.
Record Issue : Type := mkIssue { g_Index : Z; g_Reason : string }.

Record ToolCall : Type := mkToolCall { t_ID : string; t_Name : string; t_Args : json; t_ResultDisplay : string }.
Record Message : Type := mkMessage {
  m_ID : string;
  m_Type : string;
  m_Content : string;
  m_Model : string;
  m_Timestamp : Time;
  m_HasTime : bool;
  m_Thoughts : list string;
  m_ToolCalls : list ToolCall;
  m_Raw : list (string * json)
}.
Record Event : Type := mkEvent {
  v_ID : string;
  v_SessionID : string;
  v_Content : string;
  v_Timestamp : Time;
  v_HasTime : bool
}.
Record Document : Type := mkDocument {
  d_SessionID : string;
  d_ConversationID : string;
  d_Messages : list Message;
  d_Events : list Event
}.
Record operation : Type := mkOperation { o_path : string; o_kind : string; o_summary : string }.

(** ** Text *)

Section Text.
Context `{GoDecode}.

Definition jsonValue (v : json) : string :=
  match v with
  | JNull => ""
  | _ => default "" (json_Marshal v)
  end.

Definition valueText (v : json) : string :=
  let text := stringValue v in if text !=s "" then text else jsonValue v.

Definition parseTimestamp (v : json) : Time * bool :=
  let text := stringValue v in
  if text ==s "" then (zero_time, false)
  else match time_Parse text with
       | None => (zero_time, false)
       | Some parsed => (UTC parsed, true)
       end.

Definition rendered_call (call : ToolCall) : string :=
  jsonValue (JObject [("id", JString (t_ID call)); ("name", JString (t_Name call)); ("args", t_Args call);
                      ("resultDisplay", JString (t_ResultDisplay call))]).

Definition geminiText (message : Message) : string :=
  let parts := if m_Content message !=s "" then [m_Content message] else [] in
  let parts := match m_Thoughts message with
               | [] => parts
               | thoughts => parts ++ ["Thoughts:" +:+ newline +:+ Join thoughts newline]
               end in
  let parts := match m_ToolCalls message with
               | [] => parts
               | calls => parts ++ ["Tool calls:" +:+ newline +:+ Join (map rendered_call calls) newline]
               end in
  Join parts (newline +:+ newline).
End Text.

(** ** Parsing *)

Section Parse.
Context `{GoDecode} `{GoDecodeError}.

Definition parse_call (index : nat) (raw : json) : option ToolCall :=
  match raw with
  | JObject call =>
      Some (mkToolCall (firstNonEmpty [stringValue (jget call "id"); Itoa (Z.of_nat index + 1)])
              (stringValue (jget call "name")) (jget call "args") (stringValue (jget call "resultDisplay")))
  | _ => None
  end.

Definition parseMessage (raw : json) (index : Z) : option Message :=
  match raw with
  | JObject object =>
      let '(at_, has) := parseTimestamp (jget object "timestamp") in
      Some (mkMessage (firstNonEmpty [stringValue (jget object "id"); Itoa index]) (stringValue (jget object "type"))
              (valueText (jget object "content")) (stringValue (jget object "model")) at_ has
              (match jget object "thoughts" with JArray thoughts => map valueText thoughts | _ => [] end)
              (match jget object "toolCalls" with
               | JArray calls => omap id (imap parse_call calls)
               | _ => []
               end)
              object)
  | _ => None
  end.

Definition parseEvent (raw : json) (index : Z) : option Event :=
  match raw with
  | JObject object =>
      let '(at_, has) := parseTimestamp (jget object "timestamp") in
      Some (mkEvent (firstNonEmpty [stringValue (jget object "id"); Itoa index]) (stringValue (jget object "sessionId"))
              (jsonValue (JObject object)) at_ has)
  | _ => None
  end.

(** The loops over the elements: a parsed element, or an issue. *)
Fixpoint parse_items {A} (parse : json -> Z -> option A) (reason : string) (index : Z) (l : list json) : list A * list Issue :=
  match l with
  | [] => ([], [])
  | raw :: rest =>
      let '(items, issues) := parse_items parse reason (index + 1) rest in
      match parse raw index with
      | Some item => (item :: items, issues)
      | None => (items, mkIssue index reason :: issues)
      end
  end.

Definition Parse (content : string) (maxBytes : Z) : result (Document * list Issue) :=
  data ← read_bounded MaxFileBytes "Gemini source byte limit is invalid" "Gemini source exceeds %d bytes" content maxBytes;
  match json_Unmarshal data with
  | None => Fail (Wrapf "parse Gemini source: %w" [] (json_error data))
  | Some value =>
      if MaxJSONDepth <? jsonDepth value 0 then Fail (errors_New "Gemini source JSON exceeds maximum depth")
      else match value with
      | JArray typed =>
          let '(events, issues) := parse_items parseEvent "event_not_object" 1 typed in
          Ok (mkDocument "" "" [] events, issues)
      | JObject typed =>
          let session := firstNonEmpty [stringValue (jget typed "sessionId"); "gemini-session"] in
          let conversation := stringValue (jget typed "conversationId") in
          match jlookup "messages" typed with
          | Some (JArray rawMessages) =>
              let '(messages, issues) := parse_items parseMessage "message_not_object" 1 rawMessages in
              Ok (mkDocument session conversation messages [], issues)
          | Some _ => Ok (mkDocument session conversation [] [], [mkIssue 0 "messages_not_array"])
          | None => Ok (mkDocument session conversation [] [], [])
          end
      | _ => Fail (errors_New "Gemini source must be an object or event array")
      end
  end.
End Parse.

(** ** Operations of the tool calls *)

Definition patch_rules : list (string * string * string) :=
  [("*** Add File: ", "write", "Added file"); ("*** Update File: ", "edit", "Updated file");
   ("*** Delete File: ", "delete", "Deleted file"); ("*** Move to: ", "move", "Moved file")].

(** The inner loop of [patchOperations], which the first rule that changes the
    line ends. *)
Fixpoint patch_line (rules : list (string * string * string)) (line : string) : option operation :=
  match rules with
  | [] => None
  | (prefix, kind, summary) :: rest =>
      let path := TrimSpace (TrimPrefix line prefix) in
      if path !=s line then if path !=s "" then Some (mkOperation path kind summary) else None
      else patch_line rest line
  end.

Definition patchOperations (text : string) : list operation :=
  omap (patch_line patch_rules) (Split (ascii_of_N 10) text).

Definition shellOperations (command : string) : list operation :=
  match first_rule shellRules command with
  | Some (path, kind, summary) => [mkOperation path kind summary]
  | None => []
  end.

Definition call_operations (call : ToolCall) : list operation :=
  let name := t_Name call in
  (if (name ==s "apply_patch") || (name ==s "applyPatch") || (name ==s "patch") then
     (match t_Args call with JObject args => patchOperations (stringValue (jget args "patch")) | _ => [] end) ++
     patchOperations (t_ResultDisplay call)
   else []) ++
  (if (name ==s "shell") || (name ==s "shell_command") || (name ==s "bash") then
     match t_Args call with JObject args => shellOperations (stringValue (jget args "command")) | _ => [] end
   else []).

Definition toolOperations (calls : list ToolCall) : list operation := concat (map call_operations calls).

(** ** Project, time and position *)

Fixpoint project_of (parts : list string) : option string :=
  match parts with
  | part :: ((next :: _) as rest) => if (part ==s "tmp") && (next !=s "") then Some next else project_of rest
  | _ => None
  end.

Definition projectFromPath (path : string) : string * string :=
  match project_of (Split slash (Clean path)) with
  | Some name => ("/gemini/" +:+ name, name)
  | None => ("/gemini/unknown", "unknown")
  end.

Definition timestamp (at_ : Time) (has : bool) (index : Z) : Time :=
  if has then at_ else time_Unix_UTC (wrap64 (index * 1000)).

Fixpoint index_from (index : Z) (id : string) (messages : list Message) : Z :=
  match messages with
  | [] => 1
  | m :: rest => if m_ID m ==s id then index else index_from (index + 1) id rest
  end.
Definition pendingIndex (want : Message) (messages : list Message) : Z := index_from 1 (m_ID want) messages.

(** ** Chunks *)

Definition makeChunks (content projectPath projectName session : string) (at_ : Time) (source : Source) (line : Z)
    (model : string) : list Chunk :=
  part_chunks
    (fun id part parent =>
       mkChunk id part [] "turn" session projectPath projectName at_ "" "" "" "" model
         (FilePath source) line parent [] (MachineID source))
    content session (timestampKey at_) (gemini_splitContent content).

Definition turnChunks (user assistant projectPath projectName session : string) (at_ : Time) (source : Source) (line : Z)
    (model : string) : list Chunk :=
  makeChunks ("In project " +:+ projectName +:+ ", user asked:" +:+ newline +:+ user +:+ newline +:+ newline +:+
              "Assistant responded:" +:+ newline +:+ TrimSpace assistant)
    projectPath projectName session at_ source line model.

Definition assistantChunks (content projectPath projectName session : string) (at_ : Time) (source : Source) (line : Z)
    (model : string) : list Chunk :=
  if TrimSpace content ==s "" then []
  else makeChunks ("In project " +:+ projectName +:+ ", assistant responded:" +:+ newline +:+ content)
         projectPath projectName session at_ source line model.

Definition file_chunk (projectPath projectName session : string) (at_ : Time) (source : Source) (line : Z)
    (parent : string) (index : Z) (op : operation) : Chunk :=
  let content := "In project " +:+ projectName +:+ ", file " +:+ o_path op +:+ " was " +:+ o_kind op +:+ "." +:+ newline +:+
                 "Summary: " +:+ o_summary op in
  mkChunk (chunkID content session (timestampKey at_ +:+ o_path op +:+ Itoa index)) content [] "file_change"
    session projectPath projectName at_ "" "" (o_path op) (o_kind op) "" (FilePath source) line parent [] (MachineID source).

Definition fileChunks (ops : list operation) (projectPath projectName session : string) (at_ : Time) (source : Source)
    (line : Z) (parent : string) : list Chunk :=
  imap (fun index => file_chunk projectPath projectName session at_ source line parent (Z.of_nat index)) ops.

(** Turn chunks with the file changes attached to the first of them. *)
Definition with_files (turns : list Chunk) (files : string -> list Chunk) : list Chunk :=
  match turns with
  | [] => []
  | first :: _ => attach_children turns (files (c_ID first)) ++ files (c_ID first)
  end.

(** ** The loop of [Chunks] *)

(** The variables the loop updates, with the chunks made so far. *)
Record loop_state : Type := mkLoop {
  l_pending : option Message;
  l_fragments : list string;
  l_ops : list operation;
  l_model : string;
  l_chunks : list Chunk
}.

Section Loop.
Context `{GoDecode} (source : Source) (document : Document).

Definition project : string * string := projectFromPath (FilePath source).

Definition finalize (s : loop_state) : loop_state :=
  match l_pending s with
  | None => s
  | Some pending =>
      let index := pendingIndex pending (d_Messages document) in
      let at_ := timestamp (m_Timestamp pending) (m_HasTime pending) index in
      let turns := turnChunks (m_Content pending) (Join (l_fragments s) newline) (fst project) (snd project)
                     (d_SessionID document) at_ source index (l_model s) in
      let files := fileChunks (l_ops s) (fst project) (snd project) (d_SessionID document) at_ source index in
      mkLoop None [] [] (l_model s) (l_chunks s ++ with_files turns files)
  end.

Definition loop_message (s : loop_state) (located : Message * Z) : loop_state :=
  let '(message, index) := located in
  let at_ := timestamp (m_Timestamp message) (m_HasTime message) index in
  let answer content model :=
    assistantChunks content (fst project) (snd project) (d_SessionID document) at_ source index model in
  if m_Type message ==s "user" then
    let s := finalize s in
    mkLoop (Some message) (l_fragments s) (l_ops s) (l_model s) (l_chunks s)
  else if m_Type message ==s "gemini" then
    let model := if m_Model message !=s "" then m_Model message else l_model s in
    let combined := geminiText message in
    let found := toolOperations (m_ToolCalls message) in
    match l_pending s with
    | None =>
        mkLoop None (l_fragments s) (l_ops s) model
          (l_chunks s ++ with_files (answer combined model)
             (fileChunks found (fst project) (snd project) (d_SessionID document) at_ source index))
    | Some pending =>
        mkLoop (Some pending) (if combined !=s "" then l_fragments s ++ [combined] else l_fragments s)
          (l_ops s ++ found) model (l_chunks s)
    end
  else
    let content := if m_Type message ==s "info" then m_Content message else jsonValue (JObject (m_Raw message)) in
    mkLoop (l_pending s) (l_fragments s) (l_ops s) (l_model s) (l_chunks s ++ answer content (l_model s)).

Definition event_chunks (index : nat) (event : Event) : list Chunk :=
  let line := Z.of_nat index + 1 in
  assistantChunks (v_Content event) (fst project) (snd project) (firstNonEmpty [v_SessionID event; "gemini-logs"])
    (timestamp (v_Timestamp event) (v_HasTime event) line) source line "".

Definition document_chunks : list Chunk :=
  match d_Events document with
  | [] =>
      let located := imap (fun i m => (m, Z.of_nat i + 1)) (d_Messages document) in
      l_chunks (finalize (fold_left loop_message located (mkLoop None [] [] "" [])))
  | events => concat (imap event_chunks events)
  end.
End Loop.

Definition Chunks `{GoDecode} `{GoDecodeError} (source : Source) (input : string) : result (list Chunk * list Issue) :=
  if FilePath source ==s "" then Fail (errors_New "Gemini source file identity is required")
  else
    parsed ← Parse input (MaxBytes source);
    let '(document, issues) := parsed in
    Ok (document_chunks source document, issues).
End Gemini.

(** ** Properties of the Gemini source *)
Import Gemini.

Definition gop_ok (op : operation) : Prop := o_path op <> "" /\ List.In (o_kind op) operations.

Lemma gemini_patch_line_ok rules line op :
  Forall (fun r => List.In (snd (fst r)) operations) rules -> patch_line rules line = Some op -> gop_ok op.
Proof.
  induction rules as [|[[prefix kind] summary] rules IH]; simpl; [done|]. intros Hf. inversion Hf; subst.
  destruct (TrimSpace _ ==s line); simpl; [auto|]. destruct (TrimSpace _ ==s "") eqn:E; simpl; [done|].
  intros [= <-]. split; [by apply String.eqb_neq|done].
Qed.

Lemma gemini_patch_ok text : Forall gop_ok (patchOperations text).
Proof.
  apply Forall_forall. intros op (line&_&Hp)%list_elem_of_omap. eapply gemini_patch_line_ok; [|exact Hp].
  unfold patch_rules. repeat apply Forall_cons_2; simpl; auto 6 using Forall_nil_2.
Qed.

Lemma gemini_shell_ok command : Forall gop_ok (shellOperations command).
Proof.
  unfold shellOperations. destruct (first_rule _ _) as [[[path kind] summary]|] eqn:E; [|constructor].
  apply first_rule_ok in E as [[Hp _] Hk]. constructor; [|constructor]. split; [done|]. simpl in *. intuition.
Qed.

Lemma toolOperations_ok calls : Forall gop_ok (toolOperations calls).
Proof.
  apply Forall_concat, Forall_map, Forall_true. intros call. unfold call_operations.
  apply Forall_app. split; (destruct (_ || _); [|constructor]).
  - apply Forall_app. split; [|apply gemini_patch_ok]. destruct (t_Args call); auto using gemini_patch_ok, Forall_nil_2.
  - destruct (t_Args call); auto using gemini_shell_ok, Forall_nil_2.
Qed.

Lemma project_of_nonempty parts name : project_of parts = Some name -> name <> "".
Proof.
  induction parts as [|p [|n parts] IH]; [done..|].
  change (project_of (p :: n :: parts)) with (if (p ==s "tmp") && (n !=s "") then Some n else project_of (n :: parts)).
  destruct (_ && _) eqn:E; [|exact IH]. apply andb_true_iff in E as [_ E]. intros [= <-]. by destruct n.
Qed.

Lemma projectFromPath_nonempty path : fst (projectFromPath path) <> "" /\ snd (projectFromPath path) <> "".
Proof.
  unfold projectFromPath. destruct (project_of _) as [name|] eqn:E; [|done]. split; [done|].
  by apply project_of_nonempty in E.
Qed.

Lemma index_from_pos index id messages : 1 <= index -> 1 <= index_from index id messages.
Proof.
  revert index. induction messages as [|m messages IH]; intros index Hi; simpl; [done|].
  destruct (_ ==s _); [done|]. apply IH. lia.
Qed.

Section Shape.
Context (source : Source).
Abbreviation shape := (located_shape (FilePath source) (MachineID source)).

Lemma gemini_makeChunks_ok content path name session at_ line model :
  content <> "" -> path <> "" -> name <> "" -> session <> "" -> 1 <= line ->
  Forall (turn_ok shape) (makeChunks content path name session at_ source line model).
Proof.
  intros Hc Hp Hn Hs Hl. apply parts_turn_ok.
  - intros p Hin. exact (codex_split_nonempty _ _ Hc Hin).
  - intros id part parent Hid Hpar Hpart. split; [|done]. split; [|done].
    constructor; simpl; auto; try done. lia.
Qed.

Lemma gemini_fileChunks_ok ops path name session at_ line parent :
  Forall gop_ok ops -> path <> "" -> name <> "" -> session <> "" -> 1 <= line -> hex_id parent ->
  Forall (file_ok shape parent) (fileChunks ops path name session at_ source line parent).
Proof.
  intros Ho Hp Hn Hs Hl Hpar. apply Forall_forall. intros c Hc. apply elem_of_lookup_imap in Hc as (i&op&->&Hop).
  apply list_elem_of_lookup_2 in Hop. rewrite Forall_forall in Ho. destruct (Ho op Hop) as [Hne Hk].
  split; [|done]. split; [|done]. constructor; cbn [file_chunk c_ID c_Content c_Vector c_ChunkType c_ProjectPath c_ProjectName
    c_SourceFile c_MachineID c_SourceLine c_Operation c_FilePath c_ParentChunkID c_ChildChunkIDs]; auto; try done; simpl; auto.
  - apply chunkID_hex.
  - lia.
Qed.

Lemma gemini_with_files_good turns ops path name session at_ line :
  Forall (turn_ok shape) turns -> Forall gop_ok ops -> path <> "" -> name <> "" -> session <> "" -> 1 <= line ->
  source_good shape (with_files turns (fileChunks ops path name session at_ source line)).
Proof.
  intros Ht Ho Hp Hn Hs Hl. destruct turns as [|t rest]; [apply source_good_nil|].
  apply turn_files_good; [apply _|done|]. apply gemini_fileChunks_ok; try done.
  inversion Ht as [|? ? [St _]]; subst. by apply (shape_id (shape := shape)).
Qed.

Lemma gemini_assistant_ok content session at_ line model :
  session <> "" -> 1 <= line ->
  Forall (turn_ok shape)
    (assistantChunks content (fst (project source)) (snd (project source)) session at_ source line model).
Proof.
  intros Hs Hl. unfold assistantChunks. destruct (_ ==s ""); [constructor|].
  destruct (projectFromPath_nonempty (FilePath source)). by apply gemini_makeChunks_ok.
Qed.

Context `{GoDecode} (document : Document).
Hypothesis session_nonempty : d_SessionID document <> "".

Record gloop_ok (s : loop_state) : Prop := mk_gloop_ok {
  gl_ops : Forall gop_ok (l_ops s);
  gl_chunks : source_good shape (l_chunks s)
}.

Lemma gemini_finalize_ok s : gloop_ok s -> gloop_ok (finalize source document s).
Proof.
  intros [Ho Hc]. unfold finalize. destruct (l_pending s) as [p|]; [|by constructor]. constructor; [constructor|].
  cbn [l_chunks]. destruct (projectFromPath_nonempty (FilePath source)).
  assert (1 <= pendingIndex p (d_Messages document)) by by apply index_from_pos.
  apply source_good_app; [done|]. apply gemini_with_files_good; try done. by apply gemini_makeChunks_ok.
Qed.

Lemma loop_message_ok s located : gloop_ok s -> 1 <= snd located -> gloop_ok (loop_message source document s located).
Proof.
  intros Hs Hl. destruct located as [message index]. cbn [snd] in Hl. unfold loop_message.
  destruct (_ ==s "user"); [destruct (gemini_finalize_ok s Hs); by constructor|].
  destruct (projectFromPath_nonempty (FilePath source)). destruct (_ ==s "gemini").
  - destruct (l_pending s) as [p|]; destruct Hs as [Ho Hc]; constructor; cbn [l_ops l_chunks]; try done.
    + apply Forall_app. split; [done|apply toolOperations_ok].
    + apply source_good_app; [done|]. apply gemini_with_files_good; try done; [|apply toolOperations_ok].
      by apply gemini_assistant_ok.
  - destruct Hs. constructor; [done|]. cbn [l_chunks]. apply source_good_app; [done|].
    by apply turns_good, gemini_assistant_ok.
Qed.

Lemma gloop_ok_fold located s :
  gloop_ok s -> Forall (fun e => 1 <= snd e) located -> gloop_ok (fold_left (loop_message source document) located s).
Proof.
  revert s. induction located as [|e located IH]; intros s Hs He; [done|]. inversion He; subst. simpl.
  apply IH; [by apply loop_message_ok|done].
Qed.

Lemma gloop_init : gloop_ok (mkLoop None [] [] "" []).
Proof. constructor; [constructor|apply source_good_nil]. Qed.
End Shape.

Lemma event_chunks_good source events :
  source_good (located_shape (FilePath source) (MachineID source)) (concat (imap (event_chunks source) events)).
Proof.
  apply source_good_concat, Forall_forall. intros l Hl. apply elem_of_lookup_imap in Hl as (i&e&->&_).
  apply turns_good, gemini_assistant_ok; [by apply firstNonEmpty_default|lia].
Qed.

Lemma Parse_session `{GoDecode} `{GoDecodeError} content maxBytes d issues :
  Parse content maxBytes = Ok (d, issues) -> d_Events d = [] -> d_SessionID d = "" -> d_Messages d = [].
Proof.
  unfold Parse. intros Hp. apply bind_ok in Hp as (data&_&Hp). destruct (json_Unmarshal data) as [v|]; [|done].
  destruct (_ <? _); [done|]. destruct v as [| | | |l|m]; try done.
  - destruct (parse_items _ _ _ _). by injection Hp as <- _.
  - intros _ Hs. exfalso. revert Hs.
    assert (d_SessionID d = firstNonEmpty [stringValue (jget m "sessionId"); "gemini-session"]) as ->.
    { destruct (jlookup _ _) as [[]|]; try destruct (parse_items _ _ _ _); by injection Hp as <- _. }
    by apply firstNonEmpty_default.
Qed.

Lemma gemini_result `{GoDecode} `{GoDecodeError} source input chunks issues :
  Chunks source input = Ok (chunks, issues) ->
  Forall (located_shape (FilePath source) (MachineID source)) chunks /\ links_closed chunks.
Proof.
  unfold Chunks. destruct (FilePath source ==s ""); [done|]. intros Hc. apply bind_ok in Hc as ([d is']&Hp&Hc).
  injection Hc as <- _. unfold document_chunks. destruct (d_Events d) as [|e events] eqn:E; [|apply event_chunks_good].
  destruct (String.eqb_spec (d_SessionID d) "") as [Hs|Hs].
  - rewrite (Parse_session _ _ _ _ Hp E Hs). apply source_good_nil.
  - apply gl_chunks with (s := finalize _ _ _), gemini_finalize_ok; [done|]. apply gloop_ok_fold; [done|apply gloop_init|].
    apply Forall_forall. intros [m i] Hin. apply elem_of_lookup_imap in Hin as (k&m'&[= -> ->]&_). simpl. lia.
Qed.

(** Whatever a Gemini document holds, every chunk made from it has a
    16-digit hexadecimal identifier, a content, a session, a project, the source's
    file and machine, a line from 1 and a known kind and operation, and parents
    and children refer to each other inside the result. *)
Theorem gemini_chunks_well_formed `{GoDecode} `{GoDecodeError} source input chunks issues :
  Chunks source input = Ok (chunks, issues) ->
  Forall (located_shape (FilePath source) (MachineID source)) chunks /\ links_closed chunks.
Proof. apply gemini_result. Qed.

(** A message with an identifier of its own is found at its position. *)
Lemma pendingIndex_distinct messages i m :
  NoDup (map m_ID messages) -> messages !! i = Some m -> pendingIndex m messages = Z.of_nat i + 1.
Proof.
  unfold pendingIndex. intros Hn Hi. replace (Z.of_nat i + 1) with (1 + Z.of_nat i) by lia. revert i Hn Hi. generalize 1.
  induction messages as [|x messages IH]; intros start [|i] Hn Hi; simplify_eq/=.
  - rewrite String.eqb_refl. lia.
  - apply NoDup_cons in Hn as [Hx Hn]. destruct (String.eqb_spec (m_ID x) (m_ID m)) as [E|].
    + exfalso. apply Hx. rewrite E. apply list_elem_of_fmap. exists m. split; [done|]. by eapply list_elem_of_lookup_2.
    + rewrite (IH (start + 1) i) by done. lia.
Qed.

(** ** Witness *)

Module GeminiSamples.

Definition message (kind id text : string) (calls : list json) : json :=
  JObject [("id", JString id); ("type", JString kind); ("content", JString text); ("toolCalls", JArray calls)].
Definition rm_call : json := JObject [("name", JString "bash"); ("args", JObject [("command", JString "rm -f a.o")])].

#[local] Instance decode : GoDecode := {|
  json_Unmarshal s :=
    if s ==s "D" then
      Some (JObject [("sessionId", JString "g1");
        ("messages", JArray [message "user" "a" "clean up" []; message "gemini" "b" "done" [rm_call]; message "user" "a" "clean up" []])])
    else None;
  json_Marshal _ := Some "{}";
  time_Parse _ := None
|}.
#[local] Instance decode_error : GoDecodeError := fun _ => Sentinel "json".

Definition source : Source := mkSource "/h/.gemini/tmp/p1/chats/s.json" "m1" 0.
Definition chunks : list Chunk := match Chunks source "D" with Ok (c, _) => c | Fail _ => [] end.

(** The second message with the identifier [a] is given the line, and so the
    default timestamp, of the first. *)
Example gemini_chunks_made :
  map c_Operation chunks = [""; "delete"; ""] /\ map c_ProjectPath chunks = ["/gemini/p1"; "/gemini/p1"; "/gemini/p1"] /\
  map c_SourceLine chunks = [1; 1; 1].
Proof. vm_compute. repeat split; reflexivity. Qed.

Lemma gemini_chunks_well_formed_witness :
  length chunks = 3%nat /\ Forall (located_shape (FilePath source) (MachineID source)) chunks /\ links_closed chunks.
Proof.
  split; [vm_compute; reflexivity|]. apply (gemini_chunks_well_formed source "D" chunks []). vm_compute. reflexivity.
Defined.
End GeminiSamples.
