(* ===== verification/ChatGptSource.v ===== *)
(** * The ChatGPT source

    [internal/history/source/chatgpt/chatgpt.go]: a conversations export, whose
    conversations hold either a list of messages or a mapping of nodes that is
    put into an order of its own, and the turns made of them. *)
From Stdlib Require Import ZArith Lia Bool.
From Stdlib Require Import String Ascii.
From stdpp Require Import base tactics option list strings sorting.
From S2P Require Import Prelude GoStrings StoreTypes StorePlans GoTime SplitContent SourceText ClaudeSourceSpec.
From S2P Require Import CodexSourceSpec SourceJson JsonCanon SourceShape.
Open Scope Z_scope.

Module ChatGPT.

Definition MaxFileBytes : Z := 10737418240.

Record Source : Type := mkSource { FilePath : string; MachineID : string; MaxBytes : Z }.
Record Issue : Type := mkIssue { i_Conversation : string; i_NodeID : string; i_Reason : string }.
Record Message : Type := mkMessage {
  m_ID : string;
  m_NodeID : string;
  m_ParentID : string;
  m_Role : string;
  m_Author : string;
  m_Content : string;
  m_ChildIDs : list string;
  m_Timestamp : Time;
  m_HasTime : bool
}.
Record Conversation : Type := mkConversation { cv_ID : string; cv_Title : string; cv_Messages : list Message }.

(** ** Text *)

(** [textFromContent]: the text of a string, of the elements of an array, or of
    the first member of an object that has one. *)
Fixpoint textFromContent (v : json) : string :=
  match v with
  | JString s => s
  | JArray l => Join (List.filter (fun t => t !=s "") (map textFromContent l)) newline
  | JObject m =>
      let texts := map (fun kv => (fst kv, (match snd kv with JArray _ => true | _ => false end, textFromContent (snd kv)))) m in
      let text k := default (false, "") (assoc k texts) in
      if fst (text "parts") then snd (text "parts")
      else firstNonEmpty [snd (text "text"); snd (text "value"); snd (text "content")]
  | _ => ""
  end.

Definition messageText (message : list (string * json)) : string :=
  firstNonEmpty (map (fun key => textFromContent (jget message key)) ["content"; "text"; "message"]).

(** ** Parsing *)

Section Parse.
Context `{GoDecode} `{GoDecodeError} `{UnicodeTables} `{GoFloat}.

Definition messageRole (message : list (string * json)) : string * string :=
  let other := (ToLower (firstNonEmpty [stringValue (jget message "role"); stringValue (jget message "sender")]), "") in
  match jget message "author" with
  | JObject author =>
      let role := ToLower (stringValue (jget author "role")) in
      if role !=s "" then (role, stringValue (jget author "name")) else other
  | _ => other
  end.

Definition parseTimestamp (v : json) : option Time :=
  match v with
  | JNumber f => Some (time_of_float f)
  | JString s => if s ==s "" then None else UTC <$> time_Parse s
  | _ => None
  end.

Definition message_time (object : list (string * json)) : Time * bool :=
  match parseTimestamp (jget object "create_time") with
  | Some t => (t, true)
  | None => match parseTimestamp (jget object "created_at") with
            | Some t => (t, true)
            | None => match parseTimestamp (jget object "update_time") with
                      | Some t => (t, true)
                      | None => (zero_time, false)
                      end
            end
  end.

Definition parseMessage (raw : json) (nodeID parentID : string) : option Message :=
  match raw with
  | JObject object =>
      let '(role, author) := messageRole object in
      let '(timestamp, has) := message_time object in
      Some (mkMessage (firstNonEmpty [stringValue (jget object "id"); stringValue (jget object "message_id"); nodeID])
              nodeID parentID role author (messageText object) [] timestamp has)
  | _ => None
  end.

(** The loop over a list of messages. *)
Fixpoint parse_messages (id : string) (index : Z) (l : list json) : list Message * list Issue :=
  match l with
  | [] => ([], [])
  | raw :: rest =>
      let '(messages, issues) := parse_messages id (index + 1) rest in
      match parseMessage raw (Itoa index) "" with
      | Some message => (message :: messages, issues)
      | None => (messages, mkIssue id (Itoa index) "message_not_object" :: issues)
      end
  end.

Definition with_ChildIDs (m : Message) (ids : list string) : Message :=
  mkMessage (m_ID m) (m_NodeID m) (m_ParentID m) (m_Role m) (m_Author m) (m_Content m) ids (m_Timestamp m) (m_HasTime m).

(** The loop over the sorted node identifiers of a mapping. *)
Fixpoint parse_nodes (id : string) (mapping : list (string * json)) (nodeIDs : list string) : list Message * list Issue :=
  match nodeIDs with
  | [] => ([], [])
  | nodeID :: rest =>
      let '(messages, issues) := parse_nodes id mapping rest in
      match jget mapping nodeID with
      | JObject node =>
          match parseMessage (jget node "message") nodeID (stringValue (jget node "parent")) with
          | None => (messages, issues)
          | Some message =>
              let children := match jget node "children" with
                              | JArray l => List.filter (fun t => t !=s "") (map stringValue l)
                              | _ => []
                              end in
              (with_ChildIDs message children :: messages, issues)
          end
      | _ => (messages, mkIssue id nodeID "node_not_object" :: issues)
      end
  end.

(** The comparison that [sort.SliceStable] gets: messages with a time first, by
    time, then by node. *)
Definition message_less (a b : Message) : bool :=
  if negb (Bool.eqb (m_HasTime a) (m_HasTime b)) then m_HasTime a
  else if m_HasTime a && negb (time_Equal (m_Timestamp a) (m_Timestamp b)) then Before (m_Timestamp a) (m_Timestamp b)
  else String.ltb (m_NodeID a) (m_NodeID b).

Definition parseConversation (object : list (string * json)) (index : Z) : Conversation * list Issue :=
  let id := firstNonEmpty [stringValue (jget object "id"); stringValue (jget object "conversation_id"); Itoa index] in
  let title := firstNonEmpty [stringValue (jget object "title"); "Untitled"] in
  match jget object "messages" with
  | JArray rawMessages =>
      let '(messages, issues) := parse_messages id 1 rawMessages in (mkConversation id title messages, issues)
  | _ =>
      match jget object "mapping" with
      | JObject mapping =>
          let '(messages, issues) := parse_nodes id mapping (sort_Strings (jkeys mapping)) in
          (mkConversation id title (SliceStable message_less messages), issues)
      | _ => (mkConversation id title [], [mkIssue id "" "messages_missing"])
      end
  end.

Fixpoint parse_conversations (index : Z) (l : list json) : list Conversation * list Issue :=
  match l with
  | [] => ([], [])
  | JObject object :: rest =>
      let '(conversation, found) := parseConversation object index in
      let '(conversations, issues) := parse_conversations (index + 1) rest in
      (conversation :: conversations, found ++ issues)
  | _ :: rest =>
      let '(conversations, issues) := parse_conversations (index + 1) rest in
      (conversations, mkIssue (Itoa index) "" "conversation_not_object" :: issues)
  end.

Definition conversationsValue (value : json) : option (list json) :=
  match value with
  | JArray l => Some l
  | JObject object => match jget object "conversations" with JArray l => Some l | _ => None end
  | _ => None
  end.

Definition Parse (content : string) (maxBytes : Z) : result (list Conversation * list Issue) :=
  data ← read_bounded MaxFileBytes "ChatGPT export byte limit is invalid" "ChatGPT export exceeds %d bytes" content maxBytes;
  match json_Unmarshal data with
  | None => Fail (Wrapf "parse ChatGPT export: %w" [] (json_error data))
  | Some value =>
      if MaxJSONDepth <? jsonDepth value 0 then Fail (errors_New "ChatGPT export JSON exceeds maximum depth")
      else match conversationsValue value with
           | None => Fail (errors_New "ChatGPT export conversations are invalid")
           | Some conversationsRaw => Ok (parse_conversations 1 conversationsRaw)
           end
  end.
End Parse.

(** ** Chunks *)

Definition turn_content (user assistant : Message) (conversation : Conversation) : string :=
  "In ChatGPT conversation " +:+ cv_Title conversation +:+ ", user asked:" +:+ newline +:+ m_Content user +:+
  newline +:+ newline +:+ "ChatGPT responded:" +:+ newline +:+ m_Content assistant.

Definition turnChunks (user assistant : Message) (conversation : Conversation) (timestamp : Time) (source : Source)
    (line : Z) : list Chunk :=
  let content := turn_content user assistant conversation in
  part_chunks
    (fun id part parent =>
       mkChunk id part [] "turn" (cv_ID conversation) "/chatgpt/export" "ChatGPT" timestamp (m_ID user) (m_ID assistant)
         "" "" "" (FilePath source) line parent [] (MachineID source))
    content (cv_ID conversation) (timestampKey timestamp) (chatgpt_splitContent content).

Definition messageTimestamp (message : Message) (fallbackLine : Z) : Time :=
  if m_HasTime message then m_Timestamp message else time_Unix_UTC (wrap64 (fallbackLine * 1000)).

(** The [switch] of the loop: blank messages and other roles are passed over. *)
Definition message_role (m : Message) : turn_role :=
  if TrimSpace (m_Content m) ==s "" then Skips
  else if m_Role m ==s "user" then Asks
  else if (m_Role m ==s "assistant") || (m_Role m ==s "tool") then Answers
  else Skips.

Definition conversation_chunks (source : Source) (conversationIndex : nat) (conversation : Conversation) : list Chunk :=
  concat (map (fun '(user, message, messageIndex) =>
                 let line := (Z.of_nat conversationIndex + 1) * 100000 + messageIndex + 1 in
                 turnChunks user message conversation (messageTimestamp message line) source line)
            (pair_turns message_role None 0 (cv_Messages conversation))).

Definition Chunks `{GoDecode} `{GoDecodeError} `{UnicodeTables} `{GoFloat} (source : Source) (input : string) :
    result (list Chunk * list Issue) :=
  if FilePath source ==s "" then Fail (errors_New "ChatGPT source file identity is required")
  else
    parsed ← Parse input (MaxBytes source);
    let '(conversations, issues) := parsed in
    Ok (concat (imap (conversation_chunks source) conversations), issues).
End ChatGPT.

(** ** Properties of the ChatGPT source *)
Import ChatGPT.

(** ** Text *)

Definition is_array (v : json) : bool := match v with JArray _ => true | _ => false end.

(** The text of an object as the code reads it. *)
Lemma textFromContent_object m :
  textFromContent (JObject m) =
  if is_array (jget m "parts") then textFromContent (jget m "parts")
  else firstNonEmpty (map (fun k => textFromContent (jget m k)) ["text"; "value"; "content"]).
Proof.
  assert (forall k, default (false, "") (assoc k (map (fun kv => (fst kv, (is_array (snd kv), textFromContent (snd kv)))) m)) =
                    (is_array (jget m k), textFromContent (jget m k))) as E.
  { intros k. exact (member_jget (fun v => (is_array v, textFromContent v)) m k). }
  cbn [textFromContent map]. cbv zeta. change (fun kv => (kv.1, (match kv.2 with JArray _ => true | _ => false end, textFromContent kv.2)))
    with (fun kv : string * json => (fst kv, (is_array (snd kv), textFromContent (snd kv)))).
  rewrite !E. done.
Qed.

Lemma is_array_canon v : is_array (canon v) = is_array v.
Proof. by destruct v. Qed.

Lemma canon_object m : canon (JObject m) = JObject (canon_members m).
Proof. done. Qed.

Lemma jget_forall (P : json -> Prop) m k : P JNull -> Forall (fun kv => P (snd kv)) m -> P (jget m k).
Proof.
  intros Hn Hf. unfold jget. destruct (jlookup k m) eqn:E; [|done]. apply jlookup_in in E.
  rewrite Forall_forall in Hf. exact (Hf _ E).
Qed.

Lemma textFromContent_canon v : distinct v -> textFromContent (canon v) = textFromContent v.
Proof.
  induction v as [| | | |l IH|m IH] using json_nested_ind; intros Hd; try done.
  - apply distinct_array in Hd. cbn [canon textFromContent]. f_equal. f_equal. rewrite map_map. apply map_ext_in.
    intros x Hx%list_elem_of_In. rewrite Forall_forall in IH, Hd. auto.
  - apply distinct_object in Hd as [Hn Hd]. rewrite canon_object, !textFromContent_object.
    assert (forall k, textFromContent (jget (canon_members m) k) = textFromContent (jget m k)) as E.
    { intros k. rewrite jget_canon by done.
      assert (Forall (fun kv => textFromContent (canon (snd kv)) = textFromContent (snd kv)) m) as Hf.
      { apply Forall_forall. intros kv Hkv. rewrite Forall_forall in IH, Hd. auto. }
      by apply (jget_forall (fun v => textFromContent (canon v) = textFromContent v)). }
    cbn [map]. rewrite !E. by rewrite jget_canon, is_array_canon.
Qed.

(** ** The order of members does not matter *)

Section OrderFree.
Context `{GoDecode} `{GoDecodeError} `{UnicodeTables} `{GoFloat}.

Ltac canon_members_solve Hd :=
  repeat first [rewrite jget_canon by (apply distinct_object in Hd; apply Hd) | rewrite stringValue_canon].

Lemma messageText_canon m : distinct (JObject m) -> messageText (canon_members m) = messageText m.
Proof.
  intros Hd. unfold messageText. cbn [map]. canon_members_solve Hd.
  by rewrite !textFromContent_canon by (by apply distinct_jget).
Qed.

Lemma messageRole_canon m : distinct (JObject m) -> messageRole (canon_members m) = messageRole m.
Proof.
  intros Hd. unfold messageRole. canon_members_solve Hd. pose proof (distinct_jget m "author" Hd) as Ha.
  destruct (jget m "author") as [| | | |l|a]; try done. cbn [canon]. fold (canon_members a). canon_members_solve Ha. done.
Qed.

Lemma parseTimestamp_canon v : parseTimestamp (canon v) = parseTimestamp v.
Proof. by destruct v. Qed.

Lemma parseMessage_canon v node parent : distinct v -> parseMessage (canon v) node parent = parseMessage v node parent.
Proof.
  intros Hd. destruct v as [| | | |l|m]; try done. rewrite canon_object. unfold parseMessage, message_time.
  rewrite messageRole_canon, messageText_canon by done. canon_members_solve Hd. by rewrite !parseTimestamp_canon.
Qed.

Lemma parse_messages_canon id index l : Forall distinct l -> parse_messages id index (map canon l) = parse_messages id index l.
Proof.
  intros Hf. revert index. induction Hf as [|x l Hx _ IH]; intros index; [done|]. cbn [map parse_messages].
  by rewrite IH, parseMessage_canon.
Qed.

Lemma parse_nodes_canon id m nodes : distinct (JObject m) -> parse_nodes id (canon_members m) nodes = parse_nodes id m nodes.
Proof.
  intros Hd. induction nodes as [|n nodes IH]; [done|]. cbn [parse_nodes]. rewrite IH. canon_members_solve Hd.
  pose proof (distinct_jget m n Hd) as Hn. destruct (jget m n) as [| | | |l|node]; try done. cbn [canon]. fold (canon_members node).
  canon_members_solve Hn. rewrite parseMessage_canon by by apply distinct_jget.
  destruct (jget node "children") as [| | | |l|]; try done. cbn [canon].
  assert (map stringValue (map canon l) = map stringValue l) as ->; [|done].
  rewrite map_map. apply map_ext. intros x. by rewrite stringValue_canon.
Qed.

Lemma parseConversation_canon m index : distinct (JObject m) -> parseConversation (canon_members m) index = parseConversation m index.
Proof.
  intros Hd. unfold parseConversation. canon_members_solve Hd.
  pose proof (distinct_jget m "messages" Hd) as Hm. pose proof (distinct_jget m "mapping" Hd) as Hp.
  set (id := firstNonEmpty _). set (title := firstNonEmpty _).
  destruct (jget m "messages") as [| | | |l|mm]; cbn [canon].
  5:{ rewrite parse_messages_canon; [done|by apply distinct_array]. }
  all: destruct (jget m "mapping") as [| | | |l'|mapping]; try done; rewrite canon_object, parse_nodes_canon, sort_keys_canon; done.
Qed.

Lemma parse_conversations_canon index l : Forall distinct l -> parse_conversations index (map canon l) = parse_conversations index l.
Proof.
  intros Hf. revert index. induction Hf as [|x l Hx _ IH]; intros index; [done|].
  destruct x as [| | | |x|m]; cbn [map]; cbn [canon parse_conversations]; rewrite IH; try done.
  fold (canon_members m). by rewrite parseConversation_canon.
Qed.

Lemma conversationsValue_canon v : distinct v -> conversationsValue (canon v) = map canon <$> conversationsValue v.
Proof.
  intros Hd. destruct v as [| | | |l|m]; try done. rewrite canon_object. cbn [conversationsValue]. canon_members_solve Hd.
  by destruct (jget m "conversations").
Qed.

Lemma conversationsValue_distinct v l : distinct v -> conversationsValue v = Some l -> Forall distinct l.
Proof.
  intros Hd. destruct v as [| | | |l'|m]; try done; simpl.
  - intros [= <-]. by apply distinct_array.
  - intros Hl. pose proof (distinct_jget m "conversations" Hd) as Hc.
    destruct (jget m "conversations"); try done. injection Hl as <-. by apply distinct_array.
Qed.
End OrderFree.

(** Two decoders that give the same Go values, with the members of objects in
    any order. *)
Definition same_decoders (D D' : GoDecode) : Prop :=
  @time_Parse D = @time_Parse D' /\
  forall s, match @json_Unmarshal D s, @json_Unmarshal D' s with
            | Some v, Some v' => same_value v v'
            | None, None => True
            | _, _ => False
            end.

Lemma parse_same_times `{GoDecodeError} `{UnicodeTables} `{GoFloat} (D D' : GoDecode) l index :
  @time_Parse D = @time_Parse D' ->
  @parse_conversations D _ _ index l = @parse_conversations D' _ _ index l.
Proof. destruct D as [u ma t], D' as [u' ma' t']. simpl. by intros ->. Qed.

(** C33: The chunks of a ChatGPT export depend on the decoded Go value alone, not
    on the order in which the members of its objects, in particular the nodes of
    a mapping, are visited: decoders that agree up to that order give the same
    chunks with the same identifiers, the same issues and the same errors. *)
Theorem chatgpt_order_free `{GoDecodeError} `{UnicodeTables} `{GoFloat} (D D' : GoDecode) source input :
  same_decoders D D' -> @Chunks D _ _ _ source input = @Chunks D' _ _ _ source input.
Proof.
  intros [Ht Hu]. unfold Chunks, Parse. destruct (_ ==s ""); [done|].
  destruct (read_bounded _ _ _ _ _) as [data|e]; [|done]. cbn [mbind result_bind]. specialize (Hu data).
  destruct (@json_Unmarshal D data) as [v|], (@json_Unmarshal D' data) as [v'|]; try done.
  destruct Hu as (Hd&Hd'&Hc). rewrite <- (jsonDepth_canon v), <- (jsonDepth_canon v'), Hc.
  destruct (_ <? _); [done|]. pose proof (conversationsValue_canon v Hd) as E. pose proof (conversationsValue_canon v' Hd') as E'.
  rewrite Hc in E. rewrite E in E'. clear E.
  pose proof (conversationsValue_distinct v) as F. pose proof (conversationsValue_distinct v') as F'.
  destruct (conversationsValue v) as [l|], (conversationsValue v') as [l'|]; try done. injection E' as E'.
  rewrite <- (parse_conversations_canon (H := D) 1 l) by auto. rewrite <- (parse_conversations_canon (H := D') 1 l') by auto.
  by rewrite E', (parse_same_times D D').
Qed.

(** ** Shape and turns *)

Definition cgpt_shape (source : Source) : Chunk -> Prop := located_shape (FilePath source) (MachineID source).

Lemma chatgpt_turn_ok source user assistant conversation timestamp line :
  cv_ID conversation <> "" -> 1 <= line ->
  Forall (turn_ok (cgpt_shape source)) (turnChunks user assistant conversation timestamp source line).
Proof.
  intros Hid Hl. apply parts_turn_ok.
  - intros p Hin. eapply codex_split_nonempty; [|exact Hin]. done.
  - intros id part parent Hi Hpar Hpart. split; [|done]. split; [|done]. constructor; simpl; auto; try done. lia.
Qed.

Lemma firstNonEmpty_default3 x y d : d <> "" -> firstNonEmpty [x; y; d] <> "".
Proof.
  intros Hd. change (firstNonEmpty [x; y; d]) with (if x !=s "" then x else firstNonEmpty [y; d]).
  destruct (x ==s "") eqn:E; simpl; [by apply firstNonEmpty_default|by apply String.eqb_neq].
Qed.

Lemma parseConversation_id `{GoDecode} `{UnicodeTables} `{GoFloat} m index : cv_ID (fst (parseConversation m index)) <> "".
Proof.
  unfold parseConversation. set (id := firstNonEmpty _) at 1.
  assert (id <> "") by apply firstNonEmpty_default3, Itoa_nonempty.
  destruct (jget m "messages"); [..|destruct (parse_messages _ _ _)|]; try done;
    (destruct (jget m "mapping"); [..|destruct (parse_nodes _ _ _)]; done).
Qed.

Lemma parse_conversations_ids `{GoDecode} `{UnicodeTables} `{GoFloat} index l :
  Forall (fun c => cv_ID c <> "") (fst (parse_conversations index l)).
Proof.
  revert index. induction l as [|x l IH]; intros index; [constructor|]. specialize (IH (index + 1)).
  destruct x as [| | | |x|m]; cbn [parse_conversations]; try (by destruct (parse_conversations _ l)).
  pose proof (parseConversation_id m index) as Hi. destruct (parseConversation m index) as [c found].
  destruct (parse_conversations _ l). by constructor.
Qed.

Lemma Parse_ids `{GoDecode} `{GoDecodeError} `{UnicodeTables} `{GoFloat} content maxBytes cs issues :
  Parse content maxBytes = Ok (cs, issues) -> Forall (fun c => cv_ID c <> "") cs.
Proof.
  unfold Parse. intros Hp. apply bind_ok in Hp as (data&_&Hp). destruct (json_Unmarshal data) as [v|]; [|done].
  destruct (_ <? _); [done|]. destruct (conversationsValue v) as [l|]; [|done]. injection Hp as Hp.
  pose proof (parse_conversations_ids 1 l) as Hf. by rewrite Hp in Hf.
Qed.

Lemma pair_turns_index {M} (role : M -> turn_role) pending start l :
  Forall (fun p => start <= snd p) (pair_turns role pending start l).
Proof.
  revert pending start. induction l as [|m l IH]; intros pending start; simpl; [constructor|].
  assert (forall q, Forall (fun p => start <= snd p) (pair_turns role q (start + 1) l)) as IH'.
  { intros q. eapply Forall_impl; [apply IH|]. intros p Hp. simpl in *. lia. }
  destruct (role m), pending; auto. constructor; [simpl; lia|auto].
Qed.

Lemma conversation_chunks_good source conversations :
  Forall (fun c => cv_ID c <> "") conversations ->
  source_good (cgpt_shape source) (concat (imap (conversation_chunks source) conversations)).
Proof.
  intros Hp. apply source_good_concat, Forall_forall. intros l Hl. apply elem_of_lookup_imap in Hl as (ci&c&->&Hc).
  apply source_good_concat, Forall_map. eapply Forall_impl; [apply pair_turns_index|]. intros [[u m] mi] Hmi. simpl in Hmi.
  apply turns_good, chatgpt_turn_ok; [|lia]. rewrite Forall_forall in Hp. apply Hp. by eapply list_elem_of_lookup_2.
Qed.

Lemma chatgpt_result `{GoDecode} `{GoDecodeError} `{UnicodeTables} `{GoFloat} source input chunks issues :
  Chunks source input = Ok (chunks, issues) -> source_good (cgpt_shape source) chunks.
Proof.
  unfold Chunks. destruct (_ ==s ""); [done|]. intros Hc. apply bind_ok in Hc as ([cs is']&Hp&Hc). injection Hc as <- _.
  eapply conversation_chunks_good, Parse_ids, Hp.
Qed.

(** Whatever a ChatGPT export holds, every chunk made from it has the shape
    the store requires, with a session and a line, and a chunk is made exactly
    for every pair of a question and its answer: a non-blank message of the
    assistant or a tool that follows a non-blank user message with only blank
    messages and other roles between them, filed under the line
    [(conversation+1)*100000+message+1]. *)
Theorem chatgpt_turns_exact `{GoDecode} `{GoDecodeError} `{UnicodeTables} `{GoFloat} source input conversations issues :
  FilePath source <> "" -> Parse input (MaxBytes source) = Ok (conversations, issues) ->
  exists chunks, Chunks source input = Ok (chunks, issues) /\ Forall (cgpt_shape source) chunks /\ links_closed chunks /\
    forall c, c ∈ chunks <->
      exists ci conversation user answer mi,
        conversations !! ci = Some conversation /\ pair_at message_role (cv_Messages conversation) user answer mi /\
        let line := (Z.of_nat ci + 1) * 100000 + Z.of_nat mi + 1 in
        c ∈ turnChunks user answer conversation (messageTimestamp answer line) source line.
Proof.
  intros Hf Hp. apply String.eqb_neq in Hf. unfold Chunks. rewrite Hf, Hp. cbn [mbind result_bind].
  eexists. split; [reflexivity|]. split; [|split].
  1,2: eapply conversation_chunks_good, Parse_ids, Hp.
  intros c. rewrite elem_of_concat. split.
  - intros (l&Hl&Hc). apply elem_of_lookup_imap in Hl as (ci&conv&->&Hci). apply elem_of_concat in Hc as (l&Hl&Hc).
    apply list_elem_of_fmap in Hl as ([[u m] mi]&->&Hl). apply pair_turns_elem in Hl as (j&->&[Hj|[? _]]); [|done].
    exists ci, conv, u, m, j. done.
  - intros (ci&conv&u&m&j&Hci&Hj&Hc). exists (conversation_chunks source ci conv). split.
    + apply elem_of_lookup_imap. eauto.
    + apply elem_of_concat. eexists. split; [|exact Hc]. apply list_elem_of_fmap. exists (u, m, Z.of_nat j).
      split; [done|]. apply pair_turns_elem. exists j. split; [done|by left].
Qed.

(** The order of a mapping is total, so the sorted messages are determined by it:
    those with a time come first and by time. *)
Lemma message_less_asym a b : message_less a b = true -> message_less b a = false.
Proof.
  unfold message_less, time_Equal, Before. destruct (m_HasTime a), (m_HasTime b); simpl; try done.
  - destruct (Z.eqb_spec (instant (m_Timestamp a)) (instant (m_Timestamp b))) as [E|E]; simpl.
    + rewrite E, Z.eqb_refl. simpl. apply ltb_asym.
    + destruct (Z.eqb_spec (instant (m_Timestamp b)) (instant (m_Timestamp a))); [congruence|]. simpl. lia.
  - apply ltb_asym.
Qed.

Lemma message_less_weak a b c : message_less b a = false -> message_less c b = false -> message_less c a = false.
Proof.
  unfold message_less, time_Equal, Before.
  destruct (m_HasTime a), (m_HasTime b), (m_HasTime c); simpl; try done; rewrite ?andb_true_l; try apply ltb_weak.
  repeat match goal with |- context [?x =? ?y] => destruct (Z.eqb_spec x y) end; simpl; try lia; try congruence; try apply ltb_weak.
Qed.

Lemma sorted_messages messages :
  StronglySorted (fun a b => m_HasTime b = true -> m_HasTime a = true /\ instant (m_Timestamp a) <= instant (m_Timestamp b))
    (SliceStable message_less messages).
Proof.
  pose proof (SliceStable_sorted message_less message_less_asym message_less_weak messages) as Hs.
  induction Hs as [|a l _ IH Hf]; constructor; [done|]. eapply Forall_impl; [exact Hf|]. intros b Hb Ht.
  revert Hb. unfold in_order, message_less, time_Equal, Before. rewrite Ht. destruct (m_HasTime a); simpl; [|done].
  destruct (Z.eqb_spec (instant (m_Timestamp b)) (instant (m_Timestamp a))); simpl; lia.
Qed.

(** ** Witnesses *)

Module ChatGptSamples.

Definition node (role text : string) (at_ : Z) : json :=
  JObject [("message", JObject [("author", JObject [("role", JString role)]);
                                ("content", JObject [("parts", JArray [JString text])]);
                                ("create_time", JNumber (float_of_int at_))])].
Definition export (nodes : list (string * json)) : json :=
  JArray [JObject [("id", JString "c1"); ("mapping", JObject nodes)]].

Definition decoder (nodes : list (string * json)) : GoDecode := {|
  json_Unmarshal s := if s ==s "E" then Some (export nodes) else None;
  json_Marshal _ := None;
  time_Parse _ := None
|}.
#[local] Instance decode_error : GoDecodeError := fun _ => Sentinel "json".
#[local] Instance tables : UnicodeTables := fun s => s.
#[local] Instance floats : GoFloat := fun _ => 0.

Definition nodes : list (string * json) :=
  [("b", node "user" "ask" 100); ("a", node "assistant" "answer" 200); ("r", JObject [])].
Definition nodes' : list (string * json) :=
  [("r", JObject []); ("a", node "assistant" "answer" 200); ("b", node "user" "ask" 100)].

Definition source : Source := mkSource "/h/conversations.json" "m1" 0.

(** The answer comes after the question although its node is before it. *)
Example chatgpt_chunks_made :
  (match Chunks (H := decoder nodes) source "E" with
   | Ok (c, _) => map (fun c => (c_Content c, c_SourceLine c)) c
   | Fail _ => []
   end) = [("In ChatGPT conversation Untitled, user asked:" +:+ newline +:+ "ask" +:+ newline +:+ newline +:+
            "ChatGPT responded:" +:+ newline +:+ "answer", 100002)].
Proof. vm_compute. reflexivity. Qed.

Lemma chatgpt_order_free_witness :
  @Chunks (decoder nodes) _ _ _ source "E" = @Chunks (decoder nodes') _ _ _ source "E".
Proof.
  apply (chatgpt_order_free (decoder nodes) (decoder nodes')). split; [reflexivity|]. intros s.
  cbn [decoder json_Unmarshal]. destruct (s ==s "E"); [|exact I]. split; [|split].
  - cbn [export distinct fold_right nodes node jkeys map fst snd]. repeat split; apply (bool_decide_unpack (NoDup _)); vm_compute; exact I.
  - cbn [export distinct fold_right nodes' node jkeys map fst snd]. repeat split; apply (bool_decide_unpack (NoDup _)); vm_compute; exact I.
  - reflexivity.
Defined.

Definition conversations : list Conversation :=
  match Parse (H := decoder nodes) "E" 0 with Ok (c, _) => c | Fail _ => [] end.

Lemma chatgpt_turns_exact_witness :
  exists chunks, Chunks (H := decoder nodes) source "E" = Ok (chunks, []) /\ Forall (cgpt_shape source) chunks /\
    links_closed chunks /\
    forall c, c ∈ chunks <->
      exists ci conversation user answer mi,
        conversations !! ci = Some conversation /\ pair_at message_role (cv_Messages conversation) user answer mi /\
        let line := (Z.of_nat ci + 1) * 100000 + Z.of_nat mi + 1 in
        c ∈ turnChunks user answer conversation (messageTimestamp answer line) source line.
Proof. apply chatgpt_turns_exact; [discriminate|]. vm_compute. reflexivity. Defined.
End ChatGptSamples.
