(* ===== verification/ClaudeAppSource.v ===== *)
(** * The Claude app source

    [internal/history/source/claudeapp/claudeapp.go]: a conversations export, and
    one chunk for every question with its answer. *)
From Stdlib Require Import ZArith Lia Bool.
From Stdlib Require Import String Ascii.
From stdpp Require Import base tactics option list strings.
From S2P Require Import Prelude GoStrings StoreTypes StorePlans GoTime SplitContent SourceText ClaudeSourceSpec.
From S2P Require Import SourceJson SourceShape.
Open Scope Z_scope.

Module ClaudeApp.

Definition MaxFileBytes : Z := 10737418240.

Record Source : Type := mkSource { FilePath : string; MachineID : string; MaxBytes : Z }.
Record Issue : Type := mkIssue { i_Conversation : string; i_Message : string; i_Reason : string }.
Record Message : Type := mkMessage {
  m_ID : string;
  m_Role : string;
  m_Author : string;
  m_Content : string;
  m_Artifacts : list string;
  m_Timestamp : Time;
  m_HasTime : bool
}.
Record Conversation : Type := mkConversation { cv_ID : string; cv_Title : string; cv_Messages : list Message }.

(** [value]: the text of a string, of the elements of an array, or of the first
    member of an object that has one. *)
Fixpoint value (v : json) : string :=
  match v with
  | JString s => s
  | JArray l => Join (List.filter (fun t => t !=s "") (map value l)) newline
  | JObject m =>
      let texts := map (fun kv => (fst kv, value (snd kv))) m in
      let text k := default "" (assoc k texts) in
      firstNonEmpty [text "text"; text "content"; text "message"; text "value"]
  | _ => ""
  end.

Definition content (o : list (string * json)) : string :=
  firstNonEmpty (map (fun k => value (jget o k)) ["text"; "content"; "message"]).

(** [first] of the values that are not nil. *)
Definition non_nil (v w : json) : json := match v with JNull => w | _ => v end.

Section Parse.
Context `{GoDecode} `{UnicodeTables}.

Definition role (o : list (string * json)) : string * string :=
  let v := non_nil (non_nil (jget o "sender") (jget o "role")) (jget o "author") in
  let v := match v with JObject a => non_nil (jget a "role") (jget a "name") | _ => v end in
  let s := ToLower (stringValue v) in
  let s := if s ==s "human" then "user" else s in
  let s := if s ==s "claude" then "assistant" else s in
  (s, stringValue v).

Definition stamp (s : string) : Time * bool :=
  if s ==s "" then (zero_time, false)
  else match time_Parse s with
       | Some v => (UTC v, true)
       | None => (zero_time, false)
       end.

Definition jsonText (v : json) : string := default "" (json_Marshal v).

Definition message (v : json) (i : Z) : option Message :=
  match v with
  | JObject o =>
      let '(r, a) := role o in
      let '(at_, has) := stamp (firstNonEmpty [stringValue (jget o "created_at"); stringValue (jget o "createdAt");
                                               stringValue (jget o "timestamp")]) in
      let artifacts k := match jget o k with JArray l => map jsonText l | _ => [] end in
      Some (mkMessage (firstNonEmpty [stringValue (jget o "uuid"); stringValue (jget o "id");
                                      stringValue (jget o "message_id"); Itoa i])
              r a (content o) (concat (map artifacts ["artifacts"; "tool_uses"; "tools"])) at_ has)
  | _ => None
  end.

Fixpoint parse_messages (id : string) (j : Z) (l : list json) : list Message * list Issue :=
  match l with
  | [] => ([], [])
  | x :: rest =>
      let '(messages, issues) := parse_messages id (j + 1) rest in
      match message x j with
      | Some m => (m :: messages, issues)
      | None => (messages, mkIssue id (Itoa j) "message_not_object" :: issues)
      end
  end.

Definition parse_conversation (o : list (string * json)) (i : Z) : Conversation * list Issue :=
  let id := firstNonEmpty [stringValue (jget o "uuid"); stringValue (jget o "id"); stringValue (jget o "conversation_id"); Itoa i] in
  let title := firstNonEmpty [stringValue (jget o "name"); stringValue (jget o "title"); "Untitled"] in
  let messages := match jget o "chat_messages" with
                  | JArray l => l
                  | _ => match jget o "messages" with JArray l => l | _ => [] end
                  end in
  let '(messages, issues) := parse_messages id 1 messages in
  (mkConversation id title messages, issues).

Fixpoint parse_conversations (i : Z) (l : list json) : list Conversation * list Issue :=
  match l with
  | [] => ([], [])
  | JObject o :: rest =>
      let '(c, found) := parse_conversation o i in
      let '(out, issues) := parse_conversations (i + 1) rest in
      (c :: out, found ++ issues)
  | _ :: rest =>
      let '(out, issues) := parse_conversations (i + 1) rest in
      (out, mkIssue (Itoa i) "" "conversation_not_object" :: issues)
  end.

Definition convos (v : json) : option (list json) :=
  match v with
  | JArray l => Some l
  | JObject o => match jget o "conversations" with JArray l => Some l | _ => None end
  | _ => None
  end.

Definition Parse (input : string) (max : Z) : result (list Conversation * list Issue) :=
  b ← read_bounded MaxFileBytes "Claude App byte limit is invalid" "Claude App export exceeds %d bytes" input max;
  match json_Unmarshal b with
  | None => Fail (errors_New "invalid Claude App JSON")
  | Some v =>
      if MaxJSONDepth <? jsonDepth v 0 then Fail (errors_New "Claude App JSON too deep")
      else match convos v with
           | None => Fail (errors_New "Claude App conversations invalid")
           | Some raw => Ok (parse_conversations 1 raw)
           end
  end.
End Parse.

(** ** Chunks *)

(** [t.Format("2006-01-02 15:04:05.999999999+00:00")], in the location of [t];
    only UTC times are given to it ([claudeapp_times_utc]). *)
Definition key (t : Time) : string := format_seconds t +:+ format_fraction (Nanosecond t) +:+ "+00:00".

Definition turn_time (user answer : Message) (line : Z) : Time :=
  let at_ := if m_HasTime answer then m_Timestamp answer else m_Timestamp user in
  if IsZero at_ then time_Unix_UTC (wrap64 (line * 1000)) else at_.

Definition turn_content (title : string) (user answer : Message) : string :=
  "In Claude app conversation " +:+ title +:+ ", user asked:" +:+ newline +:+ m_Content user +:+ newline +:+ newline +:+
  "Claude responded:" +:+ newline +:+ m_Content answer.

Definition turn_chunk (user answer : Message) (c : Conversation) (source : Source) (line : Z) : Chunk :=
  let at_ := turn_time user answer line in
  let text := turn_content (cv_Title c) user answer in
  mkChunk (chunkID text (cv_ID c) (key at_)) text [] "turn" (cv_ID c) "/claude-app/export" "Claude App" at_
    (m_ID user) (m_ID answer) "" "" "" (FilePath source) line "" [] (MachineID source).

Definition message_role (m : Message) : turn_role :=
  if m_Content m ==s "" then Skips
  else if m_Role m ==s "user" then Asks
  else if m_Role m ==s "assistant" then Answers
  else Skips.

Definition conversation_chunks (source : Source) (ci : nat) (c : Conversation) : list Chunk :=
  map (fun '(user, answer, mi) => turn_chunk user answer c source ((Z.of_nat ci + 1) * 100000 + mi + 1))
    (pair_turns message_role None 0 (cv_Messages c)).

Definition Chunks `{GoDecode} `{UnicodeTables} (source : Source) (input : string) : result (list Chunk * list Issue) :=
  if FilePath source ==s "" then Fail (errors_New "Claude App source identity is required")
  else
    parsed ← Parse input (MaxBytes source);
    let '(cs, issues) := parsed in
    Ok (concat (imap (conversation_chunks source) cs), issues).
End ClaudeApp.

(** ** Properties of the Claude app source *)
Import ClaudeApp.

Definition capp_shape (source : Source) : Chunk -> Prop := located_shape (FilePath source) (MachineID source).

(** What parsing guarantees of a conversation: an identifier, and times in UTC. *)
Definition conversation_ok (c : Conversation) : Prop :=
  cv_ID c <> "" /\ Forall (fun m => repr (m_Timestamp m) = 0) (cv_Messages c).

Section Parsed.
Context `{GoDecode} `{UnicodeTables}.

Lemma stamp_utc s : repr (fst (stamp s)) = 0.
Proof. unfold stamp. destruct (_ ==s _); [done|]. by destruct (time_Parse s). Qed.

Lemma message_utc v i m : message v i = Some m -> repr (m_Timestamp m) = 0.
Proof.
  destruct v as [| | | |l|o]; try done. unfold message. destruct (role o) as [r a].
  pose proof (stamp_utc (firstNonEmpty [stringValue (jget o "created_at"); stringValue (jget o "createdAt"); stringValue (jget o "timestamp")])) as Hs.
  destruct (stamp _) as [t has]. by intros [= <-].
Qed.

Lemma parse_messages_utc id j l : Forall (fun m => repr (m_Timestamp m) = 0) (fst (parse_messages id j l)).
Proof.
  revert j. induction l as [|x l IH]; intros j; [constructor|]. specialize (IH (j + 1)). cbn [parse_messages].
  destruct (parse_messages id (j + 1) l) as [ms is']. destruct (message x j) as [m|] eqn:E; [|done].
  constructor; [by eapply message_utc|done].
Qed.

Lemma firstNonEmpty_in l d : d <> "" -> List.In d l -> firstNonEmpty l <> "".
Proof.
  intros Hd. induction l as [|x l IH]; simpl; [done|]. intros [->|Hin].
  - destruct (d ==s "") eqn:E; [by apply String.eqb_eq in E|done].
  - destruct (x ==s "") eqn:E; simpl; [by apply IH|by apply String.eqb_neq].
Qed.

Lemma parse_conversation_ok o i : conversation_ok (fst (parse_conversation o i)).
Proof.
  unfold parse_conversation. set (id := firstNonEmpty _) at 1. set (l := match jget o "chat_messages" with JArray _ => _ | _ => _ end).
  pose proof (parse_messages_utc id 1 l) as Hm. destruct (parse_messages id 1 l) as [ms is']. split; [|done].
  apply (firstNonEmpty_in _ (Itoa i)); [apply Itoa_nonempty|simpl; auto].
Qed.

Lemma capp_conversations_ok i l : Forall conversation_ok (fst (parse_conversations i l)).
Proof.
  revert i. induction l as [|x l IH]; intros i; [constructor|]. specialize (IH (i + 1)).
  destruct x as [| | | |x|o]; cbn [parse_conversations]; try (by destruct (parse_conversations _ l)).
  pose proof (parse_conversation_ok o i) as Hc. destruct (parse_conversation o i) as [c found].
  destruct (parse_conversations _ l). by constructor.
Qed.

Lemma claudeapp_Parse_ok input max cs issues : Parse input max = Ok (cs, issues) -> Forall conversation_ok cs.
Proof.
  unfold Parse. intros Hp. apply bind_ok in Hp as (b&_&Hp). destruct (json_Unmarshal b) as [v|]; [|done].
  destruct (_ <? _); [done|]. destruct (convos v) as [l|]; [|done]. injection Hp as Hp.
  pose proof (capp_conversations_ok 1 l) as Hf. by rewrite Hp in Hf.
Qed.
End Parsed.

(** The times given to [key] are in UTC, so it agrees with the key of the other
    sources. *)
Lemma claudeapp_times_utc c u a mi line :
  conversation_ok c -> pair_at message_role (cv_Messages c) u a mi ->
  repr (turn_time u a line) = 0 /\ key (turn_time u a line) = timestampKey (turn_time u a line).
Proof.
  intros [_ Hf] (i&_&Hu&_&Ha&_). rewrite Forall_forall in Hf.
  apply list_elem_of_lookup_2 in Hu, Ha. split; [|done].
  unfold turn_time. set (t := if m_HasTime a then _ else _).
  assert (repr t = 0) by (unfold t; destruct (m_HasTime a); auto). by destruct (IsZero t).
Qed.

Lemma capp_turn_ok source u a c line :
  cv_ID c <> "" -> 1 <= line -> turn_ok (capp_shape source) (turn_chunk u a c source line).
Proof.
  intros Hid Hl. split; [|done]. split; [|done]. constructor; simpl; auto; try done; [apply chunkID_hex|lia].
Qed.

(** A turn whose answer is timed, or whose line is, has a time the store takes. *)
Lemma turn_time_nonzero u a line : 1 <= line -> line * 1000 <= max_int64 -> IsZero (turn_time u a line) = false.
Proof.
  intros Hl Hm. unfold turn_time. set (t := if m_HasTime a then _ else _). destruct (IsZero t) eqn:E; [|done].
  unfold IsZero, time_Unix_UTC. cbn [instant]. rewrite wrap64_id; [|unfold is_int64, max_int64 in *; lia]. apply Z.eqb_neq. unfold unix_epoch. lia.
Qed.

(** A chunk of the result is the turn of a pair. *)
Lemma capp_elem source conversations c :
  c ∈ concat (imap (conversation_chunks source) conversations) <->
  exists ci conv u a mi, conversations !! ci = Some conv /\ pair_at message_role (cv_Messages conv) u a mi /\
    c = turn_chunk u a conv source ((Z.of_nat ci + 1) * 100000 + Z.of_nat mi + 1).
Proof.
  rewrite elem_of_concat. split.
  - intros (l&Hl&Hc). apply elem_of_lookup_imap in Hl as (ci&conv&->&Hci).
    apply list_elem_of_fmap in Hc as ([[u m] mi]&->&Hl). apply pair_turns_elem in Hl as (j&->&[Hj|[? _]]); [|done].
    by exists ci, conv, u, m, j.
  - intros (ci&conv&u&m&j&Hci&Hj&->). exists (conversation_chunks source ci conv).
    split; [apply elem_of_lookup_imap; eauto|]. apply list_elem_of_fmap. exists (u, m, Z.of_nat j).
    split; [done|]. apply pair_turns_elem. exists j. split; [done|by left].
Qed.

Lemma capp_good source conversations :
  Forall conversation_ok conversations ->
  source_good (capp_shape source) (concat (imap (conversation_chunks source) conversations)).
Proof.
  intros Hp. apply turns_good, Forall_forall. intros c (ci&conv&u&a&mi&Hci&_&->)%capp_elem. apply capp_turn_ok; [|lia].
  rewrite Forall_forall in Hp. apply Hp. by eapply list_elem_of_lookup_2.
Qed.

Lemma claudeapp_result `{GoDecode} `{UnicodeTables} source input chunks issues :
  Chunks source input = Ok (chunks, issues) -> source_good (capp_shape source) chunks.
Proof.
  unfold Chunks. destruct (_ ==s ""); [done|]. intros Hc. apply bind_ok in Hc as ([cs is']&Hp&Hc). injection Hc as <- _.
  eapply capp_good, claudeapp_Parse_ok, Hp.
Qed.

(** A Claude app export gives exactly one chunk for every pair of a question
    and its answer, that is a non-empty assistant message that follows a non-empty
    user message with nothing but empty messages and other roles between them; the
    chunk has the shape the store requires, a session and a line, the identifiers
    of the two messages, and a time in UTC that is not the zero time. *)
Theorem claudeapp_turns_exact `{GoDecode} `{UnicodeTables} source input conversations issues :
  FilePath source <> "" -> Parse input (MaxBytes source) = Ok (conversations, issues) ->
  exists chunks, Chunks source input = Ok (chunks, issues) /\ Forall (capp_shape source) chunks /\
    forall c, c ∈ chunks <->
      exists ci conversation user answer mi,
        conversations !! ci = Some conversation /\ pair_at message_role (cv_Messages conversation) user answer mi /\
        let line := (Z.of_nat ci + 1) * 100000 + Z.of_nat mi + 1 in
        c = turn_chunk user answer conversation source line /\ c_UserUUID c = m_ID user /\ c_AssistantUUID c = m_ID answer /\
        repr (c_Timestamp c) = 0 /\ (line * 1000 <= max_int64 -> IsZero (c_Timestamp c) = false).
Proof.
  intros Hf Hp. apply String.eqb_neq in Hf. unfold Chunks. rewrite Hf, Hp. cbn [mbind result_bind].
  apply claudeapp_Parse_ok in Hp. eexists. split; [reflexivity|]. split; [by apply capp_good|].
  rewrite Forall_forall in Hp. intros c. rewrite capp_elem. split; [|intros (ci&conv&u&a&mi&?&?&->&_); eauto 9].
    intros (ci&conv&u&a&mi&Hci&Hpair&->). exists ci, conv, u, a, mi. split; [done|]. split; [done|]. cbv zeta.
    split; [done|]. split; [done|]. split; [done|].
    split; [eapply claudeapp_times_utc; [apply Hp; by eapply list_elem_of_lookup_2|done]|].
    intros Hm. apply turn_time_nonzero; [lia|done].
Qed.

(** ** Witness *)

Module ClaudeAppSamples.

#[local] Instance decode : GoDecode := {|
  json_Unmarshal s :=
    if s ==s "E" then
      Some (JArray [JObject [("uuid", JString "c1"); ("name", JString "Plan");
        ("chat_messages", JArray [
          JObject [("sender", JString "human"); ("uuid", JString "q"); ("text", JString "ask")];
          JObject [("sender", JString "system"); ("text", JString "note")];
          JObject [("sender", JString "assistant"); ("uuid", JString "r");
                   ("content", JArray [JObject [("type", JString "text"); ("text", JString "answer")]])]])]])
    else None;
  json_Marshal _ := None;
  time_Parse _ := None
|}.
#[local] Instance tables : UnicodeTables := fun s => s.

Definition source : Source := mkSource "/h/conversations.json" "m1" 0.
Definition conversations : list Conversation := match Parse "E" 0 with Ok (c, _) => c | Fail _ => [] end.

Example claudeapp_chunks_made :
  (match Chunks source "E" with
   | Ok (c, _) => map (fun c => (c_UserUUID c, c_AssistantUUID c, c_SourceLine c)) c
   | Fail _ => []
   end) = [("q", "r", 100003)].
Proof. vm_compute. reflexivity. Qed.

Lemma claudeapp_turns_exact_witness :
  exists chunks, Chunks source "E" = Ok (chunks, []) /\ Forall (capp_shape source) chunks /\
    forall c, c ∈ chunks <->
      exists ci conversation user answer mi,
        conversations !! ci = Some conversation /\ pair_at message_role (cv_Messages conversation) user answer mi /\
        let line := (Z.of_nat ci + 1) * 100000 + Z.of_nat mi + 1 in
        c = turn_chunk user answer conversation source line /\ c_UserUUID c = m_ID user /\ c_AssistantUUID c = m_ID answer /\
        repr (c_Timestamp c) = 0 /\ (line * 1000 <= max_int64 -> IsZero (c_Timestamp c) = false).
Proof. apply claudeapp_turns_exact; [discriminate|]. vm_compute. reflexivity. Defined.
End ClaudeAppSamples.
