(* ===== verification/AntigravitySource.v ===== *)
(** * The Antigravity source

    [internal/history/source/antigravity/antigravity.go]: JSONL transcripts with
    one turn and its file changes for every event, and legacy binary blobs, whose
    printable text becomes one chunk. *)
From Stdlib Require Import ZArith Lia Bool.
From Stdlib Require Import String Ascii.
From stdpp Require Import base tactics option list strings.
From S2P Require Import Prelude GoStrings GoPath StoreTypes StorePlans GoTime SplitContent SourceText Regex.
From S2P Require Import ClaudeSourceSpec SourceJson SourceShape.
Open Scope Z_scope.

Module Antigravity.

Definition MaxFileBytes : Z := 2147483648.

Definition errLarge : error := Sentinel "Antigravity source too large".
(** [p[:n]] with a negative [n]. *)
Definition slice_panic : error := Sentinel "panic: slice bounds out of range".

Record Source : Type := mkSource { FilePath : string; MachineID : string; MaxBytes : Z; Binary : bool }.
Record ToolCall : Type := mkToolCall { t_ID : string; t_Name : string; t_Args : json }.
Record Event : Type := mkEvent {
  v_ID : string;
  v_Source : string;
  v_Type : string;
  v_Status : string;
  v_Content : string;
  v_Thinking : string;
  v_ToolCalls : list ToolCall;
  v_Timestamp : Time;
  v_HasTime : bool;
  v_Step : string
}.
Record op : Type := mkOp { o_path : string; o_kind : string; o_summary : string }.

(** [json.Marshal] of a slice of [ToolCall] structs. *)
Class CallsMarshal : Type := calls_json : list ToolCall -> option string.

Definition first (v f : string) : string := if v !=s "" then v else f.

(** ** Parsing *)

Section Parse.
Context `{GoDecode}.

Definition parse_call (i : nat) (raw : json) : option ToolCall :=
  match raw with
  | JObject call => Some (mkToolCall (first (stringValue (jget call "id")) (Itoa (Z.of_nat i + 1)))
                            (stringValue (jget call "name")) (jget call "args"))
  | _ => None
  end.

Definition parseEvent (raw : string) : Event + string :=
  match json_Unmarshal raw with
  | None => inr "invalid_json"
  | Some v =>
      if MaxJSONDepth <? jsonDepth v 0 then inr "json_too_deep"
      else match v with
      | JObject o =>
          let text k := stringValue (jget o k) in
          let step := if text "step_index" ==s "" then "0" else text "step_index" in
          let calls := match jget o "tool_calls" with JArray l => omap id (imap parse_call l) | _ => [] end in
          let event := mkEvent (text "id") (text "source") (text "type") (text "status") (text "content") (text "thinking") calls in
          let stamp := text "created_at" in
          if stamp ==s "" then inl (event zero_time false step)
          else match time_Parse stamp with
               | None => inr "invalid_timestamp"
               | Some p => inl (event (UTC p) true step)
               end
      | _ => inr "event_not_object"
      end
  end.

(** The events with the numbers of their lines. *)
Definition Parse (content : string) (maxBytes : Z) : result (list (Event * Z) * list Issue) :=
  data ← read_bounded MaxFileBytes "Antigravity byte limit is invalid" "Antigravity source exceeds %d bytes" content maxBytes;
  Ok (parse_lines parseEvent (read_lines data)).
End Parse.

Definition eventContent `{CallsMarshal} (e : Event) : string :=
  let parts := ["Source: " +:+ first (v_Source e) "unknown"; "Type: " +:+ first (v_Type e) "unknown";
                "Status: " +:+ first (v_Status e) "unknown"] in
  let parts := if v_Content e !=s "" then parts ++ ["Content:" +:+ newline +:+ v_Content e] else parts in
  let parts := if v_Thinking e !=s "" then parts ++ ["Thinking:" +:+ newline +:+ v_Thinking e] else parts in
  let parts := match v_ToolCalls e with
               | [] => parts
               | calls => parts ++ ["Tool calls:" +:+ newline +:+ default "" (calls_json calls)]
               end in
  Join parts (newline +:+ newline).

(** ** Operations of the tool calls *)

Definition patch_rules : list (string * string * string) :=
  [("*** Add File: ", "write", "Added file"); ("*** Update File: ", "edit", "Updated file");
   ("*** Delete File: ", "delete", "Deleted file")].

(** Every rule that changes the line gives an operation; there is no [break]. *)
Definition patch_line (line : string) : list op :=
  omap (fun '(p, k, x) =>
          let path := TrimSpace (TrimPrefix line p) in
          if (path !=s line) && (path !=s "") then Some (mkOp path k x) else None)
    patch_rules.

Definition patch (s : string) : list op := concat (map patch_line (Split (ascii_of_N 10) s)).

(** [\b(?:rm|touch)\s+(?:-[^\s]+\s+)?([^\s]+)]. *)
Definition shellRE : regex :=
  RSeq [RWordBoundary; RAlt (RSeq (literal "rm")) (RSeq (literal "touch")); spaces;
        ROpt (RSeq (literal "-" ++ [RPlus not_space; spaces])); argument].

Definition shell (s : string) : list op :=
  match FindSubmatch shellRE s with
  | None => []
  | Some m => if Contains s "rm" then [mkOp m "delete" "Deleted file"] else [mkOp m "write" "Touched file"]
  end.

Definition call_ops `{UnicodeTables} (call : ToolCall) : list op :=
  match t_Args call with
  | JObject args =>
      let path := first (stringValue (jget args "file_path")) (stringValue (jget args "path")) in
      (if path !=s "" then
         [mkOp path (if Contains (ToLower (t_Name call)) "edit" then "edit" else "write") (t_Name call +:+ " tool call")]
       else []) ++
      patch (stringValue (jget args "patch")) ++ shell (stringValue (jget args "command"))
  | JString raw => patch raw ++ shell raw
  | _ => []
  end.

Definition ops `{UnicodeTables} (calls : list ToolCall) : list op := concat (map call_ops calls).

(** ** Chunks *)

Definition op_key (o : op) : string := o_path o +:+ o_kind o.

(** The operations that are kept: the first of each key. *)
Fixpoint unseen (seen : list string) (l : list op) : list op :=
  match l with
  | [] => []
  | o :: rest =>
      if bool_decide (op_key o ∈ seen) then unseen seen rest else o :: unseen (op_key o :: seen) rest
  end.

Definition file_chunk (session : string) (at_ : Time) (source : Source) (line : Z) (parent : string) (o : op) : Chunk :=
  let content := "In Antigravity session " +:+ session +:+ ", file " +:+ o_path o +:+ " was " +:+ o_kind o +:+ "." +:+ newline +:+
                 "Summary: " +:+ o_summary o in
  mkChunk (chunkID content session (Itoa line +:+ ":" +:+ op_key o)) content [] "file_change" session
    ("/antigravity/" +:+ session) "Antigravity Session" at_ "" "" (o_path o) (o_kind o) "" (FilePath source) line parent []
    (MachineID source).

Definition fileChunks (l : list op) (session : string) (at_ : Time) (source : Source) (line : Z) (parent : string) : list Chunk :=
  map (file_chunk session at_ source line parent) (unseen [] l).

Definition chunk (content kind session path name : string) (at_ : Time) (source : Source) (line : Z)
    (model ident parent : string) : Chunk :=
  mkChunk ident content [] kind session path name at_ "" "" "" "" model (FilePath source) line parent [] (MachineID source).

Fixpoint brain_of (parts : list string) : option string :=
  match parts with
  | part :: ((next :: _) as rest) => if part ==s "brain" then Some next else brain_of rest
  | _ => None
  end.

Definition sessionID (path : string) : string :=
  match brain_of (Split slash (Clean path)) with
  | Some id => id
  | None => TrimSuffix (Base path) (Ext path)
  end.

Definition event_chunks `{CallsMarshal} `{UnicodeTables} (source : Source) (located : Event * Z) : list Chunk :=
  let '(event, line) := located in
  let session := sessionID (FilePath source) in
  let at_ := if v_HasTime event then v_Timestamp event else time_Unix_UTC (wrap64 (line * 1000)) in
  let content := eventContent event in
  let base := chunkID content session (v_Step event) in
  let turn := chunk content "turn" session ("/antigravity/" +:+ session) "Antigravity Session" at_ source line "gemini-unknown" base "" in
  let files := fileChunks (ops (v_ToolCalls event)) session at_ source line base in
  attach_children [turn] files ++ files.

(** ** Binary blobs *)

Definition control (c : ascii) : bool := (code c <? 32) && negb (code c =? 10) && negb (code c =? 9).

(** [strings.FieldsFunc] for a set of one-byte runes: the non-empty runs of
    other bytes. *)
Fixpoint FieldsFunc (p : ascii -> bool) (s : string) : list string :=
  match s with
  | EmptyString => []
  | String c r =>
      if p c then FieldsFunc p r
      else match r with
           | EmptyString => [String c ""]
           | String d _ =>
               if p d then String c "" :: FieldsFunc p r
               else match FieldsFunc p r with
                    | [] => [String c ""]
                    | w :: ws => String c w :: ws
                    end
           end
  end.

Definition limit (n : Z) : Z := if n =? 0 then MaxFileBytes else n.

(** [io.ReadAll] of the bounded reader, whose count is not checked here. *)
Definition read_blob (content : string) (maxBytes : Z) : result string :=
  let n := wrap64 (limit maxBytes + 1) in
  if n <? 0 then Fail slice_panic
  else if n <=? len content then Fail errLarge
  else Ok content.

Definition blob_content (path text : string) : string :=
  "Google Antigravity History from " +:+ Base path +:+ newline +:+ newline +:+ text.

Definition binaryChunks (source : Source) (input : string) : result (list Chunk * list Issue) :=
  data ← read_blob input (MaxBytes source);
  let text := Join (FieldsFunc control data) " " in
  if TrimSpace text ==s "" then Ok ([], [])
  else
    let session := TrimSuffix (Base (FilePath source)) (Ext (FilePath source)) in
    let content := blob_content (FilePath source) text in
    Ok ([chunk content "antigravity_history" session "/antigravity/unknown" "Antigravity Session" (time_Unix_UTC 0) source 0
           "gemini-unknown" (chunkID content session "binary") ""], []).

Definition Chunks `{GoDecode} `{CallsMarshal} `{UnicodeTables} (source : Source) (input : string) : result (list Chunk * list Issue) :=
  if FilePath source ==s "" then Fail (errors_New "Antigravity source identity is required")
  else if Binary source then binaryChunks source input
  else
    parsed ← Parse input (MaxBytes source);
    let '(events, issues) := parsed in
    Ok (concat (map (event_chunks source) events), issues).
End Antigravity.

(** ** Properties of the Antigravity source *)
Import Antigravity.

(** ** Operations *)

Definition op_kinds : list string := ["write"; "edit"; "delete"].
Definition aop_ok (o : op) : Prop := o_path o <> "" /\ List.In (o_kind o) op_kinds.

Lemma antigravity_patch_ok s : Forall aop_ok (patch s).
Proof.
  apply Forall_concat, Forall_map, Forall_true. intros line. apply Forall_forall.
  intros o ([[p k] x]&Hin&Ho)%list_elem_of_omap. cbv zeta in Ho. destruct (_ && _) eqn:E; [|done]. injection Ho as <-.
  apply andb_true_iff in E as [_ E]. apply negb_true_iff, String.eqb_neq in E. split; [done|].
  apply list_elem_of_In in Hin. unfold patch_rules in Hin. unfold op_kinds. simpl in *. intuition (simplify_eq; auto).
Qed.

Lemma shellRE_argument : ends_with_argument shellRE.
Proof.
  exists [RWordBoundary; RAlt (RSeq (literal "rm")) (RSeq (literal "touch")); spaces;
          ROpt (RSeq (literal "-" ++ [RPlus not_space; spaces]))], []. split; [reflexivity|by left].
Qed.

Lemma antigravity_shell_ok s : Forall aop_ok (shell s).
Proof.
  unfold shell. destruct (FindSubmatch shellRE s) as [m|] eqn:E; [|constructor].
  apply find_from_captures in E as [Hm _]; [|apply shellRE_argument].
  destruct (Contains s "rm"); (constructor; [|constructor]); split; simpl; auto.
Qed.

Lemma antigravity_ops_ok `{UnicodeTables} calls : Forall aop_ok (ops calls).
Proof.
  apply Forall_concat, Forall_map, Forall_true. intros call. unfold call_ops.
  destruct (t_Args call) as [| | |raw|l|args]; try constructor.
  - apply Forall_app. auto using antigravity_patch_ok, antigravity_shell_ok.
  - apply Forall_app. split; [|apply Forall_app; auto using antigravity_patch_ok, antigravity_shell_ok].
    destruct (_ ==s "") eqn:E; simpl; [constructor|]. constructor; [|constructor]. split; [by apply String.eqb_neq|].
    simpl. destruct (Contains _ _); auto.
Qed.

(** The key of an operation determines its path and its kind: no kind is a
    suffix of another. *)
Lemma suffix_kinds a b x y :
  List.In a op_kinds -> List.In b op_kinds -> x +:+ a = y +:+ b -> x = y /\ a = b.
Proof.
  intros Ha Hb E. assert (srev a +:+ srev x = srev b +:+ srev y) as E' by (rewrite <- !srev_append; by f_equal).
  assert (a = b /\ srev x = srev y) as [-> Er].
  { unfold op_kinds in *. simpl in Ha, Hb. decompose [or] Ha; decompose [or] Hb; try done; subst; simpl in E'; split; congruence. }
  split; [|done]. rewrite <- (srev_invol x), <- (srev_invol y). by f_equal.
Qed.

Lemma op_key_inj o o' : aop_ok o -> aop_ok o' -> op_key o = op_key o' -> o_path o = o_path o' /\ o_kind o = o_kind o'.
Proof. intros [_ Hk] [_ Hk'] E. by apply suffix_kinds. Qed.

Lemma unseen_subset seen l : Forall (fun o => o ∈ l /\ op_key o ∉ seen) (unseen seen l).
Proof.
  revert seen. induction l as [|o l IH]; intros seen; simpl; [constructor|]. case_bool_decide as Hs.
  - eapply Forall_impl; [apply IH|]. intros o' []. split; [by right|done].
  - constructor; [split; [by left|done]|]. eapply Forall_impl; [apply IH|]. intros o' [Hin Hns].
    split; [by right|]. intros Hin'. apply Hns. by right.
Qed.

Lemma unseen_nodup seen l : NoDup (map op_key (unseen seen l)).
Proof.
  revert seen. induction l as [|o l IH]; intros seen; simpl; [constructor|]. case_bool_decide; [apply IH|]. simpl.
  apply NoDup_cons. split; [|apply IH]. intros (o'&E&Hin)%list_elem_of_fmap.
  pose proof (unseen_subset (op_key o :: seen) l) as Hf. rewrite Forall_forall in Hf. destruct (Hf o' Hin) as [_ Hns].
  apply Hns. rewrite E. by left.
Qed.

Lemma unseen_covers seen l o : o ∈ l -> op_key o ∈ seen \/ exists o', o' ∈ unseen seen l /\ op_key o' = op_key o.
Proof.
  revert seen. induction l as [|x l IH]; intros seen; [by inversion 1|]. simpl. intros Hin. case_bool_decide as Hs.
  - apply elem_of_cons in Hin as [->|Hin]; [by left|by apply IH].
  - apply elem_of_cons in Hin as [->|Hin]; [right; exists x; split; [by left|done]|].
    destruct (IH (op_key x :: seen) Hin) as [[E|?]%elem_of_cons|(o'&?&?)].
    + right. exists x. split; [by left|done].
    + by left.
    + right. exists o'. split; [by right|done].
Qed.

(** ** Shape *)

Section Shape.
Context (source : Source).
Abbreviation shape := (source_shape (FilePath source) (MachineID source)).

Lemma antigravity_files_ok l session at_ line parent :
  Forall aop_ok l -> 0 <= line -> hex_id parent ->
  Forall (file_ok shape parent) (fileChunks l session at_ source line parent).
Proof.
  intros Hl Hline Hp. apply Forall_map. eapply Forall_impl; [apply unseen_subset|]. intros o [Hin _].
  rewrite Forall_forall in Hl. destruct (Hl o Hin) as [Hn Hk]. split; [|done].
  constructor; cbn [file_chunk c_ID c_Content c_Vector c_ChunkType c_ProjectPath c_ProjectName
    c_SourceFile c_MachineID c_SourceLine c_Operation c_FilePath c_ParentChunkID c_ChildChunkIDs]; auto; try done.
  - apply chunkID_hex.
  - simpl. auto.
  - unfold op_kinds, operations in *. simpl in *. intuition.
Qed.

Lemma eventContent_nonempty `{CallsMarshal} e : eventContent e <> "".
Proof.
  unfold eventContent. set (a := "Source: " +:+ _). assert (a <> "") as Ha by done.
  generalize (newline +:+ newline). intros sep.
  destruct (v_Content e ==s ""), (v_Thinking e ==s ""), (v_ToolCalls e); cbn [negb app Join]; by destruct a.
Qed.

Lemma antigravity_event_good `{CallsMarshal} `{UnicodeTables} located : 1 <= snd located -> source_good shape (event_chunks source located).
Proof.
  destruct located as [event line]. intros Hl. simpl in Hl. unfold event_chunks.
  set (session := sessionID _). set (base := chunkID _ _ _). set (at_ := if v_HasTime event then _ else _).
  apply turn_files_good; [apply _| |].
  - constructor; [|constructor]. split; [|done]. constructor; cbn [chunk c_ID c_Content c_Vector c_ChunkType c_ProjectPath
      c_ProjectName c_SourceFile c_MachineID c_SourceLine c_Operation c_FilePath c_ParentChunkID c_ChildChunkIDs]; try done.
    + apply chunkID_hex.
    + apply eventContent_nonempty.
    + simpl. auto.
    + lia.
    + simpl. auto.
    + by left.
  - apply antigravity_files_ok; [apply antigravity_ops_ok|lia|apply chunkID_hex].
Qed.

Lemma binaryChunks_good input chunks issues : binaryChunks source input = Ok (chunks, issues) -> source_good shape chunks.
Proof.
  unfold binaryChunks. intros Hb. apply bind_ok in Hb as (data&_&Hb). destruct (_ ==s ""); injection Hb as <- _.
  { apply source_good_nil. }
  split; [|apply links_unlinked; constructor; [|constructor]; split; [done|by left]].
  constructor; [|constructor]. constructor; cbn [chunk c_ID c_Content c_Vector c_ChunkType c_ProjectPath
      c_ProjectName c_SourceFile c_MachineID c_SourceLine c_Operation c_FilePath c_ParentChunkID c_ChildChunkIDs]; try done.
  - apply chunkID_hex.
  - simpl. auto.
  - simpl. auto.
  - by left.
Qed.
End Shape.

Lemma antigravity_lines `{GoDecode} content maxBytes events issues :
  Parse content maxBytes = Ok (events, issues) -> Forall (fun e => 1 <= snd e) events.
Proof.
  unfold Parse. intros Hp. apply bind_ok in Hp as (data&_&Hp). injection Hp as Hp.
  apply Forall_forall. intros [e n] Hin. simpl.
  assert ((e, n) ∈ fst (parse_lines parseEvent (read_lines data))) as Hin' by (by rewrite Hp).
  apply parse_lines_entries in Hin' as (line&Hline&_). by eapply number_lines_pos; [|exact Hline].
Qed.

Lemma antigravity_good `{GoDecode} `{CallsMarshal} `{UnicodeTables} source input chunks issues :
  Chunks source input = Ok (chunks, issues) -> source_good (source_shape (FilePath source) (MachineID source)) chunks.
Proof.
  unfold Chunks. destruct (_ ==s ""); [done|]. destruct (Binary source); [apply binaryChunks_good|].
  intros Hc. apply bind_ok in Hc as ([events is']&Hp&Hc). injection Hc as <- _. apply antigravity_lines in Hp.
  apply source_good_concat, Forall_map. eapply Forall_impl; [exact Hp|]. intros e He. by apply antigravity_event_good.
Qed.

(** The file changes of an Antigravity event are exactly its operations
    without repetition: one chunk for every path and kind that the tool calls of
    the event name, and for nothing else. *)
Theorem antigravity_files_exact `{UnicodeTables} calls session at_ source line parent :
  let files := fileChunks (ops calls) session at_ source line parent in
  NoDup (map (fun c => (c_FilePath c, c_Operation c)) files) /\
  forall path kind,
    (path, kind) ∈ map (fun c => (c_FilePath c, c_Operation c)) files <->
    (path, kind) ∈ map (fun o => (o_path o, o_kind o)) (ops calls).
Proof.
  intros files. unfold files, fileChunks. rewrite map_map.
  pose proof (antigravity_ops_ok calls) as Hok. rewrite Forall_forall in Hok.
  pose proof (unseen_subset [] (ops calls)) as Hsub. rewrite Forall_forall in Hsub.
  change (map _ (unseen [] (ops calls))) with (map (fun o => (o_path o, o_kind o)) (unseen [] (ops calls))). split.
  - apply (NoDup_fmap_1 (fun pk => fst pk +:+ snd pk)).
    rewrite <- list_fmap_compose. exact (unseen_nodup [] (ops calls)).
  - intros path kind. rewrite !list_elem_of_fmap. split; intros (o&E&Hin).
    + exists o. split; [done|]. by destruct (Hsub o Hin).
    + destruct (unseen_covers [] _ _ Hin) as [?%elem_of_nil|(o'&Hin'&Ek)]; [done|]. exists o'. split; [|done].
      destruct (Hsub o' Hin') as [Hin2 _]. destruct (op_key_inj o' o) as [-> ->]; auto.
Qed.

(** ** Identifiers *)

(** A step that is a JSON number, as in the transcripts, is read as step 0. *)
Lemma numeric_step_zero `{GoDecode} raw o e f :
  json_Unmarshal raw = Some (JObject o) -> jget o "step_index" = JNumber f -> parseEvent raw = inl e -> v_Step e = "0".
Proof.
  intros Hu Hs. unfold parseEvent. rewrite Hu, Hs. destruct (_ <? _); [done|]. cbn [stringValue].
  destruct (_ ==s ""); [|destruct (time_Parse _); [|done]]; by intros [= <-].
Qed.

(** The step of an event is lost when it is a JSON number, as in the
    transcripts: two events with the same text get turns with the same identifier,
    whatever their steps, lines and times, so the second replaces the first in
    the store. *)
Theorem antigravity_numeric_steps_collide `{GoDecode} `{CallsMarshal} `{UnicodeTables} source raw raw' o o' e e' f f' line line' :
  json_Unmarshal raw = Some (JObject o) -> jget o "step_index" = JNumber f -> parseEvent raw = inl e ->
  json_Unmarshal raw' = Some (JObject o') -> jget o' "step_index" = JNumber f' -> parseEvent raw' = inl e' ->
  eventContent e = eventContent e' ->
  c_ID <$> head (event_chunks source (e, line)) = c_ID <$> head (event_chunks source (e', line')).
Proof.
  intros U S P U' S' P' E. pose proof (numeric_step_zero _ _ _ _ U S P) as Z0.
  pose proof (numeric_step_zero _ _ _ _ U' S' P') as Z0'. unfold event_chunks. rewrite E, Z0, Z0'.
  set (base := chunkID _ _ _). destruct (fileChunks _ _ _ _ line _), (fileChunks _ _ _ _ line' _); reflexivity.
Qed.

(** ** Binary blobs *)

Fixpoint drop_bytes (p : ascii -> bool) (s : string) : string :=
  match s with
  | EmptyString => ""
  | String c r => if p c then drop_bytes p r else String c (drop_bytes p r)
  end.

Lemma FieldsFunc_fields p s : Forall (fun w => w <> "" /\ sforall (fun c => negb (p c)) w = true) (FieldsFunc p s).
Proof.
  induction s as [|c s IH]; [constructor|]. cbn [FieldsFunc]. destruct (p c) eqn:E; [done|].
  destruct s as [|d r]; [constructor; [|constructor]; simpl; by rewrite E|]. destruct (p d).
  - constructor; [|done]. simpl. by rewrite E.
  - destruct (FieldsFunc p (String d r)) as [|w ws]; (constructor; [|try constructor]).
    + simpl. by rewrite E.
    + inversion IH as [|? ? [_ Hw]]; subst. simpl. by rewrite E, Hw.
    + by inversion IH.
Qed.

Lemma FieldsFunc_concat p s : String.concat "" (FieldsFunc p s) = drop_bytes p s.
Proof.
  assert (forall w ws, String.concat "" (w :: ws) = w +:+ String.concat "" ws) as Hc.
  { intros w [|x ws]; simpl; [by rewrite app_empty_r|done]. }
  induction s as [|c s IH]; [done|]. cbn [FieldsFunc drop_bytes]. destruct (p c); [done|].
  destruct s as [|d r]; [done|]. destruct (p d) eqn:E.
  - rewrite Hc. exact (f_equal (String c) IH).
  - destruct (FieldsFunc p (String d r)) as [|w ws]; [exact (f_equal (String c) IH)|].
    rewrite Hc in *. exact (f_equal (String c) IH).
Qed.

(** The text of a blob is its bytes without the control bytes, in order, with a
    space for every run of them inside. *)
Lemma blob_text s :
  String.concat "" (FieldsFunc control s) = drop_bytes control s /\
  Forall (fun w => w <> "" /\ sforall (fun c => negb (control c)) w = true) (FieldsFunc control s).
Proof. split; [apply FieldsFunc_concat|apply FieldsFunc_fields]. Qed.

(** ** Witnesses *)

Module AntigravitySamples.

Definition event (step : Z) : json :=
  JObject [("content", JString "Done"); ("step_index", JNumber (float_of_int step));
           ("tool_calls", JArray [JObject [("name", JString "shell"); ("args", JString "rm old.go")];
                                  JObject [("name", JString "shell"); ("args", JString "rm -f old.go")]])].
#[local] Instance decode : GoDecode := {|
  json_Unmarshal s := if s ==s "1" then Some (event 1) else if s ==s "2" then Some (event 2) else None;
  json_Marshal _ := None;
  time_Parse _ := None
|}.
#[local] Instance tables : UnicodeTables := fun s => s.
#[local] Instance marshal : CallsMarshal := fun _ => Some "[]".

Definition source : Source := mkSource "/h/brain/s1/transcript.jsonl" "m1" 0 false.
Definition chunks : list Chunk :=
  match Chunks source ("1" +:+ newline +:+ "2") with Ok (c, _) => c | Fail _ => [] end.

(** Two turns with one file change each, of the session [s1]. *)
Example antigravity_chunks_made :
  map (fun c => (c_SessionID c, c_FilePath c, c_Operation c, c_SourceLine c)) chunks =
  [("s1", "", "", 1); ("s1", "old.go", "delete", 1); ("s1", "", "", 2); ("s1", "old.go", "delete", 2)].
Proof. vm_compute. reflexivity. Qed.

(** A touched file whose command holds the letters [rm] is recorded as deleted. *)
Example touch_recorded_as_delete : shell "touch form.go" = [mkOp "form.go" "delete" "Deleted file"].
Proof. vm_compute. reflexivity. Qed.

(** A context line of a patch becomes an added, an edited and a deleted file. *)
Example patch_context_three :
  map (fun o => (o_path o, o_kind o)) (patch " return nil") =
  [("return nil", "write"); ("return nil", "edit"); ("return nil", "delete")].
Proof. vm_compute. reflexivity. Qed.

Definition parsed (s : string) : Event :=
  match parseEvent s with inl e => e | inr _ => mkEvent "" "" "" "" "" "" [] zero_time false "" end.

Lemma antigravity_numeric_steps_collide_witness :
  c_ID <$> head (event_chunks source (parsed "1", 1)) = c_ID <$> head (event_chunks source (parsed "2", 2)).
Proof.
  apply (antigravity_numeric_steps_collide source "1" "2" (as_object (event 1)) (as_object (event 2)) (parsed "1") (parsed "2")
           (float_of_int 1) (float_of_int 2) 1 2); vm_compute; reflexivity.
Defined.
End AntigravitySamples.
