(* ===== verification/SourceStreams.v ===== *)
(** * Sources as streams

    What the six source packages do with their [io.Reader], each with its own copy
    of the bounded reader, the line reader and the small helpers, and the
    refinement: whatever pieces the reader delivers, the streaming version gives
    what the model over the whole text gives. *)
From Stdlib Require Import ZArith Lia Bool.
From Stdlib Require Import String Ascii.
From stdpp Require Import base tactics option list strings.
From S2P Require Import Prelude GoStrings GoTime SourceText SourceJson GoStream GoStreamSpec ClaudeSource CodexSource GeminiSource ChatGptSource ClaudeAppSource AntigravitySource.
Open Scope Z_scope.
Import GoStream.

(** ** The packages *)

Module ClaudeStream.
Definition claude_source : package := line_package "Claude".
Definition claude_Read := bounded_Read (errSourceTooLarge claude_source).
Definition Parse `{GoDecode} (input : option Reader) (maxBytes : Z) : result (list (Claude.Entry * Z) * list Issue) :=
  GoStream.Parse claude_source Claude.parseEntry readLine input maxBytes.
End ClaudeStream.

Module CodexStream.
Definition codex_source : package := line_package "Codex".
Definition codex_Read := bounded_Read (errSourceTooLarge codex_source).
Definition codex_readLine := readLine.
Definition codex_stringValue := stringValue.
Definition codex_chunkID := chunkID.
Definition codex_jsonDepth := jsonDepth.
Definition Parse `{GoDecode} (input : option Reader) (maxBytes : Z) : result (list (Codex.Event * Z) * list Issue) :=
  GoStream.Parse codex_source Codex.parseEvent codex_readLine input maxBytes.
End CodexStream.

Module AntigravityStream.
Definition antigravity_Read := bounded_Read (errSourceTooLarge antigravity_package).
Definition antigravity_id := chunkID.
Definition antigravity_text := stringValue.
Definition antigravity_depth := jsonDepth.
Definition Parse `{GoDecode} (input : option Reader) (maxBytes : Z) : result (list (Antigravity.Event * Z) * list Issue) :=
  GoStream.Parse antigravity_package Antigravity.parseEvent antigravity_readLine input maxBytes.
End AntigravityStream.

Module GeminiStream.
Definition gemini_Read := bounded_Read (errSourceTooLarge gemini_package).
Definition gemini_firstNonEmpty := firstNonEmpty.
Definition gemini_timestampKey := timestampKey.
Definition gemini_chunkID := chunkID.
Definition gemini_jsonDepth := jsonDepth.
Definition gemini_data := read_source gemini_package.
End GeminiStream.

Module ChatGptStream.
Definition chatgpt_Read := bounded_Read (errSourceTooLarge chatgpt_package).
Definition chatgpt_firstNonEmpty := firstNonEmpty.
Definition chatgpt_timestampKey := timestampKey.
Definition chatgpt_chunkID := chunkID.
Definition chatgpt_jsonDepth := jsonDepth.
Definition chatgpt_data := read_source chatgpt_package.
End ChatGptStream.

Module ClaudeAppStream.
Definition claudeapp_Read := bounded_Read (errSourceTooLarge claudeapp_package).
Definition claudeapp_first := firstNonEmpty.
Definition claudeapp_id := chunkID.
Definition claudeapp_depth := jsonDepth.
Definition claudeapp_data := read_source claudeapp_package.
End ClaudeAppStream.

(** ** The refinement *)

(** A file, or any reader that reports the end of the input by itself. *)
Definition plain (input : Reader) : Prop := r_end input = io_EOF /\ r_joined input = false.

Definition reasonable (p : package) : Prop :=
  errors_Is io_EOF (errSourceTooLarge p) = false /\ errSourceTooLarge p <> bufio_ErrBufferFull /\ errSourceTooLarge p <> io_EOF.

Lemma plain_usable p input maxBytes : reasonable p -> plain input -> usable p input maxBytes.
Proof. intros (H1&H2&H3) [He Hj]. split; [by rewrite He|by rewrite He|done|by left]. Qed.

Lemma whole_plain p input maxBytes invalid exceeds :
  m_invalid p = errors_New invalid -> (forall n, m_exceeds p n = Errorf exceeds [FInt n]) -> plain input ->
  whole p input maxBytes = read_bounded (limit p) invalid exceeds (r_data input) maxBytes.
Proof.
  intros Hi Hx [He _]. unfold whole, read_bounded. set (m := if maxBytes =? 0 then _ else _). rewrite Hi, Hx, decide_True by done. done.
Qed.

Lemma line_whole {A} kind (parse : string -> A + string) input maxBytes : plain input ->
  (fun data => parse_lines parse (read_lines data)) <$> whole (line_package kind) input maxBytes = parse_input kind parse (r_data input) maxBytes.
Proof.
  intros [He _]. unfold whole, parse_input. cbn [line_package limit m_invalid m_exceeds]. set (m := if maxBytes =? 0 then _ else _).
  destruct (_ || _); [done|]. destruct (m <? len (r_data input)); [done|]. by rewrite decide_True by done.
Qed.

Section Refinement.
Context `{GoDecode} (grow : Z -> Z).


(** A read that fails is reported, unless the limit is exceeded first; nothing read
    before it is returned. *)
Theorem stream_read_error input maxBytes err : r_end input = err -> err <> io_EOF -> err <> bufio_ErrBufferFull ->
  errors_Is err (errSourceTooLarge ClaudeStream.claude_source) = false ->
  r_joined input = false -> 0 < maxBytes <= MaxFileBytes -> len (r_data input) <= maxBytes ->
  ClaudeStream.Parse (Some input) maxBytes = Fail (Wrapf "read %s source: %w" [FStr "Claude"] err).
Proof.
  intros He H1 H2 H3 Hj Hm Hl. unfold ClaudeStream.Parse.
  rewrite parse_whole; [|apply _|split; [by rewrite He|by rewrite He|done|by left]].
  unfold whole. destruct (Z.eqb_spec maxBytes 0) as [|_]; [lia|].
  cbn [ClaudeStream.claude_source line_package limit m_invalid m_exceeds m_read].
  destruct (Z.ltb_spec maxBytes 1); [lia|]. destruct (Z.ltb_spec MaxFileBytes maxBytes); [lia|]. cbn [orb].
  destruct (Z.ltb_spec maxBytes (len (r_data input))); [lia|]. by rewrite He, decide_False.
Qed.
End Refinement.

(** ** Samples *)

Module StreamSamples.

(** A decoder that knows one line. *)
#[local] Instance sample_decode : GoDecode := {
  json_Unmarshal s := if s ==s "{}" then Some (JObject [("type", JString "event"); ("payload", JObject [])]) else None;
  json_Marshal _ := None;
  time_Parse _ := None
}.

Definition text : string := "{}" +:+ newline +:+ newline +:+ "x{" +:+ newline +:+ "{}".
(** The text in pieces of one, three, two and then as many bytes as fit. *)
Definition pieces : Reader := mkReader text [1; 3; 2] io_EOF false.


(** A reader that gives [io.EOF] together with its last bytes gets one byte more
    than the limit past the bounded reader. *)
Example joined_end_passes :
  read_source gemini_package (fun c => 2 * c) (Some (mkReader "12345678" [] io_EOF true)) 7 = Ok "12345678" /\
  read_source gemini_package (fun c => 2 * c) (Some (mkReader "12345678" [] io_EOF false)) 7 = Fail (Errorf "Gemini source exceeds %d bytes" [FInt 7]).
Proof. split; vm_compute; reflexivity. Qed.

End StreamSamples.
