(* ===== verification/SourceInstances.v ===== *)
(** * The parsers behind the watcher

    [Watch.Sources] is what the watcher expects of the six parsers. Here their
    models discharge it, so that what is proved of each source holds of what
    [Registry.Dispatch] hands to the store. *)
From Stdlib Require Import ZArith Lia Bool.
From Stdlib Require Import String Ascii.
From stdpp Require Import base tactics option list gmap strings.
From S2P Require Import Prelude GoStrings GoPath StoreTypes StorePlans SourceText SourceJson ClaudeSource ClaudeSourceSpec.
From S2P Require Import CodexSource CodexSourceSpec SourceShape GeminiSource ChatGptSource.
From S2P Require Import ClaudeAppSource AntigravitySource Watch.
Open Scope Z_scope.

Section Parsers.
Context `{GoDecode} `{GoDecodeError} `{UnicodeTables} `{GoFloat} `{Antigravity.CallsMarshal}.

(** ** What the watcher reads of the parsed values *)

Definition claude_view (e : Claude.Entry * Z) : ClaudeEntry :=
  let e := fst e in
  mkClaudeEntry (Claude.e_SessionID e) (match Claude.e_Message e with Some _ => true | None => false end)
    (Claude.e_Summary e) (Claude.e_CompactSummary e) (Claude.e_HasTimestamp e) (Claude.e_Timestamp e).
Definition codex_view (e : Codex.Event * Z) : CodexEvent :=
  let e := fst e in
  mkCodexEvent (Codex.v_Type e) (stringValue (Codex.payload_get (Codex.v_Payload e) "id")) (Codex.v_HasTime e)
    (Codex.v_Timestamp e).
Definition gemini_view (d : Gemini.Document) : GeminiDocument :=
  mkGeminiDocument (Gemini.d_SessionID d)
    (map (fun m => mkTimedItem "" (Gemini.m_HasTime m) (Gemini.m_Timestamp m)) (Gemini.d_Messages d))
    (map (fun e => mkTimedItem (Gemini.v_SessionID e) (Gemini.v_HasTime e) (Gemini.v_Timestamp e)) (Gemini.d_Events d)).
Definition antigravity_view (e : Antigravity.Event * Z) : TimedItem :=
  mkTimedItem "" (Antigravity.v_HasTime (fst e)) (Antigravity.v_Timestamp (fst e)).
Definition chatgpt_view (c : ChatGPT.Conversation) : Conversation :=
  mkConversation (ChatGPT.cv_ID c)
    (map (fun m => mkConvMessage (ChatGPT.m_Content m) (ChatGPT.m_HasTime m) (ChatGPT.m_Timestamp m)) (ChatGPT.cv_Messages c)).
Definition claudeapp_view (c : ClaudeApp.Conversation) : Conversation :=
  mkConversation (ClaudeApp.cv_ID c)
    (map (fun m => mkConvMessage (ClaudeApp.m_Content m) (ClaudeApp.m_HasTime m) (ClaudeApp.m_Timestamp m)) (ClaudeApp.cv_Messages c)).

Definition viewed {A B I} (f : A -> B) (reason : I -> string) (r : result (A * list I)) : result (B * list string) :=
  (fun x => (f (fst x), map reason (snd x))) <$> r.

(** ** The [Source] values that [Dispatch] passes *)

(** No project for Claude. *)
Definition claude_source (s : Source) : Claude.Source :=
  Claude.mkSource "" (src_FilePath s) (src_MachineID s) (src_MaxBytes s).
Definition codex_source (s : Source) : Codex.Source :=
  Codex.mkSource (src_FilePath s) (src_MachineID s) (src_MaxBytes s).
Definition gemini_source (s : Source) : Gemini.Source :=
  Gemini.mkSource (src_FilePath s) (src_MachineID s) (src_MaxBytes s).
Definition antigravity_source (s : Source) : Antigravity.Source :=
  Antigravity.mkSource (src_FilePath s) (src_MachineID s) (src_MaxBytes s) (src_Binary s).
Definition chatgpt_source (s : Source) : ChatGPT.Source :=
  ChatGPT.mkSource (src_FilePath s) (src_MachineID s) (src_MaxBytes s).
Definition claudeapp_source (s : Source) : ClaudeApp.Source :=
  ClaudeApp.mkSource (src_FilePath s) (src_MachineID s) (src_MaxBytes s).

(** The parsers of the daemon. *)
#[export] Instance parsers : Sources := {|
  claude_Parse content maxBytes := viewed (map claude_view) is_Reason (Claude.Parse content maxBytes);
  codex_Parse content maxBytes := viewed (map codex_view) is_Reason (Codex.Parse content maxBytes);
  gemini_Parse content maxBytes := viewed gemini_view Gemini.g_Reason (Gemini.Parse content maxBytes);
  antigravity_Parse content maxBytes := viewed (map antigravity_view) is_Reason (Antigravity.Parse content maxBytes);
  chatgpt_Parse content maxBytes := viewed (map chatgpt_view) ChatGPT.i_Reason (ChatGPT.Parse content maxBytes);
  claudeapp_Parse content maxBytes := viewed (map claudeapp_view) ClaudeApp.i_Reason (ClaudeApp.Parse content maxBytes);
  claude_Chunks content s := fst <$> Claude.Chunks content (claude_source s);
  codex_Chunks content s := fst <$> Codex.Chunks (codex_source s) content;
  gemini_Chunks content s := fst <$> Gemini.Chunks (gemini_source s) content;
  antigravity_Chunks content s := fst <$> Antigravity.Chunks (antigravity_source s) content;
  chatgpt_Chunks content s := fst <$> ChatGPT.Chunks (chatgpt_source s) content;
  claudeapp_Chunks content s := fst <$> ClaudeApp.Chunks (claudeapp_source s) content
|}.

(** ** What the sources promise *)

Lemma fst_ok {A B} (r : result (A * B)) a : fst <$> r = Ok a -> exists b, r = Ok (a, b).
Proof. destruct r as [[x y]|]; [|done]. intros [= <-]. eauto. Qed.

(** What a source promises: the shape of its chunks and closed references. *)
Definition promised (s : Source) (chunks : list Chunk) : Prop :=
  source_good (source_shape (src_FilePath s) (src_MachineID s)) chunks.

(** The five sources that always give a session. *)
Definition sessions_named (chunks : list Chunk) : Prop := Forall (fun c => c_SessionID c <> "") chunks.

Lemma located_promised s chunks :
  source_good (located_shape (src_FilePath s) (src_MachineID s)) chunks -> promised s chunks /\ sessions_named chunks.
Proof.
  intros [Hf Hl]. split; [split; [|done]|]; (eapply Forall_impl; [exact Hf|]); [by intros c [? _]|by intros c (_&?&_)].
Qed.

Lemma claude_promised content s chunks : claude_Chunks content s = Ok chunks -> promised s chunks /\ sessions_named chunks.
Proof.
  intros (issues&Hc)%fst_ok. apply claude_result in Hc as [Hs Hl]. apply located_promised. split; [|done].
  eapply Forall_impl; [exact Hs|]. intros c []. cbn [claude_source Claude.FilePath Claude.MachineID Claude.ProjectEncoded] in *.
  split; [|done]. constructor; try done.
  - simpl in *. intuition.
  - by destruct sh_project as [-> ->].
  - lia.
  - unfold operations. simpl in *. intuition.
Qed.

Lemma projectName_nonempty p : Codex.projectName p <> "".
Proof.
  unfold Codex.projectName. destruct (Base p ==s "") eqn:E; [by rewrite !andb_false_r|].
  destruct (_ && _); [by apply String.eqb_neq|done].
Qed.

Lemma codex_promised content s chunks : codex_Chunks content s = Ok chunks -> promised s chunks /\ sessions_named chunks.
Proof.
  intros (issues&Hc)%fst_ok. apply codex_result in Hc as [Hs Hl]. apply located_promised. split; [|done].
  eapply Forall_impl; [exact Hs|]. intros c []. cbn [codex_source Codex.FilePath Codex.MachineID] in *.
  split; [|done]. constructor; try done.
  - simpl in *. intuition.
  - destruct cx_project as [Hp ->]. split; [done|apply projectName_nonempty].
  - lia.
Qed.

Lemma gemini_promised content s chunks : gemini_Chunks content s = Ok chunks -> promised s chunks /\ sessions_named chunks.
Proof. intros (issues&Hc)%fst_ok. by apply gemini_result, (located_promised s) in Hc. Qed.
Lemma chatgpt_promised content s chunks : chatgpt_Chunks content s = Ok chunks -> promised s chunks /\ sessions_named chunks.
Proof. intros (issues&Hc)%fst_ok. by apply chatgpt_result, (located_promised s) in Hc. Qed.
Lemma claudeapp_promised content s chunks : claudeapp_Chunks content s = Ok chunks -> promised s chunks /\ sessions_named chunks.
Proof. intros (issues&Hc)%fst_ok. by apply claudeapp_result, (located_promised s) in Hc. Qed.
Lemma antigravity_promised content s chunks : antigravity_Chunks content s = Ok chunks -> promised s chunks.
Proof. intros (issues&Hc)%fst_ok. by apply antigravity_good in Hc. Qed.

Lemma dispatch_promised r kind input path chunks : Dispatch r kind input path = Ok chunks ->
  source_good (source_shape path (MachineID r)) chunks /\ (kind <> SourceAntigravity -> sessions_named chunks).
Proof.
  unfold Dispatch.
  destruct (_ ==s SourceClaude); [by intros []%claude_promised|].
  destruct (_ ==s SourceCodex); [by intros []%codex_promised|].
  destruct (_ ==s SourceChatGPT); [by intros []%chatgpt_promised|].
  destruct (_ ==s SourceGemini); [by intros []%gemini_promised|].
  destruct (String.eqb_spec kind SourceAntigravity); [by intros Hp%antigravity_promised|].
  destruct (_ ==s SourceClaudeApp); [by intros []%claudeapp_promised|done].
Qed.

(** No source accepts an empty path. *)
Lemma dispatch_path r kind input path chunks : Dispatch r kind input path = Ok chunks -> path <> "".
Proof.
  intros Hd ->. revert Hd. unfold Dispatch.
  repeat match goal with |- (if ?b then _ else _) = _ -> _ => destruct b; [by intros (issues&Hc)%fst_ok|] end. done.
Qed.

(** ** Properties *)


(** [Registry.Dispatch] gives the Claude parser no encoded project, so every
    chunk it returns for a Claude transcript is filed under the project path "/"
    and the project name "/", whatever directory the transcript is in. *)
Theorem claude_project_lost r input path chunks :
  Dispatch r SourceClaude input path = Ok chunks ->
  Forall (fun c => c_ProjectPath c = "/" /\ c_ProjectName c = "/") chunks.
Proof.
  unfold Dispatch. rewrite String.eqb_refl. intros (issues&Hc)%fst_ok. apply claude_result in Hc as [Hs _].
  eapply Forall_impl; [exact Hs|]. intros c []. done.
Qed.
End Parsers.

(** ** Witnesses *)

Module ParserSamples.
#[local] Instance decode_error : GoDecodeError := fun _ => Sentinel "json".
#[local] Instance tables : UnicodeTables := fun s => s.
#[local] Instance floats : GoFloat := fun _ => 0.
#[local] Instance marshal : Antigravity.CallsMarshal := fun _ => None.

Lemma claude_project_lost_witness :
  length ClaudeSamples.chunks = 2%nat /\
  Forall (fun c => c_ProjectPath c = "/" /\ c_ProjectName c = "/") ClaudeSamples.chunks.
Proof.
  split; [vm_compute; reflexivity|].
  apply (claude_project_lost (H := ClaudeSamples.decode) (mkRegistry "m1" 0) ClaudeSamples.transcript "/h/s.jsonl").
  vm_compute. reflexivity.
Defined.


Example antigravity_empty_session :
  match Dispatch (H := parsers (H := GeminiSamples.decode)) (mkRegistry "m1" 0) SourceAntigravity "text" "/h/.pb" with
  | Ok chunks => map (fun c => (c_SessionID c, is_ok (validateChunk c))) chunks
  | Fail _ => []
  end = [("", false)].
Proof. vm_compute. reflexivity. Qed.
End ParserSamples.
