(* ===== verification/GoJson.v ===== *)
(** * Canonical JSON

    What [encoding/json] writes for the structs of the ingest requests with HTML
    escaping off: the quoting of strings, decimal numbers, arrays and objects
    with their members in declaration order, and the compaction of a raw message.
    A parser of that output shows that a document determines the value it was
    written from. *)
From Stdlib Require Import ZArith Lia Bool.
From Stdlib Require Import String Ascii.
From stdpp Require Import base tactics option list strings pretty.
From S2P Require Import Prelude GoStrings SourceJson.
Open Scope Z_scope.

(** ** Decimals *)

Definition digit_val (c : ascii) : Z := code c - 48.
Fixpoint value_from (acc : Z) (s : string) : Z :=
  match s with
  | EmptyString => acc
  | String c r => value_from (acc * 10 + digit_val c) r
  end.
Definition value_of (s : string) : Z := value_from 0 s.

Lemma pretty_char_digit x : (x < 10)%N -> is_digit (pretty_N_char x) = true /\ digit_val (pretty_N_char x) = Z.of_N x.
Proof.
  intros Hx. assert (List.In x [0;1;2;3;4;5;6;7;8;9]%N) as Hin by (simpl; lia).
  repeat (destruct Hin as [<-|Hin]; [done|]). destruct Hin.
Qed.

Lemma pretty_N_go_value x s : value_from 0 (pretty_N_go x s) = value_from (Z.of_N x) s.
Proof.
  revert s. induction x as [x IH] using (well_founded_induction N.lt_wf_0). intros s.
  destruct (decide (0 < x)%N) as [Hx|Hx].
  - rewrite pretty_N_go_step by done. rewrite IH by (apply N.div_lt; lia). cbn [value_from].
    pose proof (N.mod_lt x 10 ltac:(lia)) as Hm. destruct (pretty_char_digit (x `mod` 10) Hm) as [_ ->].
    f_equal. pose proof (N.div_mod x 10 ltac:(lia)). lia.
  - replace x with 0%N by lia. by rewrite pretty_N_go_0.
Qed.

Lemma pretty_N_go_digits x s : sforall is_digit (pretty_N_go x s) = sforall is_digit s.
Proof.
  revert s. induction x as [x IH] using (well_founded_induction N.lt_wf_0). intros s.
  destruct (decide (0 < x)%N) as [Hx|Hx].
  - rewrite pretty_N_go_step by done. rewrite IH by (apply N.div_lt; lia). cbn [sforall].
    pose proof (N.mod_lt x 10 ltac:(lia)) as Hm. by destruct (pretty_char_digit (x `mod` 10) Hm) as [-> _].
  - replace x with 0%N by lia. by rewrite pretty_N_go_0.
Qed.

Lemma pretty_N_go_length w x s :
  (x < 10 ^ N.of_nat w)%N -> (String.length (pretty_N_go x s) <= w + String.length s)%nat.
Proof.
  revert x s. induction w as [|w IH]; intros x s Hx.
  - change (10 ^ N.of_nat 0)%N with 1%N in Hx. replace x with 0%N by lia. by rewrite pretty_N_go_0.
  - destruct (decide (0 < x)%N) as [H0|H0]; [|replace x with 0%N by lia; rewrite pretty_N_go_0; lia].
    rewrite pretty_N_go_step by done. etrans; [apply IH|simpl; lia].
    apply N.Div0.div_lt_upper_bound. rewrite Nat2N.inj_succ, N.pow_succ_r' in Hx. lia.
Qed.

Lemma Itoa_nonneg z : 0 <= z -> Itoa z = pretty (Z.to_N z).
Proof. intros Hz. destruct z as [|p|p]; [done|done|by destruct Hz]. Qed.

Lemma Itoa_value z : 0 <= z -> value_of (Itoa z) = z.
Proof.
  intros Hz. rewrite Itoa_nonneg by done. unfold pretty, pretty_N, value_of.
  destruct (decide (Z.to_N z = 0)%N); [change (value_from 0 "0") with 0; lia|]. rewrite pretty_N_go_value. cbn [value_from]. lia.
Qed.

Lemma Itoa_digits z : 0 <= z -> sforall is_digit (Itoa z) = true.
Proof.
  intros Hz. rewrite Itoa_nonneg by done. unfold pretty, pretty_N.
  destruct (decide (Z.to_N z = 0)%N); [done|]. by rewrite pretty_N_go_digits.
Qed.

Lemma Itoa_length w z : 0 <= z < 10 ^ Z.of_nat w -> (0 < w)%nat -> (String.length (Itoa z) <= w)%nat.
Proof.
  intros Hz Hw. rewrite Itoa_nonneg by lia. unfold pretty, pretty_N.
  destruct (decide (Z.to_N z = 0)%N); [simpl; lia|].
  etrans; [apply (pretty_N_go_length w)|simpl; lia].
  apply N2Z.inj_lt. rewrite Z2N.id by lia. rewrite N2Z.inj_pow, nat_N_Z. apply Hz.
Qed.

(** ** Runs of bytes *)

Fixpoint span (p : ascii -> bool) (s : string) : string * string :=
  match s with
  | EmptyString => ("", "")
  | String c r => if p c then let '(a, b) := span p r in (String c a, b) else ("", s)
  end.

Definition starts (p : ascii -> bool) (s : string) : bool := match s with String c _ => p c | EmptyString => false end.

Lemma span_app p a rest : sforall p a = true -> starts p rest = false -> span p (a +:+ rest) = (a, rest).
Proof.
  intros Ha Hr. induction a as [|c a IH]; simpl in *.
  - destruct rest as [|c r]; [done|]. simpl in *. by rewrite Hr.
  - apply andb_true_iff in Ha as [-> Ha]. by rewrite IH.
Qed.

(** ** Strings *)

Definition dquote : ascii := ascii_of_N 34.
Definition backslash : ascii := ascii_of_N 92.
Definition escaped (s : string) : string := String backslash s.

Definition escape_ascii (c : ascii) : string :=
  if Ascii.eqb c dquote || Ascii.eqb c backslash then escaped (String c "")
  else if code c =? 8 then escaped "b"
  else if code c =? 12 then escaped "f"
  else if code c =? 10 then escaped "n"
  else if code c =? 13 then escaped "r"
  else if code c =? 9 then escaped "t"
  else if code c <? 32 then escaped ("u00" +:+ hex_fixed 2 (code c))
  else String c "".

(** U+2028 and U+2029 are escaped, for JavaScript. *)
Definition line_separator (a b c : ascii) : bool :=
  (code a =? 226) && (code b =? 128) && ((code c =? 168) || (code c =? 169)).

(** The characters between the quotes; an invalid byte is written as U+FFFD. *)
Fixpoint quote_body (s : string) : string :=
  match s with
  | EmptyString => ""
  | String a r1 =>
      if code a <? 128 then escape_ascii a +:+ quote_body r1
      else match r1 with
      | EmptyString => escaped "ufffd"
      | String b r2 =>
          if ((194 <=? code a) && (code a <=? 223)) && cont b
          then String a (String b (quote_body r2))
          else match r2 with
          | EmptyString => escaped "ufffd" +:+ quote_body r1
          | String c r3 =>
              if second_of_three (code a) b && cont c
              then if line_separator a b c then escaped ("u202" +:+ hex_fixed 1 (code c - 160)) +:+ quote_body r3
                   else String a (String b (String c (quote_body r3)))
              else match r3 with
              | EmptyString => escaped "ufffd" +:+ quote_body r1
              | String d r4 =>
                  if (second_of_four (code a) b && cont c) && cont d
                  then String a (String b (String c (String d (quote_body r4))))
                  else escaped "ufffd" +:+ quote_body r1
              end
          end
      end
  end.

Definition quote (s : string) : string := String dquote (quote_body s +:+ String dquote "").

(** Induction over the runes of a valid string. *)
Section ValidInd.
Context (P : string -> Prop).
Hypothesis P0 : P "".
Hypothesis P1 : forall a r, code a < 128 -> P r -> P (String a r).
Hypothesis P2 : forall a b r, 128 <= code a -> ((194 <=? code a) && (code a <=? 223)) && cont b = true -> P r -> P (String a (String b r)).
Hypothesis P3 : forall a b c r, 128 <= code a -> ((194 <=? code a) && (code a <=? 223)) && cont b = false ->
  second_of_three (code a) b && cont c = true -> P r -> P (String a (String b (String c r))).
Hypothesis P4 : forall a b c d r, 128 <= code a -> ((194 <=? code a) && (code a <=? 223)) && cont b = false ->
  second_of_three (code a) b && cont c = false -> (second_of_four (code a) b && cont c) && cont d = true ->
  P r -> P (String a (String b (String c (String d r)))).

Lemma valid_string_ind s : ValidString s = true -> P s.
Proof.
  unfold ValidString. remember (String.length s) as n eqn:Hn. assert (String.length s <= n)%nat as Hl by lia. clear Hn.
  revert s Hl. induction n as [|n IH]; intros [|a r1] Hl Hv; simpl in Hl; try lia; [done|done|].
  cbn [runes] in Hv. destruct (Z.ltb_spec (code a) 128) as [Ha|Ha]; [apply P1; [done|]; apply IH; [lia|done]|].
  destruct r1 as [|b r2]; [done|]. simpl in Hl. destruct (((194 <=? code a) && _) && _) eqn:E2.
  { apply P2; try done. apply IH; [lia|done]. }
  destruct r2 as [|c r3]; [done|]. simpl in Hl. destruct (second_of_three _ _ && _) eqn:E3.
  { apply P3; try done. apply IH; [lia|done]. }
  destruct r3 as [|d r4]; [done|]. simpl in Hl. destruct ((second_of_four _ _ && _) && _) eqn:E4; [|done].
  apply P4; try done. apply IH; [lia|done].
Qed.
End ValidInd.

(** ** Reading a string back *)

Definition hex4 (a b c d : ascii) : Z := hex_value a * 4096 + hex_value b * 256 + hex_value c * 16 + hex_value d.
Definition byte (z : Z) : ascii := ascii_of_N (Z.to_N z).

(** The UTF-8 encoding of a rune below U+10000. *)
Definition encode_rune (r : Z) (rest : string) : string :=
  if r <? 128 then String (byte r) rest
  else if r <? 2048 then String (byte (192 + r / 64)) (String (byte (128 + r mod 64)) rest)
  else String (byte (224 + r / 4096)) (String (byte (128 + r / 64 mod 64)) (String (byte (128 + r mod 64)) rest)).

(** The escape that a letter stands for. *)
Definition unescape (e : ascii) : ascii :=
  if Ascii.eqb e "b" then byte 8 else if Ascii.eqb e "f" then byte 12 else if Ascii.eqb e "n" then byte 10
  else if Ascii.eqb e "r" then byte 13 else if Ascii.eqb e "t" then byte 9 else e.

(** The text up to the closing quote, and what follows it. *)
Fixpoint unquote (s : string) : option (string * string) :=
  match s with
  | EmptyString => None
  | String c r =>
      if Ascii.eqb c dquote then Some ("", r)
      else if Ascii.eqb c backslash then
        match r with
        | EmptyString => None
        | String e r' =>
            if Ascii.eqb e "u" then
              match r' with
              | String h1 (String h2 (String h3 (String h4 r''))) =>
                  '(text, rest) ← unquote r''; Some (encode_rune (hex4 h1 h2 h3 h4) text, rest)
              | _ => None
              end
            else '(text, rest) ← unquote r'; Some (String (unescape e) text, rest)
        end
      else '(text, rest) ← unquote r; Some (String c text, rest)
  end.

Lemma unquote_escape c s text rest :
  code c < 128 -> unquote s = Some (text, rest) -> unquote (escape_ascii c +:+ s) = Some (String c text, rest).
Proof.
  intros Hc Hs. destruct c as [[] [] [] [] [] [] [] []]; try (exfalso; revert Hc; vm_compute; discriminate).
  all: match goal with |- unquote (escape_ascii ?c +:+ _) = _ => let e := eval vm_compute in (escape_ascii c) in change (escape_ascii c) with e end.
  all: cbn; rewrite Hs; reflexivity.
Qed.

Lemma unquote_raw c s text rest :
  128 <= code c -> unquote s = Some (text, rest) -> unquote (String c s) = Some (String c text, rest).
Proof.
  intros Hc Hs. cbn [unquote]. destruct (Ascii.eqb_spec c dquote) as [->|_]; [by cbv in Hc|].
  destruct (Ascii.eqb_spec c backslash) as [->|_]; [by cbv in Hc|]. by rewrite Hs.
Qed.

Lemma unquote_separator a b c s text rest :
  line_separator a b c = true -> unquote s = Some (text, rest) ->
  unquote (escaped ("u202" +:+ hex_fixed 1 (code c - 160)) +:+ s) = Some (String a (String b (String c text)), rest).
Proof.
  unfold line_separator. rewrite !andb_true_iff, orb_true_iff, !Z.eqb_eq. intros [[Ha Hb] Hc] Hs.
  assert (forall x n, code x = n -> x = byte n) as Hbyte.
  { intros x n <-. unfold byte, code. by rewrite N2Z.id, ascii_N_embedding. }
  apply Hbyte in Ha, Hb. subst a b. destruct Hc as [Hc|Hc]; apply Hbyte in Hc; subst c; cbn; rewrite Hs; reflexivity.
Qed.

Lemma cont_high c : cont c = true -> 128 <= code c.
Proof. unfold cont. rewrite andb_true_iff, !Z.leb_le. lia. Qed.
Lemma second_of_three_high x c : second_of_three x c = true -> 128 <= code c.
Proof.
  unfold second_of_three. destruct (_ =? _); [rewrite andb_true_iff, !Z.leb_le; lia|].
  destruct (_ =? _); [rewrite andb_true_iff, !Z.leb_le; lia|]. rewrite andb_true_iff. intros [_ ?%cont_high]. done.
Qed.
Lemma second_of_four_high x c : second_of_four x c = true -> 128 <= code c.
Proof.
  unfold second_of_four. destruct (_ =? _); [rewrite andb_true_iff, !Z.leb_le; lia|].
  destruct (_ =? _); [rewrite andb_true_iff, !Z.leb_le; lia|]. rewrite andb_true_iff. intros [_ ?%cont_high]. done.
Qed.

(** Quoting a valid string loses nothing. *)
Lemma unquote_quote s rest :
  ValidString s = true -> unquote (quote_body s +:+ String dquote rest) = Some (s, rest).
Proof.
  intros Hv. pattern s. revert s Hv. apply valid_string_ind.
  - done.
  - intros a r Ha IH. cbn [quote_body]. destruct (Z.ltb_spec (code a) 128); [|lia]. rewrite str_app_assoc. by apply unquote_escape.
  - intros a b r Ha E IH. cbn [quote_body]. destruct (Z.ltb_spec (code a) 128); [lia|]. rewrite E.
    apply andb_true_iff in E as [_ ?%cont_high]. by do 2 (apply unquote_raw; [done|]).
  - intros a b c r Ha E2 E IH. cbn [quote_body]. destruct (Z.ltb_spec (code a) 128); [lia|]. rewrite E2, E.
    destruct (line_separator a b c) eqn:Es; [rewrite str_app_assoc; by apply unquote_separator|].
    apply andb_true_iff in E as [?%second_of_three_high ?%cont_high]. by do 3 (apply unquote_raw; [done|]).
  - intros a b c d r Ha E2 E3 E IH. cbn [quote_body]. destruct (Z.ltb_spec (code a) 128); [lia|]. rewrite E2, E3, E.
    apply andb_true_iff in E as [[?%second_of_four_high ?%cont_high]%andb_true_iff ?%cont_high].
    by do 4 (apply unquote_raw; [done|]).
Qed.

(** ** Documents *)

(** What is encoded: strings, unsigned integers, arrays and objects. *)
Inductive wire : Type :=
| WString (s : string)
| WNumber (z : Z)
| WArray (l : list wire)
| WObject (m : list (string * wire)).

(** The encoder, without the newline that [Encode] adds and [marshalCanonical]
    removes. *)
Fixpoint print (v : wire) : string :=
  match v with
  | WString s => quote s
  | WNumber z => Itoa z
  | WArray l => "[" +:+ Join (map print l) "," +:+ "]"
  | WObject m => "{" +:+ Join (map (fun kv => quote (fst kv) +:+ ":" +:+ print (snd kv)) m) "," +:+ "}"
  end.

Section WireInd.
Context (P : wire -> Prop).
Hypothesis (Hstring : forall s, P (WString s)) (Hnumber : forall z, P (WNumber z)).
Hypothesis Harray : forall l, Forall P l -> P (WArray l).
Hypothesis Hobject : forall m, Forall (fun kv => P (snd kv)) m -> P (WObject m).

Fixpoint wire_nested_ind (v : wire) : P v :=
  match v with
  | WString s => Hstring s
  | WNumber z => Hnumber z
  | WArray l =>
      Harray l ((fix go l : Forall P l :=
        match l with [] => Forall_nil_2 _ | x :: l => Forall_cons_2 _ _ _ (wire_nested_ind x) (go l) end) l)
  | WObject m =>
      Hobject m ((fix go m : Forall (fun kv => P (snd kv)) m :=
        match m with [] => Forall_nil_2 _ | kv :: m => Forall_cons_2 _ _ _ (wire_nested_ind (snd kv)) (go m) end) m)
  end.
End WireInd.

(** Valid strings and unsigned numbers. *)
Fixpoint wire_ok (v : wire) : Prop :=
  match v with
  | WString s => ValidString s = true
  | WNumber z => 0 <= z
  | WArray l => fold_right (fun x acc => wire_ok x /\ acc) True l
  | WObject m => fold_right (fun kv acc => (ValidString (fst kv) = true /\ wire_ok (snd kv)) /\ acc) True m
  end.

Fixpoint wire_size (v : wire) : nat :=
  match v with
  | WString _ | WNumber _ => 1
  | WArray l => S (S (fold_right (fun x acc => S (wire_size x + acc)) 0 l))
  | WObject m => S (S (fold_right (fun kv acc => S (wire_size (snd kv) + acc)) 0 m))
  end%nat.

(** A reader of that output: a value, or the rest of the elements or members of
    one. *)
Definition expect (c : ascii) (s : string) : option string :=
  match s with String d r => if Ascii.eqb c d then Some r else None | EmptyString => None end.

Section Elements.
Context {A : Type} (item : string -> option (A * string)) (close : ascii).

(** The items up to [close], separated by commas; at least one. *)
Fixpoint items (fuel : nat) (s : string) : option (list A * string) :=
  match fuel with
  | O => None
  | S fuel =>
      '(x, r) ← item s;
      match r with
      | String c r' =>
          if Ascii.eqb c close then Some ([x], r')
          else if Ascii.eqb c "," then '(l, rest) ← items fuel r'; Some (x :: l, rest)
          else None
      | EmptyString => None
      end
  end.
End Elements.

Fixpoint parse (fuel : nat) (s : string) : option (wire * string) :=
  match fuel with
  | O => None
  | S fuel =>
      match s with
      | EmptyString => None
      | String c r =>
          if Ascii.eqb c dquote then '(text, rest) ← unquote r; Some (WString text, rest)
          else if Ascii.eqb c "[" then
            match expect "]" r with
            | Some rest => Some (WArray [], rest)
            | None => '(l, rest) ← items (parse fuel) "]" fuel r; Some (WArray l, rest)
            end
          else if Ascii.eqb c "{" then
            match expect "}" r with
            | Some rest => Some (WObject [], rest)
            | None =>
                '(m, rest) ← items (fun s =>
                    r ← expect dquote s; '(k, r) ← unquote r; r ← expect ":" r; '(v, r) ← parse fuel r; Some ((k, v), r))
                  "}" fuel r;
                Some (WObject m, rest)
            end
          else if is_digit c then let '(digits, rest) := span is_digit s in Some (WNumber (value_of digits), rest)
          else None
      end
  end.

(** ** The reader inverts the encoder *)

(** What may follow a number. *)
Definition delimited (rest : string) : Prop := starts is_digit rest = false.

Lemma items_join {A} (item : string -> option (A * string)) (pr : A -> string) close l fuel rest :
  (forall x rest', x ∈ l -> delimited rest' -> item (pr x +:+ rest') = Some (x, rest')) ->
  close <> ","%char -> is_digit close = false -> l <> [] -> (length l <= fuel)%nat ->
  items item close fuel (Join (map pr l) "," +:+ String close rest) = Some (l, rest).
Proof.
  intros Hi Hc Hd. revert fuel. induction l as [|x l IH]; [done|]. intros [|fuel] _ Hf; [simpl in Hf; lia|].
  cbn [items]. destruct l as [|y l].
  - cbn [map Join]. rewrite Hi; [|by left|done]. cbn [mbind option_bind]. by rewrite Ascii.eqb_refl.
  - change (Join (map pr (x :: y :: l)) ",") with (pr x +:+ "," +:+ Join (map pr (y :: l)) ",").
    rewrite str_app_assoc, Hi; [|by left|done].
    change (("," +:+ Join (map pr (y :: l)) ",") +:+ String close rest)
      with (String "," (Join (map pr (y :: l)) "," +:+ String close rest)).
    cbn [mbind option_bind]. destruct (Ascii.eqb_spec "," close) as [E|_]; [congruence|].
    change (Ascii.eqb "," ",") with true. cbn iota.
    rewrite IH; [done| |done|cbn [length] in *; lia].
    intros z rest' Hz. apply Hi. by right.
Qed.

Lemma wire_ok_array l : wire_ok (WArray l) <-> Forall wire_ok l.
Proof. induction l as [|x l IH]; simpl in *; [done|]. rewrite Forall_cons. by rewrite <- IH. Qed.
Lemma wire_ok_object m : wire_ok (WObject m) <-> Forall (fun kv => ValidString (fst kv) = true /\ wire_ok (snd kv)) m.
Proof. induction m as [|x m IH]; simpl in *; [done|]. rewrite Forall_cons. by rewrite <- IH. Qed.

Lemma wire_size_array l : Forall (fun x => (S (wire_size x) <= wire_size (WArray l) - 2)%nat) l /\ (length l <= wire_size (WArray l) - 2)%nat.
Proof.
  cbn [wire_size]. simpl. rewrite Nat.sub_0_r. induction l as [|x l [IH1 IH2]]; simpl; [split; [constructor|lia]|].
  split; [|lia]. constructor; [lia|]. eapply Forall_impl; [exact IH1|]. intros y Hy. simpl in Hy. lia.
Qed.
Lemma wire_size_object m :
  Forall (fun kv => (S (wire_size (snd kv)) <= wire_size (WObject m) - 2)%nat) m /\ (length m <= wire_size (WObject m) - 2)%nat.
Proof.
  cbn [wire_size]. simpl. rewrite Nat.sub_0_r. induction m as [|x m [IH1 IH2]]; simpl; [split; [constructor|lia]|].
  split; [|lia]. constructor; [lia|]. eapply Forall_impl; [exact IH1|]. intros y Hy. simpl in Hy. lia.
Qed.

(** The first byte of a value does not close an array. *)
Lemma print_first v : wire_ok v -> exists c r, print v = String c r /\ Ascii.eqb "]" c = false.
Proof.
  intros Hv. destruct v as [s|z|l|m]; [eexists _, _; split; reflexivity| |eexists _, _; split; reflexivity..].
  pose proof (Itoa_nonempty z) as Hn. pose proof (Itoa_digits z Hv) as Hd. cbn [print]. destruct (Itoa z) as [|c r]; [done|].
  exists c, r. split; [done|]. simpl in Hd. apply andb_true_iff in Hd as [Hd _].
  destruct (Ascii.eqb_spec "]" c) as [<-|]; [|done]. by cbv in Hd.
Qed.

Lemma parse_number fuel z rest : 0 <= z -> delimited rest -> parse (S fuel) (Itoa z +:+ rest) = Some (WNumber z, rest).
Proof.
  intros Hz Hr. pose proof (Itoa_nonempty z) as Hn. pose proof (Itoa_digits z Hz) as Hd. pose proof (Itoa_value z Hz) as Hv.
  pose proof (span_app is_digit (Itoa z) rest Hd Hr) as Hs. destruct (Itoa z) as [|c r]; [done|].
  change (String c r +:+ rest) with (String c (r +:+ rest)) in *. cbn [parse].
  assert (is_digit c = true) as Hc by (simpl in Hd; by apply andb_true_iff in Hd as [-> _]).
  destruct (Ascii.eqb_spec c dquote) as [->|_]; [by cbv in Hc|]. destruct (Ascii.eqb_spec c "[") as [->|_]; [by cbv in Hc|].
  destruct (Ascii.eqb_spec c "{") as [->|_]; [by cbv in Hc|]. rewrite Hc, Hs, Hv. done.
Qed.

Lemma parse_quote fuel s rest : ValidString s = true -> parse (S fuel) (quote s +:+ rest) = Some (WString s, rest).
Proof.
  intros Hs. unfold quote.
  change (String dquote (quote_body s +:+ String dquote "") +:+ rest) with (String dquote ((quote_body s +:+ String dquote "") +:+ rest)).
  cbn [parse]. rewrite Ascii.eqb_refl, str_app_assoc. change (String dquote "" +:+ rest) with (String dquote rest).
  by rewrite unquote_quote.
Qed.

Lemma parse_array fuel l rest :
  Forall wire_ok l -> (length l <= fuel)%nat ->
  (forall v rest', v ∈ l -> delimited rest' -> parse fuel (print v +:+ rest') = Some (v, rest')) ->
  parse (S fuel) (print (WArray l) +:+ rest) = Some (WArray l, rest).
Proof.
  intros Hok Hl Hi. cbn [print]. rewrite !str_app_assoc. change ("[" +:+ (Join (map print l) "," +:+ ("]" +:+ rest)))
    with (String "[" (Join (map print l) "," +:+ String "]" rest)).
  destruct l as [|v l]; [reflexivity|]. set (body := Join (map print (v :: l)) "," +:+ String "]" rest).
  change (parse (S fuel) (String "[" body)) with
    (match expect "]" body with
     | Some rest => Some (WArray [], rest)
     | None => '(l, rest) ← items (parse fuel) "]" fuel body; Some (WArray l, rest)
     end).
  assert (expect "]" body = None) as ->.
  { inversion Hok as [|? ? Hv _]; subst. destruct (print_first v Hv) as (c&r&E&Hc). unfold body.
    assert (exists r', Join (map print (v :: l)) "," = String c r') as [r' ->].
    { cbn [map]. rewrite E. destruct l as [|w l]; eexists; reflexivity. }
    cbn [String.append expect]. by rewrite Hc. }
  unfold body. rewrite items_join; done.
Qed.

Definition print_member (kv : string * wire) : string := quote (fst kv) +:+ ":" +:+ print (snd kv).
Definition parse_member (fuel : nat) (s : string) : option ((string * wire) * string) :=
  r ← expect dquote s; '(k, r) ← unquote r; r ← expect ":" r; '(v, r) ← parse fuel r; Some ((k, v), r).

Lemma parse_member_print fuel kv rest :
  ValidString (fst kv) = true -> parse fuel (print (snd kv) +:+ rest) = Some (snd kv, rest) ->
  parse_member fuel (print_member kv +:+ rest) = Some (kv, rest).
Proof.
  destruct kv as [k v]. cbn [fst snd]. intros Hk Hv. unfold print_member, parse_member, quote. cbn [fst snd].
  change ((String dquote (quote_body k +:+ String dquote "") +:+ (":" +:+ print v)) +:+ rest)
    with (String dquote (((quote_body k +:+ String dquote "") +:+ (":" +:+ print v)) +:+ rest)).
  cbn [expect]. rewrite Ascii.eqb_refl. cbn [mbind option_bind]. rewrite !str_app_assoc.
  change (String dquote "" +:+ (":" +:+ (print v +:+ rest))) with (String dquote (String ":" (print v +:+ rest))).
  rewrite unquote_quote by done. cbn [mbind option_bind expect]. change (Ascii.eqb ":" ":") with true. cbn [mbind option_bind]. by rewrite Hv.
Qed.

Lemma parse_object fuel m rest :
  (length m <= fuel)%nat ->
  (forall kv rest', kv ∈ m -> delimited rest' -> parse_member fuel (print_member kv +:+ rest') = Some (kv, rest')) ->
  parse (S fuel) (print (WObject m) +:+ rest) = Some (WObject m, rest).
Proof.
  intros Hl Hi. cbn [print]. fold print_member. rewrite !str_app_assoc.
  change ("{" +:+ (Join (map print_member m) "," +:+ ("}" +:+ rest)))
    with (String "{" (Join (map print_member m) "," +:+ String "}" rest)).
  destruct m as [|kv m]; [reflexivity|]. set (body := Join (map print_member (kv :: m)) "," +:+ String "}" rest).
  change (parse (S fuel) (String "{" body)) with
    (match expect "}" body with
     | Some rest => Some (WObject [], rest)
     | None => '(m, rest) ← items (parse_member fuel) "}" fuel body; Some (WObject m, rest)
     end).
  assert (expect "}" body = None) as -> by (unfold body; destruct m as [|w m]; reflexivity).
  unfold body. rewrite items_join; done.
Qed.

(** The reader gives back the value that was encoded and leaves what follows it. *)
Lemma parse_print v : wire_ok v ->
  forall fuel rest, (wire_size v <= fuel)%nat -> delimited rest -> parse fuel (print v +:+ rest) = Some (v, rest).
Proof.
  induction v as [s|z|l IH|m IH] using wire_nested_ind; intros Hv [|fuel] rest Hf Hr; try (simpl in Hf; lia).
  - by apply parse_quote.
  - by apply parse_number.
  - apply wire_ok_array in Hv. destruct (wire_size_array l) as [Hs1 Hs2]. rewrite Forall_forall in Hs1, IH.
    apply parse_array; [done|lia|]. intros v rest' Hin Hr'. pose proof (Hs1 v Hin). rewrite Forall_forall in Hv.
    apply IH; [done|by apply Hv|lia|done].
  - apply wire_ok_object in Hv. destruct (wire_size_object m) as [Hs1 Hs2]. rewrite Forall_forall in Hs1, IH, Hv.
    apply parse_object; [lia|]. intros kv rest' Hin Hr'. pose proof (Hs1 kv Hin). destruct (Hv kv Hin) as [Hk Hw].
    apply parse_member_print; [done|]. apply IH; [done|done|lia|done].
Qed.

(** A document determines the value it was encoded from. *)
Lemma print_inj v v' : wire_ok v -> wire_ok v' -> print v = print v' -> v = v'.
Proof.
  intros Hv Hv' E. pose proof (parse_print v Hv (wire_size v + wire_size v') "" ltac:(lia) ltac:(done)) as P.
  pose proof (parse_print v' Hv' (wire_size v + wire_size v') "" ltac:(lia) ltac:(done)) as P'.
  rewrite E in P. congruence.
Qed.

(** ** Raw messages *)

Definition json_space (c : ascii) : bool := (code c =? 32) || (code c =? 9) || (code c =? 10) || (code c =? 13).

(** [json.Compact], which the encoder applies to a [json.RawMessage]: white space
    outside strings is dropped. *)
Fixpoint compact (in_string escape : bool) (s : string) : string :=
  match s with
  | EmptyString => ""
  | String c r =>
      if in_string then
        String c (if escape then compact true false r
                  else if Ascii.eqb c backslash then compact true true r
                  else compact (negb (Ascii.eqb c dquote)) false r)
      else if json_space c then compact false false r
      else String c (compact (Ascii.eqb c dquote) false r)
  end.

(** Text that compaction leaves alone, outside and inside a string. *)
Definition compacted (s : string) : Prop := forall rest, compact false false (s +:+ rest) = s +:+ compact false false rest.
Definition compacted_in (s : string) : Prop := forall rest, compact true false (s +:+ rest) = s +:+ compact true false rest.

Lemma compacted_app a b : compacted a -> compacted b -> compacted (a +:+ b).
Proof. intros Ha Hb rest. by rewrite !str_app_assoc, Ha, Hb. Qed.
Lemma compacted_in_app a b : compacted_in a -> compacted_in b -> compacted_in (a +:+ b).
Proof. intros Ha Hb rest. by rewrite !str_app_assoc, Ha, Hb. Qed.

Lemma compacted_byte c : json_space c = false -> Ascii.eqb c dquote = false -> compacted (String c "").
Proof. intros Hs Hq rest. cbn [String.append compact]. by rewrite Hs, Hq. Qed.

Lemma compacted_join l sep : compacted sep -> Forall compacted l -> compacted (Join l sep).
Proof.
  intros Hs. induction 1 as [|x l Hx _ IH]; [done|]. destruct l as [|y l]; [done|].
  change (Join (x :: y :: l) sep) with (x +:+ sep +:+ Join (y :: l) sep). auto using compacted_app.
Qed.

Lemma escape_compacted c : code c < 128 -> compacted_in (escape_ascii c).
Proof.
  intros Hc rest. destruct c as [[] [] [] [] [] [] [] []]; try (exfalso; revert Hc; vm_compute; discriminate).
  all: match goal with |- context [escape_ascii ?c] => let e := eval vm_compute in (escape_ascii c) in change (escape_ascii c) with e end.
  all: reflexivity.
Qed.

Lemma raw_compacted c : 128 <= code c -> compacted_in (String c "").
Proof.
  intros Hc rest. cbn [String.append compact]. destruct (Ascii.eqb_spec c backslash) as [->|_]; [by cbv in Hc|].
  destruct (Ascii.eqb_spec c dquote) as [->|_]; [by cbv in Hc|]. done.
Qed.

Lemma quote_body_compacted s : ValidString s = true -> compacted_in (quote_body s).
Proof.
  intros Hv. pattern s. revert s Hv. apply valid_string_ind.
  - done.
  - intros a r Ha IH. cbn [quote_body]. destruct (Z.ltb_spec (code a) 128); [|lia]. auto using compacted_in_app, escape_compacted.
  - intros a b r Ha E IH. cbn [quote_body]. destruct (Z.ltb_spec (code a) 128); [lia|]. rewrite E.
    apply andb_true_iff in E as [_ ?%cont_high].
    apply (compacted_in_app (String a "")), (compacted_in_app (String b "")); auto using raw_compacted.
  - intros a b c r Ha E2 E IH. cbn [quote_body]. destruct (Z.ltb_spec (code a) 128); [lia|]. rewrite E2, E.
    destruct (line_separator a b c) eqn:Es.
    + apply compacted_in_app; [|done]. unfold line_separator in Es. rewrite !andb_true_iff, orb_true_iff, !Z.eqb_eq in Es.
      destruct Es as [_ [->| ->]]; intros rest; reflexivity.
    + apply andb_true_iff in E as [?%second_of_three_high ?%cont_high].
      apply (compacted_in_app (String a "")), (compacted_in_app (String b "")), (compacted_in_app (String c "")); auto using raw_compacted.
  - intros a b c d r Ha E2 E3 E IH. cbn [quote_body]. destruct (Z.ltb_spec (code a) 128); [lia|]. rewrite E2, E3, E.
    apply andb_true_iff in E as [[?%second_of_four_high ?%cont_high]%andb_true_iff ?%cont_high].
    apply (compacted_in_app (String a "")), (compacted_in_app (String b "")), (compacted_in_app (String c "")),
      (compacted_in_app (String d "")); auto using raw_compacted.
Qed.

Lemma quote_compacted s : ValidString s = true -> compacted (quote s).
Proof.
  intros Hv rest. unfold quote.
  change (String dquote (quote_body s +:+ String dquote "") +:+ rest) with (String dquote ((quote_body s +:+ String dquote "") +:+ rest)).
  change (compact false false (String dquote ?x)) with (String dquote (compact true false x)).
  rewrite str_app_assoc, quote_body_compacted by done.
  change (compact true false (String dquote "" +:+ rest)) with (String dquote (compact false false rest)).
  change (String dquote (quote_body s +:+ String dquote "") +:+ ?x) with (String dquote ((quote_body s +:+ String dquote "") +:+ x)).
  by rewrite str_app_assoc.
Qed.

Lemma digits_compacted s : sforall is_digit s = true -> compacted s.
Proof.
  induction s as [|c s IH]; [done|]. simpl. intros [Hc Hs]%andb_true_iff. apply (compacted_app (String c "")); [|auto].
  apply compacted_byte; destruct c as [[] [] [] [] [] [] [] []]; try done; by cbv in Hc.
Qed.

(** Compaction leaves the encoder's own output alone. *)
Lemma print_compacted v : wire_ok v -> compacted (print v).
Proof.
  induction v as [s|z|l IH|m IH] using wire_nested_ind; intros Hv; cbn [print].
  - by apply quote_compacted.
  - by apply digits_compacted, Itoa_digits.
  - apply wire_ok_array in Hv. rewrite Forall_forall in IH, Hv.
    repeat apply compacted_app; try (by apply compacted_byte). apply compacted_join; [by apply compacted_byte|].
    apply Forall_map, Forall_forall. auto.
  - apply wire_ok_object in Hv. rewrite Forall_forall in IH, Hv.
    repeat apply compacted_app; try (by apply compacted_byte). apply compacted_join; [by apply compacted_byte|].
    apply Forall_map, Forall_forall. intros kv Hin. destruct (Hv kv Hin).
    repeat apply compacted_app; [by apply quote_compacted|by apply compacted_byte|auto].
Qed.

Lemma compact_print v : wire_ok v -> compact false false (print v) = print v.
Proof. intros Hv. rewrite <- (app_empty_r (print v)) at 1. rewrite print_compacted by done. apply app_empty_r. Qed.

Example print_sample :
  print (WObject [("id", WString (String (ascii_of_N 34) "x")); ("n", WNumber 7); ("l", WArray [])]) =
  "{" +:+ String dquote ("id" +:+ String dquote (":" +:+ String dquote (escaped (String dquote ("x" +:+ String dquote
    ("," +:+ String dquote ("n" +:+ String dquote (":7," +:+ String dquote ("l" +:+ String dquote ":[]}"))))))))).
Proof. vm_compute. reflexivity. Qed.
