(* ===== verification/Rfc3339.v ===== *)
(** * Time stamps on the wire

    [t.UTC().Format(time.RFC3339Nano)], and that it determines the instant: the
    fields are separated by bytes that are no digits, and a fraction lost only its
    trailing zeros. *)
From Stdlib Require Import ZArith Lia Bool.
From Stdlib Require Import String Ascii.
From stdpp Require Import base tactics option list strings pretty.
From S2P Require Import Prelude GoStrings GoTime SourceJson GoJson.
Open Scope Z_scope.

Definition rfc3339nano (t : Time) : string :=
  let secs := instant t / second in
  let day := secs mod 86400 in
  let c := civil_of_days (secs / 86400) in
  format_year (cv_year c) +:+ "-" +:+ pad_int 2 (cv_month c) +:+ "-" +:+ pad_int 2 (cv_day c) +:+ "T" +:+
  pad_int 2 (day / 3600) +:+ ":" +:+ pad_int 2 (day mod 3600 / 60) +:+ ":" +:+ pad_int 2 (day mod 60) +:+
  format_fraction (Nanosecond t) +:+ "Z".

Definition Year (t : Time) : Z := cv_year (civil_of_days (instant t / second / 86400)).

(** ** Padded numbers *)

Lemma zero_string_S n : zero_string (S n) = "0" +:+ zero_string n.
Proof. unfold zero_string. cbn [repeat]. destruct n; [done|]. reflexivity. Qed.

Lemma zero_string_value n s : value_from 0 (zero_string n +:+ s) = value_from 0 s.
Proof. induction n as [|n IH]; [done|]. rewrite zero_string_S. exact IH. Qed.
Lemma zero_string_digits n : sforall is_digit (zero_string n) = true.
Proof. induction n as [|n IH]; [done|]. rewrite zero_string_S. exact IH. Qed.
Lemma zero_string_length n : String.length (zero_string n) = n.
Proof. induction n as [|n IH]; [done|]. rewrite zero_string_S. simpl. by rewrite IH. Qed.

Lemma pad_int_value w z : 0 <= z -> value_of (pad_int w z) = z.
Proof. intros Hz. unfold value_of, pad_int. rewrite zero_string_value. by apply Itoa_value. Qed.
Lemma pad_int_digits w z : 0 <= z -> sforall is_digit (pad_int w z) = true.
Proof. intros Hz. unfold pad_int. by rewrite sforall_app, zero_string_digits, Itoa_digits. Qed.
Lemma pad_int_length w z : (0 < w)%nat -> 0 <= z < 10 ^ Z.of_nat w -> String.length (pad_int (Z.of_nat w) z) = w.
Proof.
  intros Hw Hz. unfold pad_int. pose proof (Itoa_length w z Hz Hw) as Hl.
  rewrite str_length_app, zero_string_length. unfold len. lia.
Qed.

(** A padded number ends where the digits end. *)
Lemma pad_int_split w z r w' z' r' :
  0 <= z -> 0 <= z' -> delimited r -> delimited r' -> pad_int w z +:+ r = pad_int w' z' +:+ r' -> z = z' /\ r = r'.
Proof.
  intros Hz Hz' Hr Hr' E. pose proof (span_app is_digit (pad_int w z) r (pad_int_digits w z Hz) Hr) as S.
  pose proof (span_app is_digit (pad_int w' z') r' (pad_int_digits w' z' Hz') Hr') as S'. rewrite E, S' in S.
  injection S as E1 E2. split; [|done]. rewrite <- (pad_int_value w z), <- (pad_int_value w' z') by done. by rewrite E1.
Qed.

(** ** The fraction *)

Lemma trim_zeros_left_split s : exists k, s = zero_string k +:+ trim_zeros_left s.
Proof.
  induction s as [|c s [k IH]]; [by exists 0%nat|]. cbn [trim_zeros_left]. destruct (Ascii.eqb_spec c "0") as [->|_].
  - exists (S k). rewrite zero_string_S. change (("0" +:+ zero_string k) +:+ trim_zeros_left s) with (String "0" (zero_string k +:+ trim_zeros_left s)).
    by rewrite <- IH.
  - by exists 0%nat.
Qed.

Lemma zero_string_snoc k : zero_string k +:+ "0" = "0" +:+ zero_string k.
Proof. induction k as [|k IH]; [done|]. by rewrite zero_string_S, str_app_assoc, IH. Qed.

Lemma srev_zero_string k : srev (zero_string k) = zero_string k.
Proof. induction k as [|k IH]; [done|]. rewrite zero_string_S, srev_append, IH. apply zero_string_snoc. Qed.

Lemma TrimRightZeros_split s : s = TrimRightZeros s +:+ zero_string (String.length s - String.length (TrimRightZeros s)).
Proof.
  destruct (trim_zeros_left_split (srev s)) as [k Hk]. assert (s = TrimRightZeros s +:+ zero_string k) as E.
  { rewrite <- (srev_invol s) at 1. rewrite Hk, srev_append, srev_zero_string. done. }
  assert (k = String.length s - String.length (TrimRightZeros s))%nat as <-; [|done].
  apply (f_equal String.length) in E. rewrite str_length_app, zero_string_length in E. lia.
Qed.

Lemma TrimRightZeros_inj s s' : String.length s = String.length s' -> TrimRightZeros s = TrimRightZeros s' -> s = s'.
Proof. intros Hl E. rewrite (TrimRightZeros_split s), (TrimRightZeros_split s'), E, Hl. done. Qed.

Lemma TrimRightZeros_digits s : sforall is_digit s = true -> sforall is_digit (TrimRightZeros s) = true.
Proof. intros Hs. rewrite (TrimRightZeros_split s), sforall_app in Hs. by apply andb_true_iff in Hs as [-> _]. Qed.

Lemma format_fraction_inj n n' :
  0 <= n < second -> 0 <= n' < second -> format_fraction n +:+ "Z" = format_fraction n' +:+ "Z" -> n = n'.
Proof.
  intros Hn Hn'. unfold format_fraction. destruct (Z.eqb_spec n 0) as [->|], (Z.eqb_spec n' 0) as [->|]; try done.
  intros E. injection E as E.
  assert (forall m, 0 <= m -> sforall is_digit (TrimRightZeros (pad_int 9 m)) = true) as Hd
    by (intros; by apply TrimRightZeros_digits, pad_int_digits).
  pose proof (span_app is_digit _ "Z" (Hd n ltac:(lia)) eq_refl) as S.
  pose proof (span_app is_digit _ "Z" (Hd n' ltac:(lia)) eq_refl) as S'. rewrite E, S' in S. injection S as E'.
  symmetry in E'. apply TrimRightZeros_inj in E'.
  - by rewrite <- (pad_int_value 9 n), <- (pad_int_value 9 n'), E' by lia.
  - change 9 with (Z.of_nat 9). rewrite !pad_int_length; try done; unfold second in *; lia.
Qed.

(** ** The whole *)

Lemma day_fields d d' :
  d / 3600 = d' / 3600 -> d mod 3600 / 60 = d' mod 3600 / 60 -> d mod 60 = d' mod 60 -> d = d'.
Proof.
  intros H1 H2 H3. assert (forall x, x = 3600 * (x / 3600) + 60 * (x mod 3600 / 60) + x mod 60) as E.
  { intros x. pose proof (Z.div_mod x 3600 ltac:(lia)). pose proof (Z.div_mod (x mod 3600) 60 ltac:(lia)).
    assert ((x mod 3600) mod 60 = x mod 60).
    { rewrite (Z.div_mod x 3600 ltac:(lia)) at 2. replace (3600 * (x / 3600) + x mod 3600) with (x mod 3600 + (60 * (x / 3600)) * 60) by lia. by rewrite Z_mod_plus_full. }
    lia. }
  rewrite (E d), (E d'), H1, H2, H3. done.
Qed.

(** The time stamp of an instant from year 0 on determines it. *)
Lemma rfc3339nano_inj t t' : 0 <= Year t -> 0 <= Year t' -> rfc3339nano t = rfc3339nano t' -> instant t = instant t'.
Proof.
  unfold Year, rfc3339nano. set (s := instant t / second). set (s' := instant t' / second). intros Hy Hy'.
  destruct (civil_of_days_spec (s / 86400)) as (Ed&Hm&Hd). destruct (civil_of_days_spec (s' / 86400)) as (Ed'&Hm'&Hd').
  set (c := civil_of_days (s / 86400)) in *. set (c' := civil_of_days (s' / 86400)) in *. clearbody c c'.
  pose proof (Z.mod_pos_bound s 86400 ltac:(lia)) as B. pose proof (Z.mod_pos_bound s' 86400 ltac:(lia)) as B'.
  set (d := s mod 86400) in *. set (d' := s' mod 86400) in *.
  assert (0 <= d / 3600 /\ 0 <= d mod 3600 / 60 /\ 0 <= d mod 60) as (D1&D2&D3).
  { pose proof (Z.mod_pos_bound d 3600 ltac:(lia)). pose proof (Z.mod_pos_bound d 60 ltac:(lia)).
    repeat split; try apply Z.div_pos; lia. }
  assert (0 <= d' / 3600 /\ 0 <= d' mod 3600 / 60 /\ 0 <= d' mod 60) as (D1'&D2'&D3').
  { pose proof (Z.mod_pos_bound d' 3600 ltac:(lia)). pose proof (Z.mod_pos_bound d' 60 ltac:(lia)).
    repeat split; try apply Z.div_pos; lia. }
  assert (forall n, delimited (format_fraction n +:+ "Z")) as Hf by (intros n; unfold format_fraction; by destruct (_ =? _)).
  unfold format_year. destruct (Z.ltb_spec (cv_year c) 0); [lia|]. destruct (Z.ltb_spec (cv_year c') 0); [lia|]. intros E.
  apply pad_int_split in E as [Ey E]; try done; try lia. injection E as E.
  apply pad_int_split in E as [Em E]; try done; try lia. injection E as E.
  apply pad_int_split in E as [Edd E]; try done; try lia. injection E as E.
  apply pad_int_split in E as [Eh E]; try done; try lia. injection E as E.
  apply pad_int_split in E as [Emi E]; try done; try lia. injection E as E.
  apply pad_int_split in E as [Es E]; try done; try lia; [|apply Hf..].
  apply format_fraction_inj in E; [|unfold Nanosecond; by apply Z.mod_pos_bound..].
  assert (d = d') as E1 by (by apply day_fields).
  assert (s / 86400 = s' / 86400) as E2 by (rewrite <- Ed, <- Ed'; unfold days_of_civil; congruence).
  assert (s = s') as E3 by (rewrite (Z.div_mod s 86400), (Z.div_mod s' 86400) by lia; fold d d'; lia).
  rewrite (Z.div_mod (instant t) second), (Z.div_mod (instant t') second) by done. fold s s'. unfold Nanosecond in E. lia.
Qed.

Example rfc3339nano_sample : rfc3339nano (time_Unix_UTC 1709251199500000000) = "2024-02-29T23:59:59.5Z".
Proof. vm_compute. reflexivity. Qed.
