(* ===== verification/Ingest.v ===== *)
(** * Ingest requests

    [internal/history/ingest/encode.go]: validation of a request, its canonical
    JSON encoding, and the identifiers derived from it. *)
From Stdlib Require Import ZArith Lia Bool.
From Stdlib Require Import String Ascii.
From stdpp Require Import base tactics option list strings.
From S2P Require Import Prelude GoStrings GoPath Sha256 GoTime SourceJson GoJson Rfc3339.
Open Scope Z_scope.

Module Ingest.

Definition MaxChunksPerRequest : Z := 500.
Definition MaxRequestBytes : Z := 1048576.
Definition zero_byte : string := String (ascii_of_N 0) "".
Definition recordIdentityDomain : string := "history-rag/outbox-record/v1" +:+ zero_byte.
Definition chunkIdentityDomain : string := "history-rag/chunk/v1" +:+ zero_byte.

Definition ErrInvalidRequest : error := Sentinel "invalid ingestion request".
Definition ErrInvalidSource : error := Sentinel "invalid ingestion source".
Definition ErrInvalidCursor : error := Sentinel "invalid ingestion cursor".
Definition ErrInvalidChunk : error := Sentinel "invalid ingestion chunk".
Definition ErrChunkLimit : error := Sentinel "ingestion chunk limit exceeded".
Definition ErrRequestLimit : error := Sentinel "ingestion request byte limit exceeded".

(** ** Data *)

Record SourceKey : Type := mkSourceKey {
  Format : string;
  RootVolume : Z;
  RootObject : Z;
  RelativePath : string;
  ItemID : string
}.
Record Cursor : Type := mkCursor {
  Kind : string;
  StartExclusive : Z;
  EndInclusive : Z;
  PrefixSHA256 : string;
  PreviousRevisionSHA256 : string;
  RevisionSHA256 : string
}.
Record Chunk : Type := mkChunk {
  c_ID : string;
  c_Content : string;
  c_ChunkType : string;
  c_SessionID : string;
  c_ProjectPath : string;
  c_ProjectName : string;
  c_Timestamp : Time;
  c_UserUUID : string;
  c_AssistantUUID : string;
  c_FilePath : string;
  c_Operation : string;
  c_Model : string;
  c_SourceFile : string;
  c_SourceLine : Z;
  c_ParentChunkID : string;
  c_ChildChunkIDs : list string
}.
Record Request : Type := mkRequest {
  MachineID : string;
  ClientName : string;
  Source : SourceKey;
  Cursor_ : Cursor;
  Generation : Z;
  Chunks : list Chunk
}.
Record ChunkIdentity : Type := mkIdentity {
  ci_MachineID : string;
  ci_Source : SourceKey;
  ci_ChunkType : string;
  ci_SessionID : string;
  ci_SourceLine : Z;
  ci_Ordinal : Z;
  ci_ContentSHA256 : string
}.
Record EncodedRequest : Type := mkEncoded {
  body : string;
  payload : string;
  requestSHA256 : string;
  payloadSHA256 : string;
  recordID : string;
  chunkCount : Z
}.

Definition CursorPhysicalLines : string := "physical_lines".
Definition CursorSnapshotRevision : string := "snapshot_revision".
Definition source_formats : list string :=
  ["claude_code_jsonl"; "codex_jsonl"; "gemini_cli_json"; "antigravity_transcript_or_protobuf"; "chatgpt_export_json";
   "claude_app_export_json"].

(** ** Validators *)

Definition validSourceFormat (format : string) : bool := existsb (String.eqb format) source_formats.

(** [unicode.IsControl]: the control characters of Latin-1. *)
Definition IsControl (r : Z) : bool := ((0 <=? r) && (r <=? 31)) || ((127 <=? r) && (r <=? 159)).
Definition line_break (r : Z) : bool := (r =? 10) || (r =? 13) || (r =? 9).

Definition validText (value : string) (maximum : Z) (allowLineBreaks : bool) : bool :=
  if (TrimSpace value ==s "") || (maximum <? len value) || negb (ValidString value) then false
  else forallb (fun r => negb (IsControl (fst r)) || (allowLineBreaks && line_break (fst r))) (runes value).

Definition validOptionalText (value : string) (maximum : Z) : bool := (value ==s "") || validText value maximum false.

Definition validSHA256 (value : string) : bool := (len value =? 64) && sforall is_lower_hex value.

Definition validTimestamp (value : Time) : bool :=
  let year := Year (UTC value) in negb (IsZero value) && (1 <=? year) && (year <=? 9999).

Definition machine_byte (c : ascii) : bool :=
  is_lower c || is_upper c || is_digit c || has_byte c "_.:-".
Definition validMachineID (value : string) : bool :=
  negb ((len value =? 0) || (128 <? len value)) && sforall machine_byte value.

Definition validRelativePath (value : string) : bool :=
  validText value 4096 false && (value !=s ".") && negb (IsAbs value) && (Clean value ==s value) &&
  negb (Contains value (String backslash "")).

(** ** The wire *)

(** A field with [omitempty]. *)
Definition optional (key value : string) : list (string * wire) := if value ==s "" then [] else [(key, WString value)].

Definition source_members (s : SourceKey) : list (string * wire) :=
  [("format", WString (Format s)); ("root_volume", WString (hex_fixed 16 (RootVolume s)));
   ("root_object", WString (hex_fixed 16 (RootObject s))); ("relative_path", WString (RelativePath s))] ++
  optional "item_id" (ItemID s).

Definition source_wire (s : SourceKey) : result wire :=
  if negb (validSourceFormat (Format s)) || ((RootVolume s =? 0) && (RootObject s =? 0)) then Fail ErrInvalidSource
  else if negb (validRelativePath (RelativePath s)) then Fail ErrInvalidSource
  else if (ItemID s !=s "") && negb (validText (ItemID s) 512 false) then Fail ErrInvalidSource
  else Ok (WObject (source_members s)).

Definition cursor_wire (c : Cursor) : result wire :=
  if Kind c ==s CursorPhysicalLines then
    if (max_int64 <? StartExclusive c) || (max_int64 <? EndInclusive c) || (EndInclusive c <? StartExclusive c) ||
       negb (validSHA256 (PrefixSHA256 c)) || (PreviousRevisionSHA256 c !=s "") || (RevisionSHA256 c !=s "")
    then Fail ErrInvalidCursor
    else Ok (WObject ([("kind", WString (Kind c)); ("start_exclusive", WNumber (StartExclusive c));
                       ("end_inclusive", WNumber (EndInclusive c))] ++ optional "prefix_sha256" (PrefixSHA256 c)))
  else if Kind c ==s CursorSnapshotRevision then
    if negb (StartExclusive c =? 0) || negb (EndInclusive c =? 0) || (PrefixSHA256 c !=s "") ||
       negb (validSHA256 (RevisionSHA256 c)) ||
       ((PreviousRevisionSHA256 c !=s "") && negb (validSHA256 (PreviousRevisionSHA256 c))) ||
       (PreviousRevisionSHA256 c ==s RevisionSHA256 c)
    then Fail ErrInvalidCursor
    else Ok (WObject ([("kind", WString (Kind c))] ++ optional "previous_revision_sha256" (PreviousRevisionSHA256 c) ++
                      optional "revision_sha256" (RevisionSHA256 c)))
  else Fail ErrInvalidCursor.

(** The loop over the children, with the ones seen so far. *)
Fixpoint check_children (id : string) (seen : list string) (children : list string) : bool :=
  match children with
  | [] => true
  | child :: rest =>
      if negb (validSHA256 child) || (child ==s id) || bool_decide (child ∈ seen) then false
      else check_children id (child :: seen) rest
  end.

Definition chunk_valid (c : Chunk) : bool :=
  (validSHA256 (c_ID c) && validText (c_Content c) MaxRequestBytes true && validText (c_ChunkType c) 128 false &&
   validText (c_SessionID c) 512 false && validText (c_ProjectPath c) 4096 false && validText (c_ProjectName c) 512 false &&
   validTimestamp (c_Timestamp c) && validText (c_SourceFile c) 4096 false && negb (max_int64 <? c_SourceLine c)) &&
  (validOptionalText (c_UserUUID c) 512 && validOptionalText (c_AssistantUUID c) 512 &&
   validOptionalText (c_FilePath c) 4096 && validOptionalText (c_Operation c) 128 && validOptionalText (c_Model c) 512) &&
  negb ((c_ParentChunkID c !=s "") && (negb (validSHA256 (c_ParentChunkID c)) || (c_ParentChunkID c ==s c_ID c))) &&
  check_children (c_ID c) [] (c_ChildChunkIDs c).

Definition children_field (ids : list string) : list (string * wire) :=
  match ids with [] => [] | _ => [("child_chunk_ids", WArray (map WString ids))] end.

Definition chunk_members (c : Chunk) : list (string * wire) :=
  [("id", WString (c_ID c)); ("content", WString (c_Content c)); ("chunk_type", WString (c_ChunkType c));
   ("session_id", WString (c_SessionID c)); ("project_path", WString (c_ProjectPath c));
   ("project_name", WString (c_ProjectName c)); ("timestamp", WString (rfc3339nano (UTC (c_Timestamp c))))] ++
  optional "user_uuid" (c_UserUUID c) ++ optional "assistant_uuid" (c_AssistantUUID c) ++
  optional "file_path" (c_FilePath c) ++ optional "operation" (c_Operation c) ++ optional "model" (c_Model c) ++
  [("source_file", WString (c_SourceFile c)); ("source_line", WNumber (c_SourceLine c))] ++
  optional "parent_chunk_id" (c_ParentChunkID c) ++ children_field (c_ChildChunkIDs c).

Definition chunk_wire (c : Chunk) : result wire :=
  if chunk_valid c then Ok (WObject (chunk_members c)) else Fail ErrInvalidChunk.

(** [marshalCanonical]: the encoder's output without its final newline. *)
Definition marshalCanonical (value : wire) : string := print value.

(** ** [EncodeRequest] *)

(** The loop over the chunks, with the identifiers seen and the file of the
    first chunk. *)
Fixpoint encode_chunks (index : Z) (seen : list string) (sourceFile : string) (chunks : list Chunk) : result (list wire) :=
  match chunks with
  | [] => Ok []
  | c :: rest =>
      match chunk_wire c with
      | Fail _ => Fail (Wrapf "%w: chunks[%d]: %v" [FInt index; FStr "invalid ingestion chunk"] ErrInvalidChunk)
      | Ok w =>
          if bool_decide (c_ID c ∈ seen) then Fail (Wrapf "%w: duplicate chunk id" [] ErrInvalidChunk)
          else if negb (index =? 0) && (c_SourceFile c !=s sourceFile)
          then Fail (Wrapf "%w: mixed source_file provenance" [] ErrInvalidChunk)
          else ws ← encode_chunks (index + 1) (c_ID c :: seen) (if index =? 0 then c_SourceFile c else sourceFile) rest;
               Ok (w :: ws)
      end
  end.

(** The body, in which the encoder writes the payload as a raw message. *)
Definition request_members (request : Request) (source cursor : wire) : list (string * wire) :=
  [("schema_version", WNumber 1); ("machine_id", WString (MachineID request))] ++ optional "client_name" (ClientName request) ++
  [("source", source); ("cursor", cursor); ("generation", WNumber (Generation request))].

Definition marshal_request (request : Request) (source cursor : wire) (payload : string) : string :=
  "{" +:+ Join (map print_member (request_members request source cursor)) "," +:+ "," +:+ quote "chunks" +:+ ":" +:+
  compact false false payload +:+ "}".

Definition EncodeRequest (request : Request) : result EncodedRequest :=
  if MaxChunksPerRequest <? Z.of_nat (length (Chunks request)) then Fail ErrChunkLimit
  else if negb (validMachineID (MachineID request)) then Fail (Wrapf "%w: machine_id" [] ErrInvalidRequest)
  else if (ClientName request !=s "") && negb (validText (ClientName request) 256 false)
  then Fail (Wrapf "%w: client_name" [] ErrInvalidRequest)
  else
    source ← source_wire (Source request);
    cursor ← cursor_wire (Cursor_ request);
    chunks ← encode_chunks 0 [] "" (Chunks request);
    let payload := marshalCanonical (WArray chunks) in
    let body := marshal_request request source cursor payload in
    if MaxRequestBytes <? len body then Fail ErrRequestLimit
    else
      let requestDigest := Sum256 body in
      Ok (mkEncoded body payload requestDigest (Sum256 payload)
            (hex_encode (Sum256 (recordIdentityDomain +:+ requestDigest))) (Z.of_nat (length chunks))).

(** ** [DeriveChunkID] *)

Definition identity_wire (identity : ChunkIdentity) (source : wire) : wire :=
  WObject [("schema_version", WNumber 1); ("machine_id", WString (ci_MachineID identity)); ("source", source);
           ("chunk_type", WString (ci_ChunkType identity)); ("session_id", WString (ci_SessionID identity));
           ("source_line", WNumber (ci_SourceLine identity)); ("ordinal", WNumber (ci_Ordinal identity));
           ("content_sha256", WString (hex_encode (ci_ContentSHA256 identity)))].

Definition zero_digest : string := String.concat "" (repeat zero_byte 32).

Definition DeriveChunkID (identity : ChunkIdentity) : result string :=
  if negb (validMachineID (ci_MachineID identity)) then Fail (Wrapf "%w: machine_id" [] ErrInvalidChunk)
  else
    source ← source_wire (ci_Source identity);
    if negb (validText (ci_ChunkType identity) 128 false) then Fail (Wrapf "%w: chunk_type" [] ErrInvalidChunk)
    else if negb (validText (ci_SessionID identity) 512 false) then Fail (Wrapf "%w: session_id" [] ErrInvalidChunk)
    else if (max_int64 <? ci_SourceLine identity) || (ci_ContentSHA256 identity ==s zero_digest) then Fail ErrInvalidChunk
    else Ok (hex_encode (Sum256 (chunkIdentityDomain +:+ marshalCanonical (identity_wire identity source)))).

End Ingest.
