(* ===== verification/IngestSpec.v ===== *)
(** * Properties of the ingest encoding *)
From Stdlib Require Import ZArith Lia Bool.
From Stdlib Require Import String Ascii.
From stdpp Require Import base tactics option list strings.
From S2P Require Import Prelude GoStrings GoPath Sha256 GoTime SourceText SourceJson GoJson Rfc3339 Ingest.
Open Scope Z_scope.
Import Ingest.

(** ** Reading members *)

Definition field (m : list (string * wire)) (k : string) : option wire := assoc k m.
Definition text_field (m : list (string * wire)) (k : string) : string :=
  match field m k with Some (WString s) => s | _ => "" end.
Definition number_field (m : list (string * wire)) (k : string) : Z :=
  match field m k with Some (WNumber z) => z | _ => 0 end.
Definition texts_field (m : list (string * wire)) (k : string) : list string :=
  match field m k with Some (WArray l) => omap (fun w => match w with WString s => Some s | _ => None end) l | _ => [] end.

Lemma field_app m m' k : field (m ++ m') k = match field m k with Some v => Some v | None => field m' k end.
Proof. induction m as [|[k' v] m IH]; [done|]. unfold field in *. simpl. by destruct (k ==s k'). Qed.
Lemma field_cons k' v m k : field ((k', v) :: m) k = if k ==s k' then Some v else field m k.
Proof. done. Qed.
Lemma field_optional_other k k' v : (k ==s k') = false -> field (optional k' v) k = None.
Proof. intros E. unfold optional, field. destruct (v ==s ""); [done|]. simpl. by rewrite E. Qed.
Lemma field_optional k v : field (optional k v) k = if v ==s "" then None else Some (WString v).
Proof. unfold optional, field. destruct (v ==s ""); [done|]. simpl. by rewrite String.eqb_refl. Qed.
Lemma field_children_other k ids : (k ==s "child_chunk_ids") = false -> field (children_field ids) k = None.
Proof. intros E. unfold children_field, field. destruct ids; [done|]. cbn [assoc]. by rewrite E. Qed.

Lemma optional_text_read v : match (if v ==s "" then None else Some (WString v)) with Some (WString s) => s | _ => "" end = v.
Proof. by destruct (String.eqb_spec v "") as [->|]. Qed.

(** Evaluates the read of a member of an object that was built from fields. *)
Ltac read_field :=
  unfold text_field, number_field, texts_field;
  repeat first
    [ rewrite field_app | rewrite field_cons; cbn [String.eqb Ascii.eqb Bool.eqb]
    | rewrite field_optional_other by reflexivity | rewrite field_children_other by reflexivity
    | rewrite field_optional | rewrite optional_text_read ]; try reflexivity;
  repeat match goal with |- context [if ?v ==s "" then _ else _] => destruct (String.eqb_spec v "") as [->|_] end; try reflexivity.

(** ** Valid strings *)

Lemma class_ascii p : (forallb (fun n => negb (p (ascii_of_N n)) || (Z.of_N n <? 128)) (map N.of_nat (seq 0 256)) = true) ->
  forall c, p c = true -> (code c <? 128) = true.
Proof.
  intros Hf c Hc. rewrite forallb_forall in Hf. specialize (Hf (N_of_ascii c)).
  assert (List.In (N_of_ascii c) (map N.of_nat (seq 0 256))) as Hin.
  { rewrite <- (N2Nat.id (N_of_ascii c)). apply in_map, in_seq. pose proof (N_ascii_bounded c). lia. }
  specialize (Hf Hin). rewrite ascii_N_embedding, Hc in Hf. exact Hf.
Qed.
Lemma hex_ascii c : is_lower_hex c = true -> (code c <? 128) = true.
Proof. apply class_ascii. vm_compute. reflexivity. Qed.
Lemma digit_ascii c : is_digit c = true -> (code c <? 128) = true.
Proof. apply class_ascii. vm_compute. reflexivity. Qed.
Lemma machine_ascii c : machine_byte c = true -> (code c <? 128) = true.
Proof. apply class_ascii. vm_compute. reflexivity. Qed.

Lemma sha256_valid s : validSHA256 s = true -> ValidString s = true.
Proof. unfold validSHA256. intros [_ Hs]%andb_true_iff. apply ascii_valid. exact (sforall_impl _ _ _ hex_ascii Hs). Qed.
Lemma machine_valid s : validMachineID s = true -> ValidString s = true.
Proof. unfold validMachineID. intros [_ Hs]%andb_true_iff. apply ascii_valid. exact (sforall_impl _ _ _ machine_ascii Hs). Qed.
Lemma text_valid s n b : validText s n b = true -> ValidString s = true.
Proof. unfold validText. destruct (ValidString s); [done|]. by rewrite orb_true_r. Qed.
Lemma optional_text_valid s n : validOptionalText s n = true -> ValidString s = true.
Proof. unfold validOptionalText. intros [->%String.eqb_eq|Ht]%orb_true_iff; [done|by eapply text_valid]. Qed.
Lemma hex_fixed_valid w z : ValidString (hex_fixed w z) = true.
Proof. apply ascii_valid. apply (sforall_impl _ _ _ hex_ascii), hex_fixed_lower_hex. Qed.
Lemma format_valid f : validSourceFormat f = true -> ValidString f = true.
Proof. unfold validSourceFormat. intros (x&Hx&->%String.eqb_eq)%existsb_exists. simpl in Hx. intuition (subst; reflexivity). Qed.

Lemma digits_valid_ascii s : sforall is_digit s = true -> is_ascii s = true.
Proof. apply sforall_impl, digit_ascii. Qed.

Lemma rfc3339nano_valid t : 0 <= Year t -> ValidString (rfc3339nano t) = true.
Proof.
  intros Hy. apply ascii_valid. unfold rfc3339nano, is_ascii, Year in *. set (s := instant t / second) in *.
  destruct (civil_of_days_spec (s / 86400)) as (_&Hm&Hd). set (c := civil_of_days (s / 86400)) in *. clearbody c.
  pose proof (Z.mod_pos_bound s 86400 ltac:(lia)) as B. set (d := s mod 86400) in *. clearbody d.
  pose proof (Z.mod_pos_bound d 3600 ltac:(lia)). pose proof (Z.mod_pos_bound d 60 ltac:(lia)).
  assert (forall w z, 0 <= z -> sforall (fun c => code c <? 128) (pad_int w z) = true) as Hp
    by (intros; by apply digits_valid_ascii, pad_int_digits).
  assert (0 <= Nanosecond t) by (unfold Nanosecond; apply Z.mod_pos_bound; done).
  rewrite !sforall_app. unfold format_year. destruct (Z.ltb_spec (cv_year c) 0); [lia|].
  rewrite !Hp; try (try apply Z.div_pos; lia). cbn [andb sforall]. rewrite andb_true_r.
  unfold format_fraction. destruct (_ =? _); [done|]. rewrite sforall_app.
  rewrite (digits_valid_ascii (TrimRightZeros _)); [done|]. by apply TrimRightZeros_digits, pad_int_digits.
Qed.

(** ** The document of an accepted request *)

(** Unsigned machine integers. *)
Definition uint64 (z : Z) : Prop := 0 <= z < 2 ^ 64.
Record typed (r : Request) : Prop := mk_typed {
  ty_volume : uint64 (RootVolume (Source r));
  ty_object : uint64 (RootObject (Source r));
  ty_start : uint64 (StartExclusive (Cursor_ r));
  ty_end : uint64 (EndInclusive (Cursor_ r));
  ty_generation : uint64 (Generation r);
  ty_lines : Forall (fun c => uint64 (c_SourceLine c)) (Chunks r)
}.

(** The same request, with times in UTC. *)
Definition utc_chunk (c : Chunk) : Chunk :=
  mkChunk (c_ID c) (c_Content c) (c_ChunkType c) (c_SessionID c) (c_ProjectPath c) (c_ProjectName c) (UTC (c_Timestamp c))
    (c_UserUUID c) (c_AssistantUUID c) (c_FilePath c) (c_Operation c) (c_Model c) (c_SourceFile c) (c_SourceLine c)
    (c_ParentChunkID c) (c_ChildChunkIDs c).
Definition utc_request (r : Request) : Request :=
  mkRequest (MachineID r) (ClientName r) (Source r) (Cursor_ r) (Generation r) (map utc_chunk (Chunks r)).

Definition request_doc (r : Request) (source cursor : wire) (chunks : list wire) : wire :=
  WObject (request_members r source cursor ++ [("chunks", WArray chunks)]).

Lemma optional_members_ok k v : ValidString k = true -> ValidString v = true ->
  Forall (fun kv => ValidString (fst kv) = true /\ wire_ok (snd kv)) (optional k v).
Proof. intros Hk Hv. unfold optional. destruct (_ ==s _); repeat constructor; done. Qed.

Lemma Join_app l x sep : l <> [] -> Join (l ++ [x]) sep = Join l sep +:+ sep +:+ x.
Proof.
  induction l as [|a l IH]; [done|]. intros _. destruct l as [|b l]; [done|].
  change (Join ((a :: b :: l) ++ [x]) sep) with (a +:+ sep +:+ Join ((b :: l) ++ [x]) sep). rewrite IH by done.
  change (Join (a :: b :: l) sep) with (a +:+ sep +:+ Join (b :: l) sep). by rewrite !str_app_assoc.
Qed.

(** The raw message of the chunks is written as the payload is. *)
Lemma marshal_request_print r source cursor chunks :
  wire_ok (WArray chunks) ->
  marshal_request r source cursor (marshalCanonical (WArray chunks)) = print (request_doc r source cursor chunks).
Proof.
  intros Hok. unfold marshal_request, marshalCanonical, request_doc. rewrite compact_print by done.
  cbn [print]. fold print_member. rewrite map_app.
  change (map print_member [("chunks", WArray chunks)]) with [print_member ("chunks", WArray chunks)].
  rewrite Join_app by (unfold request_members; done).
  change (print_member ("chunks", WArray chunks)) with (quote "chunks" +:+ ":" +:+ print (WArray chunks)).
  cbn [print]. by rewrite !str_app_assoc.
Qed.

Ltac andb_split := repeat match goal with H : _ && _ = true |- _ => apply andb_true_iff in H as [? ?] end.
Ltac members_ok := repeat first [apply Forall_app; split | apply Forall_cons; split | apply Forall_nil; exact I].

Lemma source_wire_ok s w : source_wire s = Ok w -> w = WObject (source_members s) /\ wire_ok w.
Proof.
  unfold source_wire. destruct (validSourceFormat (Format s)) eqn:Ef; [|done]. destruct (_ && _); [done|]. cbn [negb orb].
  destruct (validRelativePath (RelativePath s)) eqn:Er; [|done]. cbn [negb].
  destruct ((ItemID s !=s "") && _) eqn:Ei; [done|]. intros [= <-]. split; [done|].
  assert (ValidString (ItemID s) = true) as Hi.
  { destruct (String.eqb_spec (ItemID s) "") as [->|]; [done|]. cbn [negb andb] in Ei. apply negb_false_iff in Ei. by eapply text_valid. }
  unfold validRelativePath in Er. andb_split. apply wire_ok_object. unfold source_members.
  members_ok; cbn [fst snd wire_ok]; try (split; [reflexivity|]); eauto using format_valid, hex_fixed_valid, text_valid, optional_members_ok.
Qed.

Lemma check_children_valid id seen l : check_children id seen l = true -> Forall (fun c => validSHA256 c = true) l.
Proof.
  revert seen. induction l as [|c l IH]; intros seen; simpl; [constructor|]. destruct (validSHA256 c) eqn:E; [|done].
  cbn [negb orb]. destruct (_ || _); [done|]. intros Hl. constructor; [done|by eapply IH].
Qed.

Lemma timestamp_year t : validTimestamp t = true -> 0 <= Year (UTC t).
Proof. unfold validTimestamp. rewrite !andb_true_iff, !Z.leb_le. lia. Qed.

Lemma chunk_members_ok c : chunk_valid c = true -> 0 <= c_SourceLine c -> wire_ok (WObject (chunk_members c)).
Proof.
  intros Hv Hl. unfold chunk_valid in Hv. andb_split.
  assert (ValidString (c_ParentChunkID c) = true) as Hp.
  { match goal with H : negb ((c_ParentChunkID c !=s "") && _) = true |- _ => rename H into Hn end.
    destruct (String.eqb_spec (c_ParentChunkID c) "") as [->|]; [done|]. cbn [negb andb] in Hn.
    apply negb_true_iff, orb_false_iff in Hn as [Hn _]. apply negb_false_iff in Hn. by apply sha256_valid. }
  match goal with H : check_children _ _ _ = true |- _ => apply check_children_valid in H; rename H into Hc end.
  apply wire_ok_object. unfold chunk_members.
  members_ok; cbn [fst snd wire_ok]; try (split; [reflexivity|]);
    eauto using sha256_valid, text_valid, optional_text_valid, optional_members_ok, rfc3339nano_valid, timestamp_year.
  unfold children_field. destruct (c_ChildChunkIDs c) as [|i ids] eqn:Ei; [constructor|]. rewrite <- Ei in *.
  constructor; [|constructor]. cbn [fst snd]. split; [reflexivity|]. apply wire_ok_array, Forall_map.
  eapply Forall_impl; [exact Hc|]. intros x Hx. by apply sha256_valid.
Qed.

Lemma encode_chunks_wires index seen file chunks ws :
  encode_chunks index seen file chunks = Ok ws ->
  ws = map (fun c => WObject (chunk_members c)) chunks /\ Forall (fun c => chunk_valid c = true) chunks.
Proof.
  revert index seen file ws. induction chunks as [|c chunks IH]; intros index seen file ws; simpl; [by intros [= <-]|].
  unfold chunk_wire. destruct (chunk_valid c) eqn:Ec; [|done]. destruct (bool_decide _); [done|]. destruct (_ && _); [done|].
  intros Hb. apply bind_ok in Hb as (ws'&Hw&[= <-]). apply IH in Hw as [-> Hf]. split; [done|by constructor].
Qed.

(** A cursor that is accepted is determined by its members. *)
Definition cursor_of (m : list (string * wire)) : Cursor :=
  mkCursor (text_field m "kind") (number_field m "start_exclusive") (number_field m "end_inclusive")
    (text_field m "prefix_sha256") (text_field m "previous_revision_sha256") (text_field m "revision_sha256").

Lemma cursor_wire_ok c w :
  uint64 (StartExclusive c) -> uint64 (EndInclusive c) -> cursor_wire c = Ok w ->
  exists m, w = WObject m /\ cursor_of m = c /\ wire_ok w.
Proof.
  intros T1 T2. unfold cursor_wire. destruct c as [kind start end_ prefix previous revision]. simpl in *.
  destruct (String.eqb_spec kind CursorPhysicalLines) as [->|_].
  - destruct (_ || _) eqn:E; [done|]. intros [= <-]. rewrite !orb_false_iff, !negb_false_iff, !String.eqb_eq in E.
    destruct E as [[[[_ _] Hp] ->] ->]. eexists. split; [reflexivity|]. split.
    + unfold cursor_of. f_equal; read_field.
    + apply sha256_valid in Hp. apply wire_ok_object. unfold uint64 in *.
      members_ok; cbn [fst snd wire_ok]; try (split; [reflexivity|]); auto using optional_members_ok; lia.
  - destruct (String.eqb_spec kind CursorSnapshotRevision) as [->|]; [|done].
    destruct (_ || _) eqn:E; [done|]. intros [= <-]. rewrite !orb_false_iff, !negb_false_iff in E.
    destruct E as [[[[[->%Z.eqb_eq ->%Z.eqb_eq] ->%String.eqb_eq] Hr] Hp] _]. eexists. split; [reflexivity|]. split.
    + unfold cursor_of. f_equal; read_field.
    + apply sha256_valid in Hr. apply wire_ok_object.
      assert (ValidString previous = true) as Hpv.
      { destruct (String.eqb_spec previous "") as [->|]; [done|]. cbn [negb andb] in Hp. apply negb_false_iff in Hp. by apply sha256_valid. }
      members_ok; cbn [fst snd wire_ok]; try (split; [reflexivity|]); auto using optional_members_ok.
Qed.

(** The members of a source and of a chunk give them back. *)
Lemma source_members_inj s s' :
  uint64 (RootVolume s) -> uint64 (RootVolume s') -> uint64 (RootObject s) -> uint64 (RootObject s') ->
  source_members s = source_members s' -> s = s'.
Proof.
  intros V V' O O' E. assert (forall k, text_field (source_members s) k = text_field (source_members s') k) as F by (by rewrite E).
  assert (forall x, text_field (source_members x) "format" = Format x /\
    text_field (source_members x) "root_volume" = hex_fixed 16 (RootVolume x) /\
    text_field (source_members x) "root_object" = hex_fixed 16 (RootObject x) /\
    text_field (source_members x) "relative_path" = RelativePath x /\ text_field (source_members x) "item_id" = ItemID x) as R.
  { intros x. unfold source_members. repeat split; read_field. }
  destruct (R s) as (R1&R2&R3&R4&R5). destruct (R s') as (R1'&R2'&R3'&R4'&R5'). rewrite F in R1, R2, R3, R4, R5.
  assert (RootVolume s = RootVolume s') by (apply (hex_fixed_inj 16); [exact V|exact V'|congruence]).
  assert (RootObject s = RootObject s') by (apply (hex_fixed_inj 16); [exact O|exact O'|congruence]).
  destruct s, s'; simpl in *; congruence.
Qed.

Lemma chunk_members_inj c c' :
  validTimestamp (c_Timestamp c) = true -> validTimestamp (c_Timestamp c') = true ->
  chunk_members c = chunk_members c' -> utc_chunk c = utc_chunk c'.
Proof.
  intros T T' E. assert (forall k, text_field (chunk_members c) k = text_field (chunk_members c') k) as F by (by rewrite E).
  assert (number_field (chunk_members c) "source_line" = number_field (chunk_members c') "source_line") as FL by (by rewrite E).
  assert (texts_field (chunk_members c) "child_chunk_ids" = texts_field (chunk_members c') "child_chunk_ids") as FC by (by rewrite E).
  assert (forall x, number_field (chunk_members x) "source_line" = c_SourceLine x) as RL by (intros; unfold chunk_members; read_field).
  assert (forall x, texts_field (chunk_members x) "child_chunk_ids" = c_ChildChunkIDs x) as RC.
  { intros x. unfold chunk_members. read_field. unfold children_field, field. destruct (c_ChildChunkIDs x) as [|i ids]; [done|].
    cbn [assoc]. rewrite String.eqb_refl. simpl. f_equal. induction ids as [|j ids IH]; [done|]. simpl. by rewrite IH. }
  assert (forall x, text_field (chunk_members x) "id" = c_ID x /\ text_field (chunk_members x) "content" = c_Content x /\
    text_field (chunk_members x) "chunk_type" = c_ChunkType x /\ text_field (chunk_members x) "session_id" = c_SessionID x /\
    text_field (chunk_members x) "project_path" = c_ProjectPath x /\ text_field (chunk_members x) "project_name" = c_ProjectName x /\
    text_field (chunk_members x) "timestamp" = rfc3339nano (UTC (c_Timestamp x)) /\
    text_field (chunk_members x) "user_uuid" = c_UserUUID x /\ text_field (chunk_members x) "assistant_uuid" = c_AssistantUUID x /\
    text_field (chunk_members x) "file_path" = c_FilePath x /\ text_field (chunk_members x) "operation" = c_Operation x /\
    text_field (chunk_members x) "model" = c_Model x /\ text_field (chunk_members x) "source_file" = c_SourceFile x /\
    text_field (chunk_members x) "parent_chunk_id" = c_ParentChunkID x) as R.
  { intros x. unfold chunk_members. repeat split; read_field. }
  destruct (R c) as (A1&A2&A3&A4&A5&A6&A7&A8&A9&A10&A11&A12&A13&A14). rewrite !F in *.
  destruct (R c') as (B1&B2&B3&B4&B5&B6&B7&B8&B9&B10&B11&B12&B13&B14).
  assert (UTC (c_Timestamp c) = UTC (c_Timestamp c')) as ET.
  { unfold UTC. f_equal. apply (rfc3339nano_inj (UTC (c_Timestamp c)) (UTC (c_Timestamp c'))); [by apply timestamp_year..|congruence]. }
  rewrite !RL in FL. rewrite !RC in FC. unfold utc_chunk. rewrite ET. f_equal; congruence.
Qed.

(** The document of a request whose cursor has the members [m]. *)
Definition doc_of (r : Request) (m : list (string * wire)) : wire :=
  request_doc r (WObject (source_members (Source r))) (WObject m) (map (fun c => WObject (chunk_members c)) (Chunks r)).

(** What an accepted request is encoded to. *)
Record encoded_as (r : Request) (e : EncodedRequest) (m : list (string * wire)) : Prop := mk_encoded_as {
  en_cursor : cursor_of m = Cursor_ r;
  en_ok : wire_ok (doc_of r m);
  en_body : body e = print (doc_of r m);
  en_chunks : Forall (fun c => chunk_valid c = true) (Chunks r);
  en_request : requestSHA256 e = Sum256 (body e);
  en_record : recordID e = hex_encode (Sum256 (recordIdentityDomain +:+ Sum256 (body e)));
  en_count : chunkCount e = Z.of_nat (length (Chunks r)) /\ Z.of_nat (length (Chunks r)) <= MaxChunksPerRequest;
  en_size : len (body e) <= MaxRequestBytes
}.

Lemma Ok_inj {A} (a b : A) : Ok a = Ok b -> a = b.
Proof. congruence. Qed.

Lemma client_name_valid r : (ClientName r !=s "") && negb (validText (ClientName r) 256 false) = false -> ValidString (ClientName r) = true.
Proof.
  destruct (String.eqb_spec (ClientName r) "") as [->|]; [done|]. cbn [negb andb]. intros En%negb_false_iff. by eapply text_valid.
Qed.

Lemma EncodeRequest_ok r e : typed r -> EncodeRequest r = Ok e -> exists m, encoded_as r e m.
Proof.
  intros [T1 T2 T3 T4 T5 T6]. unfold EncodeRequest.
  destruct (Z.ltb_spec MaxChunksPerRequest (Z.of_nat (length (Chunks r)))) as [|Hn]; [done|].
  destruct (validMachineID (MachineID r)) eqn:Em; [|done]. cbn [negb]. destruct ((ClientName r !=s "") && _) eqn:En; [done|].
  intros Hb. apply bind_ok in Hb as (source&Hs&Hb). apply bind_ok in Hb as (cursor&Hc&Hb).
  apply bind_ok in Hb as (ws&Hw&Hb). apply source_wire_ok in Hs as [-> Hs]. apply cursor_wire_ok in Hc as (m&->&Hm&Hc); [|done..].
  apply encode_chunks_wires in Hw as [-> Hv].
  assert (wire_ok (WArray (map (fun c => WObject (chunk_members c)) (Chunks r)))) as Hws.
  { apply wire_ok_array, Forall_map. rewrite Forall_forall in Hv, T6 |- *. intros c Hin. apply chunk_members_ok; [auto|].
    apply T6. done. }
  rewrite marshal_request_print in Hb by done. fold (doc_of r m) in Hb.
  destruct (Z.ltb_spec MaxRequestBytes (len (print (doc_of r m)))) as [|Hl]; [done|].
  apply Ok_inj in Hb. subst e. exists m. constructor; cbn [body requestSHA256 recordID chunkCount]; try done.
  - unfold doc_of, request_doc. apply wire_ok_object. unfold request_members.
    apply machine_valid in Em. apply client_name_valid in En. unfold uint64 in T5.
    members_ok; cbn [fst snd]; try (split; [reflexivity|]); auto using optional_members_ok; cbn [wire_ok]; try done; lia.
  - split; [by rewrite length_map|lia].
Qed.

Lemma WObject_inj m m' : WObject m = WObject m' -> m = m'.
Proof. congruence. Qed.

Lemma request_doc_inj r r' s s' c c' ws ws' :
  request_doc r s c ws = request_doc r' s' c' ws' ->
  MachineID r = MachineID r' /\ ClientName r = ClientName r' /\ s = s' /\ c = c' /\ Generation r = Generation r' /\ ws = ws'.
Proof.
  unfold request_doc. intros E%WObject_inj.
  set (members := fun r s c ws => request_members r s c ++ [("chunks", WArray ws)]).
  assert (forall k, field (members r s c ws) k = field (members r' s' c' ws') k) as F by (intros; unfold members; by rewrite E).
  assert (forall r s c ws, text_field (members r s c ws) "machine_id" = MachineID r /\ text_field (members r s c ws) "client_name" = ClientName r /\
    field (members r s c ws) "source" = Some s /\ field (members r s c ws) "cursor" = Some c /\
    field (members r s c ws) "generation" = Some (WNumber (Generation r)) /\ field (members r s c ws) "chunks" = Some (WArray ws)) as R.
  { intros. unfold members, request_members. repeat split; read_field. }
  destruct (R r s c ws) as (R1&R2&R3&R4&R5&R6). destruct (R r' s' c' ws') as (Q1&Q2&Q3&Q4&Q5&Q6).
  unfold text_field in *. rewrite !F in *. repeat split; congruence.
Qed.

Lemma map_WObject_inj {A} (f : A -> list (string * wire)) l l' :
  map (fun x => WObject (f x)) l = map (fun x => WObject (f x)) l' -> Forall2 (fun x y => f x = f y) l l'.
Proof. revert l'. induction l as [|x l IH]; intros [|y l']; try done. intros [= E E']. constructor; auto. Qed.

Lemma chunk_valid_time c : chunk_valid c = true -> validTimestamp (c_Timestamp c) = true.
Proof. unfold chunk_valid. intros Hv. by andb_split. Qed.

(** Equal bodies come from the same request. *)
Lemma bodies_determine r r' e e' m m' :
  typed r -> typed r' -> encoded_as r e m -> encoded_as r' e' m' -> body e = body e' -> utc_request r = utc_request r'.
Proof.
  intros [T1 T2 _ _ _ _] [T1' T2' _ _ _ _] [C K B V _ _ _ _] [C' K' B' V' _ _ _ _] E. rewrite B, B' in E. apply print_inj in E; [|done..].
  apply request_doc_inj in E as (E1&E2&Es%WObject_inj&Ec%WObject_inj&Eg&Ew%map_WObject_inj).
  apply source_members_inj in Es; [|done..].
  assert (Cursor_ r = Cursor_ r') by congruence.
  assert (map utc_chunk (Chunks r) = map utc_chunk (Chunks r')) as Eu.
  { clear - Ew V V'. induction Ew as [|c c' l l' E _ IH]; [done|]. inversion V; inversion V'; subst. simpl. f_equal; [|auto].
    apply chunk_members_inj; auto using chunk_valid_time. }
  unfold utc_request. congruence.
Qed.

(** ** Identifiers *)

(** Two inputs on which SHA-256 collides. *)
Definition collision (x y : string) : Prop := x <> y /\ Sum256 x = Sum256 y.

Lemma hex_encode_inj a b : hex_encode a = hex_encode b -> a = b.
Proof. intros E. pose proof (hex_decode_encode a) as Ha. rewrite E, hex_decode_encode in Ha. congruence. Qed.

Lemma app_inj_l (a x y : string) : a +:+ x = a +:+ y -> x = y.
Proof. induction a as [|c a IH]; [done|]. cbn [String.append]. intros [= E]. auto. Qed.

(** A record identifier identifies its request: two accepted requests with
    the same identifier are equal up to the representation of their times, or
    their bodies, or the digests of their bodies under the record domain, are a
    SHA-256 collision. *)
Theorem record_id_identifies r r' e e' :
  typed r -> typed r' -> EncodeRequest r = Ok e -> EncodeRequest r' = Ok e' -> recordID e = recordID e' ->
  utc_request r = utc_request r' \/ collision (body e) (body e') \/
  collision (recordIdentityDomain +:+ requestSHA256 e) (recordIdentityDomain +:+ requestSHA256 e').
Proof.
  intros T T' He He' E. destruct (EncodeRequest_ok r e T He) as [m Hm]. destruct (EncodeRequest_ok r' e' T' He') as [m' Hm'].
  pose proof (en_record _ _ _ Hm) as Hr. pose proof (en_record _ _ _ Hm') as Hr'.
  rewrite (en_request _ _ _ Hm), (en_request _ _ _ Hm'). rewrite Hr, Hr' in E. apply hex_encode_inj in E.
  destruct (String.eqb_spec (body e) (body e')) as [Eb|Nb]; [left; eapply bodies_determine; eauto|]. right.
  destruct (String.eqb_spec (Sum256 (body e)) (Sum256 (body e'))) as [Ed|Nd]; [left; split; [exact Nb|exact Ed]|]. right.
  split; [|exact E]. intros Ea. exact (Nd (app_inj_l _ _ _ Ea)).
Qed.

(** ** What is accepted *)

Lemma check_children_spec id seen l :
  check_children id seen l = true <->
  Forall (fun c => validSHA256 c = true /\ c <> id /\ c ∉ seen) l /\ NoDup l.
Proof.
  revert seen. induction l as [|c l IH]; intros seen; simpl; [split; [split; constructor|done]|].
  destruct (validSHA256 c) eqn:Ev; cbn [negb orb].
  2:{ split; [done|]. intros [Hf _]. inversion Hf as [|? ? [? _]]; subst. congruence. }
  destruct (String.eqb_spec c id) as [->|Hid]; cbn [orb].
  { split; [done|]. intros [Hf _]. inversion Hf as [|? ? (_&?&_)]; subst. done. }
  case_bool_decide as Hs.
  { split; [done|]. intros [Hf _]. inversion Hf as [|? ? (_&_&?)]; subst. done. }
  rewrite IH, Forall_cons, NoDup_cons. split.
  - intros [Hf Hn]. assert (c ∉ l) as Hc.
    { intros Hin. rewrite Forall_forall in Hf. destruct (Hf c Hin) as (_&_&Hx). apply Hx. by left. }
    split; [|done]. split; [done|]. eapply Forall_impl; [exact Hf|]. intros x (?&?&Hx). repeat split; try done.
    intros Hin. apply Hx. by right.
  - intros [[_ Hf] [Hc Hn]]. split; [|done]. rewrite Forall_forall in Hf |- *. intros x Hx. destruct (Hf x Hx) as (?&?&?).
    repeat split; try done. intros [->|?]%elem_of_cons; done.
Qed.

(** The chunks that a request may carry: each valid, with identifiers of their
    own and one source file. *)
Definition chunks_lawful (index : Z) (seen : list string) (file : string) (l : list Chunk) : Prop :=
  Forall (fun c => chunk_valid c = true /\ c_ID c ∉ seen) l /\ NoDup (map c_ID l) /\
  Forall (fun c => c_SourceFile c = (if index =? 0 then default "" (c_SourceFile <$> head l) else file)) l.

Lemma encode_chunks_exact index seen file l :
  0 <= index -> is_ok (encode_chunks index seen file l) = true <-> chunks_lawful index seen file l.
Proof.
  revert index seen file. induction l as [|c l IH]; intros index seen file Hi.
  { split; [intros _; split; [constructor|split; constructor]|done]. }
  unfold chunks_lawful. cbn [encode_chunks]. unfold chunk_wire. destruct (chunk_valid c) eqn:Ec.
  2:{ split; [done|]. intros [Hf _]. inversion Hf as [|? ? [? _]]; subst. congruence. }
  case_bool_decide as Hs; [split; [done|]; intros [Hf _]; by inversion Hf as [|? ? [_ ?]]; subst|].
  assert (forall file', 
    is_ok (ws ← encode_chunks (index + 1) (c_ID c :: seen) file' l; Ok (WObject (chunk_members c) :: ws)) = true <->
    chunks_lawful (index + 1) (c_ID c :: seen) file' l) as IH'.
  { intros file'. rewrite <- (IH (index + 1)) by lia. by destruct (encode_chunks _ _ _ _). }
  assert (forall file', chunks_lawful (index + 1) (c_ID c :: seen) file' l <->
    Forall (fun c => chunk_valid c = true /\ c_ID c ∉ seen) l /\ NoDup (map c_ID (c :: l)) /\ Forall (fun c => c_SourceFile c = file') l) as L.
  { intros file'. unfold chunks_lawful. destruct (Z.eqb_spec (index + 1) 0); [lia|]. cbn [map]. rewrite NoDup_cons. split.
    - intros (Hf&Hn&Hfile). split; [eapply Forall_impl; [exact Hf|]; intros x [? Hx]; split; [done|]; intros ?; apply Hx; by right|].
      split; [|done]. split; [|done]. intros (x&Ex&Hx)%list_elem_of_fmap. rewrite Forall_forall in Hf. destruct (Hf x Hx) as [_ Hns].
      apply Hns. rewrite Ex. by left.
    - intros (Hf&[Hc Hn]&Hfile). split; [|done]. rewrite Forall_forall in Hf |- *. intros x Hx. destruct (Hf x Hx) as [? ?].
      split; [done|]. intros [Ex|?]%elem_of_cons; [|done]. apply Hc. rewrite <- Ex. apply list_elem_of_fmap. eauto. }
  rewrite !Forall_cons. cbn [head fmap option_fmap option_map from_option id].
  destruct (Z.eqb_spec index 0) as [->|Hne]; cbn [negb andb].
  - rewrite IH', L. tauto.
  - destruct (String.eqb_spec (c_SourceFile c) file) as [->|Hx]; cbn [negb].
    + rewrite IH', L. tauto.
    + split; [done|]. intros (_&_&[? _]). done.
Qed.

(** What a request must satisfy, its size apart. *)
Record lawful (r : Request) : Prop := mk_lawful {
  la_count : Z.of_nat (length (Chunks r)) <= MaxChunksPerRequest;
  la_machine : validMachineID (MachineID r) = true;
  la_client : ClientName r = "" \/ validText (ClientName r) 256 false = true;
  la_source : is_ok (source_wire (Source r)) = true;
  la_cursor : is_ok (cursor_wire (Cursor_ r)) = true;
  la_valid : Forall (fun c => chunk_valid c = true) (Chunks r);
  la_ids : NoDup (map c_ID (Chunks r));
  la_file : Forall (fun c => c_SourceFile c = default "" (c_SourceFile <$> head (Chunks r))) (Chunks r)
}.

(** The canonical document of a request. *)
Definition request_text (r : Request) : string :=
  match source_wire (Source r), cursor_wire (Cursor_ r) with
  | Ok s, Ok c => print (request_doc r s c (map (fun c => WObject (chunk_members c)) (Chunks r)))
  | _, _ => ""
  end.

Lemma chunks_lawful_start l : chunks_lawful 0 [] "" l <->
  Forall (fun c => chunk_valid c = true) l /\ NoDup (map c_ID l) /\
  Forall (fun c => c_SourceFile c = default "" (c_SourceFile <$> head l)) l.
Proof.
  unfold chunks_lawful. rewrite Z.eqb_refl. split; intros (Hf&?&?); (split; [|done]); (eapply Forall_impl; [exact Hf|]).
  - by intros c [].
  - intros c Hc. split; [done|apply not_elem_of_nil].
Qed.

Lemma encode_chunks_lawful r : is_ok (encode_chunks 0 [] "" (Chunks r)) = true <->
  Forall (fun c => chunk_valid c = true) (Chunks r) /\ NoDup (map c_ID (Chunks r)) /\
  Forall (fun c => c_SourceFile c = default "" (c_SourceFile <$> head (Chunks r))) (Chunks r).
Proof. rewrite <- chunks_lawful_start. by apply encode_chunks_exact. Qed.

Lemma client_lawful r : (ClientName r !=s "") && negb (validText (ClientName r) 256 false) = false <->
  ClientName r = "" \/ validText (ClientName r) 256 false = true.
Proof.
  destruct (String.eqb_spec (ClientName r) "") as [->|Hn]; cbn [negb andb]; [tauto|]. rewrite negb_false_iff. tauto.
Qed.

(** The branches of [EncodeRequest] in terms of the rules. *)
Lemma EncodeRequest_cases r : typed r ->
  (lawful r /\ exists e, body e = request_text r /\
     EncodeRequest r = if MaxRequestBytes <? len (request_text r) then Fail ErrRequestLimit else Ok e) \/
  (~ lawful r /\ is_ok (EncodeRequest r) = false).
Proof.
  intros [_ _ _ _ _ T]. unfold EncodeRequest, request_text.
  destruct (Z.ltb_spec MaxChunksPerRequest (Z.of_nat (length (Chunks r)))) as [|Hn]; [right; split; [intros []; lia|done]|].
  destruct (validMachineID (MachineID r)) eqn:Em; cbn [negb]; [|right; split; [intros []; congruence|done]].
  destruct ((ClientName r !=s "") && _) eqn:En; [right; split; [|done]|].
  { intros []. apply client_lawful in la_client0. congruence. }
  apply client_lawful in En.
  destruct (source_wire (Source r)) as [s|e] eqn:Es; [|right; split; [intros []; by rewrite Es in *|done]].
  destruct (cursor_wire (Cursor_ r)) as [c|e] eqn:Ec; [|right; split; [intros []; by rewrite Ec in *|done]].
  pose proof (encode_chunks_lawful r) as Hl. cbn [mbind result_bind].
  destruct (encode_chunks 0 [] "" (Chunks r)) as [ws|e] eqn:Ew.
  - destruct (proj1 Hl eq_refl) as (Hv&Hi&Hf). apply encode_chunks_wires in Ew as [-> _].
    left. split; [constructor; try done; [by rewrite Es|by rewrite Ec]|].
    cbn [mbind result_bind]. rewrite marshal_request_print. { eexists. split; [|reflexivity]. reflexivity. }
    apply wire_ok_array, Forall_map. rewrite Forall_forall in Hv, T |- *. intros x Hx. apply chunk_members_ok; [auto|]. by apply T.
  - right. split; [|done]. intros []. cbn [is_ok] in Hl. assert (false = true) by (by apply Hl). done.
Qed.


(** ** Chunk identifiers *)

Record identity_typed (i : ChunkIdentity) : Prop := mk_identity_typed {
  it_volume : uint64 (RootVolume (ci_Source i));
  it_object : uint64 (RootObject (ci_Source i));
  it_line : uint64 (ci_SourceLine i);
  it_ordinal : 0 <= ci_Ordinal i < 2 ^ 32;
  it_digest : len (ci_ContentSHA256 i) = 32
}.

Lemma DeriveChunkID_ok i id : identity_typed i -> DeriveChunkID i = Ok id ->
  wire_ok (identity_wire i (WObject (source_members (ci_Source i)))) /\
  id = hex_encode (Sum256 (chunkIdentityDomain +:+ print (identity_wire i (WObject (source_members (ci_Source i)))))).
Proof.
  intros [_ _ Tl To _]. unfold DeriveChunkID. destruct (validMachineID _) eqn:Em; [|done]. cbn [negb].
  intros Hb. apply bind_ok in Hb as (s&Hs&Hb). apply source_wire_ok in Hs as [-> Hs].
  destruct (validText (ci_ChunkType i) 128 false) eqn:Et; [|done]. destruct (validText (ci_SessionID i) 512 false) eqn:En; [|done].
  cbn [negb] in Hb. destruct (_ || _); [done|]. apply Ok_inj in Hb. subst id. split; [|reflexivity].
  unfold identity_wire. apply wire_ok_object. unfold uint64 in Tl.
  members_ok; cbn [fst snd]; try (split; [reflexivity|]); cbn [wire_ok]; try lia; eauto using machine_valid, text_valid.
  apply ascii_valid, (sforall_impl _ _ _ hex_ascii), hex_encode_lower_hex.
Qed.

Lemma identity_wire_inj i i' :
  identity_typed i -> identity_typed i' ->
  identity_wire i (WObject (source_members (ci_Source i))) = identity_wire i' (WObject (source_members (ci_Source i'))) -> i = i'.
Proof.
  intros [V O _ _ _] [V' O' _ _ _] E. unfold identity_wire in E. apply WObject_inj in E.
  assert (MachineID_ : ci_MachineID i = ci_MachineID i') by congruence.
  assert (source_members (ci_Source i) = source_members (ci_Source i')) as Es by congruence.
  apply source_members_inj in Es; [|done..].
  assert (hex_encode (ci_ContentSHA256 i) = hex_encode (ci_ContentSHA256 i')) as Eh by congruence. apply hex_encode_inj in Eh.
  destruct i, i'; simpl in *. congruence.
Qed.

(** A chunk identifier of the ingest protocol is 64 lower-case hexadecimal
    digits, as [EncodeRequest] requires, and identifies the machine, the source,
    the kind, the session, the line, the ordinal and the content digest it was
    derived from, or exhibits a SHA-256 collision; and it is never the identifier
    of a record unless a collision across the two domains is exhibited. *)
Theorem chunk_id_identifies i i' id id' :
  identity_typed i -> identity_typed i' -> DeriveChunkID i = Ok id -> DeriveChunkID i' = Ok id' ->
  validSHA256 id = true /\
  (id = id' -> i = i' \/ exists x y, collision (chunkIdentityDomain +:+ x) (chunkIdentityDomain +:+ y)) /\
  (forall r e, EncodeRequest r = Ok e -> typed r -> recordID e = id ->
     exists x, collision (recordIdentityDomain +:+ requestSHA256 e) (chunkIdentityDomain +:+ x)).
Proof.
  intros T T' Hd Hd'. apply DeriveChunkID_ok in Hd as [W ->], Hd' as [W' ->]; [|done..]. split; [|split].
  - unfold validSHA256, len. rewrite hex_encode_length, Sum256_length, hex_encode_lower_hex. done.
  - intros E%hex_encode_inj. set (x := print _) in E at 1. set (y := print _) in E.
    destruct (String.eqb_spec x y) as [Ex|Nx].
    + left. apply print_inj in Ex; [|done..]. by apply identity_wire_inj.
    + right. exists x, y. split; [|exact E]. intros Ea. exact (Nx (app_inj_l _ _ _ Ea)).
  - intros r e He Tr E. destruct (EncodeRequest_ok r e Tr He) as [m M]. rewrite (en_record _ _ _ M) in E. apply hex_encode_inj in E.
    eexists. rewrite (en_request _ _ _ M). split; [|exact E]. discriminate.
Qed.

(** ** Witnesses *)

Module IngestSamples.

Definition digest_a : string := hex_encode (Sum256 "a").
Definition digest_b : string := hex_encode (Sum256 "b").
Definition chunk (at_ : Time) : Chunk :=
  mkChunk digest_a ("say " +:+ String dquote "" +:+ "hi" +:+ String (ascii_of_N 10) "") "turn" "s1" "/p" "p" at_ "" "" "" "" "m"
    "/h/s.jsonl" 3 "" [digest_b].
Definition source : SourceKey := mkSourceKey "codex_jsonl" 1 2 "a/s.jsonl" "".
Definition request (at_ : Time) : Request :=
  mkRequest "m1" "cli" source (mkCursor CursorPhysicalLines 2 3 digest_a "" "") 7 [chunk at_].

Definition at_utc : Time := time_Unix_UTC 1500000000.
Definition at_local : Time := mkTime (instant at_utc) 1.
Definition encoded (r : Request) : EncodedRequest :=
  match EncodeRequest r with Ok e => e | Fail _ => mkEncoded "" "" "" "" "" 0 end.

Lemma request_typed at_ : typed (request at_).
Proof. repeat constructor; cbn; lia. Qed.

Lemma record_id_identifies_witness :
  utc_request (request at_utc) = utc_request (request at_local) \/
  collision (body (encoded (request at_utc))) (body (encoded (request at_local))) \/
  collision (recordIdentityDomain +:+ requestSHA256 (encoded (request at_utc)))
    (recordIdentityDomain +:+ requestSHA256 (encoded (request at_local))).
Proof. apply record_id_identifies; [apply request_typed|apply request_typed|vm_compute; reflexivity..]. Defined.


Definition identity (ordinal : Z) : ChunkIdentity := mkIdentity "m1" source "turn" "s1" 3 ordinal (Sum256 "a").
Definition chunk_id (ordinal : Z) : string := match DeriveChunkID (identity ordinal) with Ok id => id | Fail _ => "" end.

Lemma chunk_id_identifies_witness :
  validSHA256 (chunk_id 0) = true /\
  (chunk_id 0 = chunk_id 1 ->
     identity 0 = identity 1 \/ exists x y, collision (chunkIdentityDomain +:+ x) (chunkIdentityDomain +:+ y)) /\
  (forall r e, EncodeRequest r = Ok e -> typed r -> recordID e = chunk_id 0 ->
     exists x, collision (recordIdentityDomain +:+ requestSHA256 e) (chunkIdentityDomain +:+ x)).
Proof.
  assert (forall n, 0 <= n < 2 ^ 32 -> identity_typed (identity n)) as T.
  { intros n Hn. constructor; try done; cbn; unfold uint64; lia. }
  apply chunk_id_identifies; [by apply T|by apply T|vm_compute; reflexivity..].
Defined.
End IngestSamples.
