(* ===== verification/RegexSpec.v ===== *)
(** * Anchored regular expressions

    [lang] is the language of a sequence of classes and repetitions of classes;
    [MatchWhole_lang] says that the backtracking matcher of [Regex.v] decides it,
    whatever the order in which it tries the repetitions. *)
From Stdlib Require Import ZArith Lia Bool.
From Stdlib Require Import String Ascii.
From stdpp Require Import base tactics option list strings.
From S2P Require Import Prelude GoStrings Regex.
Open Scope Z_scope.

(** The strings a sequence matches from end to end. *)
Fixpoint lang (l : list regex) (s : string) : Prop :=
  match l with
  | [] => s = ""
  | RClass p :: l => exists c r, s = String c r /\ p c = true /\ lang l r
  | RUpTo n p :: l => exists a b, s = a +:+ b /\ (String.length a <= n)%nat /\ sforall p a = true /\ lang l b
  | RStar p :: l => exists a b, s = a +:+ b /\ sforall p a = true /\ lang l b
  | _ :: _ => False
  end.

(** Sequences of classes and repetitions of classes. *)
Definition simple (r : regex) : bool := match r with RClass _ | RUpTo _ _ | RStar _ => true | _ => false end.

(** The state after the bytes of [a]. *)
Definition advance (a : string) (b : string) (m : mstate) : mstate := mkM (srev a +:+ m_before m) b (m_group m).

Lemma star_spec p k n m :
  is_Some (star n p k m) <->
  exists a b, m_rest m = a +:+ b /\ (String.length a <= n)%nat /\ sforall p a = true /\ is_Some (k (advance a b m)).
Proof.
  assert (forall m, advance "" (m_rest m) m = m) as Hnil by (by intros []).
  assert (forall c a b bf r g, advance (String c a) b (mkM bf (String c r) g) = advance a b (mkM (String c bf) r g)) as Hcons.
  { intros. unfold advance. cbn [m_before m_group]. by rewrite srev_cons, str_app_assoc. }
  revert m. induction n as [|n IH]; intros m; cbn [star].
  - split.
    + intros Hk. exists "", (m_rest m). by rewrite Hnil.
    + intros (a&b&E&Hl&_&Hk). destruct a; [|cbn in Hl; lia]. cbn in E. by rewrite <- E, Hnil in Hk.
  - assert (is_Some (k m) -> exists a b, m_rest m = a +:+ b /\ (String.length a <= S n)%nat /\ sforall p a = true /\ is_Some (k (advance a b m))) as Hzero.
    { intros Hk. exists "", (m_rest m). rewrite Hnil. split_and!; [done|cbn; lia|done|done]. }
    unfold step in *. destruct m as [bf rest g]. cbn [m_rest m_before m_group] in *. destruct rest as [|c rest].
    + split; [done|]. intros (a&b&E&_&_&Hk). destruct a; [|done]. cbn in E. subst b. exact Hk.
    + destruct (p c) eqn:Ep.
      * specialize (IH (mkM (String c bf) rest g)). cbn [m_rest] in IH. split.
        -- destruct (star n p k _) eqn:Es; [|done]. intros _. destruct (proj1 IH (ex_intro _ _ eq_refl)) as (a&b&E&Hl&Ha&Hk).
           exists (String c a), b. subst rest. rewrite Hcons. cbn [String.length sforall]. rewrite Ep. split_and!; [done|lia|done|done].
        -- intros (a&b&E&Hl&Ha&Hk). destruct (star n p k _) eqn:Es; [done|]. destruct a as [|d a]; [cbn in E; by subst b|].
           injection E as <- E. cbn [String.length sforall] in Hl, Ha. rewrite Hcons in Hk. apply andb_true_iff in Ha as [_ Ha].
           exfalso. destruct (proj2 IH) as [? ?]; [|done]. exists a, b. split_and!; [done|lia|done|done].
      * split; [done|]. intros (a&b&E&_&Ha&Hk). destruct a as [|d a]; [cbn in E; by subst b|].
        injection E as <- _. cbn [sforall] in Ha. by rewrite Ep in Ha.
Qed.

Lemma rmatch_class p k m : rmatch (RClass p) k m = match step p m with Some m' => k m' | None => None end.
Proof. done. Qed.
Lemma rmatch_star p k m : rmatch (RStar p) k m = star (String.length (m_rest m)) p k m.
Proof. done. Qed.
Lemma rmatch_upto n p k m : rmatch (RUpTo n p) k m = star n p k m.
Proof. done. Qed.

Lemma seq_lang l m : forallb simple l = true ->
  is_Some (rmatch (RSeq (l ++ [REnd])) Some m) <-> lang l (m_rest m).
Proof.
  revert m. induction l as [|r l IH]; intros m Hs.
  - cbn. destruct (m_rest m); [split; [done|intros _; by eexists]|split; [by intros []|done]].
  - cbn [forallb] in Hs. apply andb_true_iff in Hs as [Hr Hs]. rewrite <- app_comm_cons, seq_cons.
    destruct r as [p|?|?|p|n p|?|? ?| | |?]; try done; rewrite ?rmatch_class, ?rmatch_star, ?rmatch_upto; cbn [lang].
    + unfold step. destruct (m_rest m) as [|c r]; [split; [by intros []|intros (?&?&?&_); done]|].
      destruct (p c) eqn:Ep.
      * rewrite (IH _ Hs). cbn [m_rest]. split; [intros Hl; by exists c, r|]. by intros (?&?&[= <- <-]&_&?).
      * split; [by intros []|]. intros (?&?&[= <- <-]&?&_). congruence.
    + rewrite star_spec. split.
      * intros (a&b&E&_&Ha&Hk). exists a, b. apply (IH _ Hs) in Hk. done.
      * intros (a&b&E&Ha&Hk). exists a, b. split_and!; [done| |done|by apply (IH _ Hs)]. rewrite E, str_length_app. lia.
    + rewrite star_spec. split; intros (a&b&E&Hl&Ha&Hk); exists a, b; (split_and!; [done|done|done|]); by apply (IH (advance a b m) Hs).
Qed.

(** The matcher accepts exactly the language. *)
Lemma MatchWhole_lang l s : forallb simple l = true -> MatchWhole l s = true <-> lang l s.
Proof.
  intros Hs. rewrite <- (seq_lang l (mkM "" s None) Hs). unfold MatchWhole.
  destruct (rmatch _ _ _); [split; [by eexists|done]|split; [done|by intros []]].
Qed.

Lemma lang_app l1 l2 s : lang (l1 ++ l2) s <-> exists a b, s = a +:+ b /\ lang l1 a /\ lang l2 b.
Proof.
  revert s. induction l1 as [|r l1 IH]; intros s.
  - cbn [app lang]. split; [intros Hl; by exists "", s|]. by intros (a&b&->&->&?).
  - rewrite <- app_comm_cons. destruct r; cbn [lang]; try (split; [done|by intros (?&?&_&[]&_)]).
    + split.
      * intros (c&r&->&Hc&(a&b&->&Ha&Hb)%IH). exists (String c a), b. split_and!; [done|by exists c, a|done].
      * intros (a&b&->&(c&r&->&Hc&Hr)&Hb). exists c, (r +:+ b). split_and!; [done|done|]. apply IH. by exists r, b.
    + split.
      * intros (x&r&->&Hx&(a&b&->&Ha&Hb)%IH). exists (x +:+ a), b. rewrite str_app_assoc. split_and!; [done|by exists x, a|done].
      * intros (a&b&->&(x&r&->&Hx&Hr)&Hb). exists x, (r +:+ b). rewrite str_app_assoc. split_and!; [done|done|]. apply IH. by exists r, b.
    + split.
      * intros (x&r&->&Hn&Hx&(a&b&->&Ha&Hb)%IH). exists (x +:+ a), b. rewrite str_app_assoc. split_and!; [done|by exists x, a|done].
      * intros (a&b&->&(x&r&->&Hn&Hx&Hr)&Hb). exists x, (r +:+ b). rewrite str_app_assoc. split_and!; [done|done|done|]. apply IH. by exists r, b.
Qed.

Lemma lang_literal w s : lang (literal w) s <-> s = w.
Proof.
  revert s. induction w as [|c w IH]; intros s; cbn [literal lang]; [done|]. split.
  - intros (d&r&->&->%Ascii.eqb_eq&->%IH). done.
  - intros ->. exists c, w. split_and!; [done|apply Ascii.eqb_refl|by apply IH].
Qed.

Lemma lang_classes n p s : lang (replicate n (RClass p)) s <-> String.length s = n /\ sforall p s = true.
Proof.
  revert s. induction n as [|n IH]; intros s; cbn [replicate lang].
  - destruct s; cbn; split; [done|done|done|]. by intros [? _].
  - split.
    + intros (c&r&->&Hc&[Hl Hr]%IH). cbn. by rewrite Hl, Hc.
    + destruct s as [|c r]; [by intros []|]. cbn [String.length sforall]. intros [[= Hl] [Hc Hr]%andb_true_iff].
      exists c, r. split_and!; [done|done|]. by apply IH.
Qed.

Lemma str_split_at n s : (n <= String.length s)%nat -> exists a b, s = a +:+ b /\ String.length a = n.
Proof.
  revert s. induction n as [|n IH]; intros s Hn; [by exists "", s|]. destruct s as [|c s]; cbn in Hn; [lia|].
  destruct (IH s) as (a&b&->&Ha); [lia|]. exists (String c a), b. cbn. by rewrite Ha.
Qed.

(** [p{lo,hi}]. *)
Definition between (lo hi : nat) (p : ascii -> bool) : list regex := replicate lo (RClass p) ++ [RUpTo (hi - lo) p].

Lemma lang_between lo hi p s : (lo <= hi)%nat ->
  lang (between lo hi p) s <-> (lo <= String.length s <= hi)%nat /\ sforall p s = true.
Proof.
  intros Hlo. unfold between. rewrite lang_app. setoid_rewrite lang_classes. cbn [lang]. split.
  - intros (a&b&->&[Hl Ha]&x&y&->&Hn&Hx&->). rewrite app_empty_r, str_length_app, sforall_app, Ha, Hx. split; [lia|done].
  - intros [Hs Hp]. destruct (str_split_at lo s) as (a&b&->&Ha); [lia|]. rewrite str_length_app in Hs.
    rewrite sforall_app in Hp. apply andb_true_iff in Hp as [Hpa Hpb]. exists a, b. split_and!; [done|done|done|].
    exists b, "". rewrite app_empty_r. split_and!; [done|lia|done|done].
Qed.
