(* ===== verification/GoFile.v ===== *)
(** * Files

    What the program reads of [os.FileInfo] and of an open file, bounded reads, and
    loops that return the first error; shared by [internal/gcpauth] and
    [internal/history/config]. *)
From Stdlib Require Import ZArith Lia Bool.
From Stdlib Require Import String Ascii.
From stdpp Require Import base tactics option list strings.
From S2P Require Import Prelude GoStrings.
Open Scope Z_scope.

(** [os.FileInfo]: the mode, the device and inode that [os.SameFile] compares, and
    the owner of [Sys()] when it is a [*syscall.Stat_t]. *)
Record FileInfo : Type := mkFileInfo { fi_Mode : Z; fi_Dev : Z; fi_Ino : Z; fi_Uid : option Z }.

(** An open file: [Stat], the bytes it delivers and the error after them. *)
Record File : Type := mkFile { f_Stat : result FileInfo; f_Data : string; f_Error : option error }.

Definition ModeDir : Z := 2147483648.
Definition ModeSymlink : Z := 134217728.
(** [ModeDir | ModeSymlink | ModeNamedPipe | ModeSocket | ModeDevice |
    ModeCharDevice | ModeIrregular]. *)
Definition ModeType : Z := 2401763328.
Definition IsRegular (mode : Z) : bool := Z.land mode ModeType =? 0.
Definition IsDir (mode : Z) : bool := negb (Z.land mode ModeDir =? 0).
Definition Perm (mode : Z) : Z := Z.land mode 511.
Definition SameFile (a b : FileInfo) : bool := (fi_Dev a =? fi_Dev b) && (fi_Ino a =? fi_Ino b).

(** [io.ReadAll(io.LimitReader(file, n))]. *)
Definition read_limited (file : File) (n : Z) : result string :=
  if n <=? len (f_Data file) then Ok (slice (f_Data file) 0 n)
  else match f_Error file with Some err => Fail err | None => Ok (f_Data file) end.

(** A loop that returns the first error. *)
Fixpoint each {A} (f : A -> result unit) (l : list A) : result unit :=
  match l with
  | [] => Ok tt
  | x :: rest => _ ← f x; each f rest
  end.


(** ** Lemmas *)

Lemma regular_no_symlink mode : IsRegular mode = true -> (Z.land mode ModeSymlink =? 0) = true.
Proof.
  unfold IsRegular. rewrite !Z.eqb_eq. intros E. change ModeSymlink with (Z.land ModeType ModeSymlink).
  by rewrite Z.land_assoc, E.
Qed.

Lemma dir_not_regular mode : IsDir mode = true -> IsRegular mode = false.
Proof.
  unfold IsDir, IsRegular. rewrite negb_true_iff, Z.eqb_neq. intros Hd. apply Z.eqb_neq. intros E. apply Hd.
  change ModeDir with (Z.land ModeType ModeDir). by rewrite Z.land_assoc, E.
Qed.

Lemma each_ok {A} (f : A -> result unit) l : each f l = Ok tt <-> Forall (fun x => f x = Ok tt) l.
Proof.
  induction l as [|x l IH]; cbn [each]; [split; [constructor|done]|]. rewrite Forall_cons, <- IH.
  destruct (f x) as [[]|]; cbn; [tauto|]. split; [done|by intros []].
Qed.

(** A read with a limit returns the whole of a file within the limit, and nothing
    of a larger one. *)
Lemma read_limit_ok file limit (too_large : error) data : 0 <= limit ->
  (d ← read_limited file (limit + 1); if limit <? len d then Fail too_large else Ok d) = Ok data
  <-> f_Data file = data /\ f_Error file = None /\ len data <= limit.
Proof.
  intros Hlim. unfold read_limited. destruct (Z.leb_spec (limit + 1) (len (f_Data file))) as [Hl|Hl]; cbn [mbind result_bind].
  - rewrite len_slice by lia. destruct (Z.ltb_spec limit (limit + 1 - 0)); [|lia]. split; [done|]. intros (<-&_&?). lia.
  - destruct (f_Error file); cbn [mbind result_bind]; [split; [done|by intros (_&?&_)]|].
    destruct (Z.ltb_spec limit (len (f_Data file))); [lia|].
    split; [intros [= <-]; split_and!; [done|done|lia]|by intros (->&_&_)].
Qed.
