(* ===== verification/GoUrl.v ===== *)
(** * URLs

    What the program uses of [net/url]: [url.Parse] with [EscapedPath], as
    [validateImpersonationURL] and [deviceSourceConfiguration] of
    [internal/gcpauth] call them, and the escaping behind [url.PathEscape] and
    [url.Values.Encode]. [Parse_exact] says which strings parse to a URL with a
    given plain authority and path. *)
From Stdlib Require Import ZArith Lia Bool.
From Stdlib Require Import String Ascii.
From stdpp Require Import base tactics option list strings.
From S2P Require Import Prelude GoStrings.
Open Scope Z_scope.

(** The fields of [url.URL] that are read. *)
Record URL : Type := mkURL {
  u_Scheme : string;
  u_Opaque : string;
  u_User : option string;
  u_Host : string;
  u_Path : string;
  u_RawPath : string;
  u_RawQuery : string;
  u_Fragment : string
}.

(** What [parseHost] does with a host that has a square bracket (an IP literal:
    the text around the bracket of the result) and whether it takes several
    colons; neither is reached by the hosts the program accepts. *)
Class UrlHosts : Type := {
  bracket_host : string -> option (string * string);
  colons_allowed : string -> bool
}.

(** ** Escaping *)

Inductive encoding : Type := encodePath | encodePathSegment | encodeHost | encodeUserPassword | encodeQueryComponent | encodeFragment.
#[global] Instance encoding_eq_dec : EqDecision encoding.
Proof. solve_decision. Defined.

Definition is_alnum (c : ascii) : bool := is_lower c || is_upper c || is_digit c.
Definition quote_byte : ascii := ascii_of_N 34.

Definition shouldEscape (c : ascii) (mode : encoding) : bool :=
  if is_alnum c then false
  else if bool_decide (mode = encodeHost) && (has_byte c "!$&'()*+,;=:[]<>" || Ascii.eqb c quote_byte) then false
  else if has_byte c "-_.~" then false
  else if has_byte c "$&+,/:;=?@" then
    match mode with
    | encodePath => Ascii.eqb c "?"
    | encodePathSegment => has_byte c "/;,?"
    | encodeUserPassword => has_byte c "@/?:"
    | encodeQueryComponent => true
    | encodeFragment => false
    | encodeHost => true
    end
  else if bool_decide (mode = encodeFragment) && has_byte c "!()*" then false
  else true.

Definition upper_hex (d : Z) : ascii := ascii_of_N (Z.to_N (if d <? 10 then 48 + d else 55 + d)).

Fixpoint escape (s : string) (mode : encoding) : string :=
  match s with
  | EmptyString => ""
  | String c r =>
      if Ascii.eqb c " " && bool_decide (mode = encodeQueryComponent) then String "+" (escape r mode)
      else if shouldEscape c mode then
        String "%" (String (upper_hex (code c / 16)) (String (upper_hex (code c mod 16)) (escape r mode)))
      else String c (escape r mode)
  end.

(** [unescape]: [None] stands for the [EscapeError] or [InvalidHostError]. *)
Fixpoint unescape (s : string) (mode : encoding) : option string :=
  match s with
  | EmptyString => Some ""
  | String c r =>
      if Ascii.eqb c "%" then
        match r with
        | String a (String b r') =>
            if negb (is_hex a && is_hex b) then None
            else if bool_decide (mode = encodeHost) && (hex_value a <? 8) && negb (String a (String b "") ==s "25") then None
            else rest ← unescape r' mode; Some (String (ascii_of_N (Z.to_N (hex_value a * 16 + hex_value b))) rest)
        | _ => None
        end
      else if bool_decide (mode = encodeHost) && (code c <? 128) && shouldEscape c mode then None
      else
        rest ← unescape r mode;
        Some (String (if Ascii.eqb c "+" && bool_decide (mode = encodeQueryComponent) then " "%char else c) rest)
  end.

Definition PathEscape (s : string) : string := escape s encodePathSegment.
Definition QueryEscape (s : string) : string := escape s encodeQueryComponent.

Definition validEncoded (s : string) : bool :=
  sforall (fun c => has_byte c "!$&'()*+,;=:@[]%" || negb (shouldEscape c encodePath)) s.

(** ** Parsing *)

(** [strings.Cut] at a byte. *)
Fixpoint Cut (sep : ascii) (s : string) : string * string :=
  match s with
  | EmptyString => ("", "")
  | String c r =>
      if Ascii.eqb c sep then ("", r)
      else let '(a, b) := Cut sep r in (String c a, b)
  end.

Fixpoint count_byte (c : ascii) (s : string) : Z :=
  match s with
  | EmptyString => 0
  | String d r => (if Ascii.eqb c d then 1 else 0) + count_byte c r
  end.

Definition is_ctl (c : ascii) : bool := (code c <? 32) || (code c =? 127).

(** [getScheme], from position [first = (i = 0)]: the scheme and the rest. *)
Fixpoint scheme_from (first : bool) (s : string) : option (string * string) :=
  match s with
  | EmptyString => None
  | String c r =>
      if is_lower c || is_upper c then '(a, b) ← scheme_from false r; Some (String c a, b)
      else if is_digit c || has_byte c "+-." then
        if first then None else '(a, b) ← scheme_from false r; Some (String c a, b)
      else if Ascii.eqb c ":" then if first then None else Some ("", r)
      else None
  end.
Definition missing_scheme (s : string) : bool :=
  match s with String c _ => Ascii.eqb c ":" | EmptyString => false end.
Definition getScheme (s : string) : result (string * string) :=
  if missing_scheme s then Fail (errors_New "missing protocol scheme")
  else Ok (default ("", s) (scheme_from true s)).

Definition validOptionalPort (port : string) : bool :=
  match port with
  | EmptyString => true
  | String c r => Ascii.eqb c ":" && sforall is_digit r
  end.

Definition validUserinfo (s : string) : bool :=
  sforall (fun c => is_alnum c || has_byte c "-._:~!$&'()*+,;=%@") s.

Section Parse.
Context `{UrlHosts}.

Definition parseHost (host : string) : result string :=
  if has_byte "[" host then
    match bracket_host host with
    | Some (pre, post) => Ok (pre +:+ "[" +:+ post)
    | None => Fail (errors_New "invalid IP-literal")
    end
  else
    let i := LastIndex host ":" in
    if (0 <=? i) && (1 <? count_byte ":" host) && negb (colons_allowed host) then Fail (errors_New "invalid port after host")
    else if (0 <=? i) && negb (validOptionalPort (slice_from host i)) then Fail (Errorf "invalid port %q after host" [FStr (slice_from host i)])
    else
      match unescape host encodeHost with
      | Some h => Ok h
      | None => Fail (errors_New "invalid character in host name")
      end.

Definition parseAuthority (authority : string) : result (option string * string) :=
  let i := LastIndex authority "@" in
  if i <? 0 then host ← parseHost authority; Ok (None, host)
  else
    host ← parseHost (slice_from authority (i + 1));
    let userinfo := slice authority 0 i in
    if negb (validUserinfo userinfo) then Fail (errors_New "net/url: invalid userinfo")
    else
      let '(username, password) := Cut ":" userinfo in
      match unescape username encodeUserPassword, unescape password encodeUserPassword with
      | Some _, Some _ => Ok (Some userinfo, host)
      | _, _ => Fail (errors_New "invalid URL escape")
      end.

(** [setPath]: the path and the raw path. *)
Definition setPath (p : string) : result (string * string) :=
  match unescape p encodePath with
  | None => Fail (errors_New "invalid URL escape")
  | Some path => Ok (path, if p ==s escape path encodePath then "" else p)
  end.

Definition EscapedPath (u : URL) : string :=
  if (u_RawPath u !=s "") && validEncoded (u_RawPath u) &&
     match unescape (u_RawPath u) encodePath with Some p => p ==s u_Path u | None => false end
  then u_RawPath u
  else if u_Path u ==s "*" then "*"
  else escape (u_Path u) encodePath.

(** [parse], after the scheme. *)
Definition parse_rest (scheme rest : string) : result URL :=
  let '(rest, query) :=
    if HasSuffix rest "?" && (count_byte "?" rest =? 1) then (slice rest 0 (len rest - 1), "")
    else Cut "?" rest in
  if negb (HasPrefix rest "/") && (scheme !=s "") then Ok (mkURL scheme rest None "" "" "" query "")
  else if negb (HasPrefix rest "/") && has_byte ":" (fst (Cut "/" rest)) then
    Fail (errors_New "first path segment in URL cannot contain colon")
  else
    '(user, host, path) ← (if ((scheme !=s "") || negb (HasPrefix rest "///")) && HasPrefix rest "//" then
        let authority := slice_from rest 2 in
        let '(name, _) := Cut "/" authority in
        '(user, host) ← parseAuthority name;
        Ok (user, host, slice_from authority (len name))
      else Ok (None, "", rest));
    '(path, raw) ← setPath path;
    Ok (mkURL scheme "" user host path raw query "").

Definition parse (rawURL : string) : result URL :=
  if negb (sforall (fun c => negb (is_ctl c)) rawURL) then Fail (errors_New "net/url: invalid control character in URL")
  else if rawURL ==s "*" then Ok (mkURL "" "" None "" "*" "" "" "")
  else
    '(scheme, rest) ← getScheme rawURL;
    parse_rest (smap lower_byte scheme) rest.

Definition url_error (u : string) (e : error) : error := Wrapf "parse %q: %w" [FStr u] e.

Definition Parse (rawURL : string) : result URL :=
  let '(u, frag) := Cut "#" rawURL in
  match parse u with
  | Fail e => Fail (url_error u e)
  | Ok url =>
      match unescape frag encodeFragment with
      | None => Fail (url_error rawURL (errors_New "invalid URL escape"))
      | Some f => Ok (mkURL (u_Scheme url) (u_Opaque url) (u_User url) (u_Host url) (u_Path url) (u_RawPath url) (u_RawQuery url) f)
      end
  end.

End Parse.

(** ** Bytes *)

Lemma has_byte_app c a b : has_byte c (a +:+ b) = has_byte c a || has_byte c b.
Proof. induction a as [|d a IH]; [done|]. change (String d a +:+ b) with (String d (a +:+ b)). simpl. by rewrite IH, orb_assoc. Qed.

Lemma has_byte_sforall c s : has_byte c s = negb (sforall (fun d => negb (Ascii.eqb c d)) s).
Proof. induction s as [|d s IH]; [done|]. simpl. rewrite IH. by destruct (Ascii.eqb c d). Qed.


(** A class that leaves a byte out has strings without it. *)
Lemma class_without p c s : p c = false -> sforall p s = true -> has_byte c s = false.
Proof.
  intros Hc Hs. rewrite has_byte_sforall, negb_false_iff. revert Hs. apply sforall_impl.
  intros d Hd. destruct (Ascii.eqb_spec c d) as [->|]; [congruence|done].
Qed.

Lemma LastIndex_byte_none c s : has_byte c s = false -> LastIndex s (String c "") = -1.
Proof.
  induction s as [|d s IH]; [done|]. cbn [has_byte LastIndex]. rewrite orb_false_iff. intros [Hd Hs].
  rewrite (IH Hs). cbn [String.prefix Z.leb]. by destruct (ascii_dec c d) as [->|]; [rewrite Ascii.eqb_refl in Hd|].
Qed.

Lemma LastIndex_byte_app c a b : has_byte c b = false -> LastIndex (a +:+ String c b) (String c "") = len a.
Proof.
  intros Hb. assert (String.prefix "" b = true) as Hp by (by destruct b). induction a as [|d a IH].
  - change ("" +:+ String c b) with (String c b). cbn [LastIndex String.prefix]. rewrite (LastIndex_byte_none c b Hb).
    destruct (ascii_dec c c); [|done]. by rewrite Hp.
  - change (String d a +:+ String c b) with (String d (a +:+ String c b)). cbn [LastIndex]. rewrite IH.
    pose proof (len_nonneg a). rewrite (proj2 (Z.leb_le 0 (len a))) by done. unfold len. cbn [String.length]. lia.
Qed.

Lemma LastIndex_byte_neg c s : LastIndex s (String c "") < 0 -> has_byte c s = false.
Proof.
  induction s as [|d s IH]; [done|]. cbn [has_byte LastIndex]. pose proof (LastIndex_lower s (String c "")).
  destruct (Z.leb_spec 0 (LastIndex s (String c ""))); [lia|]. cbn [String.prefix].
  destruct (ascii_dec c d) as [->|Hd]; [by destruct s|]. intros _.
  rewrite (proj2 (Ascii.eqb_neq c d)) by done. apply IH. lia.
Qed.

Lemma count_byte_zero c s : count_byte c s <= 0 <-> has_byte c s = false.
Proof.
  induction s as [|d s IH]; [done|]. cbn [count_byte has_byte].
  assert (0 <= count_byte c s) by (clear; induction s as [|d s IH]; simpl; [lia|destruct (Ascii.eqb c d); lia]).
  destruct (Ascii.eqb c d); cbn [orb]; [split; [lia|done]|rewrite <- IH; lia].
Qed.

Lemma count_byte_app c a b : count_byte c (a +:+ b) = count_byte c a + count_byte c b.
Proof. induction a as [|d a IH]; [done|]. change (String d a +:+ b) with (String d (a +:+ b)). simpl. rewrite IH. lia. Qed.

Lemma suffix_split s p : HasSuffix s p = true -> exists a, s = a +:+ p.
Proof.
  intros E%prefix_split. revert E. generalize (slice_from (srev s) (len (srev p))). intros x E. exists (srev x).
  apply (f_equal srev) in E. by rewrite srev_append, !srev_invol in E.
Qed.

Lemma slice_prefix a b : slice (a +:+ b) 0 (len a) = a.
Proof.
  unfold slice, len. rewrite Z.sub_0_r, Nat2Z.id. change (Z.to_nat 0) with 0%nat.
  induction a as [|c a IH]; [by destruct b|]. change (String c a +:+ b) with (String c (a +:+ b)). simpl. by rewrite IH.
Qed.
Lemma slice_suffix a b : slice_from (a +:+ b) (len a) = b.
Proof.
  pose proof (prefix_split a (a +:+ b) (prefix_append a b)) as H.
  revert H. generalize (slice_from (a +:+ b) (len a)). intros x. induction a as [|c a IH]; [done|].
  intros [= H]. by apply IH.
Qed.

(** ** [Cut] *)

Lemma Cut_app sep a b : has_byte sep a = false -> Cut sep (a +:+ String sep b) = (a, b).
Proof.
  induction a as [|c a IH]; [intros _; change ("" +:+ String sep b) with (String sep b); simpl; by rewrite Ascii.eqb_refl|].
  change (String c a +:+ String sep b) with (String c (a +:+ String sep b)). cbn [has_byte Cut]. rewrite orb_false_iff. intros [Hc Ha].
  rewrite Ascii.eqb_sym, Hc, (IH Ha). done.
Qed.
Lemma Cut_none sep a : has_byte sep a = false -> Cut sep a = (a, "").
Proof.
  induction a as [|c a IH]; [done|]. cbn [has_byte Cut]. rewrite orb_false_iff. intros [Hc Ha].
  by rewrite Ascii.eqb_sym, Hc, (IH Ha).
Qed.
(** The two cases of a cut. *)
Lemma Cut_cases sep s a b :
  Cut sep s = (a, b) -> has_byte sep a = false /\ (s = a /\ b = "" \/ s = a +:+ String sep b).
Proof.
  revert a b. induction s as [|c s IH]; intros a b; cbn [Cut]; [intros [= <- <-]; by auto|].
  destruct (Ascii.eqb_spec c sep) as [->|Hc]; [intros [= <- <-]; by auto|].
  destruct (Cut sep s) as [a' b'] eqn:E. intros [= <- <-]. destruct (IH a' b' eq_refl) as [Ha Hs].
  split; [cbn [has_byte]; rewrite Ha, orb_false_r; by apply Ascii.eqb_neq|].
  destruct Hs as [[-> ->]| ->]; auto.
Qed.

(** Both ways in which [parse] separates the query are [Cut]. *)
Lemma query_cut rest :
  (if HasSuffix rest "?" && (count_byte "?" rest =? 1) then (slice rest 0 (len rest - 1), "") else Cut "?" rest) = Cut "?" rest.
Proof.
  destruct (HasSuffix rest "?") eqn:Es; [|done]. destruct (Z.eqb_spec (count_byte "?" rest) 1) as [Hc|]; [|done]. cbn [andb].
  apply suffix_split in Es as [a ->]. rewrite count_byte_app in Hc. cbn in Hc.
  rewrite (Cut_app "?" a "") by (apply count_byte_zero; lia). rewrite len_app.
  replace (len a + len "?" - 1) with (len a) by (unfold len; simpl; lia). by rewrite slice_prefix.
Qed.

(** ** Escaping and its inverse *)

(** The bytes of an authority and of a path that stand for themselves. *)
Definition host_byte (c : ascii) : bool := is_alnum c || has_byte c "-.".
Definition path_byte (c : ascii) : bool := is_alnum c || has_byte c "-_.~/:@".

(** A fact about a byte, checked on all of them. *)
Ltac every_byte c := destruct c as [[] [] [] [] [] [] [] []]; vm_compute; first [reflexivity | discriminate | intros; reflexivity | intros; discriminate | idtac].

Lemma host_byte_plain c : host_byte c = true -> (code c <? 128) = true /\ shouldEscape c encodeHost = false /\ Ascii.eqb c "%" = false.
Proof. every_byte c. all: intros; split_and!; reflexivity. Qed.
Lemma path_byte_plain c : path_byte c = true -> shouldEscape c encodePath = false /\ Ascii.eqb c "%" = false.
Proof. every_byte c. all: intros; split; reflexivity. Qed.
Lemma hex_valid c : is_hex c = true -> is_alnum c = true.
Proof. every_byte c. Qed.

Lemma escape_path_cons c r : escape (String c r) encodePath =
  if shouldEscape c encodePath then String "%" (String (upper_hex (code c / 16)) (String (upper_hex (code c mod 16)) (escape r encodePath)))
  else String c (escape r encodePath).
Proof. cbn [escape]. rewrite (bool_decide_false (encodePath = encodeQueryComponent)) by done. by rewrite andb_false_r. Qed.

Lemma escape_path_plain s : sforall path_byte s = true -> escape s encodePath = s.
Proof.
  induction s as [|c s IH]; [done|]. cbn [sforall]. rewrite andb_true_iff. intros [[Hc _]%path_byte_plain Hs].
  by rewrite escape_path_cons, Hc, IH.
Qed.

(** An escaped path without an escape was not changed. *)
Lemma escape_path_same s : has_byte "%" (escape s encodePath) = false -> escape s encodePath = s.
Proof.
  induction s as [|c s IH]; [done|]. rewrite escape_path_cons. destruct (shouldEscape c encodePath); [done|].
  cbn [has_byte]. rewrite orb_false_iff. intros [_ Hs]. by rewrite IH.
Qed.

Lemma unescape_path_plain s : sforall path_byte s = true -> unescape s encodePath = Some s.
Proof.
  induction s as [|c s IH]; [done|]. cbn [sforall]. rewrite andb_true_iff. intros [[_ Hc]%path_byte_plain Hs].
  cbn [unescape]. rewrite Hc, (IH Hs), !bool_decide_false by done. cbn. by rewrite andb_false_r.
Qed.

Lemma unescape_host_plain s : sforall host_byte s = true -> unescape s encodeHost = Some s.
Proof.
  induction s as [|c s IH]; [done|]. cbn [sforall]. rewrite andb_true_iff. intros [(Ha&He&Hc)%host_byte_plain Hs].
  cbn [unescape]. rewrite Hc, (IH Hs), Ha, He, bool_decide_true by done. cbn. by rewrite andb_false_r.
Qed.

(** Induction along [unescape]. *)
Lemma unescape_ind mode (P : string -> string -> Prop) :
  P "" "" ->
  (forall a b r x, is_hex a = true -> is_hex b = true ->
     bool_decide (mode = encodeHost) && (hex_value a <? 8) && negb (String a (String b "") ==s "25") = false ->
     P r x -> P (String "%" (String a (String b r))) (String (ascii_of_N (Z.to_N (hex_value a * 16 + hex_value b))) x)) ->
  (forall c r x, Ascii.eqb c "%" = false -> P r x ->
     P (String c r) (String (if Ascii.eqb c "+" && bool_decide (mode = encodeQueryComponent) then " "%char else c) x)) ->
  forall s t, unescape s mode = Some t -> P s t.
Proof.
  intros H0 H1 H2 s. remember (String.length s) as n eqn:Hn. assert (String.length s <= n)%nat as Hl by lia. clear Hn.
  revert s Hl. induction n as [|n IH]; intros [|c r] Hl t; cbn [String.length] in Hl; try lia; try by intros [= <-].
  cbn [unescape]. destruct (Ascii.eqb_spec c "%") as [->|Hc%Ascii.eqb_neq].
  - destruct r as [|a [|b r]]; [done|done|]. cbn [String.length] in Hl. destruct (negb _) eqn:Eh; [done|].
    apply negb_false_iff, andb_true_iff in Eh as [Ea Eb]. destruct (_ && _ && _) eqn:E; [done|].
    intros (x&Hx&[= <-])%bind_Some. apply H1; [done|done|done|]. apply IH; [lia|done].
  - destruct (_ && _ && _); [done|]. intros (x&Hx&[= <-])%bind_Some. apply H2; [done|]. apply IH; [lia|done].
Qed.

Lemma unescape_empty mode s : unescape s mode = Some "" -> s = "".
Proof. intros H. exact (unescape_ind mode (fun s t => t = "" -> s = "") (fun _ => eq_refl) ltac:(done) ltac:(done) s "" H eq_refl). Qed.

Lemma hex_value_range a : is_hex a = true -> 0 <= hex_value a < 16.
Proof. every_byte a. all: intros; split; [discriminate|reflexivity]. Qed.

(** A host that decodes to plain bytes had no escape. *)
Lemma unescape_host_exact s t : unescape s encodeHost = Some t -> sforall host_byte t = true -> s = t.
Proof.
  revert s t. apply (unescape_ind encodeHost (fun s t => sforall host_byte t = true -> s = t)); [done| |].
  - intros a b r x Ha Hb Hcond _. cbn [sforall]. intros [Hbyte _]%andb_true_iff. exfalso.
    apply hex_value_range in Ha, Hb. rewrite bool_decide_true in Hcond by done. cbn [andb] in Hcond.
    apply andb_false_iff in Hcond as [Hcond|Hcond].
    + apply Z.ltb_ge in Hcond. apply host_byte_plain in Hbyte as [Hbyte _]. apply Z.ltb_lt in Hbyte.
      rewrite code_ascii_of in Hbyte by lia. lia.
    + apply negb_false_iff, String.eqb_eq in Hcond as [= -> ->]. by vm_compute in Hbyte.
  - intros c r x Hc IH. rewrite (bool_decide_false (encodeHost = _)), andb_false_r by done. cbn [sforall].
    rewrite andb_true_iff. intros [_ Hx]. by rewrite IH.
Qed.

Lemma path_byte_valid c : path_byte c = true -> has_byte c "!$&'()*+,;=:@[]%" || negb (shouldEscape c encodePath) = true.
Proof. intros [-> _]%path_byte_plain. by rewrite orb_true_r. Qed.
Lemma alnum_valid c : is_alnum c = true -> has_byte c "!$&'()*+,;=:@[]%" || negb (shouldEscape c encodePath) = true.
Proof. intros Hc. unfold shouldEscape. by rewrite Hc, orb_true_r. Qed.

(** A path that decodes to plain bytes is validly encoded. *)
Lemma unescape_path_valid s t : unescape s encodePath = Some t -> sforall path_byte t = true -> validEncoded s = true.
Proof.
  revert s t. apply (unescape_ind encodePath (fun s t => sforall path_byte t = true -> validEncoded s = true)); [done| |].
  - intros a b r x Ha Hb _ IH. cbn [sforall]. intros [_ Hx]%andb_true_iff. unfold validEncoded in *. cbn [sforall].
    by rewrite (alnum_valid a), (alnum_valid b), IH by auto using hex_valid.
  - intros c r x Hc IH. rewrite (bool_decide_false (encodePath = _)), andb_false_r by done. cbn [sforall].
    rewrite andb_true_iff. intros [Hb Hx]. unfold validEncoded in *. cbn [sforall]. by rewrite path_byte_valid, IH.
Qed.

(** ** Which strings parse to a plain URL *)

(** The path component of [Parse]: only the plain text itself has it as its
    escaped form. *)
Lemma escaped_path_exact s o us h q f p path raw want :
  setPath p = Ok (path, raw) -> sforall path_byte want = true ->
  EscapedPath (mkURL s o us h path raw q f) = want <-> p = want.
Proof.
  unfold setPath. destruct (unescape p encodePath) as [path'|] eqn:Eu; [|done]. intros [= -> <-] Hw.
  assert (has_byte "%" want = false) as Hpc by (by apply (class_without path_byte)).
  unfold EscapedPath. cbn [u_RawPath u_Path]. split.
  - destruct (String.eqb_spec p (escape path encodePath)) as [Ep|Ep]; cbn [String.eqb negb andb].
    + destruct (String.eqb_spec path "*") as [->|]; [intros <-; done|]. by rewrite Ep.
    + destruct (negb _ && _ && _) eqn:E; [done|]. destruct (String.eqb_spec path "*") as [->|Hs]; [intros <-; done|].
      intros Ew. assert (path = want) as -> by (rewrite <- Ew; symmetry; apply escape_path_same; by rewrite Ew).
      rewrite Eu, (unescape_path_valid p want Eu Hw), String.eqb_refl, !andb_true_r in E.
      apply negb_false_iff, String.eqb_eq in E as ->. cbn in Eu. by injection Eu as <-.
  - intros ->. rewrite (unescape_path_plain want Hw) in Eu. injection Eu as <-.
    rewrite (escape_path_plain want Hw), String.eqb_refl. cbn. destruct (String.eqb_spec want "*") as [->|]; done.
Qed.

Lemma scheme_from_split first s a b : scheme_from first s = Some (a, b) -> s = a +:+ ":" +:+ b.
Proof.
  revert first a b. induction s as [|c s IH]; intros first a b; cbn [scheme_from]; [done|].
  destruct (is_lower c || is_upper c).
  { intros ([a' b']&E&[= <- <-])%bind_Some. by rewrite (IH _ _ _ E) at 1. }
  destruct (is_digit c || _).
  { destruct first; [done|]. intros ([a' b']&E&[= <- <-])%bind_Some. by rewrite (IH _ _ _ E) at 1. }
  destruct (Ascii.eqb_spec c ":") as [->|]; [|done]. destruct first; [done|]. by intros [= <- <-].
Qed.

Definition letter (c : ascii) : bool := is_lower c || is_upper c.

Lemma scheme_from_letters first a b : sforall letter a = true -> (first = true -> a <> "") ->
  scheme_from first (a +:+ ":" +:+ b) = Some (a, b).
Proof.
  revert first. induction a as [|c a IH]; intros first Ha Hf.
  - destruct first; [by specialize (Hf eq_refl)|done].
  - change (String c a +:+ ":" +:+ b) with (String c (a +:+ ":" +:+ b)). cbn [sforall scheme_from] in *.
    apply andb_true_iff in Ha as [Hc Ha]. unfold letter in Hc. rewrite Hc, IH by done. done.
Qed.

Section Exact.
Context `{UrlHosts}.

Lemma parse_rest_scheme s rest u : parse_rest s rest = Ok u -> u_Scheme u = s.
Proof.
  unfold parse_rest. rewrite query_cut. destruct (Cut "?" rest) as [body query].
  destruct (_ && _); [by intros [= <-]|]. destruct (_ && _); [done|].
  match goal with |- (?m ≫= _) = _ -> _ => destruct m as [[[user host] path]|]; [|done] end.
  cbn [mbind result_bind]. destruct (setPath path) as [[]|]; [|done]. by intros [= <-].
Qed.

Lemma parseHost_exact h want : want <> "" -> sforall host_byte want = true -> parseHost h = Ok want <-> h = want.
Proof.
  intros Hne Hw. unfold parseHost. split.
  - destruct (has_byte "[" h).
    { destruct (bracket_host h) as [[pre post]|]; [|done]. intros [= <-]. exfalso.
      rewrite !sforall_app in Hw. cbn in Hw. by rewrite andb_false_r in Hw. }
    repeat (destruct (_ && _); [done|]). destruct (unescape h encodeHost) as [t|] eqn:E; [|done].
    intros [= ->]. by apply unescape_host_exact.
  - intros ->. rewrite (class_without host_byte "[" want), (LastIndex_byte_none ":" want)
      by (first [done | by apply (class_without host_byte)]). cbn. by rewrite unescape_host_plain.
Qed.

Lemma parseAuthority_exact a want : want <> "" -> sforall host_byte want = true ->
  parseAuthority a = Ok (None, want) <-> a = want.
Proof.
  intros Hne Hw. unfold parseAuthority. split.
  - destruct (_ <? 0).
    + destruct (parseHost a) as [h|] eqn:E; [|done]. intros [= ->]. by apply (parseHost_exact a want).
    + destruct (parseHost _); [|done]. cbn [mbind result_bind]. destruct (negb _); [done|]. destruct (Cut _ _) as [x y].
      by destruct (unescape x encodeUserPassword), (unescape y encodeUserPassword).
  - intros ->. rewrite (LastIndex_byte_none "@" want) by (by apply (class_without host_byte)). cbn [Z.ltb].
    change (-1 <? 0) with true. cbn iota. by rewrite (proj2 (parseHost_exact want want Hne Hw) eq_refl).
Qed.

(** The part of [parse] after the scheme. *)
Lemma parse_rest_exact scheme rest host path :
  scheme <> "" -> host <> "" -> sforall host_byte host = true -> sforall path_byte path = true -> HasPrefix path "/" = true ->
  (exists u, parse_rest scheme rest = Ok u /\ u_Host u = host /\ u_User u = None /\ u_RawQuery u = "" /\ EscapedPath u = path) <->
  rest = "//" +:+ host +:+ path \/ rest = "//" +:+ host +:+ path +:+ "?".
Proof.
  intros Hs Hne Hh Hp Hslash. unfold parse_rest. rewrite query_cut.
  assert (has_byte "?" ("//" +:+ host +:+ path) = false) as Hq.
  { rewrite !has_byte_app. by rewrite (class_without host_byte "?" host), (class_without path_byte "?" path). }
  assert ((scheme !=s "") = true) as Es by (by apply negb_true_iff, String.eqb_neq). rewrite Es.
  split.
  - intros (u&Hu&Hhost&Huser&Hquery&Hpath). destruct (Cut "?" rest) as [body query] eqn:Ec.
    apply Cut_cases in Ec as [_ Hrest]. destruct (HasPrefix body "/") eqn:E1; cbn [negb andb orb] in Hu.
    2: { injection Hu as <-. by destruct Hne. }
    destruct (HasPrefix body "//") eqn:E2.
    2: { cbn [mbind result_bind] in Hu. destruct (setPath body) as [[]|]; [|done]. injection Hu as <-. by destruct Hne. }
    apply prefix_split in E2. change (len "//") with 2 in E2. destruct (Cut "/" (slice_from body 2)) as [name tail] eqn:En.
    destruct (parseAuthority name) as [[user h]|] eqn:Ea; [|done]. cbn [mbind result_bind] in Hu.
    destruct (setPath _) as [[p raw]|] eqn:Ep; [|done]. injection Hu as <-. cbn [u_Host u_User u_RawQuery] in *. subst h user query.
    apply (parseAuthority_exact name host Hne Hh) in Ea as ->. apply (escaped_path_exact _ _ _ _ _ _ _ _ _ _ Ep Hp) in Hpath.
    assert (slice_from body 2 = host +:+ path) as Hbody.
    { apply Cut_cases in En as [_ [[E ->]|E]]; rewrite E in Hpath |- *; [|by rewrite slice_suffix in Hpath; subst path].
      rewrite <- (app_empty_r host) in Hpath at 1. rewrite slice_suffix in Hpath. by subst path. }
    rewrite Hbody in E2. destruct Hrest as [[-> _]| ->]; [by left|right]. rewrite E2. by rewrite !str_app_assoc.
  - intros Hrest. assert (Cut "?" rest = ("//" +:+ host +:+ path, "")) as ->.
    { destruct Hrest as [->| ->]; [by apply Cut_none|]. rewrite <- !str_app_assoc. rewrite (str_app_assoc "//"). by apply Cut_app. }
    assert (Cut "/" (host +:+ path) = (host, slice_from path 1)) as Ecut.
    { pose proof (prefix_split "/" path Hslash) as E. rewrite E at 1. apply Cut_app. by apply (class_without host_byte). }
    assert (setPath path = Ok (path, "")) as Epath.
    { unfold setPath. by rewrite unescape_path_plain, escape_path_plain, String.eqb_refl. }
    eexists. split.
    + assert (HasPrefix ("//" +:+ host +:+ path) "/" = true /\ HasPrefix ("//" +:+ host +:+ path) "//" = true) as [-> ->].
      { split; [apply (prefix_append "/" ("/" +:+ host +:+ path))|apply prefix_append]. }
      cbn [negb andb orb].
      rewrite (slice_suffix "//" (host +:+ path) : slice_from _ 2 = _), Ecut, (proj2 (parseAuthority_exact host host Hne Hh) eq_refl).
      cbn [mbind result_bind]. rewrite slice_suffix, Epath. reflexivity.
    + cbn [u_Host u_User u_RawQuery]. split_and!; [done..|]. by apply (escaped_path_exact _ _ _ _ _ _ _ _ _ _ Epath Hp).
Qed.

Lemma letters_of_lower s t : smap lower_byte s = t -> sforall is_lower t = true -> sforall letter s = true.
Proof.
  intros <-. induction s as [|c s IH]; [done|]. cbn [smap sforall]. rewrite !andb_true_iff. intros [Hc Hs].
  split; [|by apply IH]. revert Hc. clear. every_byte c.
Qed.

Lemma letter_plain c : letter c = true -> negb (is_ctl c) = true.
Proof. every_byte c. Qed.
Lemma host_byte_print c : host_byte c = true -> negb (is_ctl c) = true.
Proof. every_byte c. Qed.
Lemma path_byte_print c : path_byte c = true -> negb (is_ctl c) = true.
Proof. every_byte c. Qed.

(** What is read of a parsed URL by a caller that wants a plain one. *)
Definition plain_url (u : URL) (scheme host path : string) : Prop :=
  u_Scheme u = scheme /\ u_Host u = host /\ u_User u = None /\ u_RawQuery u = "" /\ u_Fragment u = "" /\ EscapedPath u = path.

(** What may follow a plain URL without being read: an empty query and an empty
    fragment. *)
Definition empty_tails : list string := [""; "?"; "#"; "?#"].

Lemma Parse_plain scheme host path s tail :
  scheme <> "" -> sforall is_lower scheme = true -> host <> "" -> sforall host_byte host = true ->
  sforall path_byte path = true -> HasPrefix path "/" = true -> smap lower_byte s = scheme -> tail ∈ empty_tails ->
  exists u, Parse (s +:+ "://" +:+ host +:+ path +:+ tail) = Ok u /\ plain_url u scheme host path.
Proof.
  intros Hs Hl Hne Hh Hp Hslash E Htail. unfold Parse, plain_url. pose proof (letters_of_lower s scheme E Hl) as Hletters.
  assert (s <> "") as Hsne by (intros ->; by apply Hs).
  set (url := s +:+ "://" +:+ host +:+ path).
  assert (exists q, (q = "" \/ q = "?") /\ Cut "#" (s +:+ "://" +:+ host +:+ path +:+ tail) = (url +:+ q, "")) as (q&Hq&->).
  { assert (has_byte "#" url = false) as Hurl.
    { unfold url. rewrite !has_byte_app. by rewrite (class_without letter "#" s), (class_without host_byte "#" host), (class_without path_byte "#" path). }
    assert (s +:+ "://" +:+ host +:+ path +:+ tail = url +:+ tail) as -> by (unfold url; by rewrite !str_app_assoc).
    unfold empty_tails in Htail. rewrite !elem_of_cons in Htail. destruct Htail as [->|[->|[->|[->|Hn]]]]; [| | | |by apply elem_of_nil in Hn].
    - exists "". split; [by left|]. apply Cut_none. by rewrite has_byte_app, Hurl.
    - exists "?". split; [by right|]. apply Cut_none. by rewrite has_byte_app, Hurl.
    - exists "". split; [by left|]. rewrite app_empty_r. by apply Cut_app.
    - exists "?". split; [by right|]. change "?#" with ("?" +:+ String "#" ""). rewrite <- str_app_assoc. apply Cut_app.
      by rewrite has_byte_app, Hurl. }
  assert (url +:+ q = s +:+ ":" +:+ ("//" +:+ host +:+ path +:+ q)) as Eu by (unfold url; by rewrite !str_app_assoc).
  destruct (proj2 (parse_rest_exact scheme ("//" +:+ host +:+ path +:+ q) host path Hs Hne Hh Hp Hslash)) as (u&Hu&?&?&?&Hpath).
  { destruct Hq as [->| ->]; [left; by rewrite app_empty_r|by right]. }
  assert (parse (url +:+ q) = Ok u) as ->.
  { unfold parse, getScheme. rewrite Eu, (scheme_from_letters true s _ Hletters ltac:(done)).
    assert (sforall (fun c => negb (is_ctl c)) (s +:+ ":" +:+ ("//" +:+ host +:+ path +:+ q)) = true) as ->.
    { rewrite !sforall_app, !andb_true_iff. split_and!; eauto using sforall_impl, letter_plain, host_byte_print, path_byte_print.
      by destruct Hq as [->| ->]. }
    destruct s as [|c s]; [done|]. cbn [sforall] in Hletters. apply andb_true_iff in Hletters as [Hc _].
    assert (Ascii.eqb c ":" = false /\ Ascii.eqb c "*" = false) as [Ec Ec'] by (revert Hc; clear; every_byte c; done).
    change (String c s +:+ ?x) with (String c (s +:+ x)). cbn [negb missing_scheme String.eqb]. rewrite Ec, Ec'.
    cbn [mbind result_bind default from_option id]. change (String c (smap lower_byte s)) with (smap lower_byte (String c s)). by rewrite E. }
  cbn [unescape]. eexists. split; [reflexivity|]. cbn [u_Scheme u_Host u_User u_RawQuery u_Fragment]. split_and!; try done.
  by apply (parse_rest_scheme _ _ _ Hu).
Qed.

(** A string parses to a plain URL exactly when it is that URL, up to the case of
    the scheme and an empty query or fragment. *)
Lemma Parse_exact raw scheme host path :
  scheme <> "" -> sforall is_lower scheme = true -> host <> "" -> sforall host_byte host = true ->
  sforall path_byte path = true -> HasPrefix path "/" = true ->
  (exists u, Parse raw = Ok u /\ plain_url u scheme host path) <->
  exists s tail, smap lower_byte s = scheme /\ tail ∈ empty_tails /\ raw = s +:+ "://" +:+ host +:+ path +:+ tail.
Proof.
  intros Hs Hl Hne Hh Hp Hslash. split; [|intros (s&tail&E&Htail&->); by apply Parse_plain]. unfold Parse, plain_url.
  intros (u&Hu&Hscheme&Hhost&Huser&Hquery&Hfrag&Hpath). destruct (Cut "#" raw) as [body frag] eqn:Ec.
  destruct (parse body) as [v|] eqn:Ev; [|done]. destruct (unescape frag encodeFragment) as [f|] eqn:Ef; [|done].
  injection Hu as <-. cbn in Hscheme, Hhost, Huser, Hquery, Hfrag. subst f. apply unescape_empty in Ef as ->.
  unfold parse in Ev. destruct (negb _); [done|]. destruct (_ ==s "*"); [injection Ev as <-; cbn in Hscheme; congruence|].
  unfold getScheme in Ev. destruct (missing_scheme body); [done|]. cbn [mbind result_bind] in Ev.
  destruct (scheme_from true body) as [[s rest]|] eqn:Es; cbn [default from_option id] in Ev.
  2: { apply parse_rest_scheme in Ev. cbn in Ev. congruence. }
  apply scheme_from_split in Es. exists s. pose proof (parse_rest_scheme _ _ _ Ev) as E. rewrite Hscheme in E. symmetry in E.
  rewrite E in Ev. destruct (proj1 (parse_rest_exact scheme rest host path Hs Hne Hh Hp Hslash)) as [Hr|Hr].
  { exists v. by split_and!. }
  all: apply Cut_cases in Ec as [_ [[-> _]| ->]]; subst body rest.
  1: exists "". 2: exists "#". 3: exists "?". 4: exists "?#".
  all: split_and!; [done|unfold empty_tails; rewrite !elem_of_cons; tauto|].
  all: rewrite ?app_empty_r, ?str_app_assoc; reflexivity.
Qed.

End Exact.
