(* ===== verification/GcpAuth.v ===== *)
(** * Google credentials

    [internal/gcpauth]: the credential selector, the sealing of the process
    environment, reading of owner-only files ([selector.go],
    [file_access_unix.go]), the impersonated, attached, device ([device.go]) and
    workload-federation ([wif.go]) arms. The process environment is the state;
    files, the metadata server and the Google libraries are the answers of a
    [GEnv]. *)
From Stdlib Require Import ZArith Lia Bool.
From Stdlib Require Import String Ascii.
From stdpp Require Import base tactics option list gmap strings.
From S2P Require Import Prelude GoStrings GoPath JsonKeys SourceText Regex RegexSpec GoFile GoUrl.
Open Scope Z_scope.

Module GcpAuth.

Definition CredentialsSourceApplicationDefault : string := "application_default".
Definition CredentialsProfileImpersonatedServiceAccount : string := "impersonated_service_account".
Definition CredentialsProfileAttachedServiceAccount : string := "attached_service_account".
Definition CredentialsProfileDeviceServiceAccount : string := "device_service_account".
Definition CredentialsProfileWorkloadIdentityFederation : string := "workload_identity_federation".
Definition CloudPlatformScope : string := "https://www.googleapis.com/auth/cloud-platform".
Definition maxCredentialConfigurationBytes : Z := 1048576.

(** ** Patterns *)

Definition name_byte (c : ascii) : bool := is_lower c || is_digit c || Ascii.eqb c "-".
Definition name_end (c : ascii) : bool := is_lower c || is_digit c.
Definition nonzero_digit (c : ascii) : bool := is_digit c && negb (Ascii.eqb c "0").

(** [[a-z][a-z0-9-]{4,28}[a-z0-9]]. *)
Definition account_name : list regex := [RClass is_lower] ++ between 4 28 name_byte ++ [RClass name_end].

Definition serviceAccountEmailPattern : list regex :=
  account_name ++ literal "@" ++ account_name ++ literal ".iam.gserviceaccount.com".

(** [[a-z][a-z0-9-]{2,31}]. *)
Definition pool_name : list regex := [RClass is_lower] ++ between 2 31 name_byte.

Definition workloadAudiencePattern : list regex :=
  literal "//iam.googleapis.com/projects/" ++ [RClass nonzero_digit; RStar is_digit] ++
  literal "/locations/global/workloadIdentityPools/" ++ pool_name ++ literal "/providers/" ++ pool_name.

(** ** Data *)

Record Selector : Type := mkSelector {
  CredentialsFile : string;
  CredentialsSource : string;
  CredentialsProfile : string;
  CredentialsIdentity : string;
  CredentialsBaseIdentity : string;
  CredentialsAudience : string
}.

(** A [context.Context]: its error, if it has ended, and the [*http.Client] it
    carries for [oauth2]. *)
Record Context_ : Type := mkContext { cx_Err : option error; cx_HTTPClient : option string }.
Definition Background : Context_ := mkContext None None.
(** [context.WithValue(context.Background(), oauth2.HTTPClient, client)]. *)
Definition with_client (client : string) : Context_ := mkContext None (Some client).

(** What [credentialContext] is in the impersonated and device arms. *)
Definition credentialContext (ctx : Context_) (detach : bool) : Context_ :=
  if detach then match cx_HTTPClient ctx with Some client => with_client client | None => Background end
  else ctx.

(** [metadataClient]. *)
Record metadataClient : Type := mkMetadata {
  OnGCE : bool;
  Email : string -> result string;
  Get : string -> result string
}.

(** The token sources, as the calls that made them. *)
Inductive TokenSource : Type :=
| FromJSON (ctx : Context_) (data kind : string) (scopes : list string)
| RequestMetadata (ctx : Context_) (client : metadataClient) (account : string) (scopes : list string)
| ComputeToken (account : string) (scopes : list string)
| WorkloadOAuth (ctx : Context_) (raw : string) (scopes : list string).

Record workloadCarrier : Type := mkCarrier {
  wc_Type : string;
  wc_Audience : string;
  wc_SubjectTokenType : string;
  wc_TokenURL : string;
  wc_ImpersonationURL : string;
  wc_UniverseDomain : string;
  wc_QuotaProject : string;
  wc_CertificateConfig : string
}.
Record workloadCertificateConfiguration : Type := mkCertificates { wk_Cert : string; wk_Key : string }.

(** The response of the metadata server for a token, and [oauth2.Token] with the
    extra fields of [WithExtra]. *)
Record tokenResponse : Type := mkTokenResponse { tr_AccessToken : string; tr_TokenType : string; tr_ExpiresIn : Z }.
Record Token_ : Type := mkToken { tk_AccessToken : string; tk_TokenType : string; tk_Expiry : Time; tk_Extra : list (string * string) }.

(** What [encoding/json] makes of a credential document: its tokens, its value
    in an [any] with [UseNumber] and with [Unmarshal], the carriers of [wif.go]
    with [DisallowUnknownFields], a token response; and [json.Marshal]. *)
Class CredentialCodec : Type := {
  cred_tokens : string -> decoder;
  cred_Decode : string -> result json;
  cred_Unmarshal : string -> result json;
  cred_Marshal : json -> result string;
  carrier_Decode : string -> option workloadCarrier;
  certificate_Decode : string -> option workloadCertificateConfiguration;
  token_Decode : string -> result tokenResponse
}.

(** The process environment: the variables that are set. *)
Abbreviation environ := (gmap string string).
Definition Getenv (env : environ) (key : string) : string := default "" (env !! key).

(** What the operating system, the metadata server and the libraries answer:
    [CredentialsFromJSONWithType] gives an error, nil credentials, or credentials
    with or without a token source. *)
Record GEnv : Type := mkGEnv {
  ge_GOOS : string;
  ge_Setenv : string -> string -> option error;
  ge_seal_order : bool;
  ge_Lstat : string -> result FileInfo;
  ge_Open : string -> result File;
  ge_Geteuid : Z;
  ge_metadata : option metadataClient;
  ge_computeTokenSource : string -> list string -> bool;
  ge_CredentialsFromJSON : Context_ -> string -> string -> list string -> result (option bool);
  ge_NewCredentialsFromJSON : string -> list string -> bool;
  ge_X509KeyPair : string -> string -> bool
}.

(** ** [Selector.Validate] *)

Definition email_ok (s : string) : bool := MatchWhole serviceAccountEmailPattern s.

Definition validateWorkloadIdentitySelector (s : Selector) : result unit :=
  if (CredentialsProfile s !=s CredentialsProfileWorkloadIdentityFederation) ||
     (CredentialsSource s !=s CredentialsSourceApplicationDefault) || (CredentialsFile s !=s "") ||
     negb (email_ok (CredentialsIdentity s)) || (CredentialsBaseIdentity s !=s "") ||
     negb (MatchWhole workloadAudiencePattern (CredentialsAudience s))
  then Fail (errors_New "google_credentials: direct workload federation requires an exact audience and scoped identity without a base identity")
  else Ok tt.

Definition Validate (s : Selector) (label : string) : result unit :=
  let label := if label ==s "" then "google_credentials" else label in
  if CredentialsFile s !=s "" then Fail (Errorf "%s: credentials_file is forbidden" [FStr label])
  else if CredentialsSource s ==s "" then
    Fail (Errorf "%s: credentials_source=%s is required" [FStr label; FStr CredentialsSourceApplicationDefault])
  else if CredentialsSource s !=s CredentialsSourceApplicationDefault then
    Fail (Errorf "%s: unsupported credentials_source %q" [FStr label; FStr (CredentialsSource s)])
  else if negb (email_ok (CredentialsIdentity s)) then
    Fail (Errorf "%s: credentials_identity %q is not a canonical user-managed service-account email" [FStr label; FStr (CredentialsIdentity s)])
  else if (CredentialsProfile s !=s CredentialsProfileWorkloadIdentityFederation) &&
          ((CredentialsAudience s !=s "") || (CredentialsBaseIdentity s !=s "")) then
    Fail (Errorf "%s: workload fields require workload federation profile" [FStr label])
  else if CredentialsProfile s ==s CredentialsProfileWorkloadIdentityFederation then validateWorkloadIdentitySelector s
  else if (CredentialsProfile s ==s CredentialsProfileImpersonatedServiceAccount) ||
          (CredentialsProfile s ==s CredentialsProfileAttachedServiceAccount) ||
          (CredentialsProfile s ==s CredentialsProfileDeviceServiceAccount) then Ok tt
  else if CredentialsProfile s ==s "" then Fail (Errorf "%s: credentials_profile is required" [FStr label])
  else Fail (Errorf "%s: unsupported credentials_profile %q" [FStr label; FStr (CredentialsProfile s)]).

(** ** The environment *)

Definition forbiddenGODEBUGFragments : list string := ["http2debug="; "tlsmlkem=0"; "tlssecpmlkem=0"].

Definition ambientGoogleTransportOverrideKeys : list string := [
  "EXPERIMENTAL_GOOGLE_API_USE_S2A"; "GCE_METADATA_HOST"; "GRPC_BINARY_LOG_FILTER"; "GRPC_ENFORCE_ALPN_ENABLED";
  "HTTP_PROXY"; "HTTPS_PROXY"; "GOOGLE_API_GO_EXPERIMENTAL_DISABLE_NEW_AUTH_LIB";
  "GOOGLE_API_GO_EXPERIMENTAL_ENABLE_NEW_AUTH_LIB"; "GOOGLE_API_CERTIFICATE_CONFIG";
  "GOOGLE_API_USE_CLIENT_CERTIFICATE"; "GOOGLE_API_USE_MTLS"; "GOOGLE_API_USE_MTLS_ENDPOINT";
  "GOOGLE_AUTH_TRUST_BOUNDARY_ENABLED"; "GOOGLE_CLOUD_DISABLE_DIRECT_PATH"; "GOOGLE_CLOUD_ENABLE_DIRECT_PATH_XDS";
  "GOOGLE_CLOUD_QUOTA_PROJECT"; "GOOGLE_CLOUD_UNIVERSE_DOMAIN"; "GOOGLE_SPANNER_DISABLE_DIRECT_ACCESS_BOUND_TOKEN";
  "GOOGLE_SPANNER_ENABLE_DIRECT_ACCESS"; "GOOGLE_SPANNER_ENABLE_GCP_FALLBACK";
  "GOOGLE_SPANNER_EXPERIMENTAL_LOCATION_API"; "NO_PROXY"; "SSL_CERT_DIR"; "SSL_CERT_FILE"; "SPANNER_EMULATOR_HOST";
  "SPANNER_MONITORING_HOST"; "http_proxy"; "https_proxy"; "no_proxy"].

Definition sealedGoogleClientCertificate : string := "false".
Definition sealedGoogleMTLSEndpoint : string := "never".

Fixpoint validate_fragments (value : string) (fragments : list string) : result unit :=
  match fragments with
  | [] => Ok tt
  | fragment :: rest =>
      if Contains value fragment then Fail (Errorf "google_credentials: GODEBUG contains forbidden setting %q" [FStr fragment])
      else validate_fragments value rest
  end.
Definition validateSecuritySensitiveGODEBUG (value : string) : result unit :=
  validate_fragments value forbiddenGODEBUGFragments.

(** The body of the loop over the override keys. *)
Definition check_override (env : environ) (key : string) : result unit :=
  let value := Getenv env key in
  if key ==s "GOOGLE_API_USE_CLIENT_CERTIFICATE" then
    if (value !=s "") && (value !=s sealedGoogleClientCertificate) then
      Fail (Errorf "google_credentials: %s must be unset or equal %q; ambient Google transport overrides are forbidden" [FStr key; FStr sealedGoogleClientCertificate])
    else Ok tt
  else if key ==s "GOOGLE_API_USE_MTLS_ENDPOINT" then
    if (value !=s "") && (value !=s sealedGoogleMTLSEndpoint) then
      Fail (Errorf "google_credentials: %s must be unset or equal %q; ambient Google transport overrides are forbidden" [FStr key; FStr sealedGoogleMTLSEndpoint])
    else Ok tt
  else if value !=s "" then
    Fail (Errorf "google_credentials: %s must be unset; ambient Google transport overrides are forbidden" [FStr key])
  else Ok tt.

(** The two variables that are set, in the order in which the map is visited. *)
Definition sealed_variables (swapped : bool) : list (string * string) :=
  let l := [("GOOGLE_API_USE_CLIENT_CERTIFICATE", sealedGoogleClientCertificate);
            ("GOOGLE_API_USE_MTLS_ENDPOINT", sealedGoogleMTLSEndpoint)] in
  if swapped then reverse l else l.

Fixpoint set_variables (e : GEnv) (l : list (string * string)) : st environ (result unit) := fun env =>
  match l with
  | [] => (Ok tt, env)
  | (key, value) :: rest =>
      match ge_Setenv e key value with
      | Some err => (Fail (Wrapf "google_credentials: seal %s: %w" [FStr key] err), env)
      | None => set_variables e rest (<[key := value]> env)
      end
  end.

Definition sealAmbientGoogleTransport (e : GEnv) : st environ (result unit) := fun env =>
  match validateSecuritySensitiveGODEBUG (Getenv env "GODEBUG") with
  | Fail err => (Fail err, env)
  | Ok _ =>
      match each (check_override env) ambientGoogleTransportOverrideKeys with
      | Fail err => (Fail err, env)
      | Ok _ => set_variables e (sealed_variables (ge_seal_order e)) env
      end
  end.

(** ** Owner-only files *)

Definition validateCredentialFileAccess (e : GEnv) (info : FileInfo) : result unit :=
  let permissions := Perm (fi_Mode info) in
  if negb (permissions =? 256) && negb (permissions =? 384) then
    Fail (errors_New "credential file must be owner-only and owner-readable (mode 0400 or 0600)")
  else if match fi_Uid info with Some uid => negb (uid =? ge_Geteuid e) | None => true end then
    Fail (errors_New "credential file must be owned by the effective user")
  else Ok tt.

Definition readOwnerOnlyRegularFile (e : GEnv) (path : string) : result string :=
  if (TrimSpace path ==s "") || negb (IsAbs path) then Fail (errors_New "credential path must be absolute")
  else
    pathInfo ← ge_Lstat e path;
    if negb (Z.land (fi_Mode pathInfo) ModeSymlink =? 0) then Fail (errors_New "credential path must not be a symlink")
    else if negb (IsRegular (fi_Mode pathInfo)) then Fail (errors_New "credential path must be a regular file")
    else
      file ← ge_Open e path;
      openedInfo ← f_Stat file;
      if negb (IsRegular (fi_Mode openedInfo)) || negb (SameFile pathInfo openedInfo) then
        Fail (errors_New "credential file identity changed while opening")
      else
        _ ← validateCredentialFileAccess e openedInfo;
        data ← read_limited file (maxCredentialConfigurationBytes + 1);
        if maxCredentialConfigurationBytes <? len data then
          Fail (Errorf "credential configuration exceeds %d bytes" [FInt maxCredentialConfigurationBytes])
        else Ok data.

(** [defaultADCPath]. *)
Definition defaultADCPath (e : GEnv) (env : environ) : result string :=
  let filename := "application_default_credentials.json" in
  if ge_GOOS e ==s "windows" then
    let root := TrimSpace (Getenv env "APPDATA") in
    if root ==s "" then Fail (errors_New "APPDATA is required to resolve the well-known ADC carrier")
    else Ok (Join2 (Join2 root "gcloud") filename)
  else
    let root := TrimSpace (Getenv env "HOME") in
    if root ==s "" then Fail (errors_New "HOME is required to resolve the well-known ADC carrier")
    else Ok (Join2 (Join2 (Join2 root ".config") "gcloud") filename).

(** ** The impersonated carrier *)

Definition validateObjectKeys (object : list (string * json)) (label : string) (allowedKeys : list string) : result unit :=
  each (fun kv =>
    if bool_decide (fst kv ∈ allowedKeys) then Ok tt
    else Fail (Errorf "%s field %q is not allowed" [FStr label; FStr (fst kv)])) object.

Fixpoint rejectForbiddenCredentialFields (value : json) : result unit :=
  match value with
  | JObject m =>
      (fix members (m : list (string * json)) : result unit :=
        match m with
        | [] => Ok tt
        | (key, child) :: rest =>
            if (key ==s "private_key") || (key ==s "private_key_id") then
              Fail (Errorf "credential field %q is forbidden" [FStr key])
            else _ ← rejectForbiddenCredentialFields child; members rest
        end) m
  | JArray l =>
      (fix elements (l : list json) : result unit :=
        match l with
        | [] => Ok tt
        | child :: rest => _ ← rejectForbiddenCredentialFields child; elements rest
        end) l
  | _ => Ok tt
  end.

Definition serviceAccountProject (identity : string) : string :=
  let localAndProject := TrimSuffix identity ".iam.gserviceaccount.com" in
  let separator := LastIndex localAndProject "@" in
  if (separator <? 0) || (separator =? len localAndProject - 1) then ""
  else slice_from localAndProject (separator + 1).

Definition impersonation_path (identity : string) : string :=
  "/v1/projects/-/serviceAccounts/" +:+ identity +:+ ":generateAccessToken".

Definition validateImpersonationURL `{UrlHosts} (rawURL identity : string) : result unit :=
  match Parse rawURL with
  | Fail err => Fail (Wrapf "service_account_impersonation_url: %w" [] err)
  | Ok parsed =>
      if (u_Scheme parsed !=s "https") || (u_Host parsed !=s "iamcredentials.googleapis.com") ||
         match u_User parsed with Some _ => true | None => false end || (u_RawQuery parsed !=s "") || (u_Fragment parsed !=s "")
      then Fail (errors_New "service_account_impersonation_url must use the canonical IAMCredentials authority")
      else if EscapedPath parsed !=s impersonation_path identity then
        Fail (Errorf "service_account_impersonation_url target %q does not match credentials_identity %q" [FStr (EscapedPath parsed); FStr identity])
      else Ok tt
  end.

(** [object[field].(string)] with its [ok]. *)
Definition string_field (object : list (string * json)) (field : string) : option string :=
  match jlookup field object with Some (JString s) => Some s | _ => None end.

(** The loop that requires a non-blank string in each field. *)
Definition require_fields (source : list (string * json)) (fields : list string) : result unit :=
  each (fun field =>
    if match string_field source field with Some value => TrimSpace value ==s "" | None => true end
    then Fail (Errorf "source_credentials.%s is required" [FStr field])
    else Ok tt) fields.

(** A field that, when present, must be a given string. *)
Definition optional_equals (source : list (string * json)) (field want : string) : result unit :=
  match jlookup field source with
  | None => Ok tt
  | Some v =>
      if match v with JString value => value ==s want | _ => false end then Ok tt
      else Fail (Errorf "source_credentials.%s must equal %q when present" [FStr field; FStr want])
  end.

Definition top_level_keys : list string :=
  ["type"; "service_account_impersonation_url"; "delegates"; "source_credentials"; "scopes"; "quota_project_id"].
Definition authorized_user_keys : list string :=
  ["type"; "client_id"; "client_secret"; "refresh_token"; "token_uri"; "rapt_token"; "universe_domain"; "account"].
Definition service_account_keys : list string :=
  ["type"; "project_id"; "private_key_id"; "private_key"; "client_email"; "client_id"; "auth_uri"; "token_uri";
   "auth_provider_x509_cert_url"; "client_x509_cert_url"; "universe_domain"].

(** The switch on the type of [source_credentials]. *)
Definition validate_source_type (source : list (string * json)) : result unit :=
  let sourceType := default "" (string_field source "type") in
  if sourceType ==s "authorized_user" then
    _ ← validateObjectKeys source "source_credentials" authorized_user_keys;
    require_fields source ["client_id"; "client_secret"; "refresh_token"]
  else if sourceType ==s "service_account" then
    _ ← validateObjectKeys source "source_credentials" service_account_keys;
    _ ← require_fields source ["client_email"; "private_key_id"; "private_key"];
    let email := default "" (string_field source "client_email") in
    if negb (email_ok email) then
      Fail (Errorf "source_credentials.client_email %q is not a canonical service-account email" [FStr email])
    else optional_equals source "auth_uri" "https://accounts.google.com/o/oauth2/auth"
  else Fail (Errorf "source_credentials.type must be %q or %q" [FStr "authorized_user"; FStr "service_account"]).

Definition validate_source (source : list (string * json)) : result unit :=
  _ ← validate_source_type source;
  _ ← optional_equals source "token_uri" "https://oauth2.googleapis.com/token";
  _ ← optional_equals source "universe_domain" "googleapis.com";
  each (fun field =>
    match jlookup field source with
    | None | Some (JString _) => Ok tt
    | Some _ => Fail (Errorf "source_credentials.%s must be a string when present" [FStr field])
    end) ["rapt_token"; "account"].

(** The decoded document into a [map[string]any]. *)
Definition into_map (v : json) : result (list (string * json)) :=
  match v with
  | JObject m => Ok m
  | JNull => Ok []
  | _ => Fail (errors_New "json: cannot unmarshal value into Go value of type map[string]interface {}")
  end.

(** The checks on the decoded document. *)
Definition validate_carrier `{UrlHosts} (raw : list (string * json)) (identity : string) : result unit :=
  _ ← validateObjectKeys raw "top-level" top_level_keys;
  _ ← rejectForbiddenCredentialFields (JObject (base.filter (fun kv => kv.1 <> "source_credentials") raw));
  if default "" (string_field raw "type") !=s CredentialsProfileImpersonatedServiceAccount then
    Fail (Errorf "top-level type must be %q" [FStr CredentialsProfileImpersonatedServiceAccount])
  else
    _ ← validateImpersonationURL (default "" (string_field raw "service_account_impersonation_url")) identity;
    match jlookup "quota_project_id" raw with
    | None => Fail (errors_New "quota_project_id is required for the impersonated credential carrier")
    | Some quota =>
        if match quota with JString value => value !=s serviceAccountProject identity | _ => true end then
          Fail (Errorf "quota_project_id %q must match the impersonated service account project %q" [FStr (stringValue quota); FStr (serviceAccountProject identity)])
        else
          match jlookup "source_credentials" raw with
          | Some (JObject source) =>
              _ ← validate_source source;
              match jlookup "delegates" raw with
              | Some (JArray []) =>
                  match jlookup "scopes" raw with
                  | None => Fail (errors_New "scopes are required for the impersonated credential carrier")
                  | Some (JArray [JString scope]) =>
                      if scope ==s CloudPlatformScope then Ok tt
                      else Fail (Errorf "scopes must contain only %q" [FStr CloudPlatformScope])
                  | Some _ => Fail (Errorf "scopes must contain only %q" [FStr CloudPlatformScope])
                  end
              | _ => Fail (errors_New "delegates must be an empty array")
              end
          | _ => Fail (errors_New "source_credentials object is required")
          end
    end.

Section Arms.
Context `{CredentialCodec} `{UrlHosts}.

Definition validateImpersonatedConfiguration (data identity : string) : result unit :=
  _ ← rejectDuplicateJSONKeys (cred_tokens data);
  match v ← cred_Decode data; into_map v with
  | Fail err => Fail (Wrapf "decode JSON: %w" [] err)
  | Ok raw => validate_carrier raw identity
  end.

(** The loop over variables that must be blank. *)
Definition must_be_unset (env : environ) (blank : string -> bool) (format : string) (keys : list string) : result unit :=
  each (fun key => if blank (Getenv env key) then Ok tt else Fail (Errorf format [FStr key])) keys.
Definition trimmed_blank (value : string) : bool := TrimSpace value ==s "".
Definition exactly_blank (value : string) : bool := value ==s "".

(** [CredentialsFromJSONWithType] and the checks of its result. *)
Definition credentials_from (e : GEnv) (ctx : Context_) (data kind : string) (scopes : list string)
  (invalid : error -> error) (missing : error) : result TokenSource :=
  match ge_CredentialsFromJSON e ctx data kind scopes with
  | Fail err => Fail (invalid err)
  | Ok (Some true) => Ok (FromJSON ctx data kind scopes)
  | Ok _ => Fail missing
  end.

Definition impersonatedTokenSource (e : GEnv) (env : environ) (s : Selector) (ctx : Context_) (scopes : list string)
  (detachRefresh : bool) : result TokenSource :=
  _ ← must_be_unset env trimmed_blank
        "google_credentials: %s must be unset; impersonated application_default uses only the validated well-known gcloud ADC carrier"
        ["GOOGLE_APPLICATION_CREDENTIALS"; "CLOUDSDK_AUTH_CREDENTIAL_FILE_OVERRIDE"; "CLOUDSDK_CONFIG"];
  match defaultADCPath e env with
  | Fail err => Fail (Wrapf "google_credentials: resolve well-known impersonated ADC carrier: %w" [] err)
  | Ok path =>
      match readOwnerOnlyRegularFile e path with
      | Fail err => Fail (Wrapf "google_credentials: read impersonated ADC carrier: %w" [] err)
      | Ok data =>
          match validateImpersonatedConfiguration data (CredentialsIdentity s) with
          | Fail err => Fail (Wrapf "google_credentials: validate impersonated ADC carrier: %w" [] err)
          | Ok _ =>
              credentials_from e (credentialContext ctx detachRefresh) data "impersonated_service_account" scopes
                (Wrapf "google_credentials: parse validated impersonated ADC carrier: %w" [])
                (errors_New "google_credentials: validated impersonated ADC carrier returned no token source")
          end
      end
  end.

Definition attachedTokenSource (e : GEnv) (env : environ) (s : Selector) (ctx : Context_) (scopes : list string)
  (detachRefresh : bool) : result TokenSource :=
  _ ← must_be_unset env trimmed_blank "google_credentials: %s must be unset for attached_service_account"
        ["GOOGLE_APPLICATION_CREDENTIALS"; "CLOUDSDK_AUTH_CREDENTIAL_FILE_OVERRIDE"];
  match ge_metadata e with
  | None => Fail (errors_New "google_credentials: attached_service_account requires Google-hosted metadata")
  | Some client =>
      if negb (OnGCE client) then Fail (errors_New "google_credentials: attached_service_account requires Google-hosted metadata")
      else
        match Email client "default" with
        | Fail err => Fail (Wrapf "google_credentials: resolve attached metadata identity: %w" [] err)
        | Ok email =>
            let email := TrimSpace email in
            if email !=s CredentialsIdentity s then
              Fail (Errorf "google_credentials: attached metadata identity %q does not match credentials_identity %q" [FStr email; FStr (CredentialsIdentity s)])
            else if negb detachRefresh then Ok (RequestMetadata ctx client (CredentialsIdentity s) scopes)
            else if ge_computeTokenSource e (CredentialsIdentity s) scopes then Ok (ComputeToken (CredentialsIdentity s) scopes)
            else Fail (errors_New "google_credentials: metadata token source is unavailable")
        end
  end.

(** ** The device arm *)

(** [if _, ok := raw[key]; !ok { raw[key] = v }]. *)
Definition set_default (raw : list (string * json)) (key : string) (v : json) : list (string * json) :=
  match jlookup key raw with None => raw ++ [(key, v)] | Some _ => raw end.

(** The carrier with the metadata that only impersonation needs. *)
Definition completed_carrier (raw : list (string * json)) (target : string) : list (string * json) :=
  set_default (set_default (set_default raw "quota_project_id" (JString (serviceAccountProject target)))
    "scopes" (JArray [JString CloudPlatformScope])) "delegates" (JArray []).

Definition carrier_target (path : string) : string :=
  TrimSuffix (TrimPrefix path "/v1/projects/-/serviceAccounts/") ":generateAccessToken".

Definition deviceSourceConfiguration (data identity : string) : result string :=
  _ ← rejectDuplicateJSONKeys (cred_tokens data);
  v ← cred_Unmarshal data;
  raw ← into_map v;
  match jlookup "source_credentials" raw with
  | Some (JObject source) =>
      if match jlookup "type" source with Some (JString t) => t !=s "service_account" | _ => true end ||
         match jlookup "client_email" source with Some (JString m) => m !=s identity | _ => true end
      then Fail (errors_New "google_credentials: device source must match credentials_identity")
      else
        match Parse (default "" (string_field raw "service_account_impersonation_url")) with
        | Fail _ => Fail (errors_New "invalid carrier target")
        | Ok parsed =>
            let target := carrier_target (u_Path parsed) in
            if negb (email_ok target) then Fail (errors_New "invalid carrier target")
            else
              validated ← cred_Marshal (JObject (completed_carrier raw target));
              _ ← validateImpersonatedConfiguration validated target;
              cred_Marshal (JObject source)
        end
  | _ => Fail (errors_New "google_credentials: device source must match credentials_identity")
  end.

Definition deviceTokenSource (e : GEnv) (env : environ) (s : Selector) (ctx : Context_) (scopes : list string)
  (detach : bool) : result TokenSource :=
  _ ← must_be_unset env exactly_blank "google_credentials: %s must be unset"
        ["GOOGLE_APPLICATION_CREDENTIALS"; "CLOUDSDK_AUTH_CREDENTIAL_FILE_OVERRIDE"; "CLOUDSDK_CONFIG"];
  path ← defaultADCPath e env;
  raw ← readOwnerOnlyRegularFile e path;
  source ← deviceSourceConfiguration raw (CredentialsIdentity s);
  credentials_from e (credentialContext ctx detach) source "service_account" scopes
    (fun _ => errors_New "google_credentials: invalid device source")
    (errors_New "google_credentials: device token source unavailable").

(** ** Workload federation *)

Definition workload_transport_keys : list string := [
  "EXPERIMENTAL_GOOGLE_API_USE_S2A"; "GRPC_BINARY_LOG_FILTER"; "GRPC_ENFORCE_ALPN_ENABLED";
  "HTTP_PROXY"; "HTTPS_PROXY"; "NO_PROXY"; "http_proxy"; "https_proxy"; "no_proxy";
  "GOOGLE_API_GO_EXPERIMENTAL_DISABLE_NEW_AUTH_LIB"; "GOOGLE_API_GO_EXPERIMENTAL_ENABLE_NEW_AUTH_LIB";
  "GOOGLE_API_USE_MTLS"; "GOOGLE_AUTH_TRUST_BOUNDARY_ENABLED"; "GOOGLE_CLOUD_DISABLE_DIRECT_PATH";
  "GOOGLE_CLOUD_ENABLE_DIRECT_PATH_XDS"; "GOOGLE_CLOUD_QUOTA_PROJECT"; "GOOGLE_CLOUD_UNIVERSE_DOMAIN";
  "GOOGLE_SPANNER_DISABLE_DIRECT_ACCESS_BOUND_TOKEN"; "GOOGLE_SPANNER_ENABLE_DIRECT_ACCESS";
  "GOOGLE_SPANNER_ENABLE_GCP_FALLBACK"; "GOOGLE_SPANNER_EXPERIMENTAL_LOCATION_API"; "SPANNER_MONITORING_HOST";
  "SSL_CERT_DIR"; "SSL_CERT_FILE"; "GOOGLE_SDK_GO_LOGGING_LEVEL"].

Definition validateWorkloadTransportEnvironment (env : environ) : result unit :=
  let forbidden := errors_New "google_credentials: ambient workload transport override is forbidden" in
  _ ← each (fun key => if Getenv env key !=s "" then Fail forbidden else Ok tt) workload_transport_keys;
  _ ← each (fun kv : string * string =>
        let value := Getenv env kv.1 in
        if (value !=s "") && (value !=s kv.2) then Fail forbidden else Ok tt)
      [("GOOGLE_API_USE_CLIENT_CERTIFICATE", "false"); ("GOOGLE_API_USE_MTLS_ENDPOINT", "never")];
  each (fun fragment =>
    if Contains (Getenv env "GODEBUG") fragment then
      Fail (errors_New "google_credentials: workload transport debugging or post-quantum downgrade is forbidden")
    else Ok tt) ["http2debug="; "tlsmlkem=0"; "tlssecpmlkem=0"].

Definition workload_override_keys : list string := [
  "CLOUDSDK_AUTH_CREDENTIAL_FILE_OVERRIDE"; "CLOUDSDK_AUTH_ACCESS_TOKEN"; "CLOUDSDK_AUTH_ACCESS_TOKEN_FILE";
  "CLOUDSDK_AUTH_IMPERSONATE_SERVICE_ACCOUNT"; "CLOUDSDK_CONFIG"; "GOOGLE_GHA_CREDS_PATH";
  "GOOGLE_API_CERTIFICATE_CONFIG"; "GCE_METADATA_HOST"; "GOOGLE_EXTERNAL_ACCOUNT_ALLOW_EXECUTABLES"].

(** [decodeWorkloadJSON] into a carrier or a certificate configuration. *)
Definition decodeWorkloadJSON {A} (decode : string -> option A) (data : string) : result A :=
  match rejectDuplicateJSONKeys (cred_tokens data) with
  | Fail _ => Fail (errors_New "google_credentials: invalid workload JSON")
  | Ok _ =>
      match decode data with
      | None => Fail (errors_New "google_credentials: unsupported workload configuration")
      | Some v => Ok v
      end
  end.

(** A clean absolute path whose file only its owner can read. *)
Definition read_selected (e : GEnv) (path : string) (not_selected not_protected : string) : result string :=
  if negb (IsAbs path) || (Clean path !=s path) then Fail (errors_New not_selected)
  else match readOwnerOnlyRegularFile e path with Fail _ => Fail (errors_New not_protected) | Ok data => Ok data end.

Definition workload_url (identity : string) : string :=
  "https://iamcredentials.mtls.googleapis.com" +:+ impersonation_path identity.

Definition validate_workload_carrier (s : Selector) (carrier : workloadCarrier) : result unit :=
  if (wc_Type carrier !=s "external_account") || (wc_Audience carrier !=s CredentialsAudience s) ||
     (wc_SubjectTokenType carrier !=s "urn:ietf:params:oauth:token-type:mtls") ||
     (wc_TokenURL carrier !=s "https://sts.mtls.googleapis.com/v1/token") ||
     (wc_ImpersonationURL carrier !=s workload_url (CredentialsIdentity s)) ||
     ((wc_UniverseDomain carrier !=s "") && (wc_UniverseDomain carrier !=s "googleapis.com"))
  then Fail (errors_New "google_credentials: workload service identity, audience or endpoint does not match")
  else if (wc_QuotaProject carrier !=s "") && (wc_QuotaProject carrier !=s serviceAccountProject (CredentialsIdentity s))
  then Fail (errors_New "google_credentials: workload quota project does not match")
  else Ok tt.

Definition ValidateWorkloadIdentityConfiguration (e : GEnv) (env : environ) (s : Selector) : result string :=
  _ ← validateWorkloadTransportEnvironment env;
  _ ← validateWorkloadIdentitySelector s;
  _ ← each (fun key => if Getenv env key !=s "" then
                         Fail (errors_New "google_credentials: ambient workload credential override is forbidden")
                       else Ok tt) workload_override_keys;
  raw ← read_selected e (Getenv env "GOOGLE_APPLICATION_CREDENTIALS")
          "google_credentials: workload carrier must be explicitly selected by absolute path"
          "google_credentials: workload carrier is not owner-protected";
  carrier ← decodeWorkloadJSON carrier_Decode raw;
  _ ← validate_workload_carrier s carrier;
  data ← read_selected e (wc_CertificateConfig carrier)
           "google_credentials: explicit workload certificate configuration is required"
           "google_credentials: workload certificate configuration is not owner-protected";
  certificate ← decodeWorkloadJSON certificate_Decode data;
  cert ← read_selected e (wk_Cert certificate)
           "google_credentials: explicit workload certificate material is required"
           "google_credentials: workload certificate material is not owner-protected";
  key ← read_selected e (wk_Key certificate)
          "google_credentials: explicit workload certificate material is required"
          "google_credentials: workload certificate material is not owner-protected";
  if negb (ge_X509KeyPair e cert key) then Fail (errors_New "google_credentials: workload certificate and key are invalid")
  else Ok raw.

Definition only_cloud_platform (scopes : list string) : bool := bool_decide (scopes = [CloudPlatformScope]).

Definition workloadIdentityTokenSource (e : GEnv) (env : environ) (s : Selector) (ctx : Context_) (scopes : list string)
  (detach : bool) : result TokenSource :=
  raw ← ValidateWorkloadIdentityConfiguration e env s;
  if negb (only_cloud_platform scopes) then Fail (errors_New "google_credentials: workload scope must be cloud-platform")
  else if negb (ge_NewCredentialsFromJSON e raw scopes) then
    Fail (errors_New "google_credentials: workload credential construction failed")
  else Ok (WorkloadOAuth (if detach then Background else ctx) raw scopes).

(** ** [Selector.tokenSource] *)

(** The dispatch on the profile, in the sealed environment. *)
Definition profile_source (e : GEnv) (s : Selector) (ctx : Context_) (scopes : list string) (detachRefresh : bool)
  (env : environ) : result TokenSource :=
  if CredentialsProfile s ==s CredentialsProfileWorkloadIdentityFederation then workloadIdentityTokenSource e env s ctx scopes detachRefresh
  else if CredentialsProfile s ==s CredentialsProfileImpersonatedServiceAccount then impersonatedTokenSource e env s ctx scopes detachRefresh
  else if CredentialsProfile s ==s CredentialsProfileAttachedServiceAccount then attachedTokenSource e env s ctx scopes detachRefresh
  else if CredentialsProfile s ==s CredentialsProfileDeviceServiceAccount then deviceTokenSource e env s ctx scopes detachRefresh
  else Fail (Errorf "google_credentials: unsupported credentials_profile %q" [FStr (CredentialsProfile s)]).

Definition tokenSource (e : GEnv) (s : Selector) (ctx : option Context_) (detachRefresh : bool) (scopes : list string)
  : st environ (result TokenSource) := fun env =>
  match ctx with
  | None => (Fail (errors_New "google credentials context is required"), env)
  | Some ctx =>
      match cx_Err ctx with
      | Some err => (Fail (Wrapf "google credentials context: %w" [] err), env)
      | None =>
          match Validate s "google_credentials" with
          | Fail err => (Fail err, env)
          | Ok _ =>
              (let? _ := sealAmbientGoogleTransport e in
               let scopes := match scopes with [] => [CloudPlatformScope] | _ => scopes end in
               if negb (only_cloud_platform scopes) then
                 st_ret (Fail (Errorf "google_credentials: scopes must contain only %q" [FStr CloudPlatformScope]))
               else fun env => (profile_source e s ctx scopes detachRefresh env, env)) env
          end
      end
  end.

Definition TokenSource_ (e : GEnv) (s : Selector) (ctx : option Context_) (scopes : list string) : st environ (result TokenSource) :=
  tokenSource e s ctx true scopes.
Definition TokenSourceForRequest (e : GEnv) (s : Selector) (ctx : option Context_) (scopes : list string) : st environ (result TokenSource) :=
  tokenSource e s ctx false scopes.
(** [RequestTokenSourceFactory]: the function it returns. *)
Definition RequestTokenSourceFactory (e : GEnv) (s : Selector) (scopes : list string) (ctx : option Context_) : st environ (result TokenSource) :=
  TokenSourceForRequest e s ctx scopes.

(** ** Tokens *)

Definition metadata_token_uri (account : string) (scopes : list string) : string :=
  "instance/service-accounts/" +:+ PathEscape account +:+ "/token" +:+
  match scopes with
  | [] => ""
  | _ => "?" +:+ QueryEscape "scopes" +:+ "=" +:+ QueryEscape (Join scopes ",")
  end.

(** [requestMetadataTokenSource.Token] at the time [now]; the lifetime is an
    [int64] of seconds made into nanoseconds. *)
Definition metadata_Token (client : metadataClient) (account : string) (scopes : list string) (now : Time) : result Token_ :=
  raw ← Get client (metadata_token_uri account scopes);
  match token_Decode raw with
  | Fail err => Fail (Wrapf "google_credentials: invalid token JSON from metadata: %w" [] err)
  | Ok response =>
      if (tr_ExpiresIn response =? 0) || (TrimSpace (tr_AccessToken response) ==s "") then
        Fail (errors_New "google_credentials: incomplete token received from metadata")
      else Ok (mkToken (tr_AccessToken response) (tr_TokenType response)
                 (time_Add now (wrap64 (tr_ExpiresIn response * second)))
                 [("oauth2.google.tokenSource", "compute-metadata"); ("oauth2.google.serviceAccount", account)])
  end.

(** [workloadOAuthTokenSource.Token] for what the provider returned: an error, nil,
    or a value, type and expiry. *)
Definition workload_Token (provided : result (option (string * string * Time))) : result Token_ :=
  match provided with
  | Fail _ => Fail (errors_New "google_credentials: workload token exchange failed")
  | Ok None => Fail (errors_New "google_credentials: workload exchange returned no token")
  | Ok (Some (value, kind, expiry)) =>
      if TrimSpace value ==s "" then Fail (errors_New "google_credentials: workload exchange returned no token")
      else Ok (mkToken value kind expiry [])
  end.

End Arms.

End GcpAuth.
