(* ===== verification/GcpAuthSpec.v ===== *)
(** * Correctness of credential selection

    The patterns and the carrier validation are characterised by records that do
    not mention the code ([account_id], [canonical_email], [lawful_carrier]); a
    token source is only returned for the declared identity, from files that only
    their owner can read and in a sealed environment ([token_source_bound]). *)
From Stdlib Require Import ZArith Lia Bool.
From Stdlib Require Import String Ascii.
From stdpp Require Import base tactics option list gmap strings.
From S2P Require Import Prelude GoStrings GoPath JsonKeys SourceText JsonCanon Regex RegexSpec GoFile GoUrl GcpAuth.
Import GcpAuth.
Open Scope Z_scope.

(** ** Names *)

(** A service-account or project name: 6 to 30 lower-case letters, digits and
    dashes that begin with a letter and do not end with a dash. *)
Definition account_id (x : string) : bool :=
  (6 <=? len x) && (len x <=? 30) && sforall name_byte x &&
  match x with String c _ => is_lower c | EmptyString => false end &&
  match srev x with String c _ => name_end c | EmptyString => false end.

Definition email_suffix : string := ".iam.gserviceaccount.com".

(** The identity of a user-managed service account, with its parts. *)
Record canonical_email (identity account project : string) : Prop := mk_canonical {
  ce_identity : identity = account +:+ "@" +:+ project +:+ email_suffix;
  ce_account : account_id account = true;
  ce_project : account_id project = true
}.

Lemma lower_name c : is_lower c = true -> name_byte c = true.
Proof. unfold name_byte. by intros ->. Qed.
Lemma end_name c : name_end c = true -> name_byte c = true.
Proof. unfold name_byte, name_end. by intros ->. Qed.

Lemma lang_class1 p s : lang [RClass p] s <-> exists c, s = String c "" /\ p c = true.
Proof. cbn. split; [intros (c&r&->&Hc&->); by exists c|intros (c&->&Hc); by exists c, ""]. Qed.

Lemma account_name_lang x : lang account_name x <-> account_id x = true.
Proof.
  unfold account_name, account_id. rewrite !lang_app. setoid_rewrite lang_app. setoid_rewrite lang_class1.
  setoid_rewrite (lang_between 4 28); [|lia]. unfold len. split.
  - intros (?&?&->&(c&->&Hc)&mid&?&->&[Hl Hm]&d&->&Hd). change (String c "" +:+ ?y) with (String c y).
    rewrite srev_cons, srev_append. change (srev (String d "")) with (String d "").
    change ((String d "" +:+ srev mid) +:+ String c "") with (String d (srev mid +:+ String c "")). cbn iota.
    cbn [sforall String.length]. rewrite str_length_app, sforall_app. cbn [sforall String.length].
    rewrite Hc, Hd, Hm, lower_name, end_name by done. rewrite !andb_true_r, andb_true_iff, !Z.leb_le. lia.
  - rewrite !andb_true_iff, !Z.leb_le. intros [[[[H1 H2] Hp] Hf] Hl]. destruct x as [|c x]; [done|].
    destruct (srev x) as [|d y] eqn:Er. { apply srev_nil in Er as ->. cbn in H1. lia. }
    assert (x = srev y +:+ String d "") as -> by (by rewrite <- srev_cons, <- Er, srev_invol).
    cbn [String.length sforall] in *. rewrite str_length_app in *. cbn [String.length] in *. rewrite sforall_app in Hp.
    rewrite srev_cons, srev_append in Hl. change (srev (String d "")) with (String d "") in Hl. cbn in Hl.
    apply andb_true_iff in Hp as [_ [Hp _]%andb_true_iff].
    exists (String c ""), (srev y +:+ String d ""). split_and!; [done|by exists c|].
    exists (srev y), (String d ""). split_and!; [done|lia|lia|done|by exists d].
Qed.

Lemma email_lang s : email_ok s = true <-> exists account project, canonical_email s account project.
Proof.
  unfold email_ok. rewrite MatchWhole_lang by reflexivity. unfold serviceAccountEmailPattern.
  rewrite (lang_app account_name). setoid_rewrite (lang_app (literal "@") (account_name ++ _)).
  setoid_rewrite (lang_app account_name (literal ".iam.gserviceaccount.com")). setoid_rewrite lang_literal.
  split.
  - intros (a&?&->&Ha%account_name_lang&?&?&->&->&p&?&->&Hp%account_name_lang&->). exists a, p. by split.
  - intros (a&p&[-> Ha%account_name_lang Hp%account_name_lang]). exists a, ("@" +:+ p +:+ email_suffix). split_and!; [done|done|].
    exists "@", (p +:+ email_suffix). split_and!; [done|done|]. by exists p, email_suffix.
Qed.

Lemma account_id_name x : account_id x = true -> sforall name_byte x = true /\ x <> "".
Proof. unfold account_id. rewrite !andb_true_iff. intros [[[_ ?] Hf] _]. split; [done|]. by intros ->. Qed.

(** The project of a canonical identity is the text after its [@]. *)
Lemma project_of_email identity account project :
  canonical_email identity account project -> serviceAccountProject identity = project.
Proof.
  intros [-> [Ha _]%account_id_name [Hp Hne]%account_id_name]. unfold serviceAccountProject, TrimSuffix.
  rewrite <- !str_app_assoc, HasSuffix_append. rewrite len_app. fold email_suffix.
  replace (len ((account +:+ "@") +:+ project) + len email_suffix - len email_suffix) with (len ((account +:+ "@") +:+ project)) by lia.
  rewrite slice_prefix, str_app_assoc. change ("@" +:+ project) with (String "@" project).
  rewrite (LastIndex_byte_app "@" account project) by (by apply (class_without name_byte)).
  assert (1 <= len project) by (unfold len; destruct project; [done|cbn [String.length]; lia]). pose proof (len_nonneg account).
  rewrite len_app. change (len (String "@" project)) with (len ("@" +:+ project)). rewrite len_app. change (len "@") with 1.
  destruct (Z.ltb_spec (len account) 0); [lia|]. destruct (Z.eqb_spec (len account) (len account + (1 + len project) - 1)); [lia|].
  cbn [orb]. change (String "@" project) with ("@" +:+ project). rewrite <- str_app_assoc.
  replace (len account + 1) with (len (account +:+ "@")) by (by rewrite len_app). apply slice_suffix.
Qed.

(** ** The impersonation URL *)

(** The URLs that name the token endpoint of an identity: the canonical text, up
    to the case of the scheme and an empty query or fragment. *)
Definition target_url (raw identity : string) : Prop :=
  exists s tail, smap lower_byte s = "https" /\ tail ∈ empty_tails /\
    raw = s +:+ "://" +:+ "iamcredentials.googleapis.com" +:+ impersonation_path identity +:+ tail.

Lemma name_path c : name_byte c = true -> path_byte c = true.
Proof. every_byte c. Qed.

Lemma email_path identity account project : canonical_email identity account project -> sforall path_byte identity = true.
Proof.
  intros [-> [Ha _]%account_id_name [Hp _]%account_id_name]. rewrite !sforall_app.
  rewrite (sforall_impl name_byte path_byte account name_path Ha), (sforall_impl name_byte path_byte project name_path Hp). reflexivity.
Qed.

Lemma impersonation_url_ok `{UrlHosts} raw identity account project : canonical_email identity account project ->
  validateImpersonationURL raw identity = Ok tt <-> target_url raw identity.
Proof.
  intros Hid. unfold target_url. set (path := impersonation_path identity).
  assert (sforall path_byte path = true) as Hp.
  { unfold path, impersonation_path. rewrite !sforall_app. by rewrite (email_path _ _ _ Hid). }
  rewrite <- (Parse_exact raw "https" "iamcredentials.googleapis.com" path) by done.
  unfold validateImpersonationURL, plain_url. fold path. destruct (Parse raw) as [u|]; [|split; [done|by intros (?&?&_)]]. split.
  - destruct (_ || _) eqn:E; [done|]. rewrite !orb_false_iff, !negb_false_iff, !String.eqb_eq in E. destruct E as [[[[E1 E2] E3] E4] E5].
    destruct (u_User u) eqn:Eu; [done|]. destruct (String.eqb_spec (EscapedPath u) path); [|done]. intros _. by exists u.
  - intros (u'&[= <-]&->&->&->&->&->&->). by rewrite !String.eqb_refl.
Qed.

(** ** Fields *)

(** Some object inside the value has a member with the key. *)
Inductive holds_key (k : string) : json -> Prop :=
| hk_here m v : (k, v) ∈ m -> holds_key k (JObject m)
| hk_member m k' v : (k', v) ∈ m -> holds_key k v -> holds_key k (JObject m)
| hk_element l v : v ∈ l -> holds_key k v -> holds_key k (JArray l).

(** No private key anywhere in the value. *)
Definition keyless (v : json) : Prop := ~ holds_key "private_key" v /\ ~ holds_key "private_key_id" v.

Lemma keyless_object m :
  keyless (JObject m) <-> Forall (fun kv => fst kv <> "private_key" /\ fst kv <> "private_key_id" /\ keyless (snd kv)) m.
Proof.
  rewrite Forall_forall. unfold keyless. split.
  - intros [H1 H2] [k v] Hin. cbn. split_and!; [intros ->; apply H1|intros ->; apply H2| |]; eauto using hk_here, hk_member.
  - intros Hm. split; inversion 1; subst; match goal with Hin : _ ∈ m |- _ => specialize (Hm _ Hin); cbn in Hm end; tauto.
Qed.

Lemma keyless_array l : keyless (JArray l) <-> Forall keyless l.
Proof.
  rewrite Forall_forall. unfold keyless. split.
  - intros [H1 H2] v Hin. split; eauto using hk_element.
  - intros Hl. split; inversion 1; subst; match goal with Hin : _ ∈ l |- _ => specialize (Hl _ Hin) end; tauto.
Qed.

Lemma reject_forbidden_ok v : rejectForbiddenCredentialFields v = Ok tt <-> keyless v.
Proof.
  induction v as [|b|f|s|l IH|m IH] using json_nested_ind.
  1-4: split; [intros _; split; inversion 1|done].
  - rewrite keyless_array. cbn [rejectForbiddenCredentialFields]. induction IH as [|x l Hx _ IHl]; [split; [constructor|done]|].
    rewrite Forall_cons, <- IHl, <- Hx. destruct (rejectForbiddenCredentialFields x) as [[]|]; cbn; [tauto|]. split; [done|by intros []].
  - rewrite keyless_object. cbn [rejectForbiddenCredentialFields]. induction IH as [|[k x] m Hx _ IHm]; [split; [constructor|done]|].
    rewrite Forall_cons, <- IHm. cbn [fst snd] in *. rewrite <- Hx.
    destruct (String.eqb_spec k "private_key"), (String.eqb_spec k "private_key_id"); cbn [orb]; try (split; [done|tauto]).
    destruct (rejectForbiddenCredentialFields x) as [[]|]; cbn; [tauto|]. split; [done|]. by intros [(_&_&?) _].
Qed.

Definition members_within (m : list (string * json)) (allowed : list string) : Prop := Forall (fun kv => fst kv ∈ allowed) m.
Definition text_at (m : list (string * json)) (k s : string) : Prop := jlookup k m = Some (JString s).
(** A string with more than white space in it. *)
Definition filled (m : list (string * json)) (k : string) : Prop := exists s, text_at m k s /\ TrimSpace s <> "".
(** Absent, or the given text. *)
Definition absent_or (m : list (string * json)) (k s : string) : Prop := jlookup k m = None \/ text_at m k s.

Lemma keys_ok m label allowed : validateObjectKeys m label allowed = Ok tt <-> members_within m allowed.
Proof. unfold validateObjectKeys. rewrite each_ok. apply Forall_iff. intros kv. by case_bool_decide. Qed.

Lemma string_field_text m k s : string_field m k = Some s <-> text_at m k s.
Proof. unfold string_field, text_at. destruct (jlookup k m) as [[]|]; split; try done; by intros [= ->]. Qed.

Lemma default_field m k s : s <> "" -> default "" (string_field m k) = s <-> text_at m k s.
Proof. intros Hs. rewrite <- string_field_text. destruct (string_field m k); cbn; split; congruence. Qed.

Lemma required_ok m fields : require_fields m fields = Ok tt <-> Forall (filled m) fields.
Proof.
  unfold require_fields. rewrite each_ok. apply Forall_iff. intros k. unfold filled. setoid_rewrite <- string_field_text.
  destruct (string_field m k) as [s|]; [|split; [done|by intros (?&?&_)]].
  destruct (String.eqb_spec (TrimSpace s) ""); split; try done; [by intros (?&[= <-]&?)|by exists s].
Qed.

Lemma optional_ok m k s : optional_equals m k s = Ok tt <-> absent_or m k s.
Proof.
  unfold optional_equals, absent_or, text_at. destruct (jlookup k m) as [v|]; [|split; [by left|done]].
  destruct v as [| | |t| |]; try (split; [done|intros [?|?]; congruence]).
  destruct (String.eqb_spec t s) as [->|]; [split; [by right|done]|]. split; [done|intros [?|?]; congruence].
Qed.

(** ** Lawful carriers *)

(** The two shapes of a source credential. *)
Inductive source_kind (m : list (string * json)) : Prop :=
| authorized_user :
    text_at m "type" "authorized_user" -> members_within m authorized_user_keys ->
    Forall (filled m) ["client_id"; "client_secret"; "refresh_token"] -> source_kind m
| service_account account project identity :
    text_at m "type" "service_account" -> members_within m service_account_keys ->
    Forall (filled m) ["client_email"; "private_key_id"; "private_key"] ->
    text_at m "client_email" identity -> canonical_email identity account project ->
    absent_or m "auth_uri" "https://accounts.google.com/o/oauth2/auth" -> source_kind m.

Record lawful_source (m : list (string * json)) : Prop := mk_lawful_source {
  ls_kind : source_kind m;
  ls_token_uri : absent_or m "token_uri" "https://oauth2.googleapis.com/token";
  ls_universe : absent_or m "universe_domain" "googleapis.com";
  ls_strings : Forall (fun k => jlookup k m = None \/ exists s, text_at m k s) ["rapt_token"; "account"]
}.

(** A carrier that impersonates [identity] and keeps private keys inside
    [source_credentials]. *)
Record lawful_carrier (raw : list (string * json)) (identity project : string) : Prop := mk_lawful_carrier {
  lc_members : members_within raw top_level_keys;
  lc_keyless : Forall (fun kv => fst kv <> "source_credentials" -> keyless (snd kv)) raw;
  lc_type : text_at raw "type" "impersonated_service_account";
  lc_target : exists url, text_at raw "service_account_impersonation_url" url /\ target_url url identity;
  lc_quota : text_at raw "quota_project_id" project;
  lc_source : exists m, jlookup "source_credentials" raw = Some (JObject m) /\ lawful_source m;
  lc_delegates : jlookup "delegates" raw = Some (JArray []);
  lc_scopes : jlookup "scopes" raw = Some (JArray [JString CloudPlatformScope])
}.

Lemma source_kind_ok m : validate_source_type m = Ok tt <-> source_kind m.
Proof.
  unfold validate_source_type. destruct (String.eqb_spec (default "" (string_field m "type")) "authorized_user") as [Et|Et].
  - apply (default_field m) in Et; [|done]. rewrite bind_ok_unit, keys_ok, required_ok. split.
    + intros [? ?]. by apply authorized_user.
    + destruct 1 as [|a p i Ht]; [done|]. unfold text_at in *. congruence.
  - destruct (String.eqb_spec (default "" (string_field m "type")) "service_account") as [Es|Es].
    + apply (default_field m) in Es; [|done]. rewrite !bind_ok_unit, keys_ok, required_ok. split.
      * intros (Hk&Hf&Hr). destruct (email_ok _) eqn:Ee; [|done]. cbn [negb] in Hr. apply optional_ok in Hr.
        apply email_lang in Ee as (a&p&Hc). eapply service_account; try done. apply string_field_text.
        inversion Hf as [|? ? (x&Hx&_) _]; subst. apply string_field_text in Hx. by rewrite Hx.
      * destruct 1 as [Ht|a p i _ Hk Hf Hi Hc Ha]; [unfold text_at in *; congruence|]. split_and!; [done|done|].
        apply string_field_text in Hi. rewrite Hi. cbn [default from_option id].
        rewrite (proj2 (email_lang i)) by eauto. by apply optional_ok.
    + split; [done|]. destruct 1 as [Ht|a p i Ht]; apply (default_field m) in Ht; congruence.
Qed.

Lemma source_ok m : validate_source m = Ok tt <-> lawful_source m.
Proof.
  unfold validate_source. rewrite !bind_ok_unit, source_kind_ok, !optional_ok, each_ok.
  assert (forall k, match jlookup k m with None | Some (JString _) => Ok tt | Some _ => Fail (Errorf "source_credentials.%s must be a string when present" [FStr k]) end = Ok tt
            <-> jlookup k m = None \/ exists s, text_at m k s) as Hs.
  { intros k. unfold text_at. destruct (jlookup k m) as [[| | |s| |]|]; split; try done; try (intros [?|[? ?]]; congruence); eauto. }
  rewrite (Forall_iff _ _ _ Hs). split; [intros (?&?&?&?); by split|by intros []].
Qed.

Lemma filtered_keyless raw : members_within raw top_level_keys ->
  keyless (JObject (base.filter (fun kv : string * json => kv.1 <> "source_credentials") raw)) <->
  Forall (fun kv => fst kv <> "source_credentials" -> keyless (snd kv)) raw.
Proof.
  intros Hk. rewrite keyless_object, !Forall_forall. setoid_rewrite list_elem_of_filter. split.
  - intros H kv Hin Hne. by apply (H kv).
  - intros H kv [Hne Hin]. unfold members_within in Hk. rewrite Forall_forall in Hk. specialize (Hk kv Hin).
    split_and!; [| |by apply H]; intros E; rewrite E in Hk; apply (bool_decide_pack (_ ∈ top_level_keys)) in Hk; by vm_compute in Hk.
Qed.

Section Carriers.
Context `{UrlHosts}.

Lemma carrier_ok raw identity account project : canonical_email identity account project ->
  validate_carrier raw identity = Ok tt <-> lawful_carrier raw identity project.
Proof.
  intros Hid. unfold validate_carrier. rewrite (project_of_email _ _ _ Hid), !bind_ok_unit, keys_ok, reject_forbidden_ok. split.
  - intros (Hm&Hk&Hrest). apply (filtered_keyless raw Hm) in Hk.
    destruct (String.eqb_spec (default "" (string_field raw "type")) CredentialsProfileImpersonatedServiceAccount) as [Et|]; [|done].
    apply default_field in Et; [|done]. cbn [negb] in Hrest. apply bind_ok_unit in Hrest as [Hurl Hrest].
    apply (impersonation_url_ok _ _ _ _ Hid) in Hurl.
    destruct (jlookup "quota_project_id" raw) as [quota|] eqn:Eq; [|done]. destruct quota as [| | |q| |]; try done.
    destruct (String.eqb_spec q project) as [->|]; [|done]. cbn [negb] in Hrest.
    destruct (jlookup "source_credentials" raw) as [[| | | | |m]|] eqn:Es; try done. apply bind_ok_unit in Hrest as [Hs Hrest].
    apply source_ok in Hs. destruct (jlookup "delegates" raw) as [[| | | |[|]|]|] eqn:Ed; try done.
    destruct (jlookup "scopes" raw) as [[| | | |[|[| | |scope| |] [|]]|]|] eqn:Ec; try done.
    destruct (String.eqb_spec scope CloudPlatformScope) as [->|]; [|done]. split; try done; [|by exists m].
    exists (default "" (string_field raw "service_account_impersonation_url")). split; [|done].
    apply default_field; [|done]. intros Ex. rewrite Ex in Hurl. destruct Hurl as (s&tail&_&_&E). by destruct s.
  - intros [Hm Hk Ht (url&Hu&Hurl) Hq (m&Hm'&Hs) Hd Hc]. split; [done|]. split; [by apply filtered_keyless|].
    apply string_field_text in Ht, Hu. rewrite Ht, Hu. cbn [default from_option id]. unfold CredentialsProfileImpersonatedServiceAccount.
    rewrite String.eqb_refl. cbn [negb]. apply bind_ok_unit. split; [by apply (impersonation_url_ok _ _ _ _ Hid)|].
    unfold text_at in Hq. rewrite Hq, String.eqb_refl, Hm', Hd, Hc, String.eqb_refl. cbn [negb]. apply bind_ok_unit.
    split; [by apply source_ok|done].
Qed.

Context `{CredentialCodec}.

(** A document without duplicate keys that decodes to a lawful carrier. *)
Definition lawful_document (data identity project : string) : Prop :=
  rejectDuplicateJSONKeys (cred_tokens data) = Ok tt /\
  exists raw, (cred_Decode data = Ok (JObject raw)) /\ lawful_carrier raw identity project.

Lemma impersonated_ok data identity account project : canonical_email identity account project ->
  validateImpersonatedConfiguration data identity = Ok tt <-> lawful_document data identity project.
Proof.
  intros Hid. unfold validateImpersonatedConfiguration, lawful_document. rewrite bind_ok_unit. apply and_iff_compat_l.
  destruct (cred_Decode data) as [v|]; cbn [mbind result_bind]; [|split; [done|by intros (?&?&_)]].
  destruct v as [| | | | |raw]; cbn [into_map]; try (split; [done|by intros (?&?&_)]).
  rewrite (carrier_ok _ _ _ _ Hid). split; [by exists raw|]. by intros (?&[= <-]&?).
Qed.

(** [validateImpersonatedConfiguration] accepts exactly the documents without
    duplicate keys that decode to a carrier for the declared identity: only the
    allowed members, no private key outside [source_credentials], a target URL
    that is the token endpoint of that identity, the quota project of the
    identity, one of the two source shapes, no delegates and the one scope. *)
Theorem impersonated_carrier_exact data identity account project :
  canonical_email identity account project ->
  validateImpersonatedConfiguration data identity = Ok tt <-> lawful_document data identity project.
Proof. apply impersonated_ok. Qed.

End Carriers.

(** ** The sealed environment *)

Definition client_certificate_key : string := "GOOGLE_API_USE_CLIENT_CERTIFICATE".
Definition mtls_endpoint_key : string := "GOOGLE_API_USE_MTLS_ENDPOINT".

(** What a variable that could redirect the Google transport may hold. *)
Definition harmless (key value : string) : Prop :=
  value = "" \/ key = client_certificate_key /\ value = "false" \/ key = mtls_endpoint_key /\ value = "never".

(** No variable redirects or weakens the transport. *)
Record clean (env : environ) : Prop := mk_clean {
  cl_debug : Forall (fun f => Contains (Getenv env "GODEBUG") f = false) forbiddenGODEBUGFragments;
  cl_keys : Forall (fun k => harmless k (Getenv env k)) ambientGoogleTransportOverrideKeys
}.

Record sealed (env : environ) : Prop := mk_sealed {
  se_clean : clean env;
  se_certificate : env !! client_certificate_key = Some "false";
  se_endpoint : env !! mtls_endpoint_key = Some "never"
}.

Lemma fragments_ok value l : validate_fragments value l = Ok tt <-> Forall (fun f => Contains value f = false) l.
Proof.
  induction l as [|f l IH]; cbn [validate_fragments]; [split; [constructor|done]|]. rewrite Forall_cons, <- IH.
  destruct (Contains value f); [split; [done|by intros []]|tauto].
Qed.

Lemma check_override_ok env key : check_override env key = Ok tt <-> harmless key (Getenv env key).
Proof.
  unfold check_override, harmless, client_certificate_key, mtls_endpoint_key, sealedGoogleClientCertificate, sealedGoogleMTLSEndpoint.
  generalize (Getenv env key). intros v.
  destruct (String.eqb_spec key "GOOGLE_API_USE_CLIENT_CERTIFICATE") as [->|H1];
    [|destruct (String.eqb_spec key "GOOGLE_API_USE_MTLS_ENDPOINT") as [->|H2]].
  - destruct (String.eqb_spec v ""), (String.eqb_spec v "false"); cbn; split; try done; try tauto; by intros [?|[[_ ?]|[? _]]].
  - destruct (String.eqb_spec v ""), (String.eqb_spec v "never"); cbn; split; try done; try tauto; by intros [?|[[? _]|[_ ?]]].
  - destruct (String.eqb_spec v ""); cbn; split; try done; try tauto; by intros [?|[[? _]|[? _]]].
Qed.

Lemma checks_ok env :
  (validateSecuritySensitiveGODEBUG (Getenv env "GODEBUG") = Ok tt /\
   each (check_override env) ambientGoogleTransportOverrideKeys = Ok tt) <-> clean env.
Proof.
  unfold validateSecuritySensitiveGODEBUG. rewrite fragments_ok, each_ok, (Forall_iff _ _ _ (check_override_ok env)).
  split; [intros []; by split|by intros []].
Qed.

(** The environment with the two variables set. *)
Definition seal (env : environ) : environ := <[mtls_endpoint_key := "never"]> (<[client_certificate_key := "false"]> env).

Lemma Getenv_insert env k k' v : Getenv (<[k := v]> env) k' = if decide (k = k') then v else Getenv env k'.
Proof. unfold Getenv. case_decide; [subst; by rewrite lookup_insert_eq|by rewrite lookup_insert_ne]. Qed.

Lemma seal_sealed env : clean env -> sealed (seal env).
Proof.
  intros [Hd Hk]. assert (forall k, k <> client_certificate_key -> k <> mtls_endpoint_key -> Getenv (seal env) k = Getenv env k) as Hother.
  { intros k H1 H2. unfold seal. rewrite !Getenv_insert, !decide_False by congruence. done. }
  split.
  - split; [by rewrite Hother|]. rewrite Forall_forall in Hk |- *. intros k Hin. specialize (Hk k Hin). unfold harmless.
    destruct (decide (k = mtls_endpoint_key)) as [->|H2]; [right; right; by unfold seal; rewrite Getenv_insert, decide_True|].
    destruct (decide (k = client_certificate_key)) as [->|H1]; [|by rewrite Hother].
    right; left. unfold seal. by rewrite Getenv_insert, decide_False, Getenv_insert, decide_True.
  - unfold seal. by rewrite lookup_insert_ne, lookup_insert_eq.
  - unfold seal. by rewrite lookup_insert_eq.
Qed.

Lemma seal_fixed env : sealed env -> seal env = env.
Proof.
  intros [_ H1 H2]. unfold seal. rewrite (insert_id env) by done. by rewrite insert_id.
Qed.

(** [os.Setenv] of the two variables succeeds. *)
Definition can_seal (e : GEnv) : Prop :=
  ge_Setenv e client_certificate_key "false" = None /\ ge_Setenv e mtls_endpoint_key "never" = None.

Lemma set_variables_ok e env : (can_seal e /\ set_variables e (sealed_variables (ge_seal_order e)) env = (Ok tt, seal env)) \/
  exists err env', set_variables e (sealed_variables (ge_seal_order e)) env = (Fail err, env').
Proof.
  unfold can_seal, sealed_variables, seal, client_certificate_key, mtls_endpoint_key, sealedGoogleClientCertificate, sealedGoogleMTLSEndpoint.
  destruct (ge_seal_order e); cbn [reverse rev_append set_variables].
  1: change (reverse [?a; ?b]) with [b; a].
  all: cbn [set_variables].
  all: destruct (ge_Setenv e "GOOGLE_API_USE_CLIENT_CERTIFICATE" "false") eqn:E1;
    destruct (ge_Setenv e "GOOGLE_API_USE_MTLS_ENDPOINT" "never") eqn:E2; try (right; by eexists _, _).
  all: left; split; [done|]; [rewrite insert_insert_ne by done]; done.
Qed.

Lemma seal_success e env env' : sealAmbientGoogleTransport e env = (Ok tt, env') -> clean env /\ env' = seal env.
Proof.
  unfold sealAmbientGoogleTransport. destruct (validateSecuritySensitiveGODEBUG _) as [[]|] eqn:E1; [|done].
  destruct (each _ _) as [[]|] eqn:E2; [|done]. pose proof (proj1 (checks_ok env) (conj E1 E2)) as Hc.
  destruct (set_variables_ok e env) as [[_ ->]|(?&?&->)]; [|done]. by intros [= <-].
Qed.

(** Sealing the environment succeeds exactly when no variable redirects or
    weakens the Google transport; it then pins the two transport switches, changes
    nothing else, and stays in force: sealing again succeeds and changes nothing.
    A refused environment is left as it was. *)
Theorem sealing_exact e env :
  can_seal e ->
  (clean env -> exists env', sealAmbientGoogleTransport e env = (Ok tt, env') /\ sealed env' /\
     (forall k, k <> client_certificate_key -> k <> mtls_endpoint_key -> env' !! k = env !! k) /\
     sealAmbientGoogleTransport e env' = (Ok tt, env')) /\
  (~ clean env -> exists err, sealAmbientGoogleTransport e env = (Fail err, env)).
Proof.
  intros Hcan. assert (forall env, clean env -> sealAmbientGoogleTransport e env = (Ok tt, seal env)) as Hs.
  { intros env0 [E1 E2]%checks_ok. unfold sealAmbientGoogleTransport. rewrite E1, E2.
    destruct (set_variables_ok e env0) as [[_ ->]|(err&env'&E)]; [done|]. exfalso. revert E.
    destruct Hcan as [H1 H2]. unfold client_certificate_key, mtls_endpoint_key in *. unfold sealed_variables.
    destruct (ge_seal_order e); cbn; unfold sealedGoogleClientCertificate, sealedGoogleMTLSEndpoint; by rewrite H1, H2 || rewrite H2, H1. }
  split.
  - intros Hc. exists (seal env). pose proof (seal_sealed env Hc) as Hsealed. split_and!; [by apply Hs|done| |].
    + intros k H1 H2. unfold seal. by rewrite !lookup_insert_ne by congruence.
    + rewrite (Hs _ (se_clean _ Hsealed)). by rewrite seal_fixed.
  - intros Hn. unfold sealAmbientGoogleTransport. destruct (validateSecuritySensitiveGODEBUG _) as [[]|] eqn:E1; [|by eexists].
    destruct (each _ _) as [[]|] eqn:E2; [|by eexists]. destruct Hn. by apply checks_ok.
Qed.

(** ** Owner-only files *)

Record owner_only (e : GEnv) (path data : string) : Prop := mk_owner_only {
  oo_absolute : IsAbs path = true;
  oo_file : exists pathInfo file info,
    ge_Lstat e path = Ok pathInfo /\ ge_Open e path = Ok file /\ f_Stat file = Ok info /\
    IsRegular (fi_Mode pathInfo) = true /\ IsRegular (fi_Mode info) = true /\ SameFile pathInfo info = true /\
    Perm (fi_Mode info) ∈ [256; 384] /\ fi_Uid info = Some (ge_Geteuid e) /\ f_Data file = data /\ f_Error file = None;
  oo_size : len data <= maxCredentialConfigurationBytes
}.

Lemma absolute_not_blank path : IsAbs path = true -> TrimSpace path <> "".
Proof.
  intros E%prefix_split. rewrite E. change ("/" +:+ ?x) with (String "/" x). by apply TrimSpace_not_blank.
Qed.

Lemma access_ok e info : validateCredentialFileAccess e info = Ok tt <->
  Perm (fi_Mode info) ∈ [256; 384] /\ fi_Uid info = Some (ge_Geteuid e).
Proof.
  unfold validateCredentialFileAccess. rewrite !elem_of_cons.
  destruct (Z.eqb_spec (Perm (fi_Mode info)) 256) as [E|E], (Z.eqb_spec (Perm (fi_Mode info)) 384) as [E'|E']; cbn [negb andb];
    try (split; [done|by intros [[?|[?|?%elem_of_nil]] _]]).
  all: destruct (fi_Uid info) as [uid|]; [|by split; [|intros []]].
  all: destruct (Z.eqb_spec uid (ge_Geteuid e)) as [->|]; cbn [negb]; split; try done; try (intros [_ [= ?]]; congruence); tauto.
Qed.

Lemma read_owner_only_ok e path data : readOwnerOnlyRegularFile e path = Ok data <-> owner_only e path data.
Proof.
  unfold readOwnerOnlyRegularFile. split.
  - destruct (_ || _) eqn:E; [done|]. apply orb_false_iff in E as [_ Habs%negb_false_iff].
    intros (pathInfo&Hl&H)%bind_ok. destruct (negb (_ =? 0)); [done|]. destruct (IsRegular (fi_Mode pathInfo)) eqn:Er; [|done].
    apply bind_ok in H as (file&Ho&H). apply bind_ok in H as (info&Hs&H).
    destruct (IsRegular (fi_Mode info)) eqn:Er'; [|done]. destruct (SameFile pathInfo info) eqn:Ef; [|done].
    apply bind_ok_unit in H as [[Hp Hu]%access_ok H]. apply read_limit_ok in H as (?&?&?); [|done].
    split; [done| |done]. by exists pathInfo, file, info.
  - intros [Habs (pathInfo&file&info&Hl&Ho&Hs&Hr&Hr'&Hf&Hp&Hu&Hd&He) Hsize].
    rewrite Habs, (proj2 (String.eqb_neq _ _) (absolute_not_blank path Habs)). cbn [orb negb]. rewrite Hl. cbn [mbind result_bind].
    rewrite (regular_no_symlink _ Hr), Hr, Ho. cbn [negb mbind result_bind]. rewrite Hs. cbn [mbind result_bind].
    rewrite Hr', Hf. cbn [negb orb]. apply bind_ok_unit. split; [by apply access_ok|]. by apply read_limit_ok.
Qed.

(** [readOwnerOnlyRegularFile] returns data exactly when the path is absolute,
    names a regular file that is the one that was opened, readable by its owner
    alone and owned by the effective user, and the data is the whole file, of at
    most 1 MiB. *)
Theorem owner_only_exact e path data : readOwnerOnlyRegularFile e path = Ok data <-> owner_only e path data.
Proof. apply read_owner_only_ok. Qed.

(** ** Token sources *)

(** A file at a clean absolute path that only its owner can read. *)
Definition selected (e : GEnv) (path data : string) : Prop := abs_clean path = true /\ owner_only e path data.

Lemma read_selected_ok e path a b data : read_selected e path a b = Ok data <-> selected e path data.
Proof.
  unfold read_selected, selected, abs_clean. rewrite <- read_owner_only_ok.
  destruct (IsAbs path), (Clean path ==s path); cbn [negb andb orb]; try (split; [done|by intros []]).
  destruct (readOwnerOnlyRegularFile e path); split; try done; by intros [_ ?].
Qed.

(** A carrier that exchanges tokens for [s] alone. *)
Record workload_lawful (s : Selector) (project : string) (c : workloadCarrier) : Prop := mk_workload_lawful {
  wl_type : wc_Type c = "external_account";
  wl_audience : wc_Audience c = CredentialsAudience s;
  wl_subject : wc_SubjectTokenType c = "urn:ietf:params:oauth:token-type:mtls";
  wl_token_url : wc_TokenURL c = "https://sts.mtls.googleapis.com/v1/token";
  wl_target : wc_ImpersonationURL c = workload_url (CredentialsIdentity s);
  wl_universe : wc_UniverseDomain c = "" \/ wc_UniverseDomain c = "googleapis.com";
  wl_quota : wc_QuotaProject c = "" \/ wc_QuotaProject c = project
}.

Lemma optional_text (x want : string) : (x !=s "") && (x !=s want) = false <-> x = "" \/ x = want.
Proof. destruct (String.eqb_spec x ""), (String.eqb_spec x want); cbn; split; try done; tauto. Qed.

Lemma workload_carrier_ok s account project c : canonical_email (CredentialsIdentity s) account project ->
  validate_workload_carrier s c = Ok tt <-> workload_lawful s project c.
Proof.
  intros Hid. unfold validate_workload_carrier. rewrite (project_of_email _ _ _ Hid). split.
  - destruct (_ || _) eqn:E; [done|]. rewrite !orb_false_iff, !negb_false_iff, !String.eqb_eq, optional_text in E.
    destruct (_ && _) eqn:Eq; [done|]. apply optional_text in Eq. destruct E as [[[[[? ?] ?] ?] ?] ?]. by intros _.
  - intros [-> -> -> -> -> Hu Hq]. rewrite !String.eqb_refl. cbn [negb orb].
    by rewrite (proj2 (optional_text _ _) Hu), (proj2 (optional_text _ _) Hq).
Qed.

Section Sources.
Context `{CredentialCodec} `{UrlHosts}.
Context (e : GEnv) (env : environ) (s : Selector) (ctx : Context_) (detach : bool).

(** A token source for the declared identity: what each arm has checked before it
    hands the credential to a library. *)
Inductive bound_source : TokenSource -> Prop :=
| bound_impersonated path data account project :
    CredentialsProfile s = CredentialsProfileImpersonatedServiceAccount ->
    canonical_email (CredentialsIdentity s) account project ->
    defaultADCPath e env = Ok path -> owner_only e path data -> lawful_document data (CredentialsIdentity s) project ->
    bound_source (FromJSON (credentialContext ctx detach) data "impersonated_service_account" [CloudPlatformScope])
| bound_request client email :
    CredentialsProfile s = CredentialsProfileAttachedServiceAccount ->
    detach = false -> ge_metadata e = Some client -> OnGCE client = true ->
    Email client "default" = Ok email -> TrimSpace email = CredentialsIdentity s ->
    bound_source (RequestMetadata ctx client (CredentialsIdentity s) [CloudPlatformScope])
| bound_compute client email :
    CredentialsProfile s = CredentialsProfileAttachedServiceAccount ->
    detach = true -> ge_metadata e = Some client -> OnGCE client = true ->
    Email client "default" = Ok email -> TrimSpace email = CredentialsIdentity s ->
    bound_source (ComputeToken (CredentialsIdentity s) [CloudPlatformScope])
| bound_device path data raw source out target account project validated :
    CredentialsProfile s = CredentialsProfileDeviceServiceAccount ->
    defaultADCPath e env = Ok path -> owner_only e path data ->
    rejectDuplicateJSONKeys (cred_tokens data) = Ok tt -> cred_Unmarshal data = Ok (JObject raw) ->
    jlookup "source_credentials" raw = Some (JObject source) ->
    text_at source "type" "service_account" -> text_at source "client_email" (CredentialsIdentity s) ->
    canonical_email target account project -> cred_Marshal (JObject (completed_carrier raw target)) = Ok validated ->
    lawful_document validated target project -> cred_Marshal (JObject source) = Ok out ->
    bound_source (FromJSON (credentialContext ctx detach) out "service_account" [CloudPlatformScope])
| bound_workload raw carrier data certificate cert key account project :
    CredentialsProfile s = CredentialsProfileWorkloadIdentityFederation ->
    canonical_email (CredentialsIdentity s) account project ->
    selected e (Getenv env "GOOGLE_APPLICATION_CREDENTIALS") raw ->
    rejectDuplicateJSONKeys (cred_tokens raw) = Ok tt -> carrier_Decode raw = Some carrier -> workload_lawful s project carrier ->
    selected e (wc_CertificateConfig carrier) data ->
    rejectDuplicateJSONKeys (cred_tokens data) = Ok tt -> certificate_Decode data = Some certificate ->
    selected e (wk_Cert certificate) cert -> selected e (wk_Key certificate) key -> ge_X509KeyPair e cert key = true ->
    bound_source (WorkloadOAuth (if detach then Background else ctx) raw [CloudPlatformScope]).

Lemma credentials_from_ok data kind scopes invalid missing src :
  credentials_from e (credentialContext ctx detach) data kind scopes invalid missing = Ok src ->
  src = FromJSON (credentialContext ctx detach) data kind scopes.
Proof. unfold credentials_from. destruct (ge_CredentialsFromJSON _ _ _ _ _) as [[[]|]|]; by intros [= <-]. Qed.

Lemma impersonated_bound account project src : canonical_email (CredentialsIdentity s) account project ->
  CredentialsProfile s = CredentialsProfileImpersonatedServiceAccount ->
  impersonatedTokenSource e env s ctx [CloudPlatformScope] detach = Ok src -> bound_source src.
Proof.
  intros Hid Hprofile [_ Hr]%bind_ok_unit. destruct (defaultADCPath e env) as [path|] eqn:Ep; [|done].
  destruct (readOwnerOnlyRegularFile e path) as [data|] eqn:Ed; [|done]. apply read_owner_only_ok in Ed.
  destruct (validateImpersonatedConfiguration data _) as [[]|] eqn:Ev; [|done]. apply (impersonated_ok _ _ _ _ Hid) in Ev.
  apply credentials_from_ok in Hr as ->. by eapply bound_impersonated.
Qed.

Lemma attached_bound src : CredentialsProfile s = CredentialsProfileAttachedServiceAccount ->
  attachedTokenSource e env s ctx [CloudPlatformScope] detach = Ok src -> bound_source src.
Proof.
  intros Hprofile [_ Hr]%bind_ok_unit. destruct (ge_metadata e) as [client|] eqn:Em; [|done]. destruct (OnGCE client) eqn:Eg; [|done].
  cbn [negb] in Hr. destruct (Email client "default") as [email|] eqn:Ee; [|done].
  destruct (String.eqb_spec (TrimSpace email) (CredentialsIdentity s)) as [Ei|]; [|done]. cbn [negb] in Hr.
  destruct detach eqn:Edt; cbn [negb] in Hr.
  - destruct (ge_computeTokenSource _ _ _); [|done]. injection Hr as <-. by eapply bound_compute.
  - injection Hr as <-. by eapply bound_request.
Qed.

Lemma device_bound src : CredentialsProfile s = CredentialsProfileDeviceServiceAccount ->
  deviceTokenSource e env s ctx [CloudPlatformScope] detach = Ok src -> bound_source src.
Proof.
  intros Hprofile [_ Hr]%bind_ok_unit. apply bind_ok in Hr as (path&Ep&Hr). apply bind_ok in Hr as (data&Ed%read_owner_only_ok&Hr).
  apply bind_ok in Hr as (out&Hout&Hr). apply credentials_from_ok in Hr as ->.
  unfold deviceSourceConfiguration in Hout. apply bind_ok_unit in Hout as [Hk Hout]. apply bind_ok in Hout as (v&Hv&Hout).
  apply bind_ok in Hout as (raw&Hraw&Hout). destruct (jlookup "source_credentials" raw) as [[| | | | |source]|] eqn:Es; try done.
  assert (v = JObject raw) as -> by (destruct v; try done; [by injection Hraw as <-|by injection Hraw as ->]).
  destruct (_ || _) eqn:Ec; [done|]. apply orb_false_iff in Ec as [Et Em].
  assert (forall (k want : string), match jlookup k source with Some (JString t) => t !=s want | _ => true end = false -> text_at source k want) as Htext.
  { intros k want. unfold text_at. destruct (jlookup k source) as [[| | |t| |]|]; try done. by intros ->%negb_false_iff%String.eqb_eq. }
  apply Htext in Et, Em. destruct (Parse _) as [parsed|]; [|done]. set (target := carrier_target (u_Path parsed)) in *.
  destruct (email_ok target) eqn:Ee; [|done]. apply email_lang in Ee as (account&project&Hc). cbn [negb] in Hout.
  apply bind_ok in Hout as (validated&Hval&Hout). apply bind_ok_unit in Hout as [Hi Hout].
  apply (impersonated_ok _ _ _ _ Hc) in Hi. by eapply bound_device.
Qed.

Lemma decode_workload_ok {A} (decode : string -> option A) data v : decodeWorkloadJSON decode data = Ok v <->
  rejectDuplicateJSONKeys (cred_tokens data) = Ok tt /\ decode data = Some v.
Proof.
  unfold decodeWorkloadJSON. destruct (rejectDuplicateJSONKeys _) as [[]|]; [|split; [done|by intros []]].
  destruct (decode data); split; try done; [by intros [= ->]|by intros [_ [= ->]]|by intros []].
Qed.

Lemma workload_bound account project src : canonical_email (CredentialsIdentity s) account project ->
  CredentialsProfile s = CredentialsProfileWorkloadIdentityFederation ->
  workloadIdentityTokenSource e env s ctx [CloudPlatformScope] detach = Ok src -> bound_source src.
Proof.
  intros Hid Hprofile (raw0&Hval&Hr)%bind_ok. unfold ValidateWorkloadIdentityConfiguration in Hval.
  do 3 apply bind_ok_unit in Hval as [_ Hval]. apply bind_ok in Hval as (raw&Eraw%read_selected_ok&Hval).
  apply bind_ok in Hval as (carrier&[Hk Hc]%decode_workload_ok&Hval). apply bind_ok_unit in Hval as [Hlaw Hval].
  apply (workload_carrier_ok _ _ _ _ Hid) in Hlaw. apply bind_ok in Hval as (data&Edata%read_selected_ok&Hval).
  apply bind_ok in Hval as (certificate&[Hk' Hc']%decode_workload_ok&Hval). apply bind_ok in Hval as (cert&Ecert%read_selected_ok&Hval).
  apply bind_ok in Hval as (key&Ekey%read_selected_ok&Hval). destruct (ge_X509KeyPair e cert key) eqn:Ex; [|done].
  injection Hval as <-. destruct (negb (only_cloud_platform _)); [done|]. destruct (negb _); [done|]. injection Hr as <-.
  by eapply bound_workload.
Qed.

End Sources.

Lemma validate_ok s label : Validate s label = Ok tt -> exists account project, canonical_email (CredentialsIdentity s) account project.
Proof.
  unfold Validate. repeat (destruct (_ !=s _); [done|]). destruct (_ ==s ""); [done|]. destruct (_ !=s _); [done|].
  destruct (email_ok (CredentialsIdentity s)) eqn:E; [|done]. intros _. by apply email_lang.
Qed.

(** C11: a selector hands out a token source only for its declared identity: the
    context has not ended, the identity is that of a user-managed service account,
    the environment has been sealed, the one scope was asked for, and the arm of
    the profile has bound the credential to the identity, having read it only from
    files that their owner alone can read or from the metadata server that
    confirmed the identity. *)
Theorem token_source_bound `{CredentialCodec} `{UrlHosts} e s ctx detach scopes env src env' :
  tokenSource e s ctx detach scopes env = (Ok src, env') ->
  exists c account project,
    ctx = Some c /\ cx_Err c = None /\ canonical_email (CredentialsIdentity s) account project /\
    sealed env' /\ env' = seal env /\ (scopes = [] \/ scopes = [CloudPlatformScope]) /\
    bound_source e env' s c detach src.
Proof.
  unfold tokenSource. destruct ctx as [c|]; [|done]. destruct (cx_Err c) eqn:Ec; [done|].
  destruct (Validate s _) as [[]|] eqn:Ev; [|done]. apply validate_ok in Ev as (account&project&Hid). unfold st_try.
  destruct (sealAmbientGoogleTransport e env) as [[[]|] env1] eqn:Es; [|done]. apply seal_success in Es as [Hc ->].
  set (sc := match scopes with [] => _ | _ => _ end). destruct (only_cloud_platform sc) eqn:Eo; [|done].
  apply bool_decide_eq_true in Eo. cbn [negb]. rewrite Eo. intros [= Hsrc <-].
  exists c, account, project. split_and!; [done|done|done|by apply seal_sealed|done| |].
  - unfold sc in Eo. destruct scopes; [by left|by right].
  - revert Hsrc. unfold profile_source. repeat match goal with |- context [String.eqb ?a ?b] => destruct (String.eqb_spec a b) end; try done;
      eauto using workload_bound, impersonated_bound, attached_bound, device_bound.
Qed.

(** ** Samples *)

Module GcpAuthSamples.

(** The shape of a document, as the duplicate-key walk sees it. *)
Fixpoint erase (v : json) : JsonKeys.json :=
  match v with
  | JNull | JBool _ | JNumber _ => JsonKeys.JScalar
  | JString s => JsonKeys.JString s
  | JArray l => JsonKeys.JArr (map erase l)
  | JObject m => JsonKeys.JObj (map (fun kv => (fst kv, erase (snd kv))) m)
  end.

Definition identity : string := "history-rag@example-project.iam.gserviceaccount.com".

Definition carrier : list (string * json) := [
  ("type", JString "impersonated_service_account");
  ("service_account_impersonation_url",
     JString "https://iamcredentials.googleapis.com/v1/projects/-/serviceAccounts/history-rag@example-project.iam.gserviceaccount.com:generateAccessToken");
  ("delegates", JArray []);
  ("source_credentials", JObject [
     ("type", JString "service_account"); ("client_email", JString "device-one@example-project.iam.gserviceaccount.com");
     ("private_key_id", JString "k1"); ("private_key", JString "pem"); ("token_uri", JString "https://oauth2.googleapis.com/token")]);
  ("scopes", JArray [JString CloudPlatformScope]);
  ("quota_project_id", JString "example-project")].

(** A codec that knows the document "carrier". *)
#[local] Instance sample_codec : CredentialCodec := {
  cred_tokens s := tokens (erase (JObject carrier));
  cred_Decode s := if s ==s "carrier" then Ok (JObject carrier) else Fail io_EOF;
  cred_Unmarshal s := if s ==s "carrier" then Ok (JObject carrier) else Fail io_EOF;
  cred_Marshal v := Ok "carrier";
  carrier_Decode s := None;
  certificate_Decode s := None;
  token_Decode s := Fail io_EOF
}.
#[local] Instance sample_hosts : UrlHosts := { bracket_host _ := None; colons_allowed _ := false }.

Definition sample_file : File := mkFile (Ok (mkFileInfo 384 1 7 (Some 501))) "carrier" None.

Definition sample_env : GEnv :=
  mkGEnv "linux" (fun _ _ => None) false
    (fun path => if path ==s "/home/a/.config/gcloud/application_default_credentials.json" then Ok (mkFileInfo 384 1 7 (Some 501)) else Fail os_ErrNotExist)
    (fun path => if path ==s "/home/a/.config/gcloud/application_default_credentials.json" then Ok sample_file else Fail os_ErrNotExist)
    501 None (fun _ _ => false) (fun _ _ _ _ => Ok (Some true)) (fun _ _ => false) (fun _ _ => false).

Definition sample_selector : Selector :=
  mkSelector "" "application_default" "impersonated_service_account" identity "" "".

Definition sample_environ : environ := {["HOME" := "/home/a"]}.

Lemma sample_identity : canonical_email identity "history-rag" "example-project".
Proof. by split. Qed.

Lemma token_source_bound_witness :
  bound_source sample_env (seal sample_environ) sample_selector Background true
    (FromJSON Background "carrier" "impersonated_service_account" [CloudPlatformScope]).
Proof.
  destruct (token_source_bound sample_env sample_selector (Some Background) true [] sample_environ
    (FromJSON Background "carrier" "impersonated_service_account" [CloudPlatformScope]) (seal sample_environ)) as (c&_&_&E&_&_&_&_&_&Hb);
    [vm_compute; reflexivity|]. by injection E as <-.
Defined.

Lemma impersonated_carrier_exact_witness : lawful_document "carrier" identity "example-project".
Proof. apply (impersonated_carrier_exact "carrier" identity "history-rag" "example-project"); [exact sample_identity|vm_compute; reflexivity]. Defined.

Lemma sealing_exact_witness : exists env', sealAmbientGoogleTransport sample_env sample_environ = (Ok tt, env') /\ sealed env'.
Proof.
  destruct (proj1 (sealing_exact sample_env sample_environ (conj eq_refl eq_refl))) as (env'&H1&H2&_).
  - apply checks_ok. split; vm_compute; reflexivity.
  - by exists env'.
Defined.

End GcpAuthSamples.
