(* ===== verification/SpannerExec.v ===== *)
(** * The Spanner executor

    [internal/history/spannerexec]: construction of the two Google clients after
    the credentials are selected, the calls of [store.Executor], the decoding of
    rows and closing. The clients of the Google libraries are the answers of an
    [XEnv]; the log, newest first, has the calls that open and close clients,
    change the schema, and run attempts of transactions. *)
From Stdlib Require Import ZArith Lia Bool.
From Stdlib Require Import String Ascii.
From stdpp Require Import base tactics option list gmap strings.
From S2P Require Import Prelude GoStrings StoreTypes.
Open Scope Z_scope.

Module SpannerExec.

(** ** Columns ([decode.go]) *)

Inductive TypeCode : Type :=
| STRING | INT64 | BOOL | FLOAT64 | TIMESTAMP | BYTES | ARRAY | FLOAT32 | OTHER_CODE (name : string).
#[global] Instance TypeCode_eq_dec : EqDecision TypeCode.
Proof. solve_decision. Defined.

(** [sppb.Type]: its code and the code of its element type. *)
Record columnType : Type := mkType { ct_Code : TypeCode; ct_Element : option TypeCode }.

(** A [spanner.GenericColumnValue]: type and value may be nil; a value is null or
    wire data. *)
Inductive wireValue : Type := WNull | WData (payload : string).
Record GenericColumnValue : Type := mkColumn { gc_Type : option columnType; gc_Value : option wireValue }.

(** The Go types of the destinations. *)
Inductive target : Type := TString | TInt64 | TBool | TFloat64 | TTime | TBytes | TStrings | TFloat64s | TFloat32s.
Definition cell (t : target) : Type :=
  match t with
  | TString | TBytes => string
  | TInt64 => Z
  | TBool => bool
  | TFloat64 => float
  | TTime => Time
  | TStrings => list string
  | TFloat64s | TFloat32s => list float
  end.

(** [GenericColumnValue.Decode] into a destination. *)
Class ColumnDecode : Type := column_Decode : forall t : target, columnType -> string -> result (cell t).

Definition supportedColumnType (t : columnType) : bool :=
  match ct_Code t with
  | STRING | INT64 | BOOL | FLOAT64 | TIMESTAMP | BYTES => true
  | ARRAY => match ct_Element t with Some STRING | Some FLOAT64 | Some FLOAT32 => true | _ => false end
  | _ => false
  end.

(** The destination of the switch. *)
Definition destination (t : columnType) : option target :=
  match ct_Code t with
  | STRING => Some TString
  | INT64 => Some TInt64
  | BOOL => Some TBool
  | FLOAT64 => Some TFloat64
  | TIMESTAMP => Some TTime
  | BYTES => Some TBytes
  | ARRAY =>
      match ct_Element t with
      | Some STRING => Some TStrings
      | Some FLOAT64 => Some TFloat64s
      | Some FLOAT32 => Some TFloat32s
      | _ => None
      end
  | _ => None
  end.

(** The dereferenced destination, as an [any]. *)
Definition boxed (t : target) : cell t -> value :=
  match t with
  | TString => VString
  | TInt64 => VInt64
  | TBool => VBool
  | TFloat64 => VFloat64
  | TTime => VTime
  | TBytes => VBytes
  | TStrings => VStrings
  | TFloat64s => VFloat64s
  | TFloat32s => VFloat32s
  end.

Definition decodeValue `{ColumnDecode} (v : GenericColumnValue) : result value :=
  match gc_Type v, gc_Value v with
  | Some t, Some w =>
      if negb (supportedColumnType t) then Fail (errors_New "decode unsupported Spanner column type")
      else
        match w with
        | WNull => Ok VNil
        | WData payload =>
            match destination t with
            | None => Fail (errors_New "decode unsupported Spanner column type")
            | Some d =>
                match column_Decode d t payload with
                | Fail err => Fail (Wrapf "decode Spanner column type: %w" [] err)
                | Ok x => Ok (boxed d x)
                end
            end
        end
  | _, _ => Fail (errors_New "decode Spanner column: missing type or value")
  end.

Fixpoint decodeRow `{ColumnDecode} (values : list GenericColumnValue) : result Row :=
  match values with
  | [] => Ok []
  | v :: rest => decoded ← decodeValue v; row ← decodeRow rest; Ok (decoded :: row)
  end.

(** ** Results *)

(** A row of the library: its columns, or the error of reading one of them. *)
Definition resultRow : Type := result (list GenericColumnValue).

(** [collectRows] over what [Next] gives, one answer per call until
    [iterator.Done], which follows the last. *)
Definition iterator_Done : error := Sentinel "no more items in iterator".
Fixpoint collectRows (next : list (result Row)) : result (list Row) :=
  match next with
  | [] => Ok []
  | Fail err :: _ => if bool_decide (err = iterator_Done) then Ok [] else Fail err
  | Ok row :: rest => rows ← collectRows rest; Ok (row :: rows)
  end.

(** [collect]: the rows and the number of calls of [Stop]. *)
Definition collect `{ColumnDecode} (it : option (list (result resultRow))) : result (list Row) * nat :=
  match it with
  | None => (Fail (errors_New "Spanner row iterator is required"), 0%nat)
  | Some steps => (collectRows (map (fun step => row ← step; values ← row; decodeRow values) steps), 1%nat)
  end.

(** ** Clients *)

Inductive xevent : Type :=
| XOpenData | XOpenAdmin | XCloseData | XCloseAdmin
| XDDL (sql : string) (answer : option error)
| XAttempt (s : Statement) (answer : result Z).

(** [context.Context]: nil, or its error. *)
Definition Ctx : Type := option (option error).

(** [codes.AlreadyExists] of a status. *)
Record XEnv : Type := mkXEnv {
  xe_NewClient : option error;
  xe_NewAdminClient : option error;
  xe_UpdateDDL : list xevent -> string -> option error;
  xe_AlreadyExists : error -> bool;
  xe_AdminClose : option error;
  xe_Query : Statement -> option (list (result resultRow));
  xe_attempts : list xevent -> Statement -> list (result Z) * option error
}.

Definition X (A : Type) : Type := st (list xevent) A.
Definition emit (ev : xevent) : X unit := fun log => (tt, ev :: log).

(** [newLiveClients]. *)
Definition newLiveClients (e : XEnv) : X (result (bool * bool)) :=
  match xe_NewClient e with
  | Some err => st_ret (Fail err)
  | None =>
      let* _ := emit XOpenData in
      match xe_NewAdminClient e with
      | Some err => let* _ := emit XCloseData in st_ret (Fail err)
      | None => let* _ := emit XOpenAdmin in st_ret (Ok (true, true))
      end
  end.

(** [newWithTokenSource]; the token factory gives an error, nil, or a source, and
    the client factory which of the two clients are there. *)
Definition newWithTokenSource (ctx : Ctx) (databaseName : string) (tokens : option (result bool))
  (factory : option (X (result (bool * bool)))) : X (result unit) :=
  match ctx with
  | None | Some (Some _) => st_ret (Fail (errors_New "Spanner executor requires an active context"))
  | Some None =>
      match factory, tokens with
      | Some factory, Some tokens =>
          if databaseName ==s "" then
            st_ret (Fail (errors_New "Spanner executor requires database, token factory, and client factory"))
          else
            match tokens with
            | Fail err => st_ret (Fail (Wrapf "select Spanner credentials before client construction: %w" [] err))
            | Ok false => st_ret (Fail (errors_New "select Spanner credentials returned no token source"))
            | Ok true =>
                let* clients := factory in
                match clients with
                | Fail err => st_ret (Fail (Wrapf "construct Spanner clients: %w" [] err))
                | Ok (data, admin) =>
                    if negb data || negb admin then
                      let* _ := (if data then emit XCloseData else st_ret tt) in
                      let* _ := (if admin then emit XCloseAdmin else st_ret tt) in
                      st_ret (Fail (errors_New "construct Spanner clients returned an incomplete client set"))
                    else st_ret (Ok tt)
                end
            end
      | _, _ => st_ret (Fail (errors_New "Spanner executor requires database, token factory, and client factory"))
      end
  end.

(** ** Calls *)

Definition active (ctx : Ctx) : result unit :=
  match ctx with
  | None => Fail (errors_New "Spanner executor context is required")
  | Some err => err_result err
  end.

Definition Query `{ColumnDecode} (e : XEnv) (ctx : Ctx) (s : Statement) : result (list Row) :=
  _ ← active ctx; fst (collect (xe_Query e s)).

(** [Executor.Execute]: the library runs the callback once per attempt, which
    overwrites the count, and then commits or gives an error. *)
Fixpoint run_attempts (s : Statement) (attempts : list (result Z)) (count : Z) : X (result Z) :=
  match attempts with
  | [] => st_ret (Ok count)
  | a :: rest =>
      let* _ := emit (XAttempt s a) in
      match a, rest with
      | Ok n, _ => run_attempts s rest n
      | Fail err, [] => st_ret (Fail err)
      | Fail _, _ => run_attempts s rest 0
      end
  end.
Definition Execute (e : XEnv) (ctx : Ctx) (s : Statement) : X (result Z) := fun log =>
  match active ctx with
  | Fail err => (Fail err, log)
  | Ok _ =>
      let '(attempts, outcome) := xe_attempts e log s in
      let '(r, log') := run_attempts s attempts 0 log in
      (match r, outcome with Ok _, Some err => Fail err | _, _ => r end, log')
  end.

Fixpoint ddl_loop (e : XEnv) (statements : list DDLStatement) : X (result unit) := fun log =>
  match statements with
  | [] => (Ok tt, log)
  | statement :: rest =>
      if d_SQL statement ==s "" then (Fail (errors_New "Spanner DDL statement is required"), log)
      else
        let answer := xe_UpdateDDL e log (d_SQL statement) in
        let log := XDDL (d_SQL statement) answer :: log in
        match answer with
        | Some err =>
            if negb (d_AlreadyExistsOK statement && xe_AlreadyExists e err) then (Fail (Wrapf "apply Spanner DDL: %w" [] err), log)
            else ddl_loop e rest log
        | None => ddl_loop e rest log
        end
  end.
Definition UpdateDDL (e : XEnv) (ctx : Ctx) (statements : list DDLStatement) : X (result unit) := fun log =>
  match active ctx with
  | Fail err => (Fail err, log)
  | Ok _ => ddl_loop e statements log
  end.

(** [nativeMutations]: an insert-or-update of each row. *)
Definition nativeMutations (m : Mutation) : list (string * list string * list value) :=
  map (fun values => (m_Table m, m_Columns m, values)) (m_Values m).

(** The state of [Close]: whether it ran and its error. *)
Definition once : Type := (bool * option error)%type.
Definition Close (e : XEnv) (o : once) : X (option error * once) := fun log =>
  if fst o then ((snd o, o), log)
  else ((xe_AdminClose e, (true, xe_AdminClose e)), XCloseAdmin :: XCloseData :: log).

End SpannerExec.
