(* ===== verification/SpannerExecSpec.v ===== *)
(** * Properties of the Spanner executor *)
From Stdlib Require Import ZArith Lia Bool.
From Stdlib Require Import String Ascii.
From stdpp Require Import base tactics option list gmap strings.
From S2P Require Import Prelude GoStrings GoFile StoreTypes SpannerExec.
Import SpannerExec.
Open Scope Z_scope.

(** ** Clients *)

(** How many data and admin clients a log leaves open. *)
Definition data_open (log : list xevent) : Z :=
  fold_right (fun ev acc => match ev with XOpenData => acc + 1 | XCloseData => acc - 1 | _ => acc end) 0 log.
Definition admin_open (log : list xevent) : Z :=
  fold_right (fun ev acc => match ev with XOpenAdmin => acc + 1 | XCloseAdmin => acc - 1 | _ => acc end) 0 log.

Lemma clients_cases e ctx database tokens log r log' :
  newWithTokenSource ctx database tokens (Some (newLiveClients e)) log = (r, log') ->
  (log' <> log -> ctx = Some None /\ database <> "" /\ tokens = Some (Ok true)) /\
  match r with
  | Fail _ => data_open log' = data_open log /\ admin_open log' = admin_open log
  | Ok _ =>
      data_open log' = data_open log + 1 /\ admin_open log' = admin_open log + 1 /\
      let '((err, o), closed) := Close e (false, None) log' in
      data_open closed = data_open log /\ admin_open closed = admin_open log /\
      Close e o closed = ((err, o), closed)
  end.
Proof.
  unfold newWithTokenSource, newLiveClients, st_bind, st_ret, emit.
  destruct ctx as [[err|]|]; [by intros [= <- <-]| |by intros [= <- <-]].
  destruct tokens as [tokens|]; [|by intros [= <- <-]]. destruct (String.eqb_spec database ""); [by intros [= <- <-]|].
  destruct tokens as [[|]|]; [|by intros [= <- <-]..].
  destruct (xe_NewClient e) as [err|]; [intros [= <- <-]; by split|].
  destruct (xe_NewAdminClient e) as [err|]; [intros [= <- <-]|intros [= <- <-]]; (split; [done|]).
  - unfold data_open, admin_open. cbn. lia.
  - unfold data_open, admin_open. cbn. split_and!; lia || done.
Qed.

(** The executor owns its clients: construction opens none before the context
    is active, the database is named and a token source was selected; when it
    fails every client it opened is closed again, when it succeeds one of each is
    open, and closing any number of times closes each exactly once and reports the
    same error. *)
Theorem clients_released e ctx database tokens log r log' :
  newWithTokenSource ctx database tokens (Some (newLiveClients e)) log = (r, log') ->
  (log' <> log -> ctx = Some None /\ database <> "" /\ tokens = Some (Ok true)) /\
  match r with
  | Fail _ => data_open log' = data_open log /\ admin_open log' = admin_open log
  | Ok _ =>
      data_open log' = data_open log + 1 /\ admin_open log' = admin_open log + 1 /\
      let '((err, o), closed) := Close e (false, None) log' in
      data_open closed = data_open log /\ admin_open closed = admin_open log /\
      Close e o closed = ((err, o), closed)
  end.
Proof. apply clients_cases. Qed.

(** ** Schema changes *)

(** What one statement of a schema change answers. *)
Definition ddl_accepted (e : XEnv) (s : DDLStatement) (answer : option error) : Prop :=
  match answer with
  | None => True
  | Some err => d_AlreadyExistsOK s = true /\ xe_AlreadyExists e err = true
  end.

(** The statements [l] were sent in order and accepted. *)
Inductive ddl_sent (e : XEnv) : list xevent -> list DDLStatement -> list xevent -> Prop :=
| ds_nil log : ddl_sent e log [] log
| ds_cons log s l log' :
    d_SQL s <> "" -> ddl_accepted e s (xe_UpdateDDL e log (d_SQL s)) ->
    ddl_sent e (XDDL (d_SQL s) (xe_UpdateDDL e log (d_SQL s)) :: log) l log' -> ddl_sent e log (s :: l) log'.

Lemma ddl_step e s l log :
  ddl_loop e (s :: l) log =
  if d_SQL s ==s "" then (Fail (errors_New "Spanner DDL statement is required"), log)
  else
    let answer := xe_UpdateDDL e log (d_SQL s) in
    let log := XDDL (d_SQL s) answer :: log in
    match answer with
    | Some err =>
        if negb (d_AlreadyExistsOK s && xe_AlreadyExists e err) then (Fail (Wrapf "apply Spanner DDL: %w" [] err), log)
        else ddl_loop e l log
    | None => ddl_loop e l log
    end.
Proof. done. Qed.

(** A schema change sends its statements in order up to the first that is empty or
    refused; an object that already exists is a refusal unless the statement
    allows it. *)
Lemma ddl_exact e statements log :
  (exists log', ddl_loop e statements log = (Ok tt, log') /\ ddl_sent e log statements log') \/
  exists done s rest err log1 log', statements = done ++ s :: rest /\ ddl_sent e log done log1 /\
    ddl_loop e statements log = (Fail err, log') /\
    (d_SQL s = "" /\ log' = log1 \/
     ~ ddl_accepted e s (xe_UpdateDDL e log1 (d_SQL s)) /\ log' = XDDL (d_SQL s) (xe_UpdateDDL e log1 (d_SQL s)) :: log1).
Proof.
  revert log. induction statements as [|s l IH]; intros log; [left; exists log; split; [done|constructor]|]. rewrite ddl_step.
  destruct (String.eqb_spec (d_SQL s) "") as [Hs|Hs].
  { right. exists [], s, l. eexists _, log, log. split_and!; [done|constructor|done|by left]. }
  cbn zeta. set (answer := xe_UpdateDDL e log (d_SQL s)).
  assert ((exists r, (match answer with Some err => if negb (d_AlreadyExistsOK s && xe_AlreadyExists e err) then (Fail (Wrapf "apply Spanner DDL: %w" [] err), XDDL (d_SQL s) answer :: log)
      else ddl_loop e l (XDDL (d_SQL s) answer :: log) | None => ddl_loop e l (XDDL (d_SQL s) answer :: log) end) = (Fail r, XDDL (d_SQL s) answer :: log) /\ ~ ddl_accepted e s answer) \/
    ((match answer with Some err => if negb (d_AlreadyExistsOK s && xe_AlreadyExists e err) then (Fail (Wrapf "apply Spanner DDL: %w" [] err), XDDL (d_SQL s) answer :: log)
      else ddl_loop e l (XDDL (d_SQL s) answer :: log) | None => ddl_loop e l (XDDL (d_SQL s) answer :: log) end) = ddl_loop e l (XDDL (d_SQL s) answer :: log) /\ ddl_accepted e s answer)) as Hcase.
  { unfold ddl_accepted. destruct answer as [err|]; [|by right].
    destruct (d_AlreadyExistsOK s), (xe_AlreadyExists e err); cbn; try (left; eexists; split; [done|by intros [? ?]]). by right. }
  destruct Hcase as [(r&->&Hn)|(->&Ha)].
  - right. exists [], s, l, r, log. eexists. split_and!; [done|constructor|done|by right].
  - destruct (IH (XDDL (d_SQL s) answer :: log)) as [(log'&->&Hl)|(done_&s'&rest&err&log1&log'&->&Hd&->&Hs')].
    + left. exists log'. split; [done|]. by constructor.
    + right. exists (s :: done_), s', rest, err, log1, log'. split_and!; [done|by constructor|done|done].
Qed.

(** ** Rows *)

(** The dynamic type of a decoded column. *)
Definition has_type (t : columnType) (v : value) : Prop :=
  v = VNil \/
  match destination t, v with
  | Some TString, VString _ | Some TInt64, VInt64 _ | Some TBool, VBool _ | Some TFloat64, VFloat64 _
  | Some TTime, VTime _ | Some TBytes, VBytes _ | Some TStrings, VStrings _
  | Some TFloat64s, VFloat64s _ | Some TFloat32s, VFloat32s _ => True
  | _, _ => False
  end.

Lemma decodeValue_typed `{ColumnDecode} c v : decodeValue c = Ok v ->
  exists t, gc_Type c = Some t /\ supportedColumnType t = true /\ has_type t v.
Proof.
  unfold decodeValue, has_type. destruct (gc_Type c) as [t|]; [|done]. destruct (gc_Value c) as [w|]; [|done].
  destruct (supportedColumnType t) eqn:Es; [|done]. cbn [negb]. destruct w as [|payload].
  { intros [= <-]. exists t. auto. }
  destruct (destination t) as [d|] eqn:Ed; [|done]. destruct (column_Decode d t payload) as [x|]; [|done].
  intros [= <-]. exists t. split_and!; [done|done|]. right. rewrite Ed. by destruct d.
Qed.

Lemma decodeRow_typed `{ColumnDecode} columns row : decodeRow columns = Ok row ->
  Forall2 (fun c v => exists t, gc_Type c = Some t /\ supportedColumnType t = true /\ has_type t v) columns row.
Proof.
  revert row. induction columns as [|c columns IH]; intros row; cbn [decodeRow]; [by intros [= <-]|].
  intros (v&Hv%decodeValue_typed&Hr)%bind_ok. apply bind_ok in Hr as (rest&Hrest&[= <-]). constructor; auto.
Qed.

(** Every supported type has a destination, so a supported column is refused only
    when the library refuses its data. *)
Lemma supported_destination t : supportedColumnType t = true <-> is_Some (destination t).
Proof.
  rewrite is_Some_alt. unfold supportedColumnType, destination.
  destruct (ct_Code t); try done. by destruct (ct_Element t) as [[]|].
Qed.

(** The answers of the library before the iterator is done are the rows [read]. *)
Definition all_read `{ColumnDecode} (steps : list (result resultRow)) (rows : list Row) : Prop :=
  Forall2 (fun step row => exists columns, step = Ok (Ok columns) /\ decodeRow columns = Ok row) steps rows.

Lemma collect_rows_ok `{ColumnDecode} steps rows :
  collectRows (map (fun step => row ← step; values ← row; decodeRow values) steps) = Ok rows <->
  exists read rest, steps = read ++ rest /\ all_read read rows /\
    match rest with
    | [] => True
    | step :: _ => (row ← step; values ← row; decodeRow values) = Fail iterator_Done
    end.
Proof.
  revert rows. induction steps as [|step steps IH]; intros rows; cbn [map collectRows].
  - split; [intros [= <-]; exists [], []; split_and!; [done|constructor|done]|].
    intros (read&rest&E&Hr&_). symmetry in E. apply app_nil in E as [-> _]. by inversion Hr.
  - destruct ((row ← step; values ← row; decodeRow values)) as [row|err] eqn:Es.
    + rewrite bind_ok. setoid_rewrite IH. split.
      * intros (rows'&(read&rest&->&Hr&Hd)&[= <-]). exists (step :: read), rest. split_and!; [done| |done]. constructor; [|done].
        apply bind_ok in Es as (columns&->&Es). apply bind_ok in Es as (values&->&Es). by exists values.
      * intros ([|step' read]&rest&E&Hr&Hd).
        { cbn in E. subst rest. rewrite Es in Hd. done. }
        injection E as <- ->. inversion Hr as [|? row' ? rows' (columns&->&Hc) Hr']; subst. cbn in Es. rewrite Hc in Es. injection Es as ->.
        exists rows'. split; [by exists read, rest|done].
    + case_bool_decide as Ee.
      * subst err. split; [intros [= <-]; exists [], (step :: steps); split_and!; [done|constructor|done]|].
        intros ([|step' read]&rest&E&Hr&Hd); [by inversion Hr|].
        injection E as <- ->. inversion Hr as [|? row' ? rows' (columns&->&Hc) Hr']; subst. cbn in Es. by rewrite Hc in Es.
      * split; [done|]. intros ([|step' read]&rest&E&Hr&Hd).
        { cbn in E. subst rest. rewrite Es in Hd. injection Hd as ->. done. }
        injection E as <- ->. inversion Hr as [|? row' ? rows' (columns&->&Hc) Hr']; subst. cbn in Es. by rewrite Hc in Es.
Qed.

(** A query returns rows only when the context is active, and they are what the
    library delivered in order up to the end of its iterator, every column of a
    supported type; each value has the Go type of its column or is nil, and the
    iterator is stopped once. *)
Theorem query_rows_typed `{ColumnDecode} e ctx s rows :
  Query e ctx s = Ok rows ->
  ctx = Some None /\ exists steps read rest, xe_Query e s = Some steps /\ steps = read ++ rest /\
    Forall2 (fun step row => exists columns, step = Ok (Ok columns) /\
      Forall2 (fun c v => exists t, gc_Type c = Some t /\ supportedColumnType t = true /\ has_type t v) columns row) read rows /\
    snd (collect (xe_Query e s)) = 1%nat.
Proof.
  unfold Query. intros [Ha Hq]%bind_ok_unit. split.
  - unfold active in Ha. destruct ctx as [[err|]|]; done.
  - destruct (xe_Query e s) as [steps|]; [|done]. apply collect_rows_ok in Hq as (read&rest&->&Hr&_).
    exists (read ++ rest), read, rest. split_and!; [done|done| |done].
    eapply Forall2_impl; [exact Hr|]. intros step row (columns&->&Hc). exists columns. split; [done|]. by apply decodeRow_typed.
Qed.

Module SpannerExecSamples.

Definition sample_env : XEnv :=
  mkXEnv None None (fun _ _ => None) (fun _ => false) (Some io_EOF)
    (fun _ => Some [Ok (Ok [mkColumn (Some (mkType STRING None)) (Some (WData "id"))])]) (fun _ _ => ([], None)).

#[local] Instance sample_decode : ColumnDecode := fun t _ payload =>
  match t with TString => Ok payload | _ => Fail io_EOF end.

Lemma clients_released_witness : data_open [XOpenAdmin; XOpenData] = 1 /\ exists err o closed,
  Close sample_env (false, None) [XOpenAdmin; XOpenData] = ((err, o), closed) /\ data_open closed = 0 /\ err = Some io_EOF.
Proof.
  destruct (clients_released sample_env (Some None) "db" (Some (Ok true)) [] (Ok tt) [XOpenAdmin; XOpenData] eq_refl) as (_&H1&_&H3).
  split; [exact H1|]. exists (Some io_EOF), (true, Some io_EOF), [XCloseAdmin; XCloseData; XOpenAdmin; XOpenData]. split; [done|]. by destruct H3.
Defined.

Lemma query_rows_typed_witness : exists steps, xe_Query sample_env (mkStatement "SELECT 1" ∅) = Some steps.
Proof.
  destruct (query_rows_typed (H := sample_decode) sample_env (Some None) (mkStatement "SELECT 1" ∅) [[VString "id"]] ltac:(vm_compute; reflexivity)) as (_&steps&_&_&H&_).
  by exists steps.
Defined.

End SpannerExecSamples.
