(* ===== verification/SpannerClient.v ===== *)
(** * The executor over a Spanner client

    The parts of [internal/history/spannerexec/executor.go] that hand writes to the
    Cloud Spanner client: [Executor.Apply], [Executor.ReadWrite], [Executor.Execute],
    [transactionAdapter], and the bindings of the client. The client library is a
    record of operations on the data of the database; what its documentation promises
    of them is [lawful] and, for a single mutation, [overwrites]. *)
From Stdlib Require Import ZArith Lia Bool.
From Stdlib Require Import String Ascii.
From stdpp Require Import base tactics option list gmap strings.
From S2P Require Import Prelude GoStrings StoreTypes StorePlans StorePlansSpec StoreOps StoreOpsSpec BackfillSpec.
From S2P Require Import SpannerExec.
Open Scope Z_scope.

Module SpannerClient.
Import SpannerExec.

(** ** The data *)

(** The rows of the table by primary key, each with the values of its columns. *)
Abbreviation table := (gmap string (gmap string value)).

(** [spanner.Statement] and what [spanner.InsertOrUpdate] is given. *)
Record NativeStatement : Type := mkNative { n_SQL : string; n_Params : gmap string value }.
Definition NativeMutation : Type := (string * list string * list value)%type.

Definition nativeStatement (s : Statement) : NativeStatement := mkNative (SQL s) (Params s).

Definition columns_of (columns : list string) (values : list value) : gmap string value := list_to_map (zip columns values).

(** What the database makes of one mutation. *)
Class Mutations : Type := InsertOrUpdate : table -> NativeMutation -> table.

(** As documented, an insert-or-update overwrites the columns it names in the row with
    its key, which it adds when there is none; the other columns and the other rows
    stay as they are. *)
Definition overwrites (write : table -> NativeMutation -> table) : Prop := forall t columns values id,
  length columns = length values -> List.NoDup columns -> columns_of columns values !! "Id" = Some (VString id) ->
  write t (TableName, columns, values) = <[id := columns_of columns values ∪ default ∅ (t !! id)]> t.

(** ** The client library *)

(** The operations of [spanner.Client] and [spanner.ReadWriteTransaction]. A callback
    also has variables of its own ([L]), which no abort takes back. *)
Record Client : Type := mkClient {
  cl_Apply : list NativeMutation -> st table (option error);
  cl_Query : NativeStatement -> table -> option (list (result resultRow));
  cl_ReadWriteTransaction : forall L : Type, st (table * L) (option error) -> st (table * L) (option error);
  cl_Update : NativeStatement -> st table (result Z);
  cl_BufferWrite : list NativeMutation -> st table (option error);
  cl_UpdateDatabaseDdl : string -> string -> option error;
  cl_Wait : string -> string -> option error
}.

(** What the documentation promises: a group of mutations is applied in order and as a
    whole, or not at all; a transaction that commits has the effect of one run of its
    callback, and that run gave no error; one that fails has none, or that of a run
    whose commit was not confirmed. *)
Record lawful `{Mutations} (c : Client) : Prop := mk_lawful {
  lw_apply : forall ms t r t', cl_Apply c ms t = (r, t') ->
    t' = fold_left InsertOrUpdate ms t \/ (r <> None /\ t' = t);
  lw_transaction : forall (L : Type) (f : st (table * L) (option error)) t l r t' l',
    cl_ReadWriteTransaction c L f (t, l) = (r, (t', l')) ->
    (exists l0 l1, f (t, l0) = (None, (t', l1)) /\ (r = None -> l1 = l')) \/ (r <> None /\ t' = t)
}.

(** ** The bindings *)

(** [transaction] and [dataClient], with the fields of [liveTransaction] and
    [liveData]. *)
Record transaction : Type := mkTransaction {
  tx_Execute : Statement -> st table (result Z);
  tx_Apply : Mutation -> st table (option error)
}.
Record liveData : Type := mkLiveData {
  ld_apply : Mutation -> st table (option error);
  ld_query : Statement -> table -> option (list (result resultRow));
  ld_readWrite : forall L : Type, (transaction -> st (table * L) (option error)) -> st (table * L) (option error)
}.

Definition bindTransaction (client : Client) : transaction :=
  mkTransaction (fun statement => cl_Update client (nativeStatement statement))
                (fun mutation => cl_BufferWrite client (nativeMutations mutation)).

Definition bindData (client : Client) : liveData :=
  mkLiveData (fun mutation => cl_Apply client (nativeMutations mutation))
             (fun statement => cl_Query client (nativeStatement statement))
             (fun L operation => cl_ReadWriteTransaction client L (operation (bindTransaction client))).

(** [bindAdmin]: the request and the wait for the operation it starts. *)
Definition bindAdmin (client : Client) (databaseName sql : string) : option error :=
  match cl_UpdateDatabaseDdl client databaseName sql with
  | Some err => Some err
  | None => cl_Wait client databaseName sql
  end.

(** ** The executor *)

Section Executor.
Context (data : liveData) (ctx : Ctx).

Definition Apply (mutation : Mutation) : st table (option error) := fun t =>
  match active ctx with
  | Fail err => (Some err, t)
  | Ok _ => ld_apply data mutation t
  end.

Definition Query `{ColumnDecode} (statement : Statement) (t : table) : result (list Row) :=
  _ ← active ctx; fst (collect (ld_query data statement t)).

(** [transactionAdapter]: the context of the caller is replaced by that of the
    transaction, which the model does not tell apart. *)
Definition transactionAdapter (tx : transaction) : transaction := mkTransaction (tx_Execute tx) (tx_Apply tx).

(** [ReadWrite]; [None] is a nil operation. *)
Definition ReadWrite {L : Type} (operation : option (transaction -> st (table * L) (option error))) : st (table * L) (option error) := fun s =>
  match active ctx with
  | Fail err => (Some err, s)
  | Ok _ =>
      match operation with
      | None => (Some (errors_New "Spanner read-write operation is required"), s)
      | Some operation => ld_readWrite data L (fun tx => operation (transactionAdapter tx)) s
      end
  end.

(** The callback of [Execute], which keeps the count in a variable of the caller. *)
Definition execute_callback (statement : Statement) (tx : transaction) : st (table * Z) (option error) := fun s =>
  match tx_Execute tx statement (fst s) with
  | (Ok count, t) => (None, (t, count))
  | (Fail err, t) => (Some err, (t, 0))
  end.

Definition Execute (statement : Statement) : st table (Z * option error) := fun t =>
  match active ctx with
  | Fail err => ((0, Some err), t)
  | Ok _ =>
      let '(err, (t, count)) := ld_readWrite data Z (execute_callback statement) (t, 0) in
      ((count, err), t)
  end.
End Executor.

(** [New]: the token of the selector, then the clients. *)
Definition New (e : XEnv) (ctx : Ctx) (databaseName : string) (selector : result bool) : X (result unit) :=
  newWithTokenSource ctx databaseName (Some selector) (Some (newLiveClients e)).

End SpannerClient.

(** ** What the store leaves in the table

    The writes that a log of [StoreOps] has committed, played back on the table of
    [SpannerClient]: the executor over a lawful client does just this, and a
    successful [Upsert] leaves exactly the rows of its chunks. *)
Import SpannerExec SpannerClient.

(** ** Playing writes back *)

Definition put `{Mutations} (t : table) (m : Mutation) : table := fold_left InsertOrUpdate (nativeMutations m) t.

Section Table.
(** What a mutation and a statement do to the table, which only the database knows. *)
Context `{Mutations} (effect : Statement -> table -> table).

Definition play (t : table) (w : write) : table :=
  match w with
  | WMut m => put t m
  | WStmt s => effect s t
  end.
Definition table_of (t0 : table) (log : list event) : table := fold_left play (committed log) t0.

(** ** Rows *)

Definition columns_for (embedded : bool) : list string := if embedded then allColumns else columnsWithoutVector.
Definition row_of (embedded : bool) (c : Chunk) : gmap string value := columns_of (columns_for embedded) (chunkValues c embedded).
Definition chunk_mutation (embedded : bool) (chunks : list Chunk) : Mutation :=
  mkMutation TableName (columns_for embedded) (map (fun c => chunkValues c embedded) chunks).

(** The last chunk of a batch with an identifier. *)
Fixpoint last_chunk (id : string) (chunks : list Chunk) : option Chunk :=
  match chunks with
  | [] => None
  | c :: rest => match last_chunk id rest with Some c' => Some c' | None => if c_ID c ==s id then Some c else None end
  end.

Lemma row_id embedded c : row_of embedded c !! "Id" = Some (VString (c_ID c)).
Proof. unfold row_of, columns_of. destruct embedded; reflexivity. Qed.

Lemma row_dom embedded c : dom (row_of embedded c) = list_to_set (columns_for embedded).
Proof.
  unfold row_of, columns_of. rewrite dom_list_to_map_L. f_equal. destruct embedded; reflexivity.
Qed.

Lemma put_chunk embedded t c : overwrites InsertOrUpdate ->
  InsertOrUpdate t (TableName, columns_for embedded, chunkValues c embedded) =
  <[c_ID c := row_of embedded c ∪ default ∅ (t !! c_ID c)]> t.
Proof.
  intros Ho. apply Ho; [by destruct embedded|apply NoDup_ListNoDup; destruct embedded; vm_compute; by repeat constructor; set_solver|apply row_id].
Qed.

(** A row that is written over with the same columns keeps nothing of the first
    write. *)
Lemma row_twice embedded c c' m : row_of embedded c' ∪ (row_of embedded c ∪ m) = row_of embedded c' ∪ m.
Proof.
  apply map_eq. intros k. rewrite !lookup_union. destruct (row_of embedded c' !! k) eqn:E1; [by destruct (row_of embedded c !! k), (m !! k)|].
  apply not_elem_of_dom in E1. rewrite row_dom, <- (row_dom embedded c) in E1. apply not_elem_of_dom in E1. rewrite E1. by destruct (m !! k).
Qed.

Lemma put_lookup embedded chunks t id : overwrites InsertOrUpdate -> put t (chunk_mutation embedded chunks) !! id =
  match last_chunk id chunks with
  | Some c => Some (row_of embedded c ∪ default ∅ (t !! id))
  | None => t !! id
  end.
Proof.
  intros Ho. unfold put, nativeMutations, chunk_mutation. cbn [m_Table m_Columns m_Values]. revert t. induction chunks as [|c chunks IH]; intros t; [done|].
  cbn [map fold_left last_chunk]. rewrite put_chunk, IH by done.
  destruct (last_chunk id chunks) as [c'|], (String.eqb_spec (c_ID c) id) as [Hid|Hne].
  - rewrite Hid, lookup_insert_eq. cbn. by rewrite row_twice.
  - by rewrite lookup_insert_ne.
  - by rewrite Hid, lookup_insert_eq.
  - by rewrite lookup_insert_ne.
Qed.

Lemma last_chunk_id id chunks c : last_chunk id chunks = Some c -> c_ID c = id /\ c ∈ chunks.
Proof.
  induction chunks as [|d chunks IH]; [done|]. cbn. destruct (last_chunk id chunks) as [c'|].
  - intros [= ->]. destruct (IH eq_refl). split; [done|by right].
  - destruct (String.eqb_spec (c_ID d) id); [|done]. intros [= ->]. split; [done|by left].
Qed.

Lemma last_chunk_none id chunks : last_chunk id chunks = None <-> Forall (fun c => c_ID c <> id) chunks.
Proof.
  induction chunks as [|c chunks IH]; [split; [constructor|done]|]. cbn. rewrite Forall_cons, <- IH.
  destruct (last_chunk id chunks); [split; [done|by intros [_ ?]]|]. destruct (String.eqb_spec (c_ID c) id); split; try done; by intros [? _].
Qed.

(** ** The executor *)

(** A mutation that the executor reports as applied was applied as a whole and in
    order; when it reports an error, the same or nothing has happened. *)
Lemma apply_plays client ctx m t r t' : lawful client -> Apply (bindData client) ctx m t = (r, t') ->
  t' = put t m \/ (r <> None /\ t' = t).
Proof.
  intros Hl. unfold Apply. destruct (active ctx); [|intros [= <- <-]; by right].
  intros Ha. by apply (lw_apply client Hl) in Ha.
Qed.

(** A count that [Execute] returns without an error is that of the run that was
    committed, and the table is what that run left, whatever attempts were aborted
    before it. *)
Lemma execute_plays client ctx s t n t' : lawful client -> Execute (bindData client) ctx s t = ((n, None), t') ->
  cl_Update client (nativeStatement s) t = (Ok n, t').
Proof.
  intros Hl. unfold Execute. destruct (active ctx); [|done].
  destruct (ld_readWrite (bindData client) Z (execute_callback s) (t, 0)) as [err [t1 count]] eqn:E. intros [= <- -> <-].
  apply (lw_transaction client Hl) in E as [(l0&l1&Hf&Hl1)|[? _]]; [|done]. specialize (Hl1 eq_refl) as ->.
  unfold execute_callback in Hf. cbn [bindTransaction tx_Execute fst] in Hf.
  destruct (cl_Update client (nativeStatement s) t) as [[k|] t2]; [|done]. by injection Hf as -> ->.
Qed.

(** ** Upserts *)

Lemma table_of_commits t0 log log' ws : committed log' = committed log ++ ws -> table_of t0 log' = fold_left play ws (table_of t0 log).
Proof. intros Hc. unfold table_of. by rewrite Hc, fold_left_app. Qed.

(** The rows that a batch leaves, when the store writes it itself. *)
Definition stored (embedded : bool) (chunks : list Chunk) (t t' : table) : Prop := forall id,
  t' !! id = match last_chunk id chunks with
             | Some c => Some (row_of embedded c ∪ default ∅ (t !! id))
             | None => t !! id
             end.

Definition mutation_batch (config : Config) (chunks : list Chunk) : bool :=
  forallb embedded_chunk chunks || (EmbeddingStrategy config ==s EmbeddingDeferred).

Lemma plan_stores config chunks plan t : overwrites InsertOrUpdate -> BuildUpsertPlan config chunks = Ok plan ->
  if mutation_batch config chunks then stored (forallb embedded_chunk chunks) chunks t (fold_left play (plan_writes plan) t)
  else fold_left play (plan_writes plan) t = effect (buildRemoteModelStatement config chunks) t.
Proof.
  intros Ho (_&_&_&He)%BuildUpsertPlan_iff. revert He. unfold expected_plan, mutation_batch.
  destruct (forallb embedded_chunk chunks) eqn:E1; cbn [orb].
  - intros [= <-] id. by apply (put_lookup true).
  - destruct (forallb (fun c => negb (embedded_chunk c)) chunks); [|discriminate].
    destruct (EmbeddingStrategy config ==s EmbeddingDeferred); intros [= <-]; [|reflexivity].
    intros id. by apply (put_lookup false).
Qed.

Lemma upsert_plays (E : Env) (chunks : list Chunk) (w : W) (t0 : table) : overwrites InsertOrUpdate ->
  match Upsert E chunks w with
  | (Ok _, w') =>
      if mutation_batch (config (ws w)) chunks
      then stored (forallb embedded_chunk chunks) chunks (table_of t0 (log w)) (table_of t0 (log w'))
      else table_of t0 (log w') = effect (buildRemoteModelStatement (config (ws w)) chunks) (table_of t0 (log w))
  | (Fail _, w') => table_of t0 (log w') = table_of t0 (log w)
  end.
Proof.
  intros Ho. pose proof (Upsert_cases E chunks w) as Hu. destruct (Upsert E chunks w) as [[u|e] w'].
  - destruct Hu as (plan&w1&Hp&_&Hc&_&Hlog). rewrite Hlog, (table_of_commits t0 _ _ _ (commits_committed _ _ _ Hc)). by apply plan_stores.
  - unfold table_of. by rewrite (quiet_committed _ _ Hu).
Qed.

(** C7: After a successful [Upsert] of embedded chunks, or of any chunks under the
    deferred strategy, the table holds for every identifier of the batch the column
    values of the last chunk with that identifier, all other columns of that row and
    all other rows being as before; under the remote-model strategy the table is what
    the one planned statement makes of it. A failed [Upsert] leaves the table of the
    committed writes unchanged. *)
Theorem upsert_stored (E : Env) (chunks : list Chunk) (w : W) (t0 : table) : overwrites InsertOrUpdate ->
  match Upsert E chunks w with
  | (Ok _, w') =>
      if mutation_batch (config (ws w)) chunks
      then stored (forallb embedded_chunk chunks) chunks (table_of t0 (log w)) (table_of t0 (log w'))
      else table_of t0 (log w') = effect (buildRemoteModelStatement (config (ws w)) chunks) (table_of t0 (log w))
  | (Fail _, w') => table_of t0 (log w') = table_of t0 (log w)
  end.
Proof. apply upsert_plays. Qed.

(** Under the deferred strategy a chunk that is written again under an identifier
    whose row has a vector gets its new content and keeps the old vector, and the
    backfill reads only rows without one. *)
Theorem deferred_keeps_vector (E : Env) (chunks : list Chunk) (w w' : W) (t0 : table) u c row vector :
  overwrites InsertOrUpdate ->
  EmbeddingStrategy (config (ws w)) = EmbeddingDeferred -> forallb embedded_chunk chunks = false ->
  Upsert E chunks w = (Ok u, w') -> last_chunk (c_ID c) chunks = Some c ->
  table_of t0 (log w) !! c_ID c = Some row -> row !! "Vector" = Some vector ->
  exists row', table_of t0 (log w') !! c_ID c = Some row' /\
    row' !! "Content" = Some (VString (c_Content c)) /\ row' !! "Vector" = Some vector.
Proof.
  intros Ho Hd Hu Hok Hc Hrow Hv. pose proof (upsert_plays E chunks w t0 Ho) as Hs. rewrite Hok in Hs. unfold mutation_batch in Hs.
  rewrite Hu, Hd in Hs. cbn [orb] in Hs. rewrite (String.eqb_refl EmbeddingDeferred) in Hs. specialize (Hs (c_ID c)).
  rewrite Hc, Hrow in Hs. cbn [default] in Hs. eexists. split; [exact Hs|]. split.
  - apply lookup_union_Some_l. reflexivity.
  - rewrite lookup_union_r; [done|]. reflexivity.
Qed.
End Table.

(** ** A lawful client *)

Module SpannerTableSamples.

(** A database with one table that keeps every row it is given under a string. *)
#[local] Instance simple_mutations : Mutations := fun t m =>
  let '(name, columns, values) := m in
  if name !=s TableName then t
  else
    match columns_of columns values !! "Id" with
    | Some (VString id) => <[id := columns_of columns values ∪ default ∅ (t !! id)]> t
    | _ => t
    end.

Lemma simple_overwrites : overwrites simple_mutations.
Proof.
  intros t columns values id _ _ Hid. unfold simple_mutations. rewrite String.eqb_refl. cbn [negb]. by rewrite Hid.
Qed.

(** A client that applies what it is given, aborts every transaction once, and
    commits the second run unless the callback fails. *)
Definition simple_client : Client :=
  mkClient (fun ms t => (None, fold_left InsertOrUpdate ms t)) (fun _ _ => Some [])
    (fun L f s => let '(_, (_, l)) := f s in
                  match f (fst s, l) with
                  | (None, s') => (None, s')
                  | (Some err, (_, l)) => (Some err, (fst s, l))
                  end)
    (fun _ t => (Ok (Z.of_nat (size t)), t)) (fun ms t => (None, fold_left InsertOrUpdate ms t)) (fun _ _ => None) (fun _ _ => None).

Lemma simple_lawful : lawful simple_client.
Proof.
  split; cbn.
  - intros ms t r t' [= _ <-]. by left.
  - intros L f t l r t' l'. destruct (f (t, l)) as [r1 [t1 l1]]. destruct (f (t, l1)) as [[err|] [t2 l2]] eqn:E2; intros [= <- <- <-].
    + by right.
    + left. by exists l1, l2.
Qed.

(** Two chunks with one identifier: the row is that of the second. *)
Example last_wins : put ∅ (mkMutation TableName ["Id"; "Content"] [[VString "a"; VString "one"]; [VString "a"; VString "two"]]) =
  {["a" := {["Id" := VString "a"; "Content" := VString "two"]}]}.
Proof. vm_compute. reflexivity. Qed.

Example execute_counts_once : fst (Execute (bindData simple_client) (Some None) stats_statement {["a" := ∅]}) = (1, None).
Proof. vm_compute. reflexivity. Qed.

(** A store that upserts a chunk, on an empty table. *)
Lemma upsert_stored_witness :
  let env := sample_env [] in
  let w := mkW sample_store [] in
  let after := table_of (fun _ t => t) ∅ (log (snd (Upsert env [sample_chunk] w))) in
  fst (Upsert env [sample_chunk] w) = Ok tt /\
  forall id, after !! id = match last_chunk id [sample_chunk] with
                          | Some c => Some (row_of false c ∪ ∅)
                          | None => None
                          end.
Proof.
  cbv zeta. assert (fst (Upsert (sample_env []) [sample_chunk] (mkW sample_store [])) = Ok tt) as Hok by (vm_compute; reflexivity).
  pose proof (upsert_stored (fun _ t => t) (sample_env []) [sample_chunk] (mkW sample_store []) ∅ simple_overwrites) as Hs.
  destruct (Upsert (sample_env []) [sample_chunk] (mkW sample_store [])) as [[u|e] w']; [|discriminate Hok].
  split; [exact Hok|]. exact Hs.
Defined.

End SpannerTableSamples.
