(* ===== verification/RuntimeConfig.v ===== *)
(** * The production contract

    [internal/runtimeconfig/config.go]: the production configuration read from the
    environment, which is closed up to the deployment coordinates and the
    credential selector. *)
From Stdlib Require Import ZArith Lia Bool.
From Stdlib Require Import String Ascii.
From stdpp Require Import base tactics option list gmap strings.
From S2P Require Import Prelude GoStrings GoFile StoreTypes Regex RegexSpec GcpAuth GcpAuthSpec.
Open Scope Z_scope.

Module RuntimeConfig.

Definition ProductionContract : string := "production".
Definition ProductionStorageBackend : string := "spanner".
Definition ProductionSpannerEmbeddingMode : string := "spanner".
Definition ProductionSpannerEmbeddingModelID : string := "ConversationEmbeddingModel".
Definition ProductionEmbeddingProvider : string := "vertex".
Definition ProductionEmbeddingModel : string := "gemini-embedding-001".
Definition ProductionEmbeddingDimension : Z := 3072.
Definition ProductionStatusServerHost : string := "127.0.0.1".
Definition ProductionStatusServerPort : Z := 4680.

Record SpannerTarget : Type := mkTarget { Project : string; Instance_ : string; Database : string }.
Definition ResourceName (s : SpannerTarget) : string :=
  "projects/" +:+ Project s +:+ "/instances/" +:+ Instance_ s +:+ "/databases/" +:+ Database s.

Record Config : Type := mkConfig {
  RuntimeContract : string;
  Spanner : SpannerTarget;
  StorageBackend : string;
  SpannerEmbeddingMode : string;
  SpannerEmbeddingModelID : string;
  EmbeddingProvider : string;
  EmbeddingModel : string;
  EmbeddingDimension : Z;
  StatusServerHost : string;
  StatusServerPort : Z;
  ReadOnly : bool;
  GoogleCredentials : GcpAuth.Selector
}.

(** [strconv.Atoi] on a 64-bit platform. *)
Definition ErrSyntax : error := Sentinel "strconv.ErrSyntax".
Definition ErrRange : error := Sentinel "strconv.ErrRange".
Definition Atoi (s : string) : result Z :=
  let num_error e := Wrapf "strconv.Atoi: parsing %q: %w" [FStr s] e in
  let '(negative, digits) :=
    match s with
    | String c r => if Ascii.eqb c "-" then (true, r) else if Ascii.eqb c "+" then (false, r) else (false, s)
    | EmptyString => (false, s)
    end in
  match digits with
  | EmptyString => Fail (num_error ErrSyntax)
  | _ =>
      match decimal 0 digits with
      | None => Fail (num_error ErrSyntax)
      | Some v =>
          let v := if (negative : bool) then - v else v in
          if (v <? - 9223372036854775808) || (9223372036854775807 <? v) then Fail (num_error ErrRange) else Ok v
      end
  end.

Definition prefix : string := "CLAUDE_HISTORY_RAG_".

Definition parseRequiredInt (getenv : string -> string) (key : string) : result Z :=
  let raw := TrimSpace (getenv key) in
  let name := smap lower_byte (TrimPrefix key prefix) in
  if raw ==s "" then Fail (Errorf "history_rag_runtime: %s is required" [FStr name])
  else
    match Atoi raw with
    | Fail err => Fail (Wrapf "history_rag_runtime: %s must be an integer: %w" [FStr name] err)
    | Ok value => Ok value
    end.

(** The loop over the fixed values, and over the required ones. *)
Definition validate_fixed (fields : list (string * string * string)) : result unit :=
  each (fun f : string * string * string =>
    let '(name, want, got) := f in
    if got ==s want then Ok tt else Fail (Errorf "history_rag_runtime: %s=%q expected %q" [FStr name; FStr got; FStr want])) fields.
Definition validate_required (fields : list (string * string)) : result unit :=
  each (fun f : string * string => if f.2 ==s "" then Fail (Errorf "history_rag_runtime: %s must be set" [FStr f.1]) else Ok tt) fields.

Definition want_port (c : Config) : Z := if ReadOnly c then 4681 else ProductionStatusServerPort.

Definition validate (c : Config) : result unit :=
  _ ← validate_fixed [("runtime_contract", ProductionContract, RuntimeContract c);
                      ("storage_backend", ProductionStorageBackend, StorageBackend c);
                      ("spanner_embedding_mode", ProductionSpannerEmbeddingMode, SpannerEmbeddingMode c);
                      ("spanner_embedding_model_id", ProductionSpannerEmbeddingModelID, SpannerEmbeddingModelID c);
                      ("embedding_provider", ProductionEmbeddingProvider, EmbeddingProvider c);
                      ("embedding_model", ProductionEmbeddingModel, EmbeddingModel c);
                      ("status_server_host", ProductionStatusServerHost, StatusServerHost c)];
  _ ← validate_required [("spanner_project", Project (Spanner c)); ("spanner_instance", Instance_ (Spanner c));
                         ("spanner_database", Database (Spanner c))];
  if negb (EmbeddingDimension c =? ProductionEmbeddingDimension) then
    Fail (Errorf "history_rag_runtime: embedding_dimension=%d expected %d" [FInt (EmbeddingDimension c); FInt ProductionEmbeddingDimension])
  else if negb (StatusServerPort c =? want_port c) then
    Fail (Errorf "history_rag_runtime: status_server_port=%d expected %d" [FInt (StatusServerPort c); FInt (want_port c)])
  else GcpAuth.Validate (GoogleCredentials c) "history_rag_google_credentials".

(** The configuration that the variables spell out. *)
Definition spelled (getenv : string -> string) (dimension port : Z) : Config :=
  let read key := TrimSpace (getenv (prefix +:+ key)) in
  mkConfig (read "RUNTIME_CONTRACT") (mkTarget (read "SPANNER_PROJECT") (read "SPANNER_INSTANCE") (read "SPANNER_DATABASE"))
    (read "STORAGE_BACKEND") (read "SPANNER_EMBEDDING_MODE") (read "SPANNER_EMBEDDING_MODEL_ID") (read "EMBEDDING_PROVIDER")
    (read "EMBEDDING_MODEL") dimension (read "STATUS_SERVER_HOST") port (getenv (prefix +:+ "READ_ONLY") ==s "true")
    (GcpAuth.mkSelector "" (read "CREDENTIALS_SOURCE") (read "CREDENTIALS_PROFILE") (read "CREDENTIALS_IDENTITY")
       (read "CREDENTIALS_BASE_IDENTITY") (read "CREDENTIALS_AUDIENCE")).

Definition LoadProduction (getenv : option (string -> string)) : result Config :=
  match getenv with
  | None => Fail (errors_New "history_rag_runtime: environment reader is required")
  | Some getenv =>
      embeddingDimension ← parseRequiredInt getenv "CLAUDE_HISTORY_RAG_EMBEDDING_DIMENSION";
      statusPort ← parseRequiredInt getenv "CLAUDE_HISTORY_RAG_STATUS_SERVER_PORT";
      let config := spelled getenv embeddingDimension statusPort in
      let raw := getenv "CLAUDE_HISTORY_RAG_READ_ONLY" in
      if (raw !=s "") && (raw !=s "true") && (raw !=s "false") then Fail (errors_New "history_rag_runtime: read_only must be true or false")
      else _ ← validate config; Ok config
  end.

(** ** What a loaded configuration guarantees *)

Record production (c : Config) : Prop := mk_production {
  pr_fixed : RuntimeContract c = "production" /\ StorageBackend c = "spanner" /\ SpannerEmbeddingMode c = "spanner" /\
    SpannerEmbeddingModelID c = "ConversationEmbeddingModel" /\ EmbeddingProvider c = "vertex" /\
    EmbeddingModel c = EmbeddingModelName /\ EmbeddingDimension c = VectorDimension;
  pr_endpoint : StatusServerHost c = "127.0.0.1" /\ StatusServerPort c = (if ReadOnly c then 4681 else 4680);
  pr_coordinates : Project (Spanner c) <> "" /\ Instance_ (Spanner c) <> "" /\ Database (Spanner c) <> "";
  pr_selector : GcpAuth.Validate (GoogleCredentials c) "history_rag_google_credentials" = Ok tt
}.

Lemma fixed_ok fields : validate_fixed fields = Ok tt <-> Forall (fun f : string * string * string => f.2 = f.1.2) fields.
Proof.
  unfold validate_fixed. rewrite each_ok. apply Forall_iff. intros [[name want] got]. cbn.
  by destruct (String.eqb_spec got want).
Qed.
Lemma required_fields_ok fields : validate_required fields = Ok tt <-> Forall (fun f : string * string => f.2 <> "") fields.
Proof.
  unfold validate_required. rewrite each_ok. apply Forall_iff. intros [name v]. cbn. by destruct (String.eqb_spec v "").
Qed.

Lemma validate_production c : validate c = Ok tt <-> production c.
Proof.
  unfold validate, want_port. rewrite !bind_ok_unit, fixed_ok, required_fields_ok, !Forall_cons. cbn [fst snd]. split.
  - intros ((?&?&?&?&?&?&?&_)&(?&?&?&_)&Hsel). destruct (Z.eqb_spec (EmbeddingDimension c) ProductionEmbeddingDimension); [|done].
    destruct (Z.eqb_spec (StatusServerPort c) (if ReadOnly c then 4681 else ProductionStatusServerPort)); [|done]. by split.
  - intros [(?&?&?&?&?&?&Hd) [? Hp] (?&?&?) Hs]. split_and!; try done; try apply Forall_nil_2.
    unfold ProductionStatusServerPort. by rewrite Hd, Hp, !Z.eqb_refl.
Qed.

(** The two integers and the flag, as the variables spell them. *)
Definition integer_at (getenv : string -> string) (key : string) (v : Z) : Prop := Atoi (TrimSpace (getenv key)) = Ok v.
Definition flag_at (getenv : string -> string) (key : string) : Prop := getenv key ∈ [""; "true"; "false"].

Lemma required_int_ok getenv key v : parseRequiredInt getenv key = Ok v <-> integer_at getenv key v.
Proof.
  unfold parseRequiredInt, integer_at. destruct (String.eqb_spec (TrimSpace (getenv key)) "") as [->|]; [done|]. by destruct (Atoi _).
Qed.

(** [LoadProduction] accepts exactly the environments that spell out the
    production contract: every fixed value, loopback with the port of the mode, the
    three Spanner coordinates and a valid credential selector; the configuration is
    what the variables spell. The store accepts the configuration that the daemon
    derives from it exactly when its coordinates are resource identifiers. *)
Theorem production_exact getenv c :
  (LoadProduction (Some getenv) = Ok c <->
   production c /\ flag_at getenv "CLAUDE_HISTORY_RAG_READ_ONLY" /\
   exists dimension port, integer_at getenv "CLAUDE_HISTORY_RAG_EMBEDDING_DIMENSION" dimension /\
     integer_at getenv "CLAUDE_HISTORY_RAG_STATUS_SERVER_PORT" port /\ c = spelled getenv dimension port) /\
  (StoreTypes.Validate (productionStoreConfig (Project (Spanner c)) (Instance_ (Spanner c)) (Database (Spanner c))) = Ok tt <->
   Forall (fun v => identifierPart (TrimSpace v) = true /\ len (TrimSpace v) <= 64) [Project (Spanner c); Instance_ (Spanner c); Database (Spanner c)]).
Proof.
  split.
  - unfold LoadProduction, flag_at. rewrite !elem_of_cons. split.
    + intros (dimension&Hd%required_int_ok&H)%bind_ok. apply bind_ok in H as (port&Hp%required_int_ok&H).
      destruct (String.eqb_spec (getenv "CLAUDE_HISTORY_RAG_READ_ONLY") ""), (String.eqb_spec (getenv "CLAUDE_HISTORY_RAG_READ_ONLY") "true"),
        (String.eqb_spec (getenv "CLAUDE_HISTORY_RAG_READ_ONLY") "false"); cbn [negb andb] in H; try done;
        apply bind_ok_unit in H as [Hv%validate_production [= <-]]; (split; [done|]); (split; [tauto|]); by exists dimension, port.
    + intros (Hv&Hf&dimension&port&Hd%required_int_ok&Hp%required_int_ok&->). rewrite Hd. cbn [mbind result_bind]. rewrite Hp. cbn [mbind result_bind].
      assert ((getenv "CLAUDE_HISTORY_RAG_READ_ONLY" !=s "") && (getenv "CLAUDE_HISTORY_RAG_READ_ONLY" !=s "true") &&
              (getenv "CLAUDE_HISTORY_RAG_READ_ONLY" !=s "false") = false) as ->
        by (destruct Hf as [->|[->|[->|Hn%elem_of_nil]]]; done).
      apply validate_production in Hv. by rewrite Hv.
  - rewrite productionStoreConfig_ok. generalize (Project (Spanner c)) (Instance_ (Spanner c)) (Database (Spanner c)). intros p i d.
    assert (forall fields, validate_identifiers fields = Ok tt <-> Forall (fun f => identifierPart (TrimSpace (snd f)) = true /\ len (TrimSpace (snd f)) <= 64) fields) as Hi.
    { intros fields. induction fields as [|[n v] fields IH]; cbn [validate_identifiers]; [split; [constructor|done]|].
      rewrite Forall_cons, <- IH. cbn [snd]. destruct (String.eqb_spec (TrimSpace v) "") as [->|]; [split; [done|by intros [[? _] _]]|].
      destruct (Z.ltb_spec 64 (len (TrimSpace v))); [split; [done|intros [[_ ?] _]; lia]|].
      destruct (identifierPart (TrimSpace v)); cbn [orb negb]; [tauto|]. split; [done|by intros [[? _] _]]. }
    rewrite Hi, !Forall_cons. cbn [snd]. pose proof (Forall_nil (fun f : string * string => identifierPart (TrimSpace f.2) = true /\ len (TrimSpace f.2) <= 64)).
    pose proof (Forall_nil (fun v => identifierPart (TrimSpace v) = true /\ len (TrimSpace v) <= 64)). tauto.
Qed.

(** An environment that the contract accepts. *)
Definition sample_getenv (key : string) : string :=
  default "" (list_to_map (M := gmap string string) [
    ("CLAUDE_HISTORY_RAG_RUNTIME_CONTRACT", "production"); ("CLAUDE_HISTORY_RAG_SPANNER_PROJECT", "history-prod");
    ("CLAUDE_HISTORY_RAG_SPANNER_INSTANCE", "rag"); ("CLAUDE_HISTORY_RAG_SPANNER_DATABASE", "conversations");
    ("CLAUDE_HISTORY_RAG_STORAGE_BACKEND", "spanner"); ("CLAUDE_HISTORY_RAG_SPANNER_EMBEDDING_MODE", "spanner");
    ("CLAUDE_HISTORY_RAG_SPANNER_EMBEDDING_MODEL_ID", "ConversationEmbeddingModel"); ("CLAUDE_HISTORY_RAG_EMBEDDING_PROVIDER", "vertex");
    ("CLAUDE_HISTORY_RAG_EMBEDDING_MODEL", "gemini-embedding-001"); ("CLAUDE_HISTORY_RAG_EMBEDDING_DIMENSION", " 3072 ");
    ("CLAUDE_HISTORY_RAG_STATUS_SERVER_HOST", "127.0.0.1"); ("CLAUDE_HISTORY_RAG_STATUS_SERVER_PORT", "4680");
    ("CLAUDE_HISTORY_RAG_CREDENTIALS_SOURCE", "application_default"); ("CLAUDE_HISTORY_RAG_CREDENTIALS_PROFILE", "attached_service_account");
    ("CLAUDE_HISTORY_RAG_CREDENTIALS_IDENTITY", "history-rag@history-prod.iam.gserviceaccount.com")] !! key).
Example sample_loads : ResourceName <$> (Spanner <$> LoadProduction (Some sample_getenv)) =
  Ok "projects/history-prod/instances/rag/databases/conversations".
Proof. vm_compute. reflexivity. Qed.

End RuntimeConfig.
