(* ===== verification/GoScan.v ===== *)
(** * Words, lines and flags

    [strings.Fields], the lines that a [bufio.Scanner] with its defaults gives for a
    text, and a [flag.FlagSet] with one flag. *)
From Stdlib Require Import ZArith Lia Bool.
From Stdlib Require Import String Ascii.
From stdpp Require Import base tactics option list strings.
From S2P Require Import Prelude GoStrings GoPath GoUrl.
Open Scope Z_scope.

(** ** Words *)

Definition starts_space (s : string) : bool :=
  match s with
  | EmptyString => false
  | String a r1 =>
      space1 a ||
      match r1 with
      | EmptyString => false
      | String b r2 => space2 a b || match r2 with String c _ => space3 a b c | EmptyString => false end
      end
  end.

(** The bytes up to the next space, and the rest. *)
Fixpoint take_word (s : string) : string * string :=
  match s with
  | EmptyString => ("", "")
  | String a r => if starts_space s then ("", s) else let '(w, rest) := take_word r in (String a w, rest)
  end.

(** [strings.Fields]; every word takes a byte. *)
Fixpoint fields_fuel (fuel : nat) (s : string) : list string :=
  match fuel with
  | O => []
  | S fuel =>
      match trim_left false s with
      | EmptyString => []
      | word => let '(w, rest) := take_word word in w :: fields_fuel fuel rest
      end
  end.
Definition Fields (s : string) : list string := fields_fuel (String.length s) s.

(** ** Lines *)

Definition bufio_ErrTooLong : error := Sentinel "bufio.Scanner: token too long".
(** [bufio.MaxScanTokenSize]: a line and its newline fit in the buffer. *)
Definition MaxScanTokenSize : Z := 65536.

(** The carriage return at the end of a line is dropped. *)
Definition dropCR (line : string) : string := TrimSuffix line (String (ascii_of_N 13) "").

(** The lines up to the first that is too long, and the error of the scanner;
    nothing follows a final newline. *)
Fixpoint scan_lines (lines : list string) : list string * option error :=
  match lines with
  | [] => ([], None)
  | line :: rest =>
      if MaxScanTokenSize <=? len line then ([], Some bufio_ErrTooLong)
      else match rest with
           | [] => (if line ==s "" then [] else [dropCR line], None)
           | _ => let '(scanned, err) := scan_lines rest in (dropCR line :: scanned, err)
           end
  end.
Definition ScanLines (text : string) : list string * option error := scan_lines (Split (ascii_of_N 10) text).

(** ** Flags *)

(** [flags.Parse] of a set with one string flag, [known]: the value of the flag and
    the arguments that are not flags; [None] for an error. *)
Fixpoint parse_flags (known value : string) (arguments : list string) : option (string * list string) :=
  match arguments with
  | [] => Some (value, [])
  | s :: rest =>
      match s with
      | String "-" (String c r) =>
          let name := if Ascii.eqb c "-" then r else String c r in
          if (Ascii.eqb c "-") && (r ==s "") then Some (value, rest)
          else if HasPrefix name "-" || HasPrefix name "=" || (name ==s "") then None
          else
            let '(flag, text) := Cut "=" name in
            if flag !=s known then None
            else if has_byte "=" name then parse_flags known text rest
            else match rest with
                 | [] => None
                 | v :: rest => parse_flags known v rest
                 end
      | _ => Some (value, arguments)
      end
  end.

(** ** Lemmas *)

Lemma take_word_clean s w rest : take_word s = (w, rest) ->
  s = w +:+ rest /\ forall x b y, w = x +:+ String b y -> space1 b = false.
Proof.
  revert w rest. induction s as [|a s IH]; intros w rest; cbn [take_word].
  - intros [= <- <-]. split; [done|]. by intros [|? ?] b y.
  - destruct (starts_space (String a s)) eqn:Es.
    + intros [= <- <-]. split; [done|]. by intros [|? ?] b y.
    + destruct (take_word s) as [w' rest'] eqn:E. intros [= <- <-]. destruct (IH w' rest' eq_refl) as [-> Hw]. split; [done|].
      intros [|c x] b y Hx; injection Hx as -> Hx; [|by eapply Hw]. cbn in Es. by apply orb_false_iff in Es as [? _].
Qed.

Lemma fields_fuel_clean fuel s w : w ∈ fields_fuel fuel s -> forall x b y, w = x +:+ String b y -> space1 b = false.
Proof.
  revert s. induction fuel as [|fuel IH]; intros s; cbn [fields_fuel]; [by inversion 1|].
  destruct (trim_left false s) as [|a r] eqn:Et; [by inversion 1|]. destruct (take_word (String a r)) as [w' rest] eqn:Ew.
  intros [->|Hin]%elem_of_cons; [|by eapply IH]. apply take_word_clean in Ew as [_ Hc]. exact Hc.
Qed.

(** No word of [strings.Fields] has an ASCII space in it. *)
Lemma Fields_clean s w x b y : w ∈ Fields s -> w = x +:+ String b y -> space1 b = false.
Proof. intros Hw. by eapply fields_fuel_clean. Qed.

Example fields_sample : Fields " a  bc d " = ["a"; "bc"; "d"].
Proof. reflexivity. Qed.
Example scan_sample : ScanLines ("p7" +:+ String (ascii_of_N 10) ("n/x" +:+ String (ascii_of_N 13) (String (ascii_of_N 10) ""))) = (["p7"; "n/x"], None).
Proof. reflexivity. Qed.
