(* ===== verification/Process.v ===== *)
(** * Process control

    [internal/history/process/process.go]: the PID record in the durable root and
    [Controller.Prepare], which decides whether the daemon may run and, when it
    supervises, stops the process the record names.

    The operating system answers every question about a process; its answers may
    depend on everything asked and done before, which the log of the state keeps,
    newest first. *)
From Stdlib Require Import ZArith Lia Bool.
From Stdlib Require Import String Ascii.
From stdpp Require Import base tactics option list gmap strings.
From S2P Require Import Prelude GoStrings GoPath JsonKeys Sha256 Durable.
Open Scope Z_scope.

Module Process.

Definition ErrProcessNotFound : error := Sentinel "process not found".
Definition ErrUncertainTarget : error := Sentinel "process target identity is uncertain".
Definition ErrTerminationUnproven : error := Sentinel "process termination could not be proven".
Definition ErrPIDRecordInvalid : error := Sentinel "pid record invalid".

Definition maxPIDRecordBytes : Z := 8192.

Inductive Mode : Type := Start | Supervise.
(** [os.Signal]: [syscall.SIGTERM] and [os.Kill]. *)
Inductive Signal_ : Type := SigTerm | SigKill.
#[global] Instance Signal_eq_dec : EqDecision Signal_.
Proof. solve_decision. Defined.

Record Record_ : Type := mkRecord {
  PID : Z;
  Executable : string;
  CheckoutRoot : string;
  StartIdentity : string
}.

(** What the program asks the operating system, with the answers. *)
Inductive pevent : Type :=
| ESnapshot (pid : Z) (answer : result Record_)
| ESignal (pid : Z) (signal : Signal_) (answer : option error)
| ENow (t : Z)
| ESleep (duration : Z) (answer : option error)
| ERemove (answer : result bool).

Record Ops : Type := mkOps {
  op_Snapshot : list pevent -> Z -> result Record_;
  op_Signal : list pevent -> Z -> Signal_ -> option error;
  op_Now : list pevent -> Z;
  op_Sleep : list pevent -> Z -> option error
}.

Record Controller : Type := mkController {
  c_root : Durable.Root;
  c_name : string;
  c_termSignal : Signal_
}.

(** [json.Marshal] of a record, the tokens of a payload, and a strict decode of
    its first value with what the decoder has left. *)
Class RecordCodec : Type := {
  record_Marshal : Record_ -> result string;
  record_tokens : string -> decoder;
  record_Decode : string -> option (Record_ * decoder)
}.

(** ** Records *)

Definition validateRecord (record : Record_) : result unit :=
  if (PID record <=? 1) || (StartIdentity record ==s "") || negb (IsAbs (Executable record)) ||
     (Clean (Executable record) !=s Executable record) || negb (IsAbs (CheckoutRoot record)) ||
     (Clean (CheckoutRoot record) !=s CheckoutRoot record)
  then Fail ErrPIDRecordInvalid
  else if negb (beneath (CheckoutRoot record) (Executable record)) then Fail ErrPIDRecordInvalid
  else Ok tt.

Definition matches (record snapshot : Record_) : bool :=
  (PID record =? PID snapshot) && (Executable record ==s Executable snapshot) &&
  (CheckoutRoot record ==s CheckoutRoot snapshot) && (StartIdentity record ==s StartIdentity snapshot).

(** [decoder.Decode(&value)]: the tokens of one value. *)
Fixpoint skip_value (depth : nat) (d : decoder) : option decoder :=
  match d with
  | [] | Fail _ :: _ => None
  | Ok (TDelim c) :: rest =>
      if Ascii.eqb c "{" || Ascii.eqb c "[" then skip_value (S depth) rest
      else match depth with
           | O => None
           | S O => Some rest
           | S n => skip_value n rest
           end
  | Ok _ :: rest => match depth with O => Some rest | _ => skip_value depth rest end
  end.

(** The loop over the members of the top-level object. *)
Fixpoint duplicate_loop (fuel : nat) (seen : list string) (d : decoder) : bool :=
  match fuel with
  | O => true
  | S fuel =>
      if More d then
        match Token d with
        | (Ok (TString key), rest) =>
            if existsb (String.eqb key) seen then true
            else match skip_value 0 rest with
                 | None => true
                 | Some rest => duplicate_loop fuel (key :: seen) rest
                 end
        | _ => true
        end
      else match Token d with
           | (Ok (TDelim c), _) => negb (Ascii.eqb c "}")
           | _ => true
           end
  end.

Definition hasDuplicateTopLevelKey (d : decoder) : bool :=
  match Token d with
  | (Ok (TDelim c), rest) => if Ascii.eqb c "{" then duplicate_loop (S (length rest)) [] rest else true
  | _ => true
  end.

Definition NewController (root : option Durable.Root) (name : string) (ops sleep : bool) (term : Signal_) : result Controller :=
  match root with
  | None => Fail ErrPIDRecordInvalid
  | Some root =>
      if negb ops || negb sleep || (Base name !=s name) || (name ==s ".") || (name ==s "..") then Fail ErrPIDRecordInvalid
      else Ok (mkController root name term)
  end.

(** ** Operations *)

Definition world : Type := ((Durable.fs * nat) * list pevent)%type.
Definition P (T : Type) : Type := st world (result T).

Definition pret {T} (a : T) : P T := fun w => (Ok a, w).
Definition pfail {T} (e : error) : P T := fun w => (Fail e, w).
Definition plift {T} (r : result T) : P T := fun w => (r, w).
Definition on_root {T} (m : Durable.D T) : P T := fun w =>
  let '(d, log) := w in let '(r, d') := m d in (r, (d', log)).

Section Controller.
Context `{RecordCodec} (E : Durable.OS) (ops : Ops) (c : Controller).

(** The calls, as values: [let*] continues whatever they answer. *)
Definition Snapshot (pid : Z) : st world (result Record_) := fun w =>
  let '(d, log) := w in let a := op_Snapshot ops log pid in (a, (d, ESnapshot pid a :: log)).
Definition Signal (pid : Z) (s : Signal_) : st world (option error) := fun w =>
  let '(d, log) := w in let a := op_Signal ops log pid s in (a, (d, ESignal pid s a :: log)).
Definition Now : st world Z := fun w =>
  let '(d, log) := w in let t := op_Now ops log in (t, (d, ENow t :: log)).
Definition Sleep (duration : Z) : st world (option error) := fun w =>
  let '(d, log) := w in let a := op_Sleep ops log duration in (a, (d, ESleep duration a :: log)).
Definition Remove (payload : string) : st world (result bool) := fun w =>
  let '(d, log) := w in
  let '(r, d') := Durable.Remove E (c_root c) (c_name c) (Sum256 payload) d in (r, (d', ERemove r :: log)).

Definition WriteRecord (record : Record_) : P unit :=
  let? _ := plift (validateRecord record) in
  match record_Marshal record with
  | Fail _ => pfail ErrPIDRecordInvalid
  | Ok payload => on_root (Durable.WriteAtomic E (c_root c) (c_name c) payload)
  end.

Definition RemoveRecord (record : Record_) : P unit :=
  match record_Marshal record with
  | Fail _ => pfail ErrPIDRecordInvalid
  | Ok payload => let? _ := Remove payload in pret tt
  end.

(** [readRecord] after the read. *)
Definition decode_record (payload : string) : result Record_ :=
  if hasDuplicateTopLevelKey (record_tokens payload) then Fail ErrPIDRecordInvalid
  else
    match record_Decode payload with
    | Some (record, []) => _ ← validateRecord record; Ok record
    | _ => Fail ErrPIDRecordInvalid
    end.

(** The record and its payload, [None] when there is no file. *)
Definition readRecord : P (option (Record_ * string)) :=
  let? exists_ := on_root (Durable.Exists E (c_root c) (c_name c)) in
  if negb exists_ then pret None
  else
    let? payload := on_root (Durable.Read E (c_root c) (c_name c) maxPIDRecordBytes) in
    let? record := plift (decode_record payload) in
    pret (Some (record, payload)).

Definition poll_interval : Z := 50 * millisecond.

(** The loop of [waitForExit]; [None] when the fuel is used up. *)
Fixpoint wait_loop (fuel : nat) (target : Record_) (timeout deadline : Z) : st world (option (result bool)) :=
  match fuel with
  | O => st_ret None
  | S fuel =>
      let* snapshot := Snapshot (PID target) in
      match snapshot with
      | Fail e => st_ret (Some (if errors_Is e ErrProcessNotFound then Ok true else Fail ErrUncertainTarget))
      | Ok snapshot =>
          if negb (matches target snapshot) then st_ret (Some (Fail ErrUncertainTarget))
          else if timeout <=? 0 then st_ret (Some (Ok false))
          else
            let* now := Now in
            if negb (now <? deadline) then st_ret (Some (Ok false))
            else
              let* now := Now in
              let remaining := deadline - now in
              let remaining := if poll_interval <? remaining then poll_interval else remaining in
              let* err := Sleep remaining in
              match err with
              | Some e => st_ret (Some (Fail e))
              | None => wait_loop fuel target timeout deadline
              end
      end
  end.

(** Rounds after which the loop has ended: a round per poll interval, and two
    that find the deadline passed. *)
Definition wait_rounds (timeout : Z) : nat := (Z.to_nat (timeout / poll_interval) + 2)%nat.

Definition waitForExit (target : Record_) (timeout : Z) : P bool :=
  let* now := Now in
  let* r := wait_loop (wait_rounds timeout) target timeout (now + timeout) in
  plift (default (Fail (errors_New "fuel")) r).

(** Retiring the record, with the message of its failure. *)
Definition retire (format payload : string) : P bool :=
  let* r := Remove payload in
  match r with
  | Fail e => pfail (Wrapf format [] e)
  | Ok _ => pret true
  end.

(** The first signal and the wait after it: whether the process has exited. *)
Definition stop_first (existing : Record_) (termTimeout killTimeout : Z) : P bool :=
  if decide (c_termSignal c = SigKill) then
    let* signalErr := Signal (PID existing) SigKill in
    match signalErr with
    | Some e => if errors_Is e ErrProcessNotFound then pret true else pfail (Wrapf "kill supervised process: %w" [] e)
    | None => waitForExit existing killTimeout
    end
  else
    let* signalErr := Signal (PID existing) (c_termSignal c) in
    match signalErr with
    | Some e => if errors_Is e ErrProcessNotFound then pret true else pret false
    | None => waitForExit existing termTimeout
    end.

(** The kill after a termination signal that had no effect. *)
Definition stop_hard (existing : Record_) (killTimeout : Z) : P bool :=
  let* snapshot := Snapshot (PID existing) in
  match snapshot with
  | Fail _ => pfail ErrUncertainTarget
  | Ok snapshot =>
      if negb (matches existing snapshot) then pfail ErrUncertainTarget
      else
        let* signalErr := Signal (PID existing) SigKill in
        match signalErr with
        | Some e => pfail (Wrapf "kill supervised process: %w" [] e)
        | None => waitForExit existing killTimeout
        end
  end.

Definition Prepare (mode : Mode) (current : Record_) (termTimeout killTimeout : Z) : P bool :=
  let? _ := plift (validateRecord current) in
  let? found := readRecord in
  match found with
  | None => pret true
  | Some (existing, payload) =>
      let* snapshot := Snapshot (PID existing) in
      match snapshot with
      | Fail e =>
          if errors_Is e ErrProcessNotFound then retire "retire stale pid record: %w" payload
          else pfail ErrUncertainTarget
      | Ok snapshot =>
          if negb (matches existing snapshot) then pfail ErrUncertainTarget
          else
            match mode with
            | Start => pret false
            | Supervise =>
                let? exited := stop_first existing termTimeout killTimeout in
                let? exited := (if negb exited && negb (bool_decide (c_termSignal c = SigKill))
                                then stop_hard existing killTimeout else pret exited) in
                if negb exited then pfail ErrTerminationUnproven
                else retire "retire replaced pid record: %w" payload
            end
      end
  end.

End Controller.

End Process.
