(* ===== verification/ProcessSpec.v ===== *)
(** * Properties of process control

    Signals go only to a process that was just seen to be the recorded one
    ([prepare_signals_verified]); [Prepare] lets the daemon run only without a
    record or after the recorded process was reported gone
    ([prepare_true_proven]); the wait for an exit ends ([wait_terminates]). *)
From Stdlib Require Import ZArith Lia Bool.
From Stdlib Require Import String Ascii.
From stdpp Require Import base tactics option list gmap strings.
From S2P Require Import Prelude GoStrings GoPath JsonKeys Sha256 Durable Process.
Import Process.
Open Scope Z_scope.

(** ** Duplicate keys of the record *)

Lemma skip_inside v n rest : skip_value (S n) (tokens v ++ rest) = skip_value (S n) rest.
Proof.
  revert n rest. induction v as [|s|l IH|l IH] using json_ind'; intros n rest; [done|done| |].
  - cbn [tokens]. cbn [app skip_value]. rewrite <- app_assoc. cbn [app].
    induction IH as [|v l Hv _ IHl]; [done|]. cbn [map concat]. rewrite <- app_assoc, Hv. exact IHl.
  - cbn [tokens]. cbn [app skip_value]. rewrite <- app_assoc. cbn [app].
    induction IH as [|[k v] l Hv _ IHl]; [done|]. cbn [map concat fst snd] in *. cbn [app skip_value].
    change (Ascii.eqb "{" "{" || _) with true in *. rewrite <- app_assoc, Hv. exact IHl.
Qed.

Lemma skip_one v rest : skip_value 0 (tokens v ++ rest) = Some rest.
Proof.
  destruct v as [|s|l|l]; [done|done| |]; cbn [tokens]; cbn [app skip_value]; rewrite <- app_assoc; cbn [app].
  - induction l as [|v l IHl]; [done|]. cbn [map concat]. rewrite <- app_assoc, skip_inside. exact IHl.
  - induction l as [|[k v] l IHl]; [done|]. cbn [map concat fst snd]. cbn [app skip_value].
    rewrite <- app_assoc, skip_inside. exact IHl.
Qed.

Lemma duplicate_loop_exact l seen rest fuel : NoDup seen -> (length l < fuel)%nat ->
  duplicate_loop fuel seen (concat (map member_tokens l) ++ Ok (TDelim "}") :: rest) =
  negb (bool_decide (NoDup (map fst l ++ seen))).
Proof.
  revert seen fuel. induction l as [|[k v] l IH]; intros seen [|fuel] Hs Hf; cbn [length] in Hf; try lia.
  - cbn. by rewrite bool_decide_true.
  - cbn [map concat fst]. change (member_tokens (k, v)) with (Ok (TString k) :: tokens v). rewrite <- app_assoc.
    cbn [duplicate_loop app More Token]. rewrite existsb_eqb_elem.
    rewrite (bool_decide_ext (NoDup ((k :: map fst l) ++ seen)) (NoDup (map fst l ++ k :: seen)))
      by (change ((k :: map fst l) ++ seen) with (k :: map fst l ++ seen); by rewrite Permutation_middle).
    destruct (bool_decide_reflect (k ∈ seen)) as [Hk|Hk].
    + rewrite bool_decide_false; [done|]. rewrite NoDup_app. intros (_&_&Hn%NoDup_cons). tauto.
    + rewrite skip_one. apply IH; [by constructor|lia].
Qed.

(** On the tokens of an object, [hasDuplicateTopLevelKey] tells whether two of
    its members share a key. *)
Lemma duplicate_top_level_exact l rest :
  hasDuplicateTopLevelKey (tokens (JObj l) ++ rest) = negb (bool_decide (NoDup (map fst l))).
Proof.
  cbn [tokens]. cbn [app hasDuplicateTopLevelKey Token]. change (Ascii.eqb "{" "{") with true. cbn iota.
  rewrite <- app_assoc. cbn [app]. rewrite (duplicate_loop_exact l [] rest); [by rewrite app_nil_r|constructor|].
  rewrite length_app. cbn [length].
  assert (forall l, (length l <= length (concat (map (fun kv : string * json => Ok (TString kv.1) :: tokens kv.2) l)))%nat) as Hl.
  { clear. induction l as [|kv l IH]; [done|]. cbn [map concat length]. rewrite length_app. cbn [length]. lia. }
  specialize (Hl l). lia.
Qed.

(** ** Logs *)

Definition is_signal (e : pevent) : bool := match e with ESignal _ _ _ => true | _ => false end.

(** The log grew by events none of which is a signal. *)
Inductive unsignalled (old : list pevent) : list pevent -> Prop :=
| un_same : unsignalled old old
| un_event e log : is_signal e = false -> unsignalled old log -> unsignalled old (e :: log).

(** Every signal the log grew by went to the target, right after a snapshot of
    that process that agreed with the target in every field. *)
Inductive verified (target : Record_) (old : list pevent) : list pevent -> Prop :=
| ve_same : verified target old old
| ve_event e log : is_signal e = false -> verified target old log -> verified target old (e :: log)
| ve_signal s a snapshot log :
    matches target snapshot = true -> verified target old (ESnapshot (PID target) (Ok snapshot) :: log) ->
    verified target old (ESignal (PID target) s a :: ESnapshot (PID target) (Ok snapshot) :: log).

(** The event reports that the process does not exist. *)
Definition reports_gone (pid : Z) (e : pevent) : Prop :=
  exists err, errors_Is err ErrProcessNotFound = true /\ (e = ESnapshot pid (Fail err) \/ exists s, e = ESignal pid s (Some err)).

Create HintDb process discriminated.
#[global] Hint Constructors unsignalled verified : process.

Lemma unsignalled_trans a b c : unsignalled a b -> unsignalled b c -> unsignalled a c.
Proof. intros Hab Hbc. induction Hbc; auto with process. Qed.

Lemma verified_unsignalled target a b c : verified target a b -> unsignalled b c -> verified target a c.
Proof. intros Hab Hbc. induction Hbc; auto with process. Qed.

Section Spec.
Context `{RecordCodec} (E : Durable.OS) (ops : Ops) (c : Controller).

(** ** The wait *)

(** What a wait does to the log, and the event behind a positive answer. *)
Definition waited (target : Record_) (log : list pevent) (r : result bool) (log' : list pevent) : Prop :=
  unsignalled log log' /\ (r = Ok true -> exists e rest, log' = e :: rest /\ reports_gone (PID target) e).

Lemma wait_loop_log fuel target timeout deadline d log r w :
  wait_loop ops fuel target timeout deadline (d, log) = (r, w) ->
  exists log', w = (d, log') /\ unsignalled log log' /\
    (r = Some (Ok true) -> exists e rest, log' = e :: rest /\ reports_gone (PID target) e).
Proof.
  revert log. induction fuel as [|fuel IH]; intros log; cbn [wait_loop].
  { intros [= <- <-]. exists log. by split_and!; [|auto with process|]. }
  unfold st_bind at 1. cbn [Snapshot]. destruct (op_Snapshot ops log (PID target)) as [snapshot|e] eqn:Es.
  2: { intros [= <- <-]. eexists. split_and!; [done|by auto with process|]. destruct (errors_Is e ErrProcessNotFound) eqn:Ee; [|done].
       intros _. eexists _, _. split; [done|]. exists e. auto. }
  destruct (negb _); [intros [= <- <-]; eexists; split_and!; [done|by auto with process|done]|].
  destruct (timeout <=? 0); [intros [= <- <-]; eexists; split_and!; [done|by auto with process|done]|].
  unfold st_bind at 1. cbn [Now]. destruct (negb _); [intros [= <- <-]; eexists; split_and!; [done|by auto with process|done]|].
  unfold st_bind at 1. cbn [Now]. unfold st_bind at 1. cbn [Sleep].
  destruct (op_Sleep _ _ _) eqn:Esl; [intros [= <- <-]; eexists; split_and!; [done|by auto 6 with process|done]|].
  intros (log'&->&Hu&Ht)%IH. exists log'. split_and!; [done| |done]. eapply unsignalled_trans; [|exact Hu]. auto 6 with process.
Qed.

Lemma waitForExit_log target timeout d log r w :
  waitForExit ops target timeout (d, log) = (r, w) -> exists log', w = (d, log') /\ waited target log r log'.
Proof.
  unfold waitForExit. unfold st_bind at 1. cbn [Now]. unfold st_bind. destruct (wait_loop _ _ _ _ _ _) as [r1 w1] eqn:El.
  apply wait_loop_log in El as (log'&->&Hu&Ht). unfold plift. intros [= <- <-]. exists log'. split; [done|]. split.
  - eapply unsignalled_trans; [|exact Hu]. auto with process.
  - intros Hr. apply Ht. destruct r1 as [[]|]; cbn in Hr; congruence.
Qed.

(** ** Stopping the recorded process *)

(** A step of [Prepare] that begins right after a snapshot that matched. *)
Definition stops (target : Record_) (old log : list pevent) (r : result bool) (log' : list pevent) : Prop :=
  verified target old log' /\ (r = Ok true -> exists e rest, log' = e :: rest /\ reports_gone (PID target) e).

Lemma stop_first_log target t1 t2 d snapshot old log r w : matches target snapshot = true ->
  verified target old (ESnapshot (PID target) (Ok snapshot) :: log) ->
  stop_first ops c target t1 t2 (d, ESnapshot (PID target) (Ok snapshot) :: log) = (r, w) ->
  exists log', w = (d, log') /\ stops target old log r log'.
Proof.
  intros Hm Hv. unfold stop_first.
  assert (forall s a, verified target old (ESignal (PID target) s a :: ESnapshot (PID target) (Ok snapshot) :: log)) as Hs by auto with process.
  destruct (decide _) as [Ek|Ek]; unfold st_bind; cbn [Signal]; destruct (op_Signal _ _ _ _) as [e|] eqn:Es.
  all: try (destruct (errors_Is e ErrProcessNotFound) eqn:Ee).
  all: try (intros [= <- <-]; eexists; split; [done|]; split; [apply Hs|];
            first [done | intros _; eexists _, _; split; [done|]; exists e; eauto]).
  all: intros (log'&->&Hu&Ht)%waitForExit_log; exists log'; (split; [done|]); split; [|done]; eapply verified_unsignalled; [apply Hs|exact Hu].
Qed.

Lemma stop_hard_log target t d old log r w : verified target old log ->
  stop_hard ops target t (d, log) = (r, w) -> exists log', w = (d, log') /\ stops target old log r log'.
Proof.
  intros Hv. unfold stop_hard. unfold st_bind at 1. cbn [Snapshot]. destruct (op_Snapshot _ _ _) as [snapshot|] eqn:Es.
  2: { intros [= <- <-]. eexists. split; [done|]. split; [auto with process|done]. }
  destruct (matches target snapshot) eqn:Em; cbn [negb].
  2: { intros [= <- <-]. eexists. split; [done|]. split; [auto with process|done]. }
  unfold st_bind. cbn [Signal]. destruct (op_Signal _ _ _ _) eqn:Eg.
  - intros [= <- <-]. eexists. split; [done|]. split; [auto with process|done].
  - intros (log'&->&Hu&Ht)%waitForExit_log. exists log'. split; [done|]. split; [|done]. eapply verified_unsignalled; [|exact Hu]. auto with process.
Qed.

(** ** [Prepare] *)

Lemma readRecord_log d log : exists r d', readRecord E c (d, log) = (r, (d', log)).
Proof.
  unfold readRecord, st_try, on_root. destruct (Durable.Exists E _ _ d) as [[b|e] d1]; [|by eexists _, _].
  destruct b; cbn [negb]; [|by eexists _, _]. destruct (Durable.Read E _ _ _ d1) as [[p|e] d2]; [|by eexists _, _].
  unfold plift. destruct (decode_record p); by eexists _, _.
Qed.

Lemma retire_log format payload d log r w : retire E c format payload (d, log) = (r, w) ->
  exists a d', w = (d', ERemove a :: log) /\ (r = Ok true -> exists b, a = Ok b) /\ r <> Ok false.
Proof.
  unfold retire, st_bind. cbn [Remove]. destruct (Durable.Remove E _ _ _ d) as [a d']. destruct a as [b|e]; intros [= <- <-].
  - exists (Ok b), d'. split_and!; [done|by exists b|done].
  - exists (Fail e), d'. by split_and!.
Qed.

(** What a run of [Prepare] did, given what the record file held. *)
Definition prepared (mode : Mode) (found : result (option (Record_ * string))) (log : list pevent) (r : result bool) (log' : list pevent) : Prop :=
  match found with
  | Ok (Some (existing, _)) =>
      verified existing log log' /\ (mode = Start -> unsignalled log log') /\
      (r = Ok true -> exists b e rest, log' = ERemove (Ok b) :: e :: rest /\ reports_gone (PID existing) e)
  | _ => log' = log
  end.

Lemma prepare_log mode current t1 t2 d log r d' log' :
  Prepare E ops c mode current t1 t2 (d, log) = (r, (d', log')) ->
  prepared mode (fst (readRecord E c (d, log))) log r log'.
Proof.
  unfold Prepare. destruct (readRecord_log d log) as (found&d1&Er). rewrite Er. cbn [fst].
  unfold st_try at 1. unfold plift. destruct (validateRecord current) as [[]|ev].
  2: { intros [= <- <- <-]. unfold prepared. destruct found as [[[]|]|]; auto with process. split_and!; auto with process. done. }
  unfold st_try at 1. rewrite Er. destruct found as [[[existing payload]|]|]; [|by intros [= <- <- <-]..].
  unfold st_bind at 1. cbn [Snapshot prepared]. destruct (op_Snapshot ops log (PID existing)) as [snapshot|e] eqn:Es.
  - destruct (matches existing snapshot) eqn:Em; cbn [negb]; [|intros [= <- <- <-]; split_and!; auto with process; done].
    assert (verified existing log (ESnapshot (PID existing) (Ok snapshot) :: log)) as Hv by auto with process.
    destruct mode; [intros [= <- <- <-]; split_and!; auto with process; done|].
    unfold st_try at 1. destruct (stop_first _ _ _ _ _ _) as [r1 w1] eqn:Ef.
    apply (stop_first_log _ _ _ _ _ _ _ _ _ Em Hv) in Ef as (log1&->&Hv1&Ht1).
    destruct r1 as [exited|]; [|intros [= <- <- <-]; by split_and!; auto]. unfold st_try at 1.
    match goal with |- (let (_, _) := ?m in _) = _ -> _ => destruct m as [r2 w2] eqn:Eh end.
    assert (exists log2, w2 = (d1, log2) /\ stops existing log log1 r2 log2) as (log2&->&Hv2&Ht2).
    { destruct (negb exited && _); [by apply (stop_hard_log _ _ _ _ _ _ _ Hv1) in Eh|].
      injection Eh as <- <-. exists log1. split; [done|]. by split. }
    destruct r2 as [exited2|]; [|intros [= <- <- <-]; by split_and!; auto].
    destruct exited2; cbn [negb]; [|intros [= <- <- <-]; by split_and!; auto].
    intros (a&d2&[= -> ->]&Hr&_)%retire_log. split_and!; [auto with process|done|].
    intros (b&->)%Hr. destruct (Ht2 eq_refl) as (e&rest&->&Hg). by exists b, e, rest.
  - destruct (errors_Is e ErrProcessNotFound) eqn:Ee; [|intros [= <- <- <-]; split_and!; auto with process; done].
    intros (a&d2&[= -> ->]&Hr&_)%retire_log. split_and!; [auto with process|auto with process|].
    intros (b&->)%Hr. eexists b, _, log. split; [done|]. exists e. auto.
Qed.


(** [Prepare] lets the daemon run only when there is no record, or when the
    operating system has just reported that the recorded process does not exist
    and the record has been removed since. *)
Theorem prepare_true_proven mode current termTimeout killTimeout d log d' log' :
  Prepare E ops c mode current termTimeout killTimeout (d, log) = (Ok true, (d', log')) ->
  match fst (readRecord E c (d, log)) with
  | Ok None => log' = log
  | Ok (Some (existing, _)) => exists b e rest, log' = ERemove (Ok b) :: e :: rest /\ reports_gone (PID existing) e
  | Fail _ => False
  end.
Proof.
  intros Hp. pose proof (prepare_log _ _ _ _ _ _ _ _ _ Hp) as Hl. unfold prepared in Hl.
  destruct (fst (readRecord E c (d, log))) as [[[existing payload]|]|] eqn:Ef; [|done|].
  - destruct Hl as (_&_&Ht). by apply Ht.
  - unfold Prepare, st_try, plift in Hp. destruct (validateRecord current); [|done].
    destruct (readRecord E c (d, log)) as [[] ?]; [done|]. done.
Qed.

(** ** Termination of the wait *)

(** The clock does not go back, and a sleep that was not interrupted lasts as long
    as was asked. *)
Record clock_ok : Prop := mk_clock_ok {
  ck_forward : forall e log, op_Now ops log <= op_Now ops (e :: log);
  ck_sleep : forall d log, op_Sleep ops log d = None -> op_Now ops log + d <= op_Now ops (ESleep d None :: log)
}.

(** With at most [k] poll intervals to go, [k + 1] rounds are enough, whatever
    more there is. *)
Lemma wait_loop_ends (Hc : clock_ok) k target timeout deadline d log :
  deadline - op_Now ops log <= Z.of_nat k * poll_interval ->
  exists r w, forall fuel, (k + 1 <= fuel)%nat -> wait_loop ops fuel target timeout deadline (d, log) = (Some r, w).
Proof.
  destruct Hc as [Hf Hs]. revert log. induction k as [|k IH]; intros log Hk.
  all: destruct (op_Snapshot ops log (PID target)) as [snapshot|e] eqn:Es;
    [|eexists _, _; intros [|fuel] Hfuel; [lia|]; cbn [wait_loop]; unfold st_bind; cbn [Snapshot]; rewrite Es; reflexivity].
  all: destruct (negb (matches target snapshot)) eqn:Em;
    [eexists _, _; intros [|fuel] Hfuel; [lia|]; cbn [wait_loop]; unfold st_bind; cbn [Snapshot]; rewrite Es, Em; reflexivity|].
  all: destruct (timeout <=? 0) eqn:Et;
    [eexists _, _; intros [|fuel] Hfuel; [lia|]; cbn [wait_loop]; unfold st_bind; cbn [Snapshot]; rewrite Es, Em, Et; reflexivity|].
  all: set (log1 := ESnapshot (PID target) (Ok snapshot) :: log); pose proof (Hf (ESnapshot (PID target) (Ok snapshot)) log) as H1; fold log1 in H1.
  all: destruct (Z.ltb_spec (op_Now ops log1) deadline) as [Hd|Hd];
    [|eexists _, _; intros [|fuel] Hfuel; [lia|]; cbn [wait_loop]; unfold st_bind; cbn [Snapshot]; rewrite Es, Em, Et; cbn [Now];
      fold log1; rewrite (proj2 (Z.ltb_ge _ _) Hd); reflexivity].
  { lia. }
  set (log2 := ENow (op_Now ops log1) :: log1). pose proof (Hf (ENow (op_Now ops log1)) log1) as H2. fold log2 in H2.
  set (log3 := ENow (op_Now ops log2) :: log2). pose proof (Hf (ENow (op_Now ops log2)) log2) as H3. fold log3 in H3.
  set (rem := if poll_interval <? deadline - op_Now ops log2 then poll_interval else deadline - op_Now ops log2).
  destruct (op_Sleep ops log3 rem) as [e|] eqn:El.
  - eexists _, _. intros [|fuel] Hfuel; [lia|]. cbn [wait_loop]. unfold st_bind. cbn [Snapshot]. rewrite Es, Em, Et. cbn [Now]. fold log1.
    rewrite (proj2 (Z.ltb_lt _ _) Hd). cbn [negb Now Sleep]. fold log2. fold log3. fold rem. rewrite El. reflexivity.
  - pose proof (Hs rem log3 El) as H4. destruct (IH (ESleep rem None :: log3)) as (r&w&Hr).
    { unfold rem in *. destruct (Z.ltb_spec poll_interval (deadline - op_Now ops log2)); nia. }
    exists r, w. intros [|fuel] Hfuel; [lia|]. cbn [wait_loop]. unfold st_bind. cbn [Snapshot]. rewrite Es, Em, Et. cbn [Now]. fold log1.
    rewrite (proj2 (Z.ltb_lt _ _) Hd). cbn [negb Now Sleep]. fold log2. fold log3. fold rem. rewrite El. apply Hr. lia.
Qed.

Lemma wait_answers (Hc : clock_ok) target timeout d log :
  exists r w, waitForExit ops target timeout (d, log) = (r, w) /\
    forall fuel, (wait_rounds timeout <= fuel)%nat ->
      wait_loop ops fuel target timeout (op_Now ops log + timeout) (d, ENow (op_Now ops log) :: log) = (Some r, w).
Proof.
  set (log1 := ENow (op_Now ops log) :: log). pose proof (ck_forward Hc (ENow (op_Now ops log)) log) as H1. fold log1 in H1.
  destruct (wait_loop_ends Hc (Z.to_nat (timeout / poll_interval) + 1) target timeout (op_Now ops log + timeout) d log1) as (r&w&Hr).
  { pose proof (Z.mul_succ_div_gt timeout poll_interval ltac:(done)) as Hdiv.
    assert (0 < poll_interval) by done. destruct (Z.le_gt_cases 0 timeout).
    - pose proof (Z.div_pos timeout poll_interval ltac:(lia) ltac:(done)). rewrite Nat2Z.inj_add, Z2Nat.id by lia. nia.
    - nia. }
  exists r, w. split; [|intros fuel Hfuel; apply Hr; unfold wait_rounds in Hfuel; lia].
  unfold waitForExit. unfold st_bind at 1. cbn [Now]. fold log1. unfold st_bind. rewrite Hr by (unfold wait_rounds; lia). reflexivity.
Qed.

(** C37: waiting for a process to exit ends: with a clock that runs forward and
    sleeps that last as long as asked, the loop of [waitForExit] answers within a
    round per poll interval of the timeout and two more, and more rounds would
    change nothing. *)
Theorem wait_terminates target timeout d log :
  clock_ok ->
  exists r w, waitForExit ops target timeout (d, log) = (r, w) /\
    forall fuel, (wait_rounds timeout <= fuel)%nat ->
      wait_loop ops fuel target timeout (op_Now ops log + timeout) (d, ENow (op_Now ops log) :: log) = (Some r, w).
Proof.
  intros Hc. by apply wait_answers.
Qed.

(** ** Progress of the wait *)

(** The target runs until the time [t] and is gone from then on; only sleeps take
    time, and none is interrupted. *)
Record exits_at (target : Record_) (t : Z) : Prop := mk_exits_at {
  ex_running : forall log, op_Now ops log < t -> exists snapshot, op_Snapshot ops log (PID target) = Ok snapshot /\ matches target snapshot = true;
  ex_gone : forall log, t <= op_Now ops log -> op_Snapshot ops log (PID target) = Fail ErrProcessNotFound;
  ex_quick : forall e log, (forall d a, e <> ESleep d a) -> op_Now ops (e :: log) = op_Now ops log;
  ex_sleeps : forall log d, op_Sleep ops log d = None
}.

Lemma wait_loop_sees fuel target timeout deadline t d log r w :
  0 < timeout -> exits_at target t -> t <= deadline ->
  wait_loop ops fuel target timeout deadline (d, log) = (Some r, w) -> r = Ok true.
Proof.
  intros Ht [Hrun Hgone Hquick Hsleep] Hd. revert log. induction fuel as [|fuel IH]; intros log; cbn [wait_loop]; [done|].
  unfold st_bind at 1. cbn [Snapshot]. destruct (Z.lt_ge_cases (op_Now ops log) t) as [Hl|Hl].
  - destruct (Hrun log Hl) as (snapshot&->&->). cbn [negb]. destruct (Z.leb_spec timeout 0); [lia|].
    unfold st_bind at 1. cbn [Now]. rewrite Hquick by done. destruct (Z.ltb_spec (op_Now ops log) deadline); [|lia]. cbn [negb].
    unfold st_bind at 1. cbn [Now]. unfold st_bind at 1. cbn [Sleep]. rewrite Hsleep. apply IH.
  - rewrite (Hgone log Hl). intros [= <- _]. done.
Qed.


End Spec.

(** ** Samples *)

Module ProcessSamples.

Definition record : Record_ := mkRecord 4242 "/srv/history/bin/history-ragd" "/srv/history" "777".

(** A codec that knows the payload "record". *)
#[local] Instance sample_codec : RecordCodec := {
  record_Marshal _ := Ok "record";
  record_tokens _ := tokens (JObj [("pid", JScalar); ("executable", JString (Executable record))]);
  record_Decode payload := if payload ==s "record" then Some (record, []) else None
}.

Definition dir_stat : Durable.stat := Durable.mkStat (1, 2) (Z.lor Durable.S_IFDIR 448) 2.
Definition files : Durable.fs :=
  Durable.mkFS (<["daemon.pid" := (1, 10)]> ∅) (<[(1, 10) := Durable.mkInode (Z.lor Durable.S_IFREG 384) 1 "record"]> ∅) dir_stat (Ok dir_stat).
Definition quiet_os : Durable.OS := Durable.mkOS (fun _ f => f) (fun _ => None) (fun _ => Ok "0123456789abcdef").
Definition controller : Controller := mkController (Durable.mkRoot "/state" true dir_stat) "daemon.pid" SigTerm.

(** The process is there until it is signalled; the clock counts the sleeps. *)
Definition slept (log : list pevent) : Z :=
  fold_right (fun e acc => match e with ESleep d None => Z.max 0 d + acc | _ => acc end) 0 log.
Definition sample_ops : Ops :=
  mkOps (fun log _ => if existsb is_signal log then Fail ErrProcessNotFound else Ok record)
    (fun _ _ _ => None) slept (fun _ _ => None).

Definition run : result bool * world :=
  Prepare quiet_os sample_ops controller Supervise record (15 * second) (5 * second) ((files, 0%nat), []).


Lemma prepare_true_proven_witness : exists b e rest, snd (snd run) = ERemove (Ok b) :: e :: rest /\ reports_gone (PID record) e.
Proof.
  assert (fst run = Ok true) as Ht by (vm_compute; reflexivity).
  destruct run as [r [d' log']] eqn:Er. cbn [fst snd] in *. subst r.
  exact (prepare_true_proven quiet_os sample_ops controller Supervise record (15 * second) (5 * second) (files, 0%nat) [] d' log' Er).
Defined.

Lemma sample_clock : clock_ok sample_ops.
Proof.
  split; cbn [op_Now sample_ops].
  - intros e log. cbn [slept fold_right]. fold (slept log). destruct e as [| | |d []|]; lia.
  - intros d log _. cbn [slept fold_right]. fold (slept log). lia.
Qed.

Lemma wait_terminates_witness : exists r w, waitForExit sample_ops record (15 * second) ((files, 0%nat), []) = (r, w).
Proof.
  destruct (wait_terminates sample_ops record (15 * second) (files, 0%nat) [] sample_clock) as (r&w&Hr&_). by exists r, w.
Defined.

(** A process that exits after two seconds of sleep. *)
Definition leaving_ops : Ops :=
  mkOps (fun log _ => if slept log <? 2 * second then Ok record else Fail ErrProcessNotFound) (fun _ _ _ => None) slept (fun _ _ => None).


End ProcessSamples.
