(* ===== verification/ProcessSystem.v ===== *)
(** * The process table

    [internal/history/process/system_unix.go] and [system_windows.go]: the
    snapshot of a process from procfs, from [ps] and [lsof], or from the Windows
    process functions, the signals, and the record of the current process. *)
From Stdlib Require Import ZArith Lia Bool.
From Stdlib Require Import String Ascii.
From stdpp Require Import base tactics option list gmap strings.
From S2P Require Import Prelude GoStrings GoPath JsonKeys Sha256 Durable GoScan Process ProcessSpec.
Open Scope Z_scope.
Import Process.

Module ProcessSystem.

(** ** Unix *)

Definition ESRCH : error := Sentinel "ESRCH".
Definition os_ErrProcessDone : error := Sentinel "os.ErrProcessDone".

(** [filepath.EvalSymlinks], [os.ReadFile], [syscall.Kill(pid, 0)], [os.Getpid],
    [os.FindProcess], [Process.Signal], and the output of a command. *)
Record SysEnv : Type := mkSysEnv {
  se_GOOS : string;
  se_EvalSymlinks : string -> result string;
  se_ReadFile : string -> result string;
  se_Kill0 : Z -> option error;
  se_Getpid : Z;
  se_FindProcess : Z -> option error;
  se_Signal : Z -> Signal_ -> option error;
  se_Output : string -> list string -> result string
}.

Definition linuxSnapshotFromProc (e : SysEnv) (procRoot : string) (pid : Z) : result Record_ :=
  let base := Join2 procRoot (Itoa pid) in
  executable ← se_EvalSymlinks e (Join2 base "exe");
  checkout ← se_EvalSymlinks e (Join2 base "cwd");
  stat ← se_ReadFile e (Join2 base "stat");
  let closing := LastIndex stat ")" in
  if closing <? 0 then Fail ErrUncertainTarget
  else
    let fields := Fields (slice_from stat (closing + 1)) in
    match fields !! 19%nat with
    | None => Fail ErrUncertainTarget
    | Some start => Ok (mkRecord pid executable checkout start)
    end.

Definition ps_arguments (pid : Z) : list string := ["-ww"; "-p"; Itoa pid; "-o"; "lstart="; "-o"; "command="].
Definition lsof_arguments (pid : Z) : list string := ["-a"; "-p"; Itoa pid; "-d"; "cwd"; "-Fn"].

(** The loop over the lines of [lsof]: the first that names an absolute path. *)
Definition lsof_directory (output : string) : string :=
  match List.find (fun line => HasPrefix line "n/") (fst (ScanLines output)) with
  | Some line => TrimPrefix line "n"
  | None => ""
  end.

Definition darwinSnapshotFromCommands (e : SysEnv) (pid : Z) : result Record_ :=
  match se_Output e "ps" (ps_arguments pid) with
  | Fail _ => Fail ErrProcessNotFound
  | Ok psOutput =>
      let fields := Fields psOutput in
      match fields !! 5%nat with
      | None => Fail ErrUncertainTarget
      | Some executable =>
          if negb (IsAbs executable) then Fail ErrUncertainTarget
          else
            match se_EvalSymlinks e executable with
            | Fail _ => Fail ErrUncertainTarget
            | Ok executable =>
                match se_Output e "lsof" (lsof_arguments pid) with
                | Fail _ => Fail ErrUncertainTarget
                | Ok lsofOutput =>
                    let checkout := lsof_directory lsofOutput in
                    if checkout ==s "" then Fail ErrUncertainTarget
                    else
                      match se_EvalSymlinks e checkout with
                      | Fail _ => Fail ErrUncertainTarget
                      | Ok checkout => Ok (mkRecord pid executable checkout (Join (take 5 fields) " "))
                      end
                end
            end
      end
  end.

Definition systemSnapshotForOS (e : SysEnv) (goos : string) (pid : Z) : result Record_ :=
  if goos ==s "linux" then linuxSnapshotFromProc e "/proc" pid
  else if goos ==s "darwin" then darwinSnapshotFromCommands e pid
  else Fail ErrUncertainTarget.

(** [SystemOps.Snapshot] and [SystemOps.Signal]. *)
Definition system_Snapshot (e : SysEnv) (pid : Z) : result Record_ :=
  match se_Kill0 e pid with
  | Some err => if errors_Is err ESRCH then Fail ErrProcessNotFound else Fail err
  | None => systemSnapshotForOS e (se_GOOS e) pid
  end.

Definition system_Signal (e : SysEnv) (pid : Z) (s : Signal_) : option error :=
  match se_FindProcess e pid with
  | Some err => Some err
  | None =>
      match se_Signal e pid s with
      | Some err => if errors_Is err os_ErrProcessDone then Some ErrProcessNotFound else Some err
      | None => None
      end
  end.

Definition unix_terminationSignal : Signal_ := SigTerm.

Definition CurrentRecord (e : SysEnv) (snapshot : Z -> result Record_) (executable checkoutRoot : string) : result Record_ :=
  match snapshot (se_Getpid e) with
  | Fail err => Fail (Wrapf "inspect current process: %w" [] err)
  | Ok snapshot =>
      match se_EvalSymlinks e executable with
      | Fail _ => Fail ErrUncertainTarget
      | Ok resolvedExecutable =>
          if resolvedExecutable !=s Executable snapshot then Fail ErrUncertainTarget
          else
            match se_EvalSymlinks e checkoutRoot with
            | Fail _ => Fail ErrUncertainTarget
            | Ok resolvedCheckout =>
                if resolvedCheckout !=s CheckoutRoot snapshot then Fail ErrUncertainTarget else Ok snapshot
            end
      end
  end.

(** The operations of [SystemOps] over an operating system whose answers may
    depend on everything that was asked before. *)
Definition unix_ops (e : list pevent -> SysEnv) (now : list pevent -> Z) (sleep : list pevent -> Z -> option error) : Ops :=
  mkOps (fun log => system_Snapshot (e log)) (fun log => system_Signal (e log)) now sleep.

(** ** Windows *)

Definition ERROR_INVALID_PARAMETER : error := Sentinel "ERROR_INVALID_PARAMETER".

(** The process functions of Windows by process identifier, a DWORD; the image
    name is a path after [filepath.Clean]; the creation time is in nanoseconds,
    an int64. *)
Record WinEnv : Type := mkWinEnv {
  wi_OpenProcess : Z -> option error;
  wi_ImageName : Z -> result string;
  wi_CreationTime : Z -> result Z;
  wi_EvalSymlinks : string -> result string;
  wi_Rel : string -> string -> option string;
  wi_IsAbs : string -> bool;
  wi_Getpid : Z;
  wi_FindProcess : Z -> option error;
  wi_Kill : Z -> option error
}.

(** [SystemOps]: what [CurrentRecord] found. *)
Record SystemOps : Type := mkSystemOps { expectedExecutable : string; expectedCheckout : string }.
Definition NewSystemOps : SystemOps := mkSystemOps "" "".

Definition dword (z : Z) : Z := z mod 2 ^ 32.

Definition windows_Signal (e : WinEnv) (pid : Z) (s : Signal_) : option error :=
  if decide (s = SigKill) then
    match wi_FindProcess e pid with
    | Some err => Some err
    | None =>
        match wi_Kill e pid with
        | Some err => if errors_Is err os_ErrProcessDone then Some ErrProcessNotFound else Some err
        | None => None
        end
    end
  else Some ErrUncertainTarget.

Definition windows_Snapshot (e : WinEnv) (ops : SystemOps) (pid : Z) : result Record_ :=
  match wi_OpenProcess e (dword pid) with
  | Some err => if errors_Is err ERROR_INVALID_PARAMETER then Fail ErrProcessNotFound else Fail err
  | None =>
      executable ← wi_ImageName e (dword pid);
      creation ← wi_CreationTime e (dword pid);
      if (expectedExecutable ops ==s "") || (executable !=s expectedExecutable ops) then Fail ErrUncertainTarget
      else Ok (mkRecord pid executable (expectedCheckout ops) (Itoa creation))
  end.

Definition windows_terminationSignal : Signal_ := SigKill.

(** [CurrentRecord], with the new state of the operations. *)
Definition windows_CurrentRecord (e : WinEnv) (ops : SystemOps) (executable checkoutRoot : string) : result Record_ * SystemOps :=
  match wi_EvalSymlinks e executable with
  | Fail _ => (Fail ErrUncertainTarget, ops)
  | Ok resolvedExecutable =>
      match wi_EvalSymlinks e checkoutRoot with
      | Fail _ => (Fail ErrUncertainTarget, ops)
      | Ok resolvedCheckout =>
          match wi_Rel e resolvedCheckout resolvedExecutable with
          | None => (Fail ErrUncertainTarget, ops)
          | Some relative =>
              if (relative ==s ".") || (relative ==s "..") || wi_IsAbs e relative then (Fail ErrUncertainTarget, ops)
              else
                let ops := mkSystemOps resolvedExecutable resolvedCheckout in
                match windows_Snapshot e ops (wi_Getpid e) with
                | Fail err => (Fail (Wrapf "inspect current process: %w" [] err), ops)
                | Ok snapshot => (Ok snapshot, ops)
                end
          end
      end
  end.

Definition windows_ops (e : list pevent -> WinEnv) (ops : SystemOps) (now : list pevent -> Z) (sleep : list pevent -> Z -> option error) : Ops :=
  mkOps (fun log => windows_Snapshot (e log) ops) (fun log => windows_Signal (e log)) now sleep.

(** ** Examples *)

(** The start time is the 22nd field of the stat line, whatever the name of the
    command. *)
Example stat_line : linuxSnapshotFromProc
  (mkSysEnv "linux" (fun path => Ok (if Base path ==s "exe" then "/srv/h/bin/d" else "/srv/h"))
     (fun _ => Ok "42 (a ) b) S 1 42 42 0 -1 4194560 1 2 3 4 5 6 7 8 20 0 1 0 98765 11 12") (fun _ => None) 42
     (fun _ => None) (fun _ _ => None) (fun _ _ => Fail ErrProcessNotFound)) "/proc" 42 =
  Ok (mkRecord 42 "/srv/h/bin/d" "/srv/h" "98765").
Proof. vm_compute. reflexivity. Qed.

Definition newline : string := String (ascii_of_N 10) "".

(** What [ps] and [lsof] print. *)
Example darwin_output : darwinSnapshotFromCommands
  (mkSysEnv "darwin" (fun path => Ok path) (fun _ => Ok "") (fun _ => None) 42 (fun _ => None) (fun _ _ => None)
     (fun name _ => Ok (if name ==s "ps" then "Mon Jan  5 09:00:01 2026     /srv/h/bin/d start --config /srv/h/c" +:+ newline
                        else "p42" +:+ newline +:+ "fcwd" +:+ newline +:+ "n/srv/h" +:+ newline))) 42 =
  Ok (mkRecord 42 "/srv/h/bin/d" "/srv/h" "Mon Jan 5 09:00:01 2026").
Proof. vm_compute. reflexivity. Qed.

End ProcessSystem.

(** ** Properties of the process table

    When a second daemon takes over, what the operating system said about the
    first ([takeover_grounds]), and the case in which it is taken for gone although
    it is there ([ps_failure_takes_over]). *)
Import Process ProcessSystem.

(** ** Answered logs *)

Section Answered.
Context `{RecordCodec} (E : Durable.OS) (ops : Ops) (c : Controller).

(** Every snapshot and every signal the log grew by has the answer that the
    operating system gives after the events before it. *)
Inductive answered (old : list pevent) : list pevent -> Prop :=
| an_same : answered old old
| an_snapshot pid log : answered old log -> answered old (ESnapshot pid (op_Snapshot ops log pid) :: log)
| an_signal pid s log : answered old log -> answered old (ESignal pid s (op_Signal ops log pid s) :: log)
| an_other e log : match e with ESnapshot _ _ | ESignal _ _ _ => False | _ => True end ->
    answered old log -> answered old (e :: log).

Lemma answered_trans l1 l2 l3 : answered l1 l2 -> answered l2 l3 -> answered l1 l3.
Proof. intros H1. induction 1; [done|by constructor..]. Qed.

(** Computations that only add answered events. *)
Definition tracks {T} (m : st world T) : Prop := forall w r w', m w = (r, w') -> answered (snd w) (snd w').

Lemma tracks_ret {T} (a : T) : tracks (st_ret a).
Proof. intros w r w' [= _ <-]. constructor. Qed.
Lemma tracks_pure {T} (r : result T) : tracks (fun w => (r, w)).
Proof. intros w x w' [= _ <-]. constructor. Qed.
Lemma tracks_bind {T U} (m : st world T) (k : T -> st world U) : tracks m -> (forall a, tracks (k a)) -> tracks (st_bind m k).
Proof.
  intros Hm Hk w r w'. unfold st_bind. destruct (m w) as [a w1] eqn:E1. intros H2.
  eapply answered_trans; [by eapply Hm|by eapply Hk].
Qed.
Lemma tracks_try {T U} (m : P T) (k : T -> P U) : tracks m -> (forall a, tracks (k a)) -> tracks (st_try m k).
Proof.
  intros Hm Hk w r w'. unfold st_try. destruct (m w) as [[a|e] w1] eqn:E1; [intros H2|intros [= _ <-]; by eapply Hm].
  eapply answered_trans; [by eapply Hm|by eapply Hk].
Qed.
Lemma tracks_root {T} (m : Durable.D T) : tracks (on_root m).
Proof. intros [d log] r w'. unfold on_root. destruct (m d). intros [= _ <-]. constructor. Qed.
Lemma tracks_Snapshot pid : tracks (Snapshot ops pid).
Proof. intros [d log] r w' [= _ <-]. do 2 constructor. Qed.
Lemma tracks_Signal pid s : tracks (Signal ops pid s).
Proof. intros [d log] r w' [= _ <-]. do 2 constructor. Qed.
Lemma tracks_Now : tracks (Now ops).
Proof. intros [d log] r w' [= _ <-]. by do 2 constructor. Qed.
Lemma tracks_Sleep n : tracks (Sleep ops n).
Proof. intros [d log] r w' [= _ <-]. by do 2 constructor. Qed.
Lemma tracks_Remove payload : tracks (Remove E c payload).
Proof. intros [d log] r w'. unfold Remove. destruct (Durable.Remove _ _ _ _ d). intros [= _ <-]. by do 2 constructor. Qed.

Create HintDb tracks discriminated.
#[local] Hint Resolve tracks_ret tracks_pure tracks_bind tracks_try tracks_root tracks_Snapshot tracks_Signal tracks_Now tracks_Sleep tracks_Remove : tracks.
#[local] Hint Extern 1 (tracks (pret _)) => apply tracks_pure : tracks.
#[local] Hint Extern 1 (tracks (pfail _)) => apply tracks_pure : tracks.
#[local] Hint Extern 1 (tracks (plift _)) => apply tracks_pure : tracks.
#[local] Hint Extern 2 (tracks (match ?x with _ => _ end)) => destruct x : tracks.

Lemma tracks_wait_loop fuel target timeout deadline : tracks (wait_loop ops fuel target timeout deadline).
Proof. induction fuel as [|fuel IH]; cbn [wait_loop]; auto 20 with tracks. Qed.
#[local] Hint Resolve tracks_wait_loop : tracks.

Lemma tracks_waitForExit target timeout : tracks (waitForExit ops target timeout).
Proof. unfold waitForExit. auto with tracks. Qed.
#[local] Hint Resolve tracks_waitForExit : tracks.

Lemma tracks_Prepare mode current t1 t2 : tracks (Prepare E ops c mode current t1 t2).
Proof. unfold Prepare, readRecord, stop_first, stop_hard, retire. auto 40 with tracks. Qed.

(** What is behind a positive answer of [Prepare]. *)
Lemma prepare_grounds mode current t1 t2 d d' log' :
  Prepare E ops c mode current t1 t2 (d, []) = (Ok true, (d', log')) ->
  match fst (readRecord E c (d, [])) with
  | Ok None => True
  | Ok (Some (existing, _)) => exists before err, errors_Is err ErrProcessNotFound = true /\
      (op_Snapshot ops before (PID existing) = Fail err \/ exists s, op_Signal ops before (PID existing) s = Some err)
  | Fail _ => False
  end.
Proof.
  intros Hp. pose proof (tracks_Prepare _ _ _ _ _ _ _ Hp) as Ha. cbn [snd] in Ha. pose proof (prepare_log _ _ _ _ _ _ _ _ _ _ _ _ Hp) as Hl.
  unfold prepared in Hl. destruct (fst (readRecord E c (d, []))) as [[[existing payload]|]|] eqn:Ef; [|done|].
  - destruct Hl as (_&_&Ht). destruct (Ht eq_refl) as (b&e&rest&->&err&Herr&He). exists rest, err. split; [done|].
    inversion Ha as [| | |? ? _ Ha']; subst. destruct He as [->|(s&->)]; inversion Ha'; subst; [by left|done|right; by exists s|done].
  - unfold Prepare, st_try, plift in Hp. destruct (validateRecord current); [|done]. destruct (readRecord E c (d, [])) as [[] ?]; done.
Qed.
End Answered.

(** ** What stands behind a takeover *)

Definition foreign (err : error) : Prop := errors_Is err ErrProcessNotFound = false.

(** No error of the operating system is the program's own [ErrProcessNotFound]. *)
Record os_errors (e : SysEnv) : Prop := mk_os_errors {
  oe_symlinks : forall path err, se_EvalSymlinks e path = Fail err -> foreign err;
  oe_read : forall path err, se_ReadFile e path = Fail err -> foreign err;
  oe_kill : forall pid err, se_Kill0 e pid = Some err -> foreign err;
  oe_find : forall pid err, se_FindProcess e pid = Some err -> foreign err;
  oe_signal : forall pid s err, se_Signal e pid s = Some err -> foreign err
}.

(** What the system has said of a process that is taken for gone. *)
Inductive gone (e : SysEnv) (pid : Z) : Prop :=
| gone_kill err : se_Kill0 e pid = Some err -> errors_Is err ESRCH = true -> gone e pid
| gone_done s err : se_Signal e pid s = Some err -> errors_Is err os_ErrProcessDone = true -> gone e pid
| gone_ps err : se_GOOS e = "darwin" -> se_Kill0 e pid = None -> se_Output e "ps" (ps_arguments pid) = Fail err -> gone e pid.

Ltac settle := repeat (case_match || simplify_eq/=); try done; eauto.

Lemma linux_foreign e root pid err : os_errors e -> linuxSnapshotFromProc e root pid = Fail err -> foreign err.
Proof.
  intros [Hs Hr _ _ _]. unfold linuxSnapshotFromProc, mbind, result_bind.
  destruct (se_EvalSymlinks e _) eqn:E1; [|intros [= <-]; eauto].
  destruct (se_EvalSymlinks e (Join2 _ "cwd")) eqn:E2; [|intros [= <-]; eauto].
  destruct (se_ReadFile e _) eqn:E3; [|intros [= <-]; eauto]. intros H. settle.
Qed.

Lemma darwin_not_found e pid err : darwinSnapshotFromCommands e pid = Fail err -> errors_Is err ErrProcessNotFound = true ->
  exists err', se_Output e "ps" (ps_arguments pid) = Fail err'.
Proof.
  unfold darwinSnapshotFromCommands. destruct (se_Output e "ps" _) eqn:E1; [|eauto]. intros H1 H2. settle.
Qed.

Lemma snapshot_gone e pid err : os_errors e -> system_Snapshot e pid = Fail err -> errors_Is err ErrProcessNotFound = true -> gone e pid.
Proof.
  intros He. unfold system_Snapshot, systemSnapshotForOS. destruct (se_Kill0 e pid) as [k|] eqn:Ek.
  - destruct (errors_Is k ESRCH) eqn:Ei; [intros _ _; by eapply gone_kill|].
    intros [= <-]. by rewrite (oe_kill e He _ _ Ek).
  - destruct (se_GOOS e ==s "linux"); [intros H1; by rewrite (linux_foreign _ _ _ _ He H1)|].
    destruct (se_GOOS e ==s "darwin") eqn:Eg; [|by intros [= <-]].
    intros H1 H2. destruct (darwin_not_found _ _ _ H1 H2) as [err' Hp]. apply String.eqb_eq in Eg. by eapply gone_ps.
Qed.

Lemma signal_gone e pid s err : os_errors e -> system_Signal e pid s = Some err -> errors_Is err ErrProcessNotFound = true -> gone e pid.
Proof.
  intros He. unfold system_Signal. destruct (se_FindProcess e pid) eqn:Ef; [intros [= <-]; by rewrite (oe_find e He _ _ Ef)|].
  destruct (se_Signal e pid s) as [k|] eqn:Es; [|done]. destruct (errors_Is k os_ErrProcessDone) eqn:Ei.
  - intros _ _. by eapply gone_done.
  - intros [= <-]. by rewrite (oe_signal e He _ _ _ Es).
Qed.

Section Takeover.
Context `{RecordCodec} (E : Durable.OS) (c : Controller) (e : list pevent -> SysEnv).
Context (now : list pevent -> Z) (sleep : list pevent -> Z -> option error).


(** On macOS, when the [ps] command fails (it is missing, or the system is out
    of processes) while the null signal reaches the recorded process, [Prepare]
    takes the process for gone in either mode: it sends no signal, removes the
    record and answers as if the record were stale. *)
Theorem ps_failure_takes_over mode current t1 t2 d d1 existing payload err :
  validateRecord current = Ok tt ->
  readRecord E c (d, []) = (Ok (Some (existing, payload)), (d1, [])) ->
  se_GOOS (e []) = "darwin" -> se_Kill0 (e []) (PID existing) = None ->
  se_Output (e []) "ps" (ps_arguments (PID existing)) = Fail err ->
  Prepare E (unix_ops e now sleep) c mode current t1 t2 (d, []) =
  retire E c "retire stale pid record: %w" payload (d1, [ESnapshot (PID existing) (Fail ErrProcessNotFound)]).
Proof.
  intros Hv Hr Hg Hk Ho.
  assert (system_Snapshot (e []) (PID existing) = Fail ErrProcessNotFound) as Hs.
  { unfold system_Snapshot, systemSnapshotForOS, darwinSnapshotFromCommands. by rewrite Hk, Hg, Ho. }
  unfold Prepare, plift, st_try, st_bind, Snapshot. cbn [op_Snapshot unix_ops]. by rewrite Hv, Hr, Hs.
Qed.
End Takeover.

(** ** Windows *)

Definition win_errors (e : WinEnv) : Prop :=
  (forall pid err, wi_OpenProcess e pid = Some err -> foreign err) /\
  (forall pid err, wi_ImageName e pid = Fail err -> foreign err) /\
  (forall pid err, wi_CreationTime e pid = Fail err -> foreign err) /\
  (forall pid err, wi_FindProcess e pid = Some err -> foreign err) /\
  (forall pid err, wi_Kill e pid = Some err -> foreign err).

Inductive win_gone (e : WinEnv) (pid : Z) : Prop :=
| win_gone_open err : wi_OpenProcess e (dword pid) = Some err -> errors_Is err ERROR_INVALID_PARAMETER = true -> win_gone e pid
| win_gone_done err : wi_Kill e pid = Some err -> errors_Is err os_ErrProcessDone = true -> win_gone e pid.

Lemma windows_snapshot_gone e ops pid err : win_errors e ->
  windows_Snapshot e ops pid = Fail err -> errors_Is err ErrProcessNotFound = true -> win_gone e pid.
Proof.
  intros (Ho&Hi&Hc&_&_). unfold windows_Snapshot, mbind, result_bind.
  destruct (wi_OpenProcess e _) as [k|] eqn:Ek.
  - destruct (errors_Is k _) eqn:Ei; [intros _ _; by eapply win_gone_open|]. intros [= <-]. by rewrite (Ho _ _ Ek).
  - destruct (wi_ImageName e _) eqn:E1; [|intros [= <-]; by rewrite (Hi _ _ E1)].
    destruct (wi_CreationTime e _) eqn:E2; [|intros [= <-]; by rewrite (Hc _ _ E2)]. intros H1 H2. settle.
Qed.

Lemma windows_signal_gone e pid s err : win_errors e ->
  windows_Signal e pid s = Some err -> errors_Is err ErrProcessNotFound = true -> win_gone e pid.
Proof.
  intros (_&_&_&Hf&Hk). unfold windows_Signal. destruct (decide (s = SigKill)); [|by intros [= <-]].
  destruct (wi_FindProcess e pid) eqn:E1; [intros [= <-]; by rewrite (Hf _ _ E1)|].
  destruct (wi_Kill e pid) as [k|] eqn:E2; [|done]. destruct (errors_Is k os_ErrProcessDone) eqn:Ei.
  - intros _ _. by eapply win_gone_done.
  - intros [= <-]. by rewrite (Hk _ _ E2).
Qed.

(** The same of a daemon on Windows: no process had the identifier, or the kill
    found it done. *)
Theorem windows_takeover_grounds `{RecordCodec} E c (e : list pevent -> WinEnv) ops now sleep mode current t1 t2 d d' log' :
  (forall log, win_errors (e log)) ->
  Prepare E (windows_ops e ops now sleep) c mode current t1 t2 (d, []) = (Ok true, (d', log')) ->
  match fst (readRecord E c (d, [])) with
  | Ok None => True
  | Ok (Some (existing, _)) => exists before, win_gone (e before) (PID existing)
  | Fail _ => False
  end.
Proof.
  intros He Hp. apply prepare_grounds in Hp. destruct (fst (readRecord E c (d, []))) as [[[existing payload]|]|]; [|done..].
  destruct Hp as (before&err&Hn&[Hs|(s&Hs)]); exists before.
  - exact (windows_snapshot_gone _ _ _ _ (He before) Hs Hn).
  - exact (windows_signal_gone _ _ _ _ (He before) Hs Hn).
Qed.

(** The only process a Windows daemon can tell anything about is one that runs its
    own executable, and it credits it with its own checkout. *)
Lemma windows_snapshot_own e ops pid r : windows_Snapshot e ops pid = Ok r ->
  PID r = pid /\ Executable r = expectedExecutable ops /\ Executable r <> "" /\ CheckoutRoot r = expectedCheckout ops.
Proof.
  unfold windows_Snapshot, mbind, result_bind. intros H1.
  repeat (case_match; simplify_eq/=).
  match goal with HB : _ || _ = false |- _ => apply orb_false_iff in HB as [HB1 HB2]; apply negb_false_iff, String.eqb_eq in HB2; apply String.eqb_neq in HB1 end.
  subst. auto.
Qed.

(** ** Names on macOS *)

(** The executable that a macOS snapshot reports was resolved from a path without
    spaces: a daemon installed under a directory with a space in its name is never
    recognised. *)
Theorem darwin_executable_spaceless e pid r : darwinSnapshotFromCommands e pid = Ok r ->
  exists path, se_EvalSymlinks e path = Ok (Executable r) /\ IsAbs path = true /\
    forall x b y, path = x +:+ String b y -> space1 b = false.
Proof.
  unfold darwinSnapshotFromCommands. intros H1. repeat (case_match; simplify_eq/=).
  match goal with HE : se_EvalSymlinks e ?p = Ok _, HN : negb _ = false, HL : Fields _ !! 5%nat = Some ?p |- _ =>
    exists p; apply negb_false_iff in HN; split_and!; [done|done|]; intros x b y Hx; apply list_elem_of_lookup_2 in HL; by eapply Fields_clean end.
Qed.

(** ** Samples *)

Module ProcessSystemSamples.
Import ProcessSamples.

#[local] Existing Instance sample_codec.

(** A Linux system on which the process is there until it has been signalled, and a
    macOS system without a working [ps]. *)
Definition linux_env (log : list pevent) : SysEnv :=
  mkSysEnv "linux" (fun path => Ok (if Base path ==s "exe" then Executable record else CheckoutRoot record))
    (fun _ => Ok "4242 (history-ragd) S 1 42 42 0 -1 4194560 1 2 3 4 5 6 7 8 20 0 1 0 777 11 12")
    (fun _ => if existsb is_signal log then Some ESRCH else None) 99
    (fun _ => None) (fun _ _ => None) (fun _ _ => Fail (Sentinel "exec")).
Definition darwin_env (log : list pevent) : SysEnv :=
  mkSysEnv "darwin" (fun path => Ok path) (fun _ => Fail (Sentinel "ENOENT")) (fun _ => None) 99
    (fun _ => None) (fun _ _ => None) (fun _ _ => Fail (Sentinel "exec")).

Definition linux_run : result bool * world :=
  Prepare quiet_os (unix_ops linux_env slept (fun _ _ => None)) controller Supervise record (15 * second) (5 * second) ((files, 0%nat), []).


Lemma ps_failure_takes_over_witness :
  fst (Prepare quiet_os (unix_ops darwin_env slept (fun _ _ => None)) controller Start record (15 * second) (5 * second) ((files, 0%nat), [])) = Ok true.
Proof.
  assert (fst (readRecord quiet_os controller ((files, 0%nat), [])) = Ok (Some (record, "record"))) as Hr by (vm_compute; reflexivity).
  assert (snd (snd (readRecord quiet_os controller ((files, 0%nat), []))) = []) as Hl by (vm_compute; reflexivity).
  assert (fst (retire quiet_os controller "retire stale pid record: %w" "record"
    (fst (snd (readRecord quiet_os controller ((files, 0%nat), []))), [ESnapshot 4242 (Fail ErrProcessNotFound)])) = Ok true) as Hd by (vm_compute; reflexivity).
  destruct (readRecord quiet_os controller ((files, 0%nat), [])) as [r [d1 log]] eqn:Er. cbn [fst snd] in Hr, Hl, Hd. subst r log.
  rewrite (ps_failure_takes_over quiet_os controller darwin_env slept (fun _ _ => None) Start record (15 * second) (5 * second)
    (files, 0%nat) d1 record "record" (Sentinel "exec")); [exact Hd|vm_compute; reflexivity|exact Er|reflexivity..].
Defined.

End ProcessSystemSamples.
