(* ===== verification/HistoryConfig.v ===== *)
(** * The configuration file

    [internal/history/config/config.go] with [config_file_identity_unix.go]:
    reading the closed configuration file, strict decoding and validation. The
    duplicate-key walk is in [JsonKeys.v]. *)
From Stdlib Require Import ZArith Lia Bool.
From Stdlib Require Import String Ascii.
From stdpp Require Import base tactics option list gmap strings.
From S2P Require Import Prelude GoStrings GoPath JsonKeys GoFile.
Open Scope Z_scope.

Module HistoryConfig.

Definition MaxConfigBytes : Z := 65536.

Record Config : Type := mkConfig {
  StateDir : string;
  Listen : string;
  ContainerMode : bool;
  ReadOnly : bool;
  WatchRoots : list string;
  PIDFile : string;
  AuthStateFile : string;
  AuthEnabled : bool;
  CheckoutRoot : string;
  Executable : string
}.

(** What the operating system answers: [Lstat] before and after the file is read,
    the link count, the open file; [EvalSymlinks] and [Lstat] of a resolved path;
    and the order in which a range visits a map. *)
Record CEnv : Type := mkCEnv {
  ce_Lstat_before : string -> result FileInfo;
  ce_Nlink : string -> result Z;
  ce_Open : string -> result File;
  ce_Lstat_after : string -> result FileInfo;
  ce_EvalSymlinks : string -> result string;
  ce_Lstat : string -> result FileInfo;
  ce_visit : list (string * string) -> list (string * string)
}.

(** The tokens of a payload, and a strict decode of its first value with what the
    decoder has left. *)
Class ConfigCodec : Type := {
  config_tokens : string -> decoder;
  config_Decode : string -> result (Config * decoder)
}.

Definition requireOwnerOnlyConfigMode (info : FileInfo) : result unit :=
  if Perm (fi_Mode info) =? 384 then Ok tt else Fail (errors_New "config mode must be owner-only").
Definition requireOwnerOnlyStateDirectoryMode (info : FileInfo) : result unit :=
  if Perm (fi_Mode info) =? 448 then Ok tt else Fail (errors_New "directory mode must be owner-only").
Definition EMLINK : error := Sentinel "EMLINK".
Definition requireSingleLink (e : CEnv) (path : string) : result unit :=
  n ← ce_Nlink e path; if n =? 1 then Ok tt else Fail EMLINK.

Definition readClosedFile (e : CEnv) (path : string) (maxBytes : Z) : result string :=
  if negb (IsAbs path) || (Clean path !=s path) then Fail (errors_New "config path must be absolute and clean")
  else
    before ← ce_Lstat_before e path;
    if negb (IsRegular (fi_Mode before)) || negb (Z.land (fi_Mode before) ModeSymlink =? 0) ||
       negb (is_ok (requireOwnerOnlyConfigMode before))
    then Fail (errors_New "config file must be owner-only regular file")
    else if negb (is_ok (requireSingleLink e path)) then Fail (errors_New "config file must have one name")
    else
      file ← ce_Open e path;
      opened ← f_Stat file;
      if negb (SameFile before opened) || negb (IsRegular (fi_Mode opened)) || negb (is_ok (requireOwnerOnlyConfigMode opened))
      then Fail (errors_New "config file identity changed")
      else
        payload ← (d ← read_limited file (maxBytes + 1);
                   if maxBytes <? len d then Fail (errors_New "config exceeds size limit") else Ok d);
        match ce_Lstat_after e path with
        | Fail _ => Fail (errors_New "config file identity changed")
        | Ok after => if negb (SameFile opened after) then Fail (errors_New "config file identity changed") else Ok payload
        end.

(** ** Addresses *)

(** [net.SplitHostPort] of an address without square brackets. *)
Definition SplitHostPort (hostport : string) : result (string * string) :=
  let i := LastIndex hostport ":" in
  if i <? 0 then Fail (errors_New "missing port in address")
  else
    let host := slice hostport 0 i in
    if has_byte ":" host then Fail (errors_New "too many colons in address")
    else if has_byte "[" hostport || has_byte "]" hostport then Fail (errors_New "unexpected bracket in address")
    else Ok (host, slice_from hostport (i + 1)).

(** A decimal octet: one to three digits without a leading zero, at most 255. *)
Definition octet (s : string) : option Z :=
  if (len s <? 1) || (3 <? len s) || ((1 <? len s) && HasPrefix s "0") then None
  else v ← decimal 0 s; if v <=? 255 then Some v else None.

(** [net.ParseIP] of a dotted address. *)
Definition ParseIP (s : string) : option (list Z) :=
  match Split "." s with
  | [a; b; c; d] => a ← octet a; b ← octet b; c ← octet c; d ← octet d; Some [a; b; c; d]
  | _ => None
  end.
Definition IsLoopback (ip : list Z) : bool := match ip with a :: _ => a =? 127 | [] => false end.
Definition IsUnspecified (ip : list Z) : bool := bool_decide (ip = [0; 0; 0; 0]).

(** ** Validation *)

(** The listen address of the runtime mode. *)
Definition wantListen (cfg : Config) : result string :=
  let listen := "127.0.0.1:4680" in
  if ReadOnly cfg && (negb (AuthEnabled cfg) || negb (bool_decide (WatchRoots cfg = []))) then
    Fail (errors_New "read-only mode requires authenticated operation without watch roots")
  else
    let listen := if ReadOnly cfg then "127.0.0.1:4681" else listen in
    if ContainerMode cfg && negb (ReadOnly cfg) && negb (AuthEnabled cfg) then
      Fail (errors_New "container mode requires authentication")
    else Ok (if ContainerMode cfg && negb (ReadOnly cfg) then "0.0.0.0:4680" else listen).

Definition validate_listen (cfg : Config) : result unit :=
  want ← wantListen cfg;
  if Listen cfg !=s want then Fail (errors_New "listen does not match the selected runtime mode")
  else
    let numeric := errors_New "listen must be a fixed numeric endpoint" in
    match SplitHostPort (Listen cfg) with
    | Fail _ => Fail numeric
    | Ok (host, port) =>
        if (port !=s "4680") && negb (ReadOnly cfg && (port ==s "4681")) then Fail numeric
        else
          match ParseIP host with
          | None => Fail numeric
          | Some ip =>
              if ContainerMode cfg && negb (ReadOnly cfg) && negb (IsUnspecified ip) then
                Fail (errors_New "container listen must be the fixed unspecified endpoint")
              else if (negb (ContainerMode cfg) || ReadOnly cfg) && negb (IsLoopback ip) then
                Fail (errors_New "host listen must be loopback")
              else Ok tt
          end
    end.

Fixpoint validate_roots (seen roots : list string) : result unit :=
  match roots with
  | [] => Ok tt
  | root :: rest =>
      if negb (abs_clean root) then Fail (errors_New "watch roots must be absolute and clean")
      else if existsb (String.eqb root) seen then Fail (errors_New "watch roots must be unique")
      else validate_roots (root :: seen) rest
  end.

(** The paths that must be absolute and clean, with their labels. *)
Definition labelled_paths (cfg : Config) : list (string * string) :=
  [("state_dir", StateDir cfg); ("pid_file", PIDFile cfg); ("auth_state_file", AuthStateFile cfg);
   ("checkout_root", CheckoutRoot cfg); ("executable", Executable cfg)].

Definition requireCanonicalDirectory (e : CEnv) (path : string) (ownerOnly : bool) : result string :=
  match ce_EvalSymlinks e path with
  | Fail _ => Fail (errors_New "directory must exist")
  | Ok resolved =>
      match ce_Lstat e resolved with
      | Fail _ => Fail (errors_New "directory must be a non-link directory")
      | Ok info =>
          if negb (IsDir (fi_Mode info)) || negb (Z.land (fi_Mode info) ModeSymlink =? 0) then
            Fail (errors_New "directory must be a non-link directory")
          else if ownerOnly then _ ← requireOwnerOnlyStateDirectoryMode info; Ok resolved
          else Ok resolved
      end
  end.

Definition wrap {A} (format : string) (r : result A) : result A :=
  match r with Fail err => Fail (Wrapf format [] err) | Ok a => Ok a end.

Definition validate (e : CEnv) (cfg : Config) : result Config :=
  _ ← validate_listen cfg;
  if ContainerMode cfg && negb (ReadOnly cfg) && negb (Nat.eqb (length (WatchRoots cfg)) 6) then
    Fail (errors_New "container mode requires exactly six watch roots")
  else
    _ ← validate_roots [] (WatchRoots cfg);
    _ ← each (fun lv : string * string =>
          if abs_clean lv.2 then Ok tt else Fail (Errorf "%s must be absolute and clean" [FStr lv.1])) (ce_visit e (labelled_paths cfg));
    if (Dir (PIDFile cfg) !=s StateDir cfg) || (Dir (AuthStateFile cfg) !=s StateDir cfg) || (PIDFile cfg ==s AuthStateFile cfg) then
      Fail (errors_New "durable files must be distinct direct children of state_dir")
    else
      stateDir ← wrap "state_dir: %w" (requireCanonicalDirectory e (StateDir cfg) true);
      checkoutRoot ← wrap "checkout_root: %w" (requireCanonicalDirectory e (CheckoutRoot cfg) false);
      match ce_EvalSymlinks e (Executable cfg) with
      | Fail _ => Fail (errors_New "executable must exist")
      | Ok executable =>
          if negb (beneath checkoutRoot executable) then
            Fail (errors_New "executable must be beneath checkout_root")
          else
            match ce_Lstat e executable with
            | Fail _ => Fail (errors_New "executable must be a regular file")
            | Ok info =>
                if negb (IsRegular (fi_Mode info)) || negb (Z.land (fi_Mode info) ModeSymlink =? 0) then
                  Fail (errors_New "executable must be a regular file")
                else Ok (mkConfig stateDir (Listen cfg) (ContainerMode cfg) (ReadOnly cfg) (WatchRoots cfg)
                           (Join2 stateDir (Base (PIDFile cfg))) (Join2 stateDir (Base (AuthStateFile cfg)))
                           (AuthEnabled cfg) checkoutRoot executable)
            end
      end.

Definition Load `{ConfigCodec} (e : CEnv) (path : string) : result Config :=
  payload ← wrap "read config: %w" (readClosedFile e path MaxConfigBytes);
  _ ← wrap "decode config: %w" (rejectDuplicateKeys (config_tokens payload));
  '(cfg, rest) ← wrap "decode config: %w" (config_Decode payload);
  _ ← wrap "decode config: %w" (expectEOF rest);
  wrap "validate config: %w" (validate e cfg).

End HistoryConfig.

(** ** Properties of the configuration file

    [config_exact]: a configuration is loaded exactly from a closed file that
    decodes to a lawful one, and what is loaded is its canonical form. *)
Import HistoryConfig.

(** The three runtime modes. Only the container mode listens beyond loopback, and
    it requires authentication. *)
Inductive lawful_mode (cfg : Config) : Prop :=
| read_only_mode :
    ReadOnly cfg = true -> AuthEnabled cfg = true -> WatchRoots cfg = [] -> Listen cfg = "127.0.0.1:4681" -> lawful_mode cfg
| container_mode :
    ReadOnly cfg = false -> ContainerMode cfg = true -> AuthEnabled cfg = true -> length (WatchRoots cfg) = 6%nat ->
    Listen cfg = "0.0.0.0:4680" -> lawful_mode cfg
| host_mode :
    ReadOnly cfg = false -> ContainerMode cfg = false -> Listen cfg = "127.0.0.1:4680" -> lawful_mode cfg.

(** A resolved directory that is not a link. *)
Definition real_directory (e : CEnv) (path resolved : string) (perm : option Z) : Prop :=
  ce_EvalSymlinks e path = Ok resolved /\
  exists info, ce_Lstat e resolved = Ok info /\ IsDir (fi_Mode info) = true /\ Z.land (fi_Mode info) ModeSymlink = 0 /\
    match perm with Some p => Perm (fi_Mode info) = p | None => True end.

Record lawful (e : CEnv) (cfg cfg' : Config) : Prop := mk_lawful {
  la_mode : lawful_mode cfg;
  la_roots : NoDup (WatchRoots cfg) /\ Forall (fun r => abs_clean r = true) (WatchRoots cfg);
  la_paths : Forall (fun lv => abs_clean (snd lv) = true) (labelled_paths cfg);
  la_children : Dir (PIDFile cfg) = StateDir cfg /\ Dir (AuthStateFile cfg) = StateDir cfg /\ PIDFile cfg <> AuthStateFile cfg;
  la_state : real_directory e (StateDir cfg) (StateDir cfg') (Some 448);
  la_checkout : real_directory e (CheckoutRoot cfg) (CheckoutRoot cfg') None;
  la_executable : ce_EvalSymlinks e (Executable cfg) = Ok (Executable cfg') /\
    beneath (CheckoutRoot cfg') (Executable cfg') = true /\
    exists info, ce_Lstat e (Executable cfg') = Ok info /\ IsRegular (fi_Mode info) = true;
  la_result : cfg' = mkConfig (StateDir cfg') (Listen cfg) (ContainerMode cfg) (ReadOnly cfg) (WatchRoots cfg)
    (Join2 (StateDir cfg') (Base (PIDFile cfg))) (Join2 (StateDir cfg') (Base (AuthStateFile cfg)))
    (AuthEnabled cfg) (CheckoutRoot cfg') (Executable cfg')
}.

(** A file with one name that only its owner can read, the same before, during and
    after the read, and its whole content. *)
Record closed_file (e : CEnv) (path payload : string) : Prop := mk_closed_file {
  cf_path : abs_clean path = true;
  cf_link : ce_Nlink e path = Ok 1;
  cf_file : exists before file opened after,
    ce_Lstat_before e path = Ok before /\ ce_Open e path = Ok file /\ f_Stat file = Ok opened /\ ce_Lstat_after e path = Ok after /\
    IsRegular (fi_Mode before) = true /\ Perm (fi_Mode before) = 384 /\
    IsRegular (fi_Mode opened) = true /\ Perm (fi_Mode opened) = 384 /\
    SameFile before opened = true /\ SameFile opened after = true /\ f_Data file = payload /\ f_Error file = None;
  cf_size : len payload <= MaxConfigBytes
}.

Lemma wrap_ok {A} format (r : result A) a : wrap format r = Ok a <-> r = Ok a.
Proof. by destruct r. Qed.

Lemma owner_mode_ok info : is_ok (requireOwnerOnlyConfigMode info) = (Perm (fi_Mode info) =? 384).
Proof. unfold requireOwnerOnlyConfigMode. by destruct (_ =? 384). Qed.

Lemma abs_clean_neg path : negb (IsAbs path) || (Clean path !=s path) = negb (abs_clean path).
Proof. unfold abs_clean. by rewrite negb_andb. Qed.

Lemma single_link_ok e path : is_ok (requireSingleLink e path) = true <-> ce_Nlink e path = Ok 1.
Proof.
  unfold requireSingleLink. destruct (ce_Nlink e path) as [n|]; cbn; [|done].
  destruct (Z.eqb_spec n 1) as [->|]; cbn; split; congruence.
Qed.

Lemma closed_file_ok e path payload : readClosedFile e path MaxConfigBytes = Ok payload <-> closed_file e path payload.
Proof.
  unfold readClosedFile. rewrite abs_clean_neg. split.
  - destruct (abs_clean path) eqn:Ea; [|done]. cbn [negb]. intros (before&Hb&H)%bind_ok. rewrite owner_mode_ok in H.
    destruct (IsRegular (fi_Mode before)) eqn:Er; [|done]. destruct (Z.land _ _ =? 0); [|done].
    destruct (Z.eqb_spec (Perm (fi_Mode before)) 384); [|done]. cbn [negb orb] in H.
    destruct (is_ok (requireSingleLink e path)) eqn:El; [|done]. apply single_link_ok in El. cbn [negb] in H.
    apply bind_ok in H as (file&Hf&H). apply bind_ok in H as (opened&Ho&H). rewrite owner_mode_ok in H.
    destruct (SameFile before opened) eqn:Es; [|done]. destruct (IsRegular (fi_Mode opened)) eqn:Er'; [|done].
    destruct (Z.eqb_spec (Perm (fi_Mode opened)) 384); [|done]. cbn [negb orb] in H.
    apply bind_ok in H as (d&Hd&H). apply read_limit_ok in Hd as (?&?&?); [|done].
    destruct (ce_Lstat_after e path) as [after|] eqn:Ef; [|done]. destruct (SameFile opened after) eqn:Es'; [|done].
    injection H as ->. split; [done|done| |done]. by exists before, file, opened, after.
  - intros [Ha Hl (before&file&opened&after&Hb&Hf&Ho&Ht&Hr&Hp&Hr'&Hp'&Hs&Hs'&Hd&He) Hsize]. rewrite Ha. cbn [negb].
    rewrite Hb. cbn [mbind result_bind]. rewrite !owner_mode_ok, Hr, (regular_no_symlink _ Hr), Hp. cbn [negb orb Z.eqb Pos.eqb].
    rewrite (proj2 (single_link_ok e path) Hl). cbn [negb]. rewrite Hf. cbn [mbind result_bind]. rewrite Ho. cbn [mbind result_bind].
    rewrite !owner_mode_ok, Hs, Hr', Hp'. cbn [negb orb Z.eqb Pos.eqb]. apply bind_ok. exists payload. split; [by apply read_limit_ok|].
    by rewrite Ht, Hs'.
Qed.

(** ** Validation *)

Lemma listen_mode cfg :
  (validate_listen cfg = Ok tt /\ (ContainerMode cfg && negb (ReadOnly cfg) && negb (Nat.eqb (length (WatchRoots cfg)) 6)) = false) <->
  lawful_mode cfg.
Proof.
  unfold validate_listen, wantListen. split.
  - intros [Hl Hn]. destruct (ReadOnly cfg) eqn:Er; cbn [andb negb orb] in *.
    + destruct (AuthEnabled cfg) eqn:Ea; [|done]. case_bool_decide as Ew; [|done]. cbn [negb orb] in Hl. rewrite !andb_false_r in Hl. cbn [mbind result_bind] in Hl.
      destruct (String.eqb_spec (Listen cfg) "127.0.0.1:4681"); [by apply read_only_mode|done].
    + destruct (ContainerMode cfg) eqn:Ec; cbn [andb negb orb] in *.
      * destruct (AuthEnabled cfg) eqn:Ea; [|done]. cbn [negb mbind result_bind] in Hl.
        destruct (String.eqb_spec (Listen cfg) "0.0.0.0:4680"); [|done]. apply negb_false_iff, Nat.eqb_eq in Hn. by apply container_mode.
      * cbn [mbind result_bind] in Hl. destruct (String.eqb_spec (Listen cfg) "127.0.0.1:4680"); [by apply host_mode|done].
  - intros [Hr Ha Hw Hl|Hr Hc Ha Hn Hl|Hr Hc Hl]; rewrite ?Hr, ?Ha, ?Hc, ?Hw, ?Hl, ?Hn; cbn; rewrite ?andb_false_r; cbn; (split; [|reflexivity]).
    + destruct (ContainerMode cfg); vm_compute; reflexivity.
    + vm_compute. reflexivity.
    + vm_compute. reflexivity.
Qed.

Lemma roots_ok seen roots : NoDup seen ->
  validate_roots seen roots = Ok tt <-> NoDup (roots ++ seen) /\ Forall (fun r => abs_clean r = true) roots.
Proof.
  revert seen. induction roots as [|root roots IH]; intros seen Hs; cbn [validate_roots app].
  - split; [intros _; split; [done|constructor]|done].
  - rewrite existsb_eqb_elem, Forall_cons, NoDup_cons, elem_of_app. destruct (abs_clean root); cbn [negb].
    2: { split; [done|]. by intros [_ [? _]]. }
    case_bool_decide as Hin; [split; [done|tauto]|]. rewrite IH by (by constructor).
    rewrite <- Permutation_middle, NoDup_cons, elem_of_app. tauto.
Qed.

Lemma canonical_ok e path owner resolved :
  requireCanonicalDirectory e path owner = Ok resolved <-> real_directory e path resolved (if owner then Some 448 else None).
Proof.
  unfold requireCanonicalDirectory, real_directory, requireOwnerOnlyStateDirectoryMode. split.
  - destruct (ce_EvalSymlinks e path) as [r|]; [|done]. destruct (ce_Lstat e r) as [info|] eqn:El; [|done].
    destruct (IsDir (fi_Mode info)) eqn:Ed; [|done]. destruct (Z.eqb_spec (Z.land (fi_Mode info) ModeSymlink) 0); [|done]. cbn [negb orb].
    destruct owner; [destruct (Z.eqb_spec (Perm (fi_Mode info)) 448); [|done]|]; intros [= <-]; (split; [done|]); by exists info.
  - intros [-> (info&->&->&->&Hp)]. cbn [negb orb Z.eqb]. destruct owner; [|done]. by rewrite Hp.
Qed.

Lemma validate_exact e cfg cfg' : (forall l, ce_visit e l ≡ₚ l) -> validate e cfg = Ok cfg' <-> lawful e cfg cfg'.
Proof.
  intros Hv. unfold validate.
  assert (each (fun lv : string * string => if abs_clean lv.2 then Ok tt else Fail (Errorf "%s must be absolute and clean" [FStr lv.1]))
            (ce_visit e (labelled_paths cfg)) = Ok tt <-> Forall (fun lv => abs_clean (snd lv) = true) (labelled_paths cfg)) as Hpaths.
  { rewrite each_ok, (Hv (labelled_paths cfg)). apply Forall_iff. intros [l v]. cbn. by destruct (abs_clean v). }
  rewrite bind_ok_unit. split.
  - intros [Hl H]. destruct (_ && _ && _) eqn:En; [done|]. pose proof (proj1 (listen_mode cfg) (conj Hl En)) as Hmode.
    apply bind_ok_unit in H as [Hr H]. apply (roots_ok [] (WatchRoots cfg)) in Hr; [|constructor]. rewrite app_nil_r in Hr.
    apply bind_ok_unit in H as [Hp%Hpaths H]. destruct (String.eqb_spec (Dir (PIDFile cfg)) (StateDir cfg)); [|done].
    destruct (String.eqb_spec (Dir (AuthStateFile cfg)) (StateDir cfg)); [|done].
    destruct (String.eqb_spec (PIDFile cfg) (AuthStateFile cfg)); [done|]. cbn [negb orb] in H.
    apply bind_ok in H as (stateDir&Hs%wrap_ok%canonical_ok&H). apply bind_ok in H as (root&Hc%wrap_ok%canonical_ok&H).
    destruct (ce_EvalSymlinks e (Executable cfg)) as [exe|] eqn:Ee; [|done]. destruct (beneath root exe) eqn:Eb; [|done]. cbn [negb] in H.
    destruct (ce_Lstat e exe) as [info|] eqn:Ei; [|done]. destruct (IsRegular (fi_Mode info)) eqn:Er; [|done].
    destruct (Z.land _ _ =? 0); [|done]. injection H as <-. split; try done. cbn. split_and!; [done|done|by exists info].
  - intros [Hmode Hr Hp (H1&H2&H3) Hs Hc (H4&H5&info&H6&H7) ->]. apply listen_mode in Hmode as [-> ->]. split; [done|].
    rewrite !bind_ok_unit. cbn [StateDir CheckoutRoot Executable] in *. split; [apply roots_ok; [constructor|by rewrite app_nil_r]|].
    split; [by apply Hpaths|]. rewrite H1, H2, !String.eqb_refl, (proj2 (String.eqb_neq _ _) H3). cbn [negb orb].
    apply (canonical_ok e _ true) in Hs. apply (canonical_ok e _ false) in Hc. rewrite Hs, Hc. cbn [wrap mbind result_bind].
    by rewrite H4, H5, H6, H7, (regular_no_symlink _ H7).
Qed.

(** C32: a configuration is loaded exactly when the path names a closed file whose
    content has no duplicate keys, decodes strictly to one value and is lawful:
    one of the three modes with its fixed endpoint (only the authenticated
    container mode listens beyond loopback), distinct clean watch roots, an
    owner-only state directory with the two durable files directly in it, and an
    executable beneath the checkout root; what is loaded is its canonical form. *)
Theorem config_exact `{C : ConfigCodec} e path cfg' :
  (forall l, ce_visit e l ≡ₚ l) ->
  Load e path = Ok cfg' <->
  exists payload cfg, closed_file e path payload /\ rejectDuplicateKeys (config_tokens payload) = Ok tt /\
    config_Decode payload = Ok (cfg, []) /\ lawful e cfg cfg'.
Proof.
  intros Hv. unfold Load. split.
  - intros (payload&Hf%wrap_ok%closed_file_ok&H)%bind_ok. apply bind_ok_unit in H as [Hk%wrap_ok H].
    apply bind_ok in H as ([cfg rest]&Hd%wrap_ok&H). apply bind_ok_unit in H as [He%wrap_ok H].
    apply wrap_ok, (validate_exact e cfg cfg' Hv) in H. exists payload, cfg. split_and!; [done|done| |done].
    destruct rest as [|t rest]; [done|]. exfalso. unfold expectEOF in He. by destruct (first_error _).
  - intros (payload&cfg&Hf%closed_file_ok&Hk&Hd&Hl). apply bind_ok. exists payload. split; [by apply wrap_ok|].
    apply bind_ok_unit. split; [by apply wrap_ok|]. apply bind_ok. exists (cfg, []). split; [by apply wrap_ok|].
    apply bind_ok_unit. split; [done|]. by apply wrap_ok, validate_exact.
Qed.

(** ** Sample *)

Module HistoryConfigSamples.

Definition raw : Config :=
  mkConfig "/var/lib/history" "127.0.0.1:4680" false false ["/home/a/.claude/projects"] "/var/lib/history/daemon.pid"
    "/var/lib/history/auth.json" false "/srv/history" "/srv/history/bin/history-ragd".

#[local] Instance sample_codec : ConfigCodec := {
  config_tokens _ := tokens (JObj [("listen", JString "127.0.0.1:4680")]);
  config_Decode payload := if payload ==s "config" then Ok (raw, []) else Fail io_EOF
}.

Definition directory (perm : Z) : FileInfo := mkFileInfo (ModeDir + perm) 1 5 None.
Definition regular : FileInfo := mkFileInfo 384 1 7 None.

(** The state directory is reached through a link. *)
Definition sample_env : CEnv :=
  mkCEnv (fun _ => Ok regular) (fun _ => Ok 1) (fun _ => Ok (mkFile (Ok regular) "config" None)) (fun _ => Ok regular)
    (fun path => Ok (if path ==s "/var/lib/history" then "/data/history" else path))
    (fun path => Ok (if path ==s "/data/history" then directory 448 else if path ==s "/srv/history" then directory 493 else regular))
    (fun l => l).

Lemma config_exact_witness : exists payload cfg cfg',
  closed_file sample_env "/etc/history.json" payload /\ lawful sample_env cfg cfg' /\ PIDFile cfg' = "/data/history/daemon.pid".
Proof.
  destruct (Load sample_env "/etc/history.json") as [cfg'|] eqn:E; [|by vm_compute in E].
  destruct (proj1 (config_exact sample_env "/etc/history.json" cfg' ltac:(by intros l)) E) as (payload&cfg&Hf&_&_&Hl).
  exists payload, cfg, cfg'. split_and!; [done|done|]. vm_compute in E. by injection E as <-.
Defined.

End HistoryConfigSamples.
