(* ===== verification/WindowsAccess.v ===== *)
(** * Access checks on Windows

    [internal/gcpauth/file_access_windows.go]: the owner and the access control list
    of a credential file; [internal/history/config/config_file_identity_windows.go]:
    the checks of a configuration file. The property is about the access that a list
    gives to a token, as the documentation of the access check describes it. *)
From Stdlib Require Import ZArith Lia Bool.
From Stdlib Require Import String Ascii.
From stdpp Require Import base tactics option list strings.
From S2P Require Import Prelude GoStrings.
Open Scope Z_scope.

Module WindowsAccess.

(** ** Credential files *)

(** A security identifier, in its string form. *)
Definition SID : Type := string.

Definition ACCESS_ALLOWED_ACE_TYPE : Z := 0.
Definition ACCESS_DENIED_ACE_TYPE : Z := 1.

(** An entry of a list: its type, its access mask and its principal. *)
Record ACE : Type := mkACE { AceType : Z; Mask : Z; SidStart : SID }.

(** [windows.GetAce] for every index below the count; nil is [None]. *)
Definition ACL : Type := list (result (option ACE)).

(** What the security functions answer about a file and about the process. *)
Record Security : Type := mkSecurity {
  GetSecurityInfo : option error;
  Owner : result (option SID);
  GetTokenUser : result SID;
  DACL : result (option ACL);
  LocalSystemSid : result SID;
  AdministratorsSid : result SID
}.

(** The loop over the entries. *)
Fixpoint check_aces (approved : list SID) (index : Z) (aces : ACL) : result unit :=
  match aces with
  | [] => Ok tt
  | Fail err :: _ => Fail (Wrapf "read credential file DACL entry %d: %w" [FInt index] err)
  | Ok None :: _ => Fail (Errorf "credential file DACL entry %d is empty" [FInt index])
  | Ok (Some ace) :: aces =>
      if AceType ace =? ACCESS_DENIED_ACE_TYPE then check_aces approved (index + 1) aces
      else if AceType ace =? ACCESS_ALLOWED_ACE_TYPE then
        if existsb (String.eqb (SidStart ace)) approved then check_aces approved (index + 1) aces
        else Fail (errors_New "credential file DACL grants access to an unapproved principal")
      else Fail (Errorf "credential file DACL entry %d uses unsupported ACE type %d" [FInt index; FInt (AceType ace)])
  end.

Definition validateCredentialFileAccess (s : Security) : result unit :=
  match GetSecurityInfo s with
  | Some err => Fail (Wrapf "read credential file security descriptor: %w" [] err)
  | None =>
      match Owner s with
      | Fail err => Fail (Wrapf "resolve credential file owner: %w" [] err)
      | Ok None => Fail (errors_New "resolve credential file owner: %!w(<nil>)")
      | Ok (Some owner) =>
          match GetTokenUser s with
          | Fail err => Fail (Wrapf "resolve effective Windows user: %w" [] err)
          | Ok user =>
              if owner !=s user then Fail (errors_New "credential file must be owned by the effective user")
              else
                match DACL s with
                | Fail err => Fail (Wrapf "resolve credential file DACL: %w" [] err)
                | Ok None => Fail (errors_New "credential file must have a restrictive DACL")
                | Ok (Some dacl) =>
                    match LocalSystemSid s with
                    | Fail err => Fail (Wrapf "resolve LocalSystem SID: %w" [] err)
                    | Ok localSystem =>
                        match AdministratorsSid s with
                        | Fail err => Fail (Wrapf "resolve Administrators SID: %w" [] err)
                        | Ok administrators => check_aces [user; localSystem; administrators] 0 dacl
                        end
                    end
                end
          end
      end
  end.

(** ** Configuration files *)

Definition ERROR_TOO_MANY_LINKS : error := Sentinel "ERROR_TOO_MANY_LINKS".

(** The modes that Go makes up on Windows are not checked. *)
Definition requireOwnerOnlyConfigMode : result unit := Ok tt.
Definition requireOwnerOnlyStateDirectoryMode : result unit := Ok tt.

(** From [os.Open] and the number of links that the handle has. *)
Definition requireSingleLink (open : string -> result (result Z)) (path : string) : result unit :=
  file ← open path;
  links ← file;
  if negb (links =? 1) then Fail ERROR_TOO_MANY_LINKS else Ok tt.

(** ** The access a list gives *)

(** The access check goes through the list in order: an entry for one of the
    identifiers of the token grants, or denies, the bits that no entry before it has
    decided. A file without a list grants everything. *)
Fixpoint granted (token : list SID) (decided : Z) (aces : list ACE) : Z :=
  match aces with
  | [] => 0
  | ace :: aces =>
      if negb (existsb (String.eqb (SidStart ace)) token) then granted token decided aces
      else
        let fresh := Z.ldiff (Mask ace) decided in
        let rest := granted token (Z.lor decided (Mask ace)) aces in
        if AceType ace =? ACCESS_ALLOWED_ACE_TYPE then Z.lor fresh rest else rest
  end.

Definition everything : Z := 4294967295.
Definition access (token : list SID) (dacl : option (list ACE)) : Z :=
  match dacl with
  | None => everything
  | Some aces => granted token 0 aces
  end.

(** ** Properties *)

Lemma granted_none token decided aces :
  Forall (fun ace => AceType ace = ACCESS_ALLOWED_ACE_TYPE -> SidStart ace ∉ token) aces -> granted token decided aces = 0.
Proof.
  intros Ha. revert decided. induction Ha as [|ace aces Hc _ IH]; intros decided; [done|]. cbn [granted].
  destruct (existsb (String.eqb (SidStart ace)) token) eqn:Ee; cbn [negb]; [|apply IH].
  destruct (Z.eqb_spec (AceType ace) ACCESS_ALLOWED_ACE_TYPE) as [Ht|]; [|apply IH].
  exfalso. apply (Hc Ht). apply existsb_exists in Ee as (x&Hx&Heq). apply String.eqb_eq in Heq as ->. by apply list_elem_of_In.
Qed.

(** Every entry could be read, and grants to approved principals only. *)
Lemma check_aces_ok approved index aces : check_aces approved index aces = Ok tt ->
  exists l, aces = map (fun ace => Ok (Some ace)) l /\ Forall (fun ace => AceType ace = ACCESS_ALLOWED_ACE_TYPE -> SidStart ace ∈ approved) l.
Proof.
  revert index. induction aces as [|[[ace|]|] aces IH]; intros index; cbn [check_aces]; [by exists []| |done|done].
  destruct (Z.eqb_spec (AceType ace) ACCESS_DENIED_ACE_TYPE) as [Hd|_].
  - intros (l&->&Hl)%IH. exists (ace :: l). split; [done|]. constructor; [|done]. rewrite Hd. done.
  - destruct (Z.eqb_spec (AceType ace) ACCESS_ALLOWED_ACE_TYPE) as [Ht|]; [|done]. destruct (existsb (String.eqb (SidStart ace)) approved) eqn:Ee; [|done].
    intros (l&->&Hl)%IH. exists (ace :: l). split; [done|]. constructor; [|done]. intros _.
    apply existsb_exists in Ee as (x&Hx&Heq). apply String.eqb_eq in Heq as ->. by apply list_elem_of_In.
Qed.

(** C12: On Windows a credential file that is accepted is owned by the effective user
    and its list gives no access at all to a token that has none of the identifiers of
    the user, of LocalSystem and of the Administrators, whatever deny entries it has
    and in whatever order; a file without a list is refused. *)
Theorem credential_dacl_private s : validateCredentialFileAccess s = Ok tt ->
  exists user system administrators dacl,
    GetTokenUser s = Ok user /\ Owner s = Ok (Some user) /\ LocalSystemSid s = Ok system /\ AdministratorsSid s = Ok administrators /\
    DACL s = Ok (Some (map (fun ace => Ok (Some ace)) dacl)) /\
    forall token, user ∉ token -> system ∉ token -> administrators ∉ token -> access token (Some dacl) = 0.
Proof.
  unfold validateCredentialFileAccess. destruct (GetSecurityInfo s); [done|]. destruct (Owner s) as [[owner|]|]; [|done..].
  destruct (GetTokenUser s) as [user|]; [|done]. destruct (String.eqb_spec owner user) as [->|]; [|done]. cbn [negb].
  destruct (DACL s) as [[aces|]|]; [|done..]. destruct (LocalSystemSid s) as [system|]; [|done].
  destruct (AdministratorsSid s) as [administrators|]; [|done]. intros (l&->&Hl)%check_aces_ok.
  exists user, system, administrators, l. split_and!; try done. intros token H1 H2 H3. apply granted_none.
  eapply Forall_impl; [exact Hl|]. intros ace Ha Ht Hin. specialize (Ha Ht). rewrite !elem_of_cons in Ha.
  destruct Ha as [Ha|[Ha|[Ha|Ha]]]; [congruence..|by inversion Ha].
Qed.

(** ** Samples *)

Module WindowsAccessSamples.

Definition sample (dacl : option ACL) : Security :=
  mkSecurity None (Ok (Some "S-1-5-21-7")) (Ok "S-1-5-21-7") (Ok dacl) (Ok "S-1-5-18") (Ok "S-1-5-32-544").
Definition private_list : list ACE :=
  [mkACE ACCESS_DENIED_ACE_TYPE 2 "S-1-1-0"; mkACE ACCESS_ALLOWED_ACE_TYPE 2032127 "S-1-5-21-7"; mkACE ACCESS_ALLOWED_ACE_TYPE 2032127 "S-1-5-18"].

Lemma credential_dacl_private_witness : access ["S-1-5-21-8"; "S-1-1-0"] (Some private_list) = 0.
Proof.
  destruct (credential_dacl_private (sample (Some (map (fun ace => Ok (Some ace)) private_list))) eq_refl)
    as (user&system&administrators&dacl&Hu&_&Hs&Ha&Hd&Haccess).
  cbn in Hu, Hs, Ha. injection Hu as <-. injection Hs as <-. injection Ha as <-.
  assert (private_list = dacl) as -> by (unfold sample in Hd; cbn in Hd; destruct dacl as [|a [|b [|c [|]]]]; cbn in Hd; try discriminate; injection Hd as <- <- <-; reflexivity).
  apply Haccess; rewrite !elem_of_cons; intros [Hx|[Hx|Hx]]; try discriminate; inversion Hx.
Defined.

Example everyone_refused : validateCredentialFileAccess (sample (Some [Ok (Some (mkACE ACCESS_ALLOWED_ACE_TYPE 1 "S-1-1-0"))])) =
  Fail (errors_New "credential file DACL grants access to an unapproved principal").
Proof. reflexivity. Qed.
Example null_list_refused : validateCredentialFileAccess (sample None) = Fail (errors_New "credential file must have a restrictive DACL").
Proof. reflexivity. Qed.

End WindowsAccessSamples.

End WindowsAccess.
