(* ===== verification/TestIntegrity.v ===== *)
(** * The test-integrity script

    [scripts/go-test-integrity/main.go]: every test function of the listed files
    must mention its [testing.T] parameter or call the built-in [panic]. The
    syntax trees are those of [go/ast], with the nodes the script looks at named and
    every other node as a kind and its children in the order of [ast.Walk]. *)
From Stdlib Require Import ZArith Lia Bool.
From Stdlib Require Import String Ascii.
From stdpp Require Import base tactics option list strings.
From S2P Require Import Prelude GoStrings GoPath GoUrl GoScan.
Open Scope Z_scope.

Module TestIntegrity.

(** ** Syntax trees *)

(** [*ast.Ident]: a pointer, and the name. *)
Record ident : Type := mkIdent { id_ptr : Z; id_Name : string }.

Inductive node : Type :=
| Ident (i : ident)
| CallExpr (fn : node) (args : list node)
| StarExpr (x : node)
| SelectorExpr (x : node) (sel : ident)
| Other (kind : string) (nodes : list node).

(** A parameter list is a list of fields, each with its names and its type. *)
Record field : Type := mkField { fl_Names : list ident; fl_Type : node }.
Record FuncDecl : Type := mkFuncDecl {
  fd_Pos : Z;
  fd_Name : ident;
  fd_Params : option (list field);
  fd_Body : option node
}.
Inductive decl : Type :=
| DFunc (fn : FuncDecl)
| DOther (n : node).
Record file : Type := mkFile { Decls : list decl }.

(** [types.Object]: a built-in function, or another object by its pointer. *)
Inductive Object : Type :=
| Builtin (name : string)
| Obj (ptr : Z).
#[global] Instance Object_eq_dec : EqDecision Object.
Proof. solve_decision. Defined.

Record Info : Type := mkInfo { Defs : ident -> option Object; Uses : ident -> option Object }.

(** [ast.Inspect]: a node, its children in order when the visitor wants them, and
    then nil. *)
Fixpoint Inspect {T} (f : option node -> T -> bool * T) (n : node) (s : T) : T :=
  let '(descend, s) := f (Some n) s in
  if descend then
    let s :=
      match n with
      | Ident _ => s
      | CallExpr fn args =>
          (fix walk (l : list node) (s : T) : T := match l with [] => s | c :: l => walk l (Inspect f c s) end) args (Inspect f fn s)
      | StarExpr x => Inspect f x s
      | SelectorExpr x sel =>
          let s := Inspect f x s in
          let '(descend, s) := f (Some (Ident sel)) s in
          if descend then snd (f None s) else s
      | Other _ nodes =>
          (fix walk (l : list node) (s : T) : T := match l with [] => s | c :: l => walk l (Inspect f c s) end) nodes s
      end in
    snd (f None s)
  else s.

(** ** The check *)

Record finding : Type := mkFinding { f_file : string; f_line : Z; f_name : string }.

(** The parser, the type checker with its errors ignored, the positions of a file
    set, [unicode.IsLower], and the file with the enumeration: its bytes and the
    error that ends them, if any. *)
Class GoTools : Type := {
  ParseFile : string -> result file;
  typeInfo : file -> Info;
  Position : Z -> string * Z;
  IsLower : Z -> bool;
  Open_ : string -> result (string * option error)
}.

Section Script.
Context `{GoTools}.

Definition isTestName (name : string) : bool :=
  if negb (HasPrefix name "Test") then false
  else if len name =? len "Test" then true
  else
    match runes (slice_from name (len "Test")) with
    | [] => negb (IsLower RuneError)
    | (r, _) :: _ => negb (IsLower r)
    end.

Definition testingTParam (fn : FuncDecl) : option ident :=
  match fd_Params fn with
  | Some [mkField [name] (StarExpr (SelectorExpr _ sel))] => if id_Name sel !=s "T" then None else Some name
  | _ => None
  end.

(** The function that [bodyCanFail] gives to [ast.Inspect]; the state is
    [canFail]. *)
Definition visit (param : Object) (info : Info) (node : option node) (canFail : bool) : bool * bool :=
  match node with
  | None => (negb canFail, canFail)
  | Some value =>
      if canFail then (negb canFail, canFail)
      else
        match value with
        | Ident i => (true, if decide (Uses info i = Some param) then true else canFail)
        | CallExpr (Ident fn) _ =>
            (true, match Uses info fn with
                   | Some (Builtin name) => if name ==s "panic" then true else canFail
                   | _ => canFail
                   end)
        | _ => (true, canFail)
        end
  end.

Definition bodyCanFail (body : node) (param : Object) (info : Info) : bool := Inspect (visit param info) body false.

(** [inspectAST]; [None] is the panic of [ast.Inspect] on a function without a
    body. *)
Fixpoint inspect_decls (info : Info) (decls : list decl) : option (list finding) :=
  match decls with
  | [] => Some []
  | DOther _ :: decls => inspect_decls info decls
  | DFunc fn :: decls =>
      if negb (isTestName (id_Name (fd_Name fn))) then inspect_decls info decls
      else
        match testingTParam fn ≫= Defs info with
        | None => inspect_decls info decls
        | Some param =>
            body ← fd_Body fn;
            if bodyCanFail body param info then inspect_decls info decls
            else
              let '(name, line) := Position (fd_Pos fn) in
              findings ← inspect_decls info decls;
              Some (mkFinding (Clean name) line (id_Name (fd_Name fn)) :: findings)
        end
  end.
Definition inspectAST (f : file) : option (list finding) := inspect_decls (typeInfo f) (Decls f).

Definition inspectFile (path : string) : option (result (list finding)) :=
  match ParseFile path with
  | Fail err => Some (Fail (Wrapf "parse %q: %w" [FStr path] err))
  | Ok f => Ok <$> inspectAST f
  end.

Definition readFiles (path : string) : result (list string) :=
  match Open_ path with
  | Fail err => Fail (Wrapf "open test-file enumeration %q: %w" [FStr path] err)
  | Ok (text, readErr) =>
      let '(lines, scanErr) := ScanLines text in
      match (match scanErr with Some err => Some err | None => readErr end) with
      | Some err => Fail (Wrapf "read test-file enumeration %q: %w" [FStr path] err)
      | None => Ok (List.filter (fun value => value !=s "") (map TrimSpace lines))
      end
  end.

(** What the script prints; [Usage] with what the flag set prints about the flags. *)
Inductive output : Type :=
| Usage
| Stderr (err : error)
| Stdout (line : string).

Definition report (item : finding) : output :=
  Stdout ("ASSERTION-FREE TEST  " +:+ f_file item +:+ ":" +:+ Itoa (f_line item) +:+ ": " +:+ f_name item +:+
          " has neither a testing.T reference nor a panic failure path").

(** The loop over the files: the exit code and the output; [None] is a panic. *)
Fixpoint run_files (files : list string) : option (Z * list output) :=
  match files with
  | [] => Some (0, [])
  | path :: files =>
      found ← inspectFile path;
      match found with
      | Fail err => Some (2, [Stderr err])
      | Ok [] => run_files files
      | Ok found => Some (1, map report found)
      end
  end.

Definition run (args : list string) : option (Z * list output) :=
  match parse_flags "files" "" args with
  | Some (filesPath, []) =>
      if filesPath ==s "" then Some (2, [Usage])
      else
        match readFiles filesPath with
        | Fail err => Some (2, [Stderr err])
        | Ok files => run_files files
        end
  | _ => Some (2, [Usage])
  end.
End Script.

End TestIntegrity.

(** ** Properties of the test-integrity script

    The traversal with its early stop decides whether any node of a body can fail
    the test; the findings of a file are exactly its hollow tests; the exit code. *)
Import TestIntegrity.

(** ** Nodes of a tree *)

Definition children (n : node) : list node :=
  match n with
  | Ident _ => []
  | CallExpr fn args => fn :: args
  | StarExpr x => [x]
  | SelectorExpr x sel => [x; Ident sel]
  | Other _ nodes => nodes
  end.

Inductive within (m : node) : node -> Prop :=
| within_self : within m m
| within_child n c : c ∈ children n -> within m c -> within m n.

(** Induction over a tree with the nested lists. *)
Section NodeInd.
Context (P : node -> Prop).
Hypothesis step : forall n, (forall c, c ∈ children n -> P c) -> P n.

Fixpoint node_rec (n : node) : P n.
Proof.
  assert (forall l : list node, (fix all (l : list node) : Prop := match l with [] => True | c :: l => P c /\ all l end) l ->
    forall c, c ∈ l -> P c) as Hin.
  { induction l as [|d l IH]; intros Hl c Hc; [by inversion Hc|]. destruct Hl as [Hd Hl]. apply elem_of_cons in Hc as [->|Hc]; [done|by apply IH]. }
  apply step. destruct n as [i|fn args|x|x sel|kind nodes]; apply Hin; cbn [children].
  - exact I.
  - split; [apply node_rec|]. induction args as [|a args IH]; [exact I|]. split; [apply node_rec|exact IH].
  - split; [apply node_rec|exact I].
  - split; [apply node_rec|]. split; [|exact I]. apply step. intros c Hc. cbn [children] in Hc. by inversion Hc.
  - induction nodes as [|a nodes IH]; [exact I|]. split; [apply node_rec|exact IH].
Qed.
End NodeInd.

(** ** The traversal *)

Section Visit.
Context (param : Object) (info : Info).

(** A use of the parameter, or a call of the built-in [panic]. *)
Definition fails (n : node) : Prop :=
  match n with
  | Ident i => Uses info i = Some param
  | CallExpr (Ident fn) _ => Uses info fn = Some (Builtin "panic")
  | _ => False
  end.

Definition walk (l : list node) (s : bool) : bool := fold_left (fun s c => Inspect (visit param info) c s) l s.

Lemma walk_fix l s : (fix walk (l : list node) (s : bool) : bool :=
  match l with [] => s | c :: l => walk l (Inspect (visit param info) c s) end) l s = walk l s.
Proof. revert s. induction l as [|c l IH]; intros s; [done|]. apply IH. Qed.

Lemma visit_false n : visit param info (Some n) false = (true, true) /\ fails n \/ visit param info (Some n) false = (true, false) /\ ~ fails n.
Proof.
  destruct n as [i|fn args|x|x sel|kind nodes]; cbn; try (right; by split; [|intros []]).
  - destruct (decide (Uses info i = Some param)); [by left|by right].
  - destruct fn; try (right; by split; [|intros []]). destruct (Uses info i) as [[name|]|]; [|by right..].
    destruct (String.eqb_spec name "panic") as [->|Hn]; [by left|right; split; [done|congruence]].
Qed.

(** A node, then its children, as the visitor sees them. *)
Lemma inspect_step n s : Inspect (visit param info) n s =
  if s then true else if snd (visit param info (Some n) false) then true else walk (children n) false.
Proof.
  destruct s; [by destruct n|].
  assert (forall b, snd (visit param info None b) = b) as Hnil by done.
  assert (forall l, walk l true = true) as Ht.
  { induction l as [|c l IH]; [done|]. cbn [walk fold_left]. replace (Inspect (visit param info) c true) with true by (by destruct c). exact IH. }
  destruct (visit_false n) as [[Hv _]|[Hv _]]; destruct n as [i|fn args|x|x sel|kind nodes]; cbn [Inspect]; rewrite Hv; cbn [snd children];
    rewrite ?Hnil, ?walk_fix.
  - done.
  - replace (Inspect (visit param info) fn true) with true by (by destruct fn). apply Ht.
  - by destruct x.
  - replace (Inspect (visit param info) x true) with true by (by destruct x). done.
  - apply Ht.
  - done.
  - done.
  - done.
  - cbn [walk fold_left]. destruct (Inspect (visit param info) x false); [done|].
    destruct (visit_false (Ident sel)) as [[Hs _]|[Hs _]]; cbn [Inspect]; by rewrite Hs.
  - done.
Qed.

Lemma walk_any l s : (forall c, c ∈ l -> Inspect (visit param info) c false = true <-> exists m, within m c /\ fails m) ->
  walk l s = true <-> s = true \/ exists c m, c ∈ l /\ within m c /\ fails m.
Proof.
  revert s. induction l as [|d l IH]; intros s Hl; cbn [walk fold_left].
  - split; [by left|]. intros [?|(c&m&Hc&_)]; [done|by inversion Hc].
  - fold (walk l (Inspect (visit param info) d s)). rewrite IH by (intros c Hc; apply Hl; by right).
    destruct s; [split; [by left|]; left; by destruct d|]. rewrite (Hl d (list_elem_of_here _ _)). split.
    + intros [(m&Hm&Hf)|(c&m&Hc&Hm&Hf)]; right; [exists d, m|exists c, m]; (split; [by constructor|done]).
    + intros [|(c&m&[->|Hc]%elem_of_cons&Hm&Hf)]; [done|left; by exists m|right; by exists c, m].
Qed.

Lemma inspect_any n : Inspect (visit param info) n false = true <-> exists m, within m n /\ fails m.
Proof.
  induction n as [n IH] using node_rec. rewrite inspect_step.
  destruct (visit_false n) as [[-> Hf]|[-> Hf]]; cbn [snd].
  - split; [|done]. intros _. exists n. split; [constructor|done].
  - rewrite (walk_any _ _ IH). split.
    + intros [|(c&m&Hc&Hm&Hm')]; [done|]. exists m. split; [by econstructor|done].
    + intros (m&Hm&Hm'). right. destruct Hm as [|n c Hc Hm]; [done|]. by exists c, m.
Qed.
End Visit.

(** ** Files and exit codes *)

Section Files.
Context `{GoTools}.

(** A test function and the object of its parameter, as the script finds them. *)
Definition test_function (info : Info) (fn : FuncDecl) (param : Object) : Prop :=
  isTestName (id_Name (fd_Name fn)) = true /\ exists i, testingTParam fn = Some i /\ Defs info i = Some param.

Definition can_fail (info : Info) (body : node) (param : Object) : Prop := exists m, within m body /\ fails param info m.

Definition finding_of (fn : FuncDecl) : finding :=
  mkFinding (Clean (fst (Position (fd_Pos fn)))) (snd (Position (fd_Pos fn))) (id_Name (fd_Name fn)).

Lemma bodyCanFail_spec info body param : bodyCanFail body param info = true <-> can_fail info body param.
Proof. apply inspect_any. Qed.

(** One declaration. *)
Inductive inspected (info : Info) (fn : FuncDecl) : option (list finding) -> Prop :=
| in_passes : (forall param, test_function info fn param -> exists body, fd_Body fn = Some body /\ can_fail info body param) -> inspected info fn (Some [])
| in_hollow param body : test_function info fn param -> fd_Body fn = Some body -> ~ can_fail info body param -> inspected info fn (Some [finding_of fn])
| in_panic param : test_function info fn param -> fd_Body fn = None -> inspected info fn None.

Lemma test_function_det info fn p q : test_function info fn p -> test_function info fn q -> p = q.
Proof. intros (_&i&Hi&Hp) (_&j&Hj&Hq). congruence. Qed.

Lemma inspect_func info fn decls : exists r, inspected info fn r /\
  inspect_decls info (DFunc fn :: decls) = (a ← r; b ← inspect_decls info decls; Some (a ++ b)).
Proof.
  cbn [inspect_decls]. destruct (isTestName (id_Name (fd_Name fn))) eqn:Et; cbn [negb].
  2: { exists (Some []). split; [apply in_passes; intros p [? _]; congruence|]. by destruct (inspect_decls info decls). }
  destruct (testingTParam fn ≫= Defs info) as [param|] eqn:Ep.
  2: { exists (Some []). split; [|by destruct (inspect_decls info decls)].
       apply in_passes. intros p (_&i&Hi&Hp). rewrite Hi in Ep. cbn in Ep. congruence. }
  assert (test_function info fn param) as Hf by (split; [done|]; apply bind_Some in Ep as (i&Hi&Hp); by exists i).
  destruct (fd_Body fn) as [body|] eqn:Eb; [|exists None; split; [by eapply in_panic|done]]. cbn [mbind option_bind].
  destruct (bodyCanFail body param info) eqn:Ec.
  - exists (Some []). split; [|by destruct (inspect_decls info decls)]. apply in_passes. intros q Hq. rewrite (test_function_det _ _ _ _ Hq Hf).
    exists body. split; [done|]. by apply bodyCanFail_spec.
  - exists (Some [finding_of fn]). split; [|unfold finding_of; by destruct (Position (fd_Pos fn))].
    eapply in_hollow; [done..|]. rewrite <-bodyCanFail_spec, Ec. done.
Qed.

Definition passes (f : file) (fn : FuncDecl) : Prop :=
  forall param, test_function (typeInfo f) fn param -> exists body, fd_Body fn = Some body /\ can_fail (typeInfo f) body param.
Definition hollow (f : file) (fn : FuncDecl) : Prop :=
  exists param body, test_function (typeInfo f) fn param /\ fd_Body fn = Some body /\ ~ can_fail (typeInfo f) body param.
Definition bodyless (f : file) (fn : FuncDecl) : Prop :=
  exists param, test_function (typeInfo f) fn param /\ fd_Body fn = None.

Lemma decls_spec f decls :
  match inspect_decls (typeInfo f) decls with
  | None => exists fn, DFunc fn ∈ decls /\ bodyless f fn
  | Some findings => (forall fn, DFunc fn ∈ decls -> hollow f fn \/ passes f fn) /\
      forall item, item ∈ findings <-> exists fn, DFunc fn ∈ decls /\ hollow f fn /\ item = finding_of fn
  end.
Proof.
  induction decls as [|[fn|n] decls IH].
  - cbn. split; [intros fn Hfn; by inversion Hfn|]. intros item. split; [by inversion 1|]. intros (fn&Hfn&_). by inversion Hfn.
  - destruct (inspect_func (typeInfo f) fn decls) as (r&Hr&->). destruct Hr as [Hp|param body Ht Hb Hc|param Ht Hb]; cbn [mbind option_bind].
    + destruct (inspect_decls (typeInfo f) decls) as [b|]; cbn; [|destruct IH as (g&Hg&Hb); exists g; split; [by right|done]].
      destruct IH as [IHa IHb]. split; [intros g [[= ->]|Hg]%elem_of_cons; [by right|by apply IHa]|]. intros item. rewrite IHb. split.
      * intros (g&Hg&Hh). exists g. split; [by right|done].
      * intros (g&[[= ->]|Hg]%elem_of_cons&Hh&Hi); [|by exists g]. destruct Hh as (q&body&Hq&Hb&Hn).
        destruct (Hp q Hq) as (body'&Hb'&Hc). rewrite Hb in Hb'. injection Hb' as <-. done.
    + assert (hollow f fn) as Hh by (by exists param, body).
      destruct (inspect_decls (typeInfo f) decls) as [b|]; cbn; [|destruct IH as (g&Hg&Hb'); exists g; split; [by right|done]].
      destruct IH as [IHa IHb]. split; [intros g [[= ->]|Hg]%elem_of_cons; [by left|by apply IHa]|]. intros item. rewrite elem_of_cons, IHb. split.
      * intros [->|(g&Hg&Hg')]; [exists fn; split; [by left|done]|exists g; split; [by right|done]].
      * intros (g&[[= ->]|Hg]%elem_of_cons&Hg'&Hi); [by left|right; by exists g].
    + exists fn. split; [by left|]. by exists param.
  - cbn [inspect_decls]. destruct (inspect_decls (typeInfo f) decls) as [b|].
    + destruct IH as [IHa IHb]. split; [intros g [?|Hg]%elem_of_cons; [done|by apply IHa]|]. intros item. rewrite IHb. split.
      * intros (g&Hg&Hh). exists g. split; [by right|done].
      * intros (g&[?|Hg]%elem_of_cons&Hh); [done|by exists g].
    + destruct IH as (g&Hg&Hb). exists g. split; [by right|done].
Qed.


Lemma inspect_passes f : inspectAST f = Some [] <-> forall fn, DFunc fn ∈ Decls f -> passes f fn.
Proof.
  pose proof (decls_spec f (Decls f)) as Hs. unfold inspectAST. destruct (inspect_decls (typeInfo f) (Decls f)) as [findings|]; split.
  - intros [= ->] fn Hfn. destruct Hs as [Ha Hb]. destruct (Ha fn Hfn) as [Hh|]; [|done].
    assert (finding_of fn ∈ @nil finding) as Hin by (apply Hb; by exists fn). by inversion Hin.
  - intros Hp. destruct findings as [|item findings]; [done|]. destruct Hs as [_ Hb].
    destruct (proj1 (Hb item) (list_elem_of_here _ _)) as (fn&Hfn&(param&body&Ht&Hbody&Hn)&_).
    destruct (Hp fn Hfn param Ht) as (body'&Hb'&Hc). rewrite Hbody in Hb'. injection Hb' as <-. done.
  - done.
  - intros Hp. destruct Hs as (fn&Hfn&param&Ht&Hb). destruct (Hp fn Hfn param Ht) as (body&Hb'&_). congruence.
Qed.

Lemma run_files_zero files out : run_files files = Some (0, out) <->
  out = [] /\ forall path, path ∈ files -> exists f, ParseFile path = Ok f /\ forall fn, DFunc fn ∈ Decls f -> passes f fn.
Proof.
  induction files as [|path files IH]; cbn [run_files].
  - split; [intros [= <-]; split; [done|]; by inversion 1|]. by intros [-> _].
  - unfold inspectFile. destruct (ParseFile path) as [f|err] eqn:Ef; cbn.
    2: { split; [done|]. intros [_ Hp]. destruct (Hp path (list_elem_of_here _ _)) as (f&Hf&_). congruence. }
    destruct (inspectAST f) as [[|item found]|] eqn:Ei; cbn.
    + rewrite IH. split; intros [-> Hp]; split; [done| |done|].
      * intros q [->|Hq]%elem_of_cons; [|by apply Hp]. exists f. split; [done|]. by apply inspect_passes.
      * intros q Hq. apply Hp. by right.
    + split; [done|]. intros [_ Hp]. destruct (Hp path (list_elem_of_here _ _)) as (g&Hg&Hpass). rewrite Ef in Hg. injection Hg as <-.
      apply inspect_passes in Hpass. congruence.
    + split; [done|]. intros [_ Hp]. destruct (Hp path (list_elem_of_here _ _)) as (g&Hg&Hpass). rewrite Ef in Hg. injection Hg as <-.
      apply inspect_passes in Hpass. congruence.
Qed.

(** The script exits with code 0 exactly when the enumeration is named and can be
    read to its end, every file in it parses, and every test function in them can
    fail. *)
Theorem run_passes args out : run args = Some (0, out) <->
  out = [] /\ exists path files, parse_flags "files" "" args = Some (path, []) /\ path <> "" /\ readFiles path = Ok files /\
    forall path, path ∈ files -> exists f, ParseFile path = Ok f /\ forall fn, DFunc fn ∈ Decls f -> passes f fn.
Proof.
  unfold run. destruct (parse_flags "files" "" args) as [[path [|extra rest]]|]; [|split; [done|]; by intros (_&?&?&?&_)..].
  destruct (String.eqb_spec path "") as [->|Hn].
  { split; [done|]. by intros (_&?&?&[= <-]&?&_). }
  destruct (readFiles path) as [files|err] eqn:Er.
  - rewrite run_files_zero. split.
    + intros [-> Hp]. split; [done|]. by exists path, files.
    + intros (->&p&fs&[= <-]&_&Hr&Hp). rewrite Er in Hr. injection Hr as <-. done.
  - split; [done|]. intros (_&p&fs&[= <-]&_&Hr&_). congruence.
Qed.
End Files.

(** ** Samples *)

Module TestIntegritySamples.

(** [func TestShadow(t *testing.T) { if true { t := struct{}{}; _ = t } }]: the use
    of the inner variable is not a use of the parameter. *)
Definition t_param : ident := mkIdent 1 "t".
Definition t_inner : ident := mkIdent 2 "t".
Definition test_type : node := StarExpr (SelectorExpr (Ident (mkIdent 3 "testing")) (mkIdent 4 "T")).
Definition shadow : FuncDecl :=
  mkFuncDecl 7 (mkIdent 5 "TestShadow") (Some [mkField [t_param] test_type])
    (Some (Other "BlockStmt" [Other "IfStmt" [Ident (mkIdent 6 "true"); Other "BlockStmt" [Other "AssignStmt" [Ident t_inner]]]])).
Definition asserting : FuncDecl :=
  mkFuncDecl 9 (mkIdent 8 "TestGood") (Some [mkField [t_param] test_type])
    (Some (Other "BlockStmt" [CallExpr (SelectorExpr (Ident (mkIdent 10 "t")) (mkIdent 11 "Fatal")) [Other "BasicLit" []]])).

#[local] Instance sample_tools : GoTools := {
  ParseFile path := if path ==s "a_test.go" then Ok (mkFile [DFunc shadow; DFunc asserting]) else Ok (mkFile [DFunc asserting]);
  typeInfo _ := mkInfo (fun i => Some (Obj (id_ptr i)))
    (fun i => if id_ptr i =? 2 then Some (Obj 2) else if id_ptr i =? 10 then Some (Obj 1) else None);
  Position pos := ("./a_test.go", pos);
  IsLower r := (97 <=? r) && (r <=? 122);
  Open_ path := Ok (if path ==s "good" then "b_test.go" else "a_test.go", None)
}.

Example shadowed_found : run ["--files"; "list"] =
  Some (1, [Stdout "ASSERTION-FREE TEST  a_test.go:7: TestShadow has neither a testing.T reference nor a panic failure path"]).
Proof. vm_compute. reflexivity. Qed.
Example good_passes : run ["-files=good"] = Some (0, []).
Proof. vm_compute. reflexivity. Qed.
Example lower_suffix : isTestName "Testlower" = false /\ isTestName "Test" = true /\ isTestName "Test1" = true.
Proof. vm_compute. done. Qed.

End TestIntegritySamples.
