(* ===== verification/Compat.v ===== *)
(** * The compatibility contract

    [internal/history/compat/contract.go]: the manifest of limits, tools,
    endpoints, sources, variables and entry points, and its validation. *)
From Stdlib Require Import ZArith Lia Bool.
From Stdlib Require Import String Ascii.
From stdpp Require Import base tactics option list strings.
From S2P Require Import Prelude GoStrings JsonKeys GoFile.
Open Scope Z_scope.

Module Compat.

Definition CurrentVersion : string := "1.0.0".

Record PayloadLimit : Type := mkPayloadLimit { pl_Name : string; pl_MaxBytes : Z; pl_Inclusive : bool }.
Record MCPTool : Type := mkMCPTool { mt_Name : string; mt_Method : string; mt_Path : string; mt_MaxRequest : Z }.
Record HTTPEndpoint : Type := mkHTTPEndpoint { he_Method : string; he_Path : string; he_Authentication : string; he_Payload : string }.
Record SourceFamily : Type := mkSourceFamily {
  sf_Name : string; sf_RootEnv : string; sf_DefaultRoot : string; sf_StateEnv : string; sf_DefaultState : string }.
Record Environment : Type := mkEnvironment { en_Name : string; en_Required : bool; en_Purpose : string }.
Record Entrypoint : Type := mkEntrypoint {
  ep_Name : string; ep_Platform : string; ep_Current : list string; ep_Replacement : list string }.

Record Contract : Type := mkContract {
  Version : string;
  PayloadLimits : list PayloadLimit;
  MCPTools : list MCPTool;
  HTTPEndpoints : list HTTPEndpoint;
  Sources : list SourceFamily;
  Environments : list Environment;
  Entrypoints : list Entrypoint
}.

(** The loop of [uniqueNonempty]. *)
Fixpoint unique_names (kind : string) (seen names : list string) : result unit :=
  match names with
  | [] => Ok tt
  | name :: rest =>
      if name ==s "" then Fail (Errorf "native compatibility contract has an unnamed %s" [FStr kind])
      else if existsb (String.eqb name) seen then Fail (Errorf "native compatibility contract duplicates %s %q" [FStr kind; FStr name])
      else unique_names kind (name :: seen) rest
  end.
Definition uniqueNonempty {T} (kind : string) (values : list T) (key : T -> string) : result unit :=
  match values with
  | [] => Fail (Errorf "native compatibility contract requires %s entries" [FStr kind])
  | _ => unique_names kind [] (map key values)
  end.

Definition get_or_post (method : string) : bool := (method ==s "GET") || (method ==s "POST").
Definition endpoint_name (e : HTTPEndpoint) : string := he_Method e +:+ " " +:+ he_Path e.

(** Each loop of [Validate] refuses the entries that fail a test. *)
Definition check_entries {T} (ok : T -> bool) (name : T -> string) (format : string) (values : list T) : result unit :=
  each (fun v => if ok v then Ok tt else Fail (Errorf format [FStr (name v)])) values.

Definition limit_ok (v : PayloadLimit) : bool := negb ((pl_MaxBytes v <=? 0) || negb (pl_Inclusive v)).
Definition tool_ok (v : MCPTool) : bool :=
  negb (negb (get_or_post (mt_Method v)) || negb (HasPrefix (mt_Path v) "/") || (mt_MaxRequest v <=? 0)).
Definition endpoint_ok (v : HTTPEndpoint) : bool :=
  negb (negb (get_or_post (he_Method v)) || negb (HasPrefix (he_Path v) "/") || (he_Authentication v ==s "") || (he_Payload v ==s "")).
Definition source_ok (v : SourceFamily) : bool :=
  negb ((sf_RootEnv v ==s "") || (sf_DefaultRoot v ==s "") || (sf_StateEnv v ==s "") || (sf_DefaultState v ==s "")).
Definition environment_ok (v : Environment) : bool := negb (negb (HasPrefix (en_Name v) "CLAUDE_HISTORY_RAG_") || (en_Purpose v ==s "")).
Definition is_nil {T} (l : list T) : bool := match l with [] => true | _ => false end.
Definition entrypoint_ok (v : Entrypoint) : bool := negb ((ep_Platform v ==s "") || is_nil (ep_Current v) || is_nil (ep_Replacement v)).

Definition Validate (c : Contract) : result unit :=
  if Version c !=s CurrentVersion then Fail (Errorf "native compatibility contract version must equal %q" [FStr CurrentVersion])
  else
    _ ← uniqueNonempty "payload limit" (PayloadLimits c) pl_Name;
    _ ← check_entries limit_ok pl_Name "payload limit %q must be positive and inclusive" (PayloadLimits c);
    _ ← uniqueNonempty "MCP tool" (MCPTools c) mt_Name;
    _ ← check_entries tool_ok mt_Name "MCP tool %q has an invalid transport binding" (MCPTools c);
    _ ← uniqueNonempty "HTTP endpoint" (HTTPEndpoints c) endpoint_name;
    _ ← check_entries endpoint_ok endpoint_name "HTTP endpoint %q has an invalid contract" (HTTPEndpoints c);
    _ ← uniqueNonempty "source family" (Sources c) sf_Name;
    _ ← check_entries source_ok sf_Name "source family %q must declare root and state coordinates" (Sources c);
    _ ← uniqueNonempty "environment variable" (Environments c) en_Name;
    _ ← check_entries environment_ok en_Name "environment variable %q has an invalid contract" (Environments c);
    _ ← uniqueNonempty "entrypoint" (Entrypoints c) ep_Name;
    check_entries entrypoint_ok ep_Name "entrypoint %q must declare current and replacement commands" (Entrypoints c).

(** [json.Unmarshal] into a contract. *)
Class ContractCodec : Type := contract_Unmarshal : string -> result Contract.

Definition Parse `{ContractCodec} (data : string) : result Contract :=
  match contract_Unmarshal data with
  | Fail err => Fail (Wrapf "decode native compatibility contract: %w" [] err)
  | Ok contract => _ ← Validate contract; Ok contract
  end.

(** ** What a parsed contract guarantees *)

(** Entries with distinct names, none empty, that all pass a test. *)
Definition catalogue {T} (key : T -> string) (ok : T -> bool) (values : list T) : Prop :=
  values <> [] /\ NoDup (map key values) /\ Forall (fun v => key v <> "" /\ ok v = true) values.

Lemma unique_names_ok kind seen names : NoDup seen ->
  unique_names kind seen names = Ok tt <-> NoDup (names ++ seen) /\ Forall (fun n => n <> "") names.
Proof.
  revert seen. induction names as [|name names IH]; intros seen Hs; cbn [unique_names app].
  - split; [intros _; split; [done|constructor]|done].
  - rewrite existsb_eqb_elem, Forall_cons, NoDup_cons, elem_of_app. destruct (String.eqb_spec name "") as [->|Hne].
    { split; [done|]. by intros [_ [? _]]. }
    case_bool_decide as Hin; [split; [done|tauto]|]. rewrite IH by (by constructor).
    rewrite <- Permutation_middle, NoDup_cons, elem_of_app. tauto.
Qed.

Lemma catalogue_ok {T} kind format (key : T -> string) ok values :
  (uniqueNonempty kind values key = Ok tt /\ check_entries ok key format values = Ok tt) <-> catalogue key ok values.
Proof.
  unfold catalogue, check_entries. rewrite each_ok. assert (forall v, (if ok v then Ok tt else Fail (Errorf format [FStr (key v)])) = Ok tt <-> ok v = true) as Hok
    by (intros v; by destruct (ok v)).
  rewrite (Forall_iff _ _ _ Hok), Forall_and. unfold uniqueNonempty. destruct values as [|v values]; [split; [by intros []|by intros [? _]]|].
  rewrite (unique_names_ok kind [] (map key (v :: values))) by constructor. rewrite app_nil_r, Forall_fmap. unfold compose.
  split; [intros [[? ?] ?]; by split_and!|by intros (_&?&?&?)].
Qed.

(** A contract is accepted exactly when it has the current version and each of its
    six lists is a non-empty catalogue of lawful entries. *)
Lemma contract_exact `{ContractCodec} data c :
  Parse data = Ok c <-> contract_Unmarshal data = Ok c /\ Version c = CurrentVersion /\
    catalogue pl_Name limit_ok (PayloadLimits c) /\ catalogue mt_Name tool_ok (MCPTools c) /\
    catalogue endpoint_name endpoint_ok (HTTPEndpoints c) /\ catalogue sf_Name source_ok (Sources c) /\
    catalogue en_Name environment_ok (Environments c) /\ catalogue ep_Name entrypoint_ok (Entrypoints c).
Proof.
  unfold Parse. destruct (contract_Unmarshal data) as [x|]; [|split; [done|by intros [? _]]]. rewrite bind_ok_unit. unfold Validate.
  assert (forall v : Contract, Ok v = Ok c <-> v = c) as Hinj by (intros v; split; congruence). rewrite !Hinj.
  assert (forall P Q, (P /\ x = c <-> x = c /\ Q) <-> (x = c -> (P <-> Q))) as Hcomm by (intros; tauto). rewrite Hcomm. intros ->. clear Hcomm Hinj.
  destruct (String.eqb_spec (Version c) CurrentVersion); cbn [negb]; [|split; [done|by intros [? _]]].
  rewrite !bind_ok_unit.
  rewrite <- (catalogue_ok "payload limit" "payload limit %q must be positive and inclusive" pl_Name),
    <- (catalogue_ok "MCP tool" "MCP tool %q has an invalid transport binding" mt_Name),
    <- (catalogue_ok "HTTP endpoint" "HTTP endpoint %q has an invalid contract" endpoint_name),
    <- (catalogue_ok "source family" "source family %q must declare root and state coordinates" sf_Name),
    <- (catalogue_ok "environment variable" "environment variable %q has an invalid contract" en_Name),
    <- (catalogue_ok "entrypoint" "entrypoint %q must declare current and replacement commands" ep_Name). tauto.
Qed.

End Compat.
