(* ===== verification/Api.v ===== *)
(** * The HTTP API

    [internal/history/api/server.go] and [retrieval.go]. The Go interfaces the
    server is built on ([Verifier], [Readiness], [Authority], [Retrieval]) are
    records of operations on a world [S]; a handler takes a request and the world
    to a response, its status and its body, and the new world. *)
From Stdlib Require Import ZArith Lia Bool.
From Stdlib Require Import String Ascii.
From stdpp Require Import base tactics option list gmap strings.
From S2P Require Import Prelude GoStrings StoreTypes StorePlans StoreOps SourceText AtomicFile.
From S2P Require Auth.
Open Scope Z_scope.

Module Api.

Definition MaxRequestBodyBytes : Z := 4096.
Definition MaxResponseBytes : Z := 32768.
Definition maxRetrievalBody : Z := 65536.
Definition maxRetrievalResponse : Z := 8388608.
Definition requiredReadinessDependencyCount : Z := 2.

Record Request : Type := mkRequest {
  rq_Method : string;
  rq_Path : string;
  rq_Authorization : string;
  rq_ContentLength : Z;
  rq_Body : string
}.
Record Response : Type := mkResponse { rs_Status : Z; rs_Body : string }.

(** Pointer fields are options. *)
Record searchRequest : Type := mkSearchRequest {
  sq_Query : string;
  sq_Limit : option Z;
  sq_Project : option string;
  sq_From : option string;
  sq_To : option string;
  sq_Hybrid : option bool
}.
Record fileRequest : Type := mkFileRequest {
  fq_Query : option string;
  fq_Path : option string;
  fq_Limit : option Z;
  fq_Project : option string;
  fq_From : option string;
  fq_To : option string;
  fq_Operation : option string
}.
Record sessionRequest : Type := mkSessionRequest {
  nq_Session : option string;
  nq_Project : option string;
  nq_Count : option Z
}.

(** What decoding the first value of a text gives: the value and whether another
    one can be decoded after it, an error in the text, or no end of the value. *)
Inductive decoded (T : Type) : Type :=
| Decoded (v : T) (more : bool)
| Malformed
| Incomplete.
#[global] Arguments Decoded {T} v more.
#[global] Arguments Malformed {T}.
#[global] Arguments Incomplete {T}.

(** [encoding/json] and [time] as the handlers use them: encoding of a value;
    whether a first token can be read, and then the members of the object, each an
    error or a key with whether its value is an object or an array; decoding of
    the first value of a body into an [any], into the struct of [handleAuthRotate]
    (its secret) and into a map; strict decoding of the three requests
    ([DisallowUnknownFields], nothing after the value); the two layouts of
    [requestFilter] and the format of results. *)
Class ApiCodec : Type := {
  api_Marshal : json -> result string;
  scan_opens : string -> bool;
  scan_members : string -> list (result (string * bool));
  decode_any : string -> decoded unit;
  decode_rotate : string -> decoded string;
  decode_map : string -> decoded unit;
  decode_search : string -> option searchRequest;
  decode_file : string -> option fileRequest;
  decode_session : string -> option sessionRequest;
  parse_RFC3339 : string -> option Time;
  parse_date : string -> option Time;
  format_RFC3339 : Time -> string
}.

(** ** Requests to queries *)

Definition value (s : option string) : string := default "" s.

Definition limit (v : option Z) (fallback maximum : Z) : Z * bool :=
  match v with
  | None => (fallback, true)
  | Some v => (v, (1 <=? v) && (v <=? maximum))
  end.

Definition validQuery (s : string) : bool :=
  (TrimSpace s !=s "") && (RuneCountInString s <=? 10000) && (len s <=? 16384).

Section Handlers.
Context `{ApiCodec}.

(** One round of the loop of [requestFilter]: [None] for a date that does not parse. *)
Definition filter_date (source : option string) (stop : bool) : option Time :=
  match source with
  | None => Some zero_time
  | Some s =>
      if s ==s "" then Some zero_time
      else match parse_RFC3339 s with
           | Some t => Some t
           | None => (fun t => if stop then time_Add t (24 * hour - nanosecond) else t) <$> parse_date s
           end
  end.

Definition requestFilter (project from to : option string) : Filter * bool :=
  let path := value project in
  let f0 := mkFilter path "" "" "" "" "" "" zero_time zero_time in
  if 8192 <? len path then (f0, false)
  else
    match filter_date from false with
    | None => (f0, false)
    | Some dateFrom =>
        let f1 := mkFilter path "" "" "" "" "" "" dateFrom zero_time in
        match filter_date to true with
        | None => (f1, false)
        | Some dateTo =>
            (mkFilter path "" "" "" "" "" "" dateFrom dateTo,
             IsZero dateFrom || IsZero dateTo || negb (After dateFrom dateTo))
        end
    end.

(** The query of [handleSearch], with whether it is a hybrid search; [None] is
    an invalid request. *)
Definition search_query (b : searchRequest) : option (Query * bool) :=
  let '(n, ok) := limit (sq_Limit b) 5 50 in
  let '(f, valid) := requestFilter (sq_Project b) (sq_From b) (sq_To b) in
  if negb ok || negb valid || negb (validQuery (sq_Query b)) then None
  else Some (mkQuery (sq_Query b) [] n SearchAuto f, default true (sq_Hybrid b)).

Definition file_query (b : fileRequest) : option Query :=
  let '(n, ok) := limit (fq_Limit b) 10 50 in
  let '(f, valid) := requestFilter (fq_Project b) (fq_From b) (fq_To b) in
  let f := mkFilter (f_ProjectPath f) "file_change" (f_SessionID f) (f_ProjectName f) (f_MachineID f)
             (value (fq_Path b)) (value (fq_Operation b)) (f_DateFrom f) (f_DateTo f) in
  let query := value (fq_Query b) in
  let query := if (query ==s "") && (f_FilePath f !=s "") then "file changes to " +:+ f_FilePath f else query in
  if negb ok || negb valid || negb (validQuery query) || (8192 <? len (f_FilePath f)) ||
     ((f_Operation f !=s "") && (f_Operation f !=s "edit") && (f_Operation f !=s "write"))
  then None
  else Some (mkQuery query [] n SearchAuto f).

Definition session_filter (b : sessionRequest) : option (Filter * Z) :=
  let '(n, ok) := limit (nq_Count b) 1 20 in
  let '(f, valid) := requestFilter (nq_Project b) None None in
  let f := mkFilter (f_ProjectPath f) (f_ChunkType f) (value (nq_Session b)) (f_ProjectName f) (f_MachineID f)
             (f_FilePath f) (f_Operation f) (f_DateFrom f) (f_DateTo f) in
  if negb ok || negb valid || (128 <? len (f_SessionID f)) then None else Some (f, n).

(** ** The server *)

Context {S : Type}.

(** The three interfaces the handlers call, and the readiness of a dependency. *)
Record Retrieval : Type := mkRetrieval {
  rt_Search : Query -> st S (result (list Result));
  rt_HybridSearch : Query -> st S (result (list Result));
  rt_Summaries : Filter -> Z -> st S (result (list Result))
}.
Record Authority : Type := mkAuthority {
  au_BeginRotation : string -> st S (result unit);
  au_PromotePending : st S (result unit);
  au_RotationState : st S (result Auth.Auth.RotationState_)
}.
Definition Verifier : Type := string -> st S (result Auth.Auth.KeyKind).
Record Readiness : Type := mkReadiness { dep_Name : string; dep_Ready : st S (result unit) }.

Record Config : Type := mkConfig {
  AuthEnabled : bool;
  cfg_Authority : option Authority;
  cfg_Retrieval : option Retrieval;
  ReadOnly : bool
}.
Record Server : Type := mkServer {
  sv_config : Config;
  sv_verifier : Verifier;
  sv_dependencies : list Readiness
}.

Definition isRequiredReadinessDependency (name : string) : bool := (name ==s "store") || (name ==s "watcher").

(** The loop of [New] over the dependencies; [None] is a nil one. *)
Fixpoint check_dependencies (seen : list string) (l : list (option Readiness)) : result (list Readiness) :=
  match l with
  | [] => Ok []
  | None :: _ => Fail (errors_New "readiness dependency name required")
  | Some d :: rest =>
      if dep_Name d ==s "" then Fail (errors_New "readiness dependency name required")
      else if negb (isRequiredReadinessDependency (dep_Name d)) then Fail (errors_New "unknown readiness dependency")
      else if existsb (String.eqb (dep_Name d)) seen then Fail (errors_New "duplicate readiness dependency")
      else
        owned ← check_dependencies (dep_Name d :: seen) rest;
        Ok (d :: owned)
  end.

(** The verifier of a server without authentication, which is never called. *)
Definition nil_verifier : Verifier := fun _ w => (Fail (errors_New "nil verifier"), w).

Definition New (config : Config) (verifier : option Verifier) (dependencies : list (option Readiness)) : result Server :=
  if AuthEnabled config && match verifier with None => true | Some _ => false end
  then Fail (errors_New "authenticated API requires verifier")
  else if ReadOnly config && (negb (AuthEnabled config) || match cfg_Retrieval config with None => true | Some _ => false end)
  then Fail (errors_New "read-only API requires authenticated retrieval")
  else
    owned ← check_dependencies [] dependencies;
    Ok (mkServer config (default nil_verifier verifier) (sort_by dep_Name owned)).

(** ** Responses *)

Definition respond (status : Z) (body : string) : Response := mkResponse status body.
Definition line_feed : string := String (ascii_of_N 10) "".
Definition dquote : string := String (ascii_of_N 34) "".

Definition writeJSON (status : Z) (v : json) : Response :=
  match api_Marshal v with
  | Ok payload =>
      if MaxResponseBytes <? len payload + 1
      then respond 500 ("{" +:+ dquote +:+ "error" +:+ dquote +:+ ":" +:+ dquote +:+ "response_unavailable" +:+ dquote +:+ "}" +:+ line_feed)
      else respond status (payload +:+ line_feed)
  | Fail _ => respond 500 ("{" +:+ dquote +:+ "error" +:+ dquote +:+ ":" +:+ dquote +:+ "response_unavailable" +:+ dquote +:+ "}" +:+ line_feed)
  end.
Definition error_response (status : Z) (name : string) : Response := writeJSON status (JObject [("error", JString name)]).
Definition status_response (status : Z) (name : string) : Response := writeJSON status (JObject [("status", JString name)]).
Definition invalidRetrieval : Response := error_response 400 "invalid_request".

Definition handler : Type := Request -> st S Response.
Definition reply (r : Response) : st S Response := fun w => (r, w).

(** The members of a retrieval body: no repeated key, no nested value. *)
Fixpoint check_members (seen : list string) (members : list (result (string * bool))) : bool :=
  match members with
  | [] => true
  | Fail _ :: _ => false
  | Ok (name, nested) :: rest =>
      negb (existsb (String.eqb name) seen) && negb nested && check_members (name :: seen) rest
  end.

(** [decodeRetrieval]: the decoded request or the response that refuses it. *)
Definition decodeRetrieval {T} (decode : string -> option T) (r : Request) : T + Response :=
  if maxRetrievalBody <? len (rq_Body r) then inr (error_response 413 "request_too_large")
  else if negb (HasPrefix (TrimSpace (rq_Body r)) "{") then inr invalidRetrieval
  else if negb (scan_opens (rq_Body r)) || negb (check_members [] (scan_members (rq_Body r))) then inr invalidRetrieval
  else match decode (rq_Body r) with
       | Some b => inl b
       | None => inr invalidRetrieval
       end.

(** [decodeBoundedJSON] and the body check of [handleCursorMutation]: the value,
    or the response that refuses the request. The body is cut at the limit, which
    shows only when the first value does not end before it. *)
Definition decodeBoundedJSON {T} (decode : string -> decoded T) (r : Request) : T + Response :=
  if MaxRequestBodyBytes <? rq_ContentLength r then inr (error_response 413 "request_too_large")
  else
    match decode (slice (rq_Body r) 0 MaxRequestBodyBytes) with
    | Malformed => inr (error_response 400 "invalid_request")
    | Incomplete =>
        inr (if MaxRequestBodyBytes <? len (rq_Body r) then error_response 413 "request_too_large"
             else error_response 400 "invalid_request")
    | Decoded v more => if more then inr (error_response 400 "invalid_request") else inl v
    end.

Definition wire_result (row : Result) : json :=
  JObject [("id", JString (r_ID row)); ("content", JString (r_Content row)); ("chunk_type", JString (r_ChunkType row));
           ("session_id", JString (r_SessionID row)); ("project_path", JString (r_ProjectPath row));
           ("project_name", JString (r_ProjectName row)); ("timestamp", JString (format_RFC3339 (r_Timestamp row)));
           ("file_path", JString (r_FilePath row)); ("operation", JString (r_Operation row));
           ("machine_id", JString (r_MachineID row)); ("distance", JNumber (r_Distance row));
           ("search_type", JString (r_SearchType row))].
Definition wireResults (rows : list Result) : json := JArray (map wire_result rows).
Definition count_json (rows : list Result) : json := JNumber (float_of_int (Z.of_nat (length rows))).
Definition pointer_json (s : option string) : json := match s with Some s => JString s | None => JNull end.

Context (s : Server).

(** [runRetrieval]: [run] gives rows, and [wire] the payload of them. *)
Definition runRetrieval (run : Retrieval -> st S (result (list Result))) (wire : list Result -> json) : st S Response :=
  match cfg_Retrieval (sv_config s) with
  | None => reply (error_response 503 "retrieval_unavailable")
  | Some rt => fun w =>
      match run rt w with
      | (Fail e, w') =>
          (error_response (if errors_Is e context_DeadlineExceeded then 504 else 503) "retrieval_failed", w')
      | (Ok rows, w') =>
          (match api_Marshal (wire rows) with
           | Ok payload =>
               if maxRetrievalResponse <? len payload then error_response 503 "retrieval_response_too_large"
               else respond 200 (payload +:+ line_feed)
           | Fail _ => error_response 503 "retrieval_response_too_large"
           end, w')
      end
  end.

Definition handleSearch : handler := fun r =>
  match decodeRetrieval decode_search r with
  | inr refused => reply refused
  | inl b =>
      match search_query b with
      | None => reply invalidRetrieval
      | Some (q, hybrid) =>
          runRetrieval (fun rt => if (hybrid : bool) then rt_HybridSearch rt q else rt_Search rt q)
            (fun rows => JObject [("results", wireResults rows); ("count", count_json rows); ("query", JString (sq_Query b));
               ("search_type", JString (match rows with row :: _ => r_SearchType row | [] => "empty" end)); ("error", JNull)])
      end
  end.

Definition handleFileSearch : handler := fun r =>
  match decodeRetrieval decode_file r with
  | inr refused => reply refused
  | inl b =>
      match file_query b with
      | None => reply invalidRetrieval
      | Some q =>
          runRetrieval (fun rt => rt_Search rt q)
            (fun rows => JObject [("results", wireResults rows); ("count", count_json rows);
               ("file_path_filter", pointer_json (fq_Path b)); ("operation_filter", pointer_json (fq_Operation b));
               ("error", JNull)])
      end
  end.

Definition handleSessions : handler := fun r =>
  match decodeRetrieval decode_session r with
  | inr refused => reply refused
  | inl b =>
      match session_filter b with
      | None => reply invalidRetrieval
      | Some (f, n) =>
          runRetrieval (fun rt => rt_Summaries rt f n)
            (fun rows => JObject [("summaries", wireResults rows); ("count", count_json rows); ("error", JNull)])
      end
  end.

Definition handleLive : handler := fun _ => reply (status_response 200 "live").

(** The readiness of each dependency, in order. *)
Fixpoint poll (l : list Readiness) : st S (list (string * bool)) := fun w =>
  match l with
  | [] => ([], w)
  | d :: rest =>
      let '(e, w) := dep_Ready d w in
      let '(results, w) := poll rest w in
      ((dep_Name d, is_ok e) :: results, w)
  end.

(** The number and names of the dependencies are the required ones. *)
Definition complete : bool :=
  if ReadOnly (sv_config s) then
    match sv_dependencies s with
    | [d] => dep_Name d ==s "store"
    | _ => false
    end
  else Z.of_nat (length (sv_dependencies s)) =? requiredReadinessDependencyCount.

Definition handleReadiness : handler := fun _ w =>
  let '(results, w) := poll (sv_dependencies s) w in
  let ready := complete && forallb snd results in
  let status := if ready then "ready" else "not_ready" in
  (writeJSON (if ready then 200 else 503)
     (JObject [("status", JString status);
               ("dependencies", JArray (map (fun x => JObject [("name", JString (fst x)); ("ready", JBool (snd x))]) results))]), w).

Definition handleCursorMutation : handler := fun r =>
  match decodeBoundedJSON decode_any r with
  | inr refused => reply refused
  | inl _ => reply (error_response 409 "cursor_sync_forbidden")
  end.

Definition handleAuthState (a : Authority) : handler := fun _ w =>
  match au_RotationState a w with
  | (Fail _, w) => (error_response 503 "auth_unavailable", w)
  | (Ok st, w) =>
      (writeJSON 200 (JObject [("active_id", JString (Auth.Auth.ActiveID st)); ("pending_id", JString (Auth.Auth.PendingID st))]), w)
  end.

Definition handleAuthRotate (a : Authority) : handler := fun r =>
  match decodeBoundedJSON decode_rotate r with
  | inr refused => reply refused
  | inl secret => fun w =>
      match au_BeginRotation a secret w with
      | (Fail _, w) => (error_response 400 "rotation_rejected", w)
      | (Ok _, w) => (status_response 202 "rotation_pending", w)
      end
  end.

Definition handleAuthPromote (a : Authority) : handler := fun r =>
  match decodeBoundedJSON decode_map r with
  | inr refused => reply refused
  | inl _ => fun w =>
      match au_PromotePending a w with
      | (Fail _, w) => (error_response 409 "rotation_unavailable", w)
      | (Ok _, w) => (status_response 200 "rotation_promoted", w)
      end
  end.

(** ** Authentication and routes *)

Definition withAuth (next : handler) : handler := fun r =>
  if AuthEnabled (sv_config s) then
    let header := rq_Authorization r in
    if len "Bearer " + Auth.Auth.MaxCredentialBytes <? len header then reply (error_response 401 "unauthorized")
    else
      fun w =>
        match sv_verifier s header w with
        | (Fail _, w) => (error_response 401 "unauthorized", w)
        | (Ok _, w) => next r w
        end
  else next r.

Definition routes : list (string * string * handler) :=
  [("GET", "/live", handleLive);
   ("GET", "/health", withAuth handleReadiness);
   ("GET", "/status", withAuth handleReadiness);
   ("POST", "/api/positions", withAuth handleCursorMutation);
   ("POST", "/api/search", withAuth handleSearch);
   ("POST", "/api/search/files", withAuth handleFileSearch);
   ("POST", "/api/sessions", withAuth handleSessions)] ++
  match cfg_Authority (sv_config s) with
  | None => []
  | Some a =>
      [("GET", "/api/auth/state", withAuth (handleAuthState a));
       ("POST", "/api/auth/rotate", withAuth (handleAuthRotate a));
       ("POST", "/api/auth/rotation-ack", withAuth (handleAuthPromote a))]
  end.

(** A [GET] pattern also matches [HEAD]. *)
Definition method_matches (pattern method : string) : bool :=
  (pattern ==s method) || ((pattern ==s "GET") && (method ==s "HEAD")).

(** [ServeHTTP] on a clean path: 404 when no pattern has the path, 405 when none
    of those has the method. *)
Definition serve : handler := fun r =>
  match List.filter (fun x => (snd (fst x) ==s rq_Path r) && method_matches (fst (fst x)) (rq_Method r)) routes with
  | (_, h) :: _ => h r
  | [] =>
      if existsb (fun x => snd (fst x) ==s rq_Path r) routes then reply (respond 405 "Method Not Allowed")
      else reply (respond 404 "404 page not found")
  end.
End Handlers.
End Api.
