(* ===== verification/ApiSpec.v ===== *)
(** * Properties of the HTTP API *)
From Stdlib Require Import ZArith Lia Bool.
From Stdlib Require Import String Ascii.
From stdpp Require Import base tactics option list gmap strings sorting.
From S2P Require Import Prelude GoStrings StoreTypes StorePlans StoreOps SourceText AtomicFile Auth Api.
Open Scope Z_scope.
Import Api.

(** ** Requests the store accepts *)

Lemma limit_ok v fallback maximum n :
  1 <= fallback <= maximum -> limit v fallback maximum = (n, true) -> 1 <= n <= maximum.
Proof. intros Hf. destruct v as [v|]; simpl; intros [= <-]; [to_prop; lia|done]. Qed.

Lemma validateLimit_ok n maximum : 1 <= n <= maximum -> validateLimit n maximum = Ok tt.
Proof.
  intros H. unfold validateLimit. destruct ((n <? 1) || (maximum <? n)) eqn:E; [|done].
  apply orb_true_iff in E as [?|?]; to_prop; lia.
Qed.

Lemma validQuery_ok text : validQuery text = true -> validateQueryText text = Ok tt.
Proof.
  unfold validQuery, validateQueryText, maxQueryTextBytes. intros H. to_prop.
  destruct (TrimSpace text ==s "") eqn:E; [by apply String.eqb_eq in E|]. simpl.
  by destruct (Z.ltb_spec 16384 (len text)); [lia|].
Qed.

(** Fields within their limits and dates in order. *)
Definition plannable (f : Filter) : Prop :=
  len (f_ProjectPath f) <= 8192 /\ len (f_ChunkType f) <= 32 /\ len (f_SessionID f) <= 128 /\
  len (f_ProjectName f) <= 256 /\ len (f_MachineID f) <= 256 /\ len (f_Operation f) <= 32 /\
  len (f_FilePath f) <= 8192 /\
  (IsZero (f_DateFrom f) || IsZero (f_DateTo f) || negb (After (f_DateFrom f) (f_DateTo f))) = true.

Lemma add_filters_fit items filters params :
  Forall (fun x => len (snd (fst x)) <= snd x) items -> is_ok (add_filters items filters params) = true.
Proof.
  revert filters params. induction items as [|[[[column parameter] v] limit] items IH]; intros filters params Hf; [done|].
  inversion Hf as [|? ? Hl Hf']; subst. simpl in *. destruct (v ==s ""); [by apply IH|].
  destruct (Z.ltb_spec limit (len v)); [lia|by apply IH].
Qed.

Lemma plannable_filters f vector : plannable f -> is_ok (buildFilters f vector) = true.
Proof.
  intros (H1&H2&H3&H4&H5&H6&H7&Hd). unfold buildFilters.
  destruct (negb (IsZero (f_DateFrom f)) && negb (IsZero (f_DateTo f)) && After (f_DateFrom f) (f_DateTo f)) eqn:E.
  { exfalso. destruct (IsZero (f_DateFrom f)), (IsZero (f_DateTo f)), (After (f_DateFrom f) (f_DateTo f)); done. }
  pose proof (add_filters_fit (filter_items f) (if vector then ["Vector IS NOT NULL"] else []) ∅) as Ha.
  destruct (add_filters _ _ _) as [[filters params]|].
  2: { exfalso. enough (false = true) by done. apply Ha.
       unfold filter_items. repeat apply Forall_cons_2; simpl; try done; constructor. }
  cbn [mbind result_bind]. destruct (f_FilePath f ==s ""); [|destruct (Z.ltb_spec 8192 (len (f_FilePath f))); [lia|]];
    cbn [mbind result_bind]; destruct (IsZero (f_DateFrom f)), (IsZero (f_DateTo f)); done.
Qed.

Lemma auto_mode config q ready : q_Mode q = SearchAuto -> is_ok (chooseVectorMode config q ready) = true.
Proof.
  intros Hm. unfold chooseVectorMode. rewrite Hm.
  change (SearchAuto ==s SearchAuto) with true. change (SearchAuto ==s SearchANN) with false. cbn [negb andb].
  destruct (hasUnstoredFilters _); [done|]. by destruct (EnableANN config && UseANN config && ready).
Qed.

(** What planning needs of a query. *)
Lemma plannable_search config q ready :
  Validate config = Ok tt -> validateLimit (q_Limit q) (MaxSearchLimit config) = Ok tt ->
  validateVector (q_Vector q) = Ok tt -> q_Mode q = SearchAuto -> plannable (q_Filter q) ->
  is_ok (BuildSearchPlan config q ready) = true.
Proof.
  intros Hv Hl Hvec Hm Hf. unfold BuildSearchPlan. rewrite Hv, Hl, Hvec. cbn [mbind result_bind].
  pose proof (auto_mode config q ready Hm) as Ha. destruct (chooseVectorMode config q ready); [|done]. cbn [mbind result_bind].
  pose proof (plannable_filters _ true Hf) as Hb. by destruct (buildFilters _ true) as [[? ?]|].
Qed.

Lemma plannable_hybrid config q ready :
  Validate config = Ok tt -> EnableFullText config = true -> validateLimit (q_Limit q) (MaxSearchLimit config) = Ok tt ->
  validateVector (q_Vector q) = Ok tt -> validateQueryText (q_Text q) = Ok tt -> q_Mode q = SearchAuto ->
  plannable (q_Filter q) -> is_ok (BuildHybridPlan config q ready) = true.
Proof.
  intros Hv Hft Hl Hvec Ht Hm Hf. unfold BuildHybridPlan. rewrite Hv, Hft, Hl, Hvec, Ht. cbn [mbind result_bind negb].
  pose proof (auto_mode config q ready Hm) as Ha. destruct (chooseVectorMode config q ready); [|done]. cbn [mbind result_bind].
  pose proof (plannable_filters _ true Hf) as Hb. destruct (buildFilters _ true) as [[? ?]|]; [|done]. cbn [mbind result_bind].
  pose proof (plannable_filters _ false Hf) as Hc. by destruct (buildFilters _ false) as [[? ?]|].
Qed.

Lemma requestFilter_ok `{ApiCodec} project from to f :
  requestFilter project from to = (f, true) ->
  len (f_ProjectPath f) <= 8192 /\ f_ChunkType f = "" /\ f_SessionID f = "" /\ f_ProjectName f = "" /\
  f_MachineID f = "" /\ f_FilePath f = "" /\ f_Operation f = "" /\
  (IsZero (f_DateFrom f) || IsZero (f_DateTo f) || negb (After (f_DateFrom f) (f_DateTo f))) = true.
Proof.
  unfold requestFilter. destruct (Z.ltb_spec 8192 (len (value project))); [done|].
  destruct (filter_date from false); [|done]. destruct (filter_date to true); [|done]. intros [= <- Hd]. simpl. repeat split; done || lia.
Qed.

(** C28: Whatever the API hands to the store can be planned there: for every
    accepted search, file-search or session request, and every valid
    configuration whose search limit is at least 50, the embedding plan of the
    text, the vector plan, the hybrid plan when full text is enabled, and the
    filters of the summaries query are all built without error. *)
Theorem accepted_requests_plannable `{ApiCodec} config vector ready :
  Validate config = Ok tt -> 50 <= MaxSearchLimit config -> validateVector vector = Ok tt ->
  (forall b q hybrid, search_query b = Some (q, hybrid) ->
     is_ok (BuildQueryEmbeddingPlan config (q_Text q)) = true /\
     is_ok (BuildSearchPlan config (with_vector q vector) ready) = true /\
     (EnableFullText config = true -> is_ok (BuildHybridPlan config (with_vector q vector) ready) = true)) /\
  (forall b q, file_query b = Some q ->
     is_ok (BuildQueryEmbeddingPlan config (q_Text q)) = true /\
     is_ok (BuildSearchPlan config (with_vector q vector) ready) = true) /\
  (forall b f n, session_filter b = Some (f, n) ->
     validateLimit n 20 = Ok tt /\ is_ok (buildFilters (with_chunk_type f "summary") false) = true).
Proof.
  intros Hv Hm Hvec. split; [|split].
  - intros b q hybrid. unfold search_query. destruct (limit (sq_Limit b) 5 50) as [n ok] eqn:El.
    destruct (requestFilter _ _ _) as [f valid] eqn:Ef. destruct (_ || _) eqn:Eb; [done|].
    apply orb_false_iff in Eb as [Eb Eq%negb_false_iff].
    apply orb_false_iff in Eb as [Eok%negb_false_iff Eval%negb_false_iff]. subst.
    intros [= <- _]. apply limit_ok in El; [|lia]. apply requestFilter_ok in Ef as (F1&F2&F3&F4&F5&F6&F7&F8).
    assert (plannable f) by (unfold plannable; rewrite F2, F3, F4, F5, F6, F7; repeat split; done).
    apply validQuery_ok in Eq as Ht. unfold BuildQueryEmbeddingPlan. cbn [q_Text]. rewrite Hv. cbn [mbind result_bind]. rewrite Ht.
    split; [done|]. split; [|intros Hft]; [apply plannable_search|apply plannable_hybrid]; try done; apply validateLimit_ok; simpl; lia.
  - intros b q. unfold file_query. destruct (limit (fq_Limit b) 10 50) as [n ok] eqn:El.
    destruct (requestFilter _ _ _) as [f valid] eqn:Ef. set (text := if _ && _ then _ else _).
    destruct (_ || _) eqn:Eb; [done|]. intros [= <-].
    apply orb_false_iff in Eb as [Eb Eo]. apply orb_false_iff in Eb as [Eb Ep%Z.ltb_ge].
    apply orb_false_iff in Eb as [Eb Eq%negb_false_iff].
    apply orb_false_iff in Eb as [Eok%negb_false_iff Eval%negb_false_iff]. subst.
    apply limit_ok in El; [|lia]. apply requestFilter_ok in Ef as (F1&F2&F3&F4&F5&F6&F7&F8).
    apply validQuery_ok in Eq as Ht. unfold BuildQueryEmbeddingPlan. cbn [q_Text]. rewrite Hv. cbn [mbind result_bind]. rewrite Ht.
    split; [done|]. apply plannable_search; try done; [apply validateLimit_ok; simpl; lia|].
    unfold plannable. cbn [f_ProjectPath f_ChunkType f_SessionID f_ProjectName f_MachineID f_Operation f_FilePath f_DateFrom f_DateTo q_Filter with_vector] in *.
    rewrite F3, F4, F5. repeat split; try done.
    apply andb_false_iff in Eo as [Eo|Eo]; [apply andb_false_iff in Eo as [Eo|Eo]|];
      apply negb_false_iff, String.eqb_eq in Eo; rewrite Eo; done.
  - intros b f n. unfold session_filter. destruct (limit (nq_Count b) 1 20) as [k ok] eqn:El.
    destruct (requestFilter _ _ _) as [f0 valid] eqn:Ef. destruct (_ || _) eqn:Eb; [done|].
    apply orb_false_iff in Eb as [Eb Es%Z.ltb_ge]. apply orb_false_iff in Eb as [Eok%negb_false_iff Eval%negb_false_iff].
    subst. intros [= <- <-].
    apply limit_ok in El; [|lia]. apply requestFilter_ok in Ef as (F1&F2&F3&F4&F5&F6&F7&F8).
    split; [by apply validateLimit_ok|]. apply plannable_filters. unfold plannable, with_chunk_type.
    cbn [f_ProjectPath f_ChunkType f_SessionID f_ProjectName f_MachineID f_Operation f_FilePath f_DateFrom f_DateTo] in *.
    rewrite F4, F5, F6, F7. repeat split; done.
Qed.

(** ** The authentication gate *)

Section Gate.
Context `{ApiCodec} {S : Type} (s : @Server S).

(** The header is refused without a call or by the verifier. *)
Definition refused (r : Request) (w : S) : Prop :=
  len "Bearer " + Auth.MaxCredentialBytes < len (rq_Authorization r) \/
  exists e w', sv_verifier s (rq_Authorization r) w = (Fail e, w').

(** What a refused request may do: nothing, or what the verifier did. *)
Definition only_verified (r : Request) (w : S) (x : Response * S) : Prop :=
  rs_Status (fst x) <> 200 /\ (snd x = w \/ snd x = snd (sv_verifier s (rq_Authorization r) w)).

Lemma writeJSON_status status v : rs_Status (writeJSON status v) = status \/ rs_Status (writeJSON status v) = 500.
Proof. unfold writeJSON. destruct (api_Marshal v); [destruct (_ <? _)|]; simpl; auto. Qed.

Lemma withAuth_refused next r w :
  AuthEnabled (sv_config s) = true -> refused r w ->
  only_verified r w (withAuth s next r w) /\
  (rs_Status (fst (withAuth s next r w)) = 401 \/ rs_Status (fst (withAuth s next r w)) = 500).
Proof.
  intros Ha Hr. unfold withAuth. rewrite Ha.
  pose proof (writeJSON_status 401 (JObject [("error", JString "unauthorized")])) as Hs.
  destruct (Z.ltb_spec (len "Bearer " + Auth.MaxCredentialBytes) (len (rq_Authorization r))) as [Hl|Hl].
  - unfold only_verified, reply. cbn [fst snd]. split; [split; [destruct Hs as [E|E]; unfold error_response; rewrite E; done|by left]|done].
  - destruct Hr as [?|(e&w'&Hv)]; [lia|]. unfold only_verified. rewrite Hv. cbn [fst snd].
    split; [split; [destruct Hs as [E|E]; unfold error_response; rewrite E; done|by right]|done].
Qed.

(** Every route but the liveness probe is behind the gate. *)
Lemma routes_gated r w x :
  AuthEnabled (sv_config s) = true -> refused r w -> List.In x (routes s) -> snd (fst x) <> "/live" ->
  only_verified r w (snd x r w).
Proof.
  intros Ha Hr Hin Hl. unfold routes in Hin. apply in_app_iff in Hin as [Hin|Hin].
  - repeat (destruct Hin as [<-|Hin]; [by (apply withAuth_refused || by exfalso)|]). done.
  - destruct (cfg_Authority (sv_config s)); [|done].
    repeat (destruct Hin as [<-|Hin]; [by apply withAuth_refused|]). done.
Qed.

Lemma serve_refused r w :
  AuthEnabled (sv_config s) = true -> rq_Path r <> "/live" -> refused r w -> only_verified r w (serve s r w).
Proof.
  intros Ha Hp Hr. unfold serve.
  destruct (List.filter _ (routes s)) as [|[[method path] h] rest] eqn:Ef.
  - destruct (existsb _ _); unfold only_verified, reply, respond; simpl; auto.
  - assert (List.In (method, path, h) ((method, path, h) :: rest)) as Hin by (by left).
    rewrite <- Ef in Hin. apply filter_In in Hin as [Hin Hm]. cbn [fst snd] in Hm.
    apply andb_true_iff in Hm as [Hm%String.eqb_eq _]. subst path.
    by apply (routes_gated r w (method, rq_Path r, h)).
Qed.
End Gate.

(** C16: With authentication enabled, a request whose bearer header is too long
    or refused by the verifier is answered with an error and changes nothing but
    what the verifier itself changed, on every path except the liveness probe: no
    store, readiness or credential operation runs. *)
Theorem api_auth_gate `{ApiCodec} {S} (s : @Server S) r w :
  AuthEnabled (sv_config s) = true -> rq_Path r <> "/live" -> refused s r w ->
  only_verified s r w (serve s r w).
Proof. apply serve_refused. Qed.

(** ** Readiness *)

Section Ready.
Context `{ApiCodec} {S : Type}.

Lemma check_dependencies_ok seen (l : list (option (@Readiness S))) owned :
  check_dependencies seen l = Ok owned ->
  List.NoDup (map dep_Name owned) /\ (forall n, List.In n (map dep_Name owned) -> ~ List.In n seen) /\
  Forall (fun d => dep_Name d = "store" \/ dep_Name d = "watcher") owned.
Proof.
  revert seen owned. induction l as [|[d|] l IH]; intros seen owned; cbn [check_dependencies]; [|..|done].
  { intros [= <-]. repeat split; [constructor|easy|constructor]. }
  destruct (dep_Name d ==s ""); [done|]. destruct (isRequiredReadinessDependency (dep_Name d)) eqn:Er; [|done]. cbn [negb].
  destruct (existsb _ seen) eqn:Es; [done|]. intros Ho. apply bind_ok in Ho as (owned'&Ho&[= <-]).
  apply IH in Ho as (Hn&Hs&Hf).
  assert (~ List.In (dep_Name d) seen) as Hns.
  { intros Hin. assert (existsb (String.eqb (dep_Name d)) seen = true) as Hx; [|congruence].
    apply existsb_exists. exists (dep_Name d). split; [done|apply String.eqb_refl]. }
  split; [|split].
  - cbn [map]. constructor; [intros Hin; apply (Hs _ Hin); by left|done].
  - intros n [<-|Hin]; [done|]. intros Hx. apply (Hs n Hin). by right.
  - constructor; [|done]. unfold isRequiredReadinessDependency in Er. apply orb_true_iff in Er as [Er|Er]; apply String.eqb_eq in Er; auto.
Qed.

(** Two distinct required names in order. *)
Lemma two_sorted_names (a b : string) :
  (a = "store" \/ a = "watcher") -> (b = "store" \/ b = "watcher") -> a <> b -> str_le a b -> a = "store" /\ b = "watcher".
Proof. intros [->| ->] [->| ->] Hne Hle; done. Qed.

(** The dependencies of a complete server. *)
Lemma complete_names config verifier deps (s : @Server S) :
  New config verifier deps = Ok s -> complete s = true ->
  map dep_Name (sv_dependencies s) = if ReadOnly (sv_config s) then ["store"] else ["store"; "watcher"].
Proof.
  unfold New. destruct (_ && _); [done|]. destruct (_ && _); [done|]. intros Hn. apply bind_ok in Hn as (owned&Ho&[= <-]).
  apply check_dependencies_ok in Ho as (Hnd&_&Hf). unfold complete. cbn [sv_config sv_dependencies].
  pose proof (sort_by_perm dep_Name owned) as Hp. pose proof (sort_by_sorted dep_Name owned) as Hs.
  destruct (ReadOnly config).
  - destruct (sort_by dep_Name owned) as [|d [|? ?]]; try done. intros Hd%String.eqb_eq. simpl. by rewrite Hd.
  - rewrite <- Hp in Hf. assert (List.NoDup (map dep_Name (sort_by dep_Name owned))) as Hnd'.
    { rewrite <- NoDup_ListNoDup in *. by rewrite Hp. }
    unfold requiredReadinessDependencyCount. destruct (sort_by dep_Name owned) as [|a [|b [|? ?]]]; intros Hl; apply Z.eqb_eq in Hl; try (simpl in Hl; lia).
    inversion Hf as [|? ? Fa Hf']; subst. inversion Hf' as [|? ? Fb _]; subst. inversion Hs as [|? ? _ Hsab]; subst.
    inversion Hsab as [|? ? Hab _]; subst. inversion Hnd' as [|? ? Hab' _]; subst.
    destruct (two_sorted_names _ _ Fa Fb) as [E1 E2]; [intros E; apply Hab'; left; done|done|]. simpl. by rewrite E1, E2.
Qed.

(** What polling reports: each dependency, in order, with its own answer. *)
Lemma poll_names (l : list (@Readiness S)) w : map fst (fst (poll l w)) = map dep_Name l.
Proof.
  revert w. induction l as [|d l IH]; intros w; [done|]. cbn [poll]. destruct (dep_Ready d w) as [e w1].
  specialize (IH w1). destruct (poll l w1) as [results w2]. simpl in *. by rewrite IH.
Qed.

(** Each dependency said it was ready when it was polled. *)
Fixpoint all_ready (l : list (@Readiness S)) (w : S) : Prop :=
  match l with
  | [] => True
  | d :: rest => exists w', dep_Ready d w = (Ok tt, w') /\ all_ready rest w'
  end.

Lemma poll_ready (l : list (@Readiness S)) w : forallb snd (fst (poll l w)) = true <-> all_ready l w.
Proof.
  revert w. induction l as [|d l IH]; intros w; [done|]. cbn [poll all_ready]. destruct (dep_Ready d w) as [e w1].
  specialize (IH w1). destruct (poll l w1) as [results w2]. cbn [fst forallb snd] in *. rewrite andb_true_iff, IH. split.
  - intros [He Hr]. destruct e as [[]|]; [eauto|done].
  - intros (w'&[= -> <-]&Hr). done.
Qed.
End Ready.

(** Readiness is never over-reported: when the health endpoint of a server
    answers 200, the server's dependencies are exactly the store and the watcher,
    or only the store in read-only mode, and each of them said it was ready when
    it was polled; when they are and all did, the answer is 200 unless the
    response could not be encoded. *)
Theorem readiness_exact `{ApiCodec} {S} config verifier deps (s : @Server S) r w :
  New config verifier deps = Ok s ->
  let status := rs_Status (fst (handleReadiness s r w)) in
  let ready := map dep_Name (sv_dependencies s) = (if ReadOnly (sv_config s) then ["store"] else ["store"; "watcher"]) /\
               all_ready (sv_dependencies s) w in
  (status = 200 -> ready) /\ (ready -> status = 200 \/ status = 500).
Proof.
  intros Hn. simpl. unfold handleReadiness. pose proof (poll_ready (sv_dependencies s) w) as Hp.
  destruct (poll (sv_dependencies s) w) as [results w']. cbn [fst] in *.
  assert (complete s = true <-> map dep_Name (sv_dependencies s) = (if ReadOnly (sv_config s) then ["store"] else ["store"; "watcher"])) as Hc.
  { split; [by eapply complete_names|]. intros Hd. unfold complete.
    destruct (ReadOnly (sv_config s)); destruct (sv_dependencies s) as [|a [|b [|? ?]]]; simpl in Hd; try done.
    simplify_eq. by apply String.eqb_eq. }
  rewrite <- Hc, <- Hp, <- andb_true_iff. destruct (complete s && forallb snd results) eqn:E; split; try done; intros Hx.
  - apply writeJSON_status.
  - match type of Hx with rs_Status (writeJSON ?c ?v) = 200 => destruct (writeJSON_status c v) as [E'|E'] end; rewrite E' in Hx; done.
Qed.

(** ** Witnesses *)

Module ApiSamples.

#[local] Instance codec : ApiCodec := {|
  api_Marshal _ := Ok "{}";
  scan_opens _ := true;
  scan_members _ := [];
  decode_any _ := Malformed;
  decode_rotate _ := Malformed;
  decode_map _ := Malformed;
  decode_search _ := None;
  decode_file _ := None;
  decode_session _ := None;
  parse_RFC3339 _ := None;
  parse_date _ := None;
  format_RFC3339 _ := ""
|}.

Definition request : searchRequest := mkSearchRequest "where is the parser?" (Some 7) (Some "/work/app") None None None.
Definition query : Query :=
  mkQuery "where is the parser?" [] 7 SearchAuto (mkFilter "/work/app" "" "" "" "" "" "" zero_time zero_time).
Definition vector : list float := repeat (float_of_int 1) 3072.

Lemma accepted_requests_plannable_witness :
  search_query request = Some (query, true) /\
  is_ok (BuildHybridPlan (productionStoreConfig "p" "i" "d") (with_vector query vector) true) = true.
Proof.
  split; [vm_compute; reflexivity|].
  apply (accepted_requests_plannable (productionStoreConfig "p" "i" "d") vector true) with (b := request) (hybrid := true);
    vm_compute; reflexivity || discriminate.
Defined.

(** The world counts calls: one for a verification, a thousand for a readiness poll. *)
Definition dependency (name : string) : @Readiness Z := mkReadiness name (fun w => (Ok tt, w + 1000)).
Definition config : @Config Z := mkConfig true None None false.
Definition verifier : @Verifier Z := fun header w =>
  (if header ==s "Bearer good" then Ok Auth.ActiveKey else Fail (errors_New "refused"), w + 1).
Definition server : @Server Z := mkServer config verifier [dependency "store"; dependency "watcher"].
Definition health (header : string) : Request := mkRequest "GET" "/health" header 0 "".

Example health_accepted : rs_Status (fst (serve server (health "Bearer good") 0)) = 200 /\ snd (serve server (health "Bearer good") 0) = 2001.
Proof. vm_compute. split; reflexivity. Qed.

Lemma api_auth_gate_witness : only_verified server (health "Bearer bad") 0 (serve server (health "Bearer bad") 0).
Proof.
  apply api_auth_gate; [reflexivity|discriminate|]. right. exists (errors_New "refused"), 1. vm_compute. reflexivity.
Defined.

Lemma readiness_exact_witness :
  rs_Status (fst (handleReadiness server (health "") 0)) = 200 /\
  map dep_Name (sv_dependencies server) = ["store"; "watcher"] /\ all_ready (sv_dependencies server) 0.
Proof.
  split; [vm_compute; reflexivity|].
  apply (readiness_exact config (Some verifier) [Some (dependency "watcher"); Some (dependency "store")] server (health "") 0);
    vm_compute; reflexivity.
Defined.
End ApiSamples.
