(* ===== verification/Wiring.v ===== *)
(** * The parts put together

    The read-only server as [cmd/history-ragd/main.go] builds it: the API of [Api]
    with the credential file of [Auth] as its verifier and the Spanner store of
    [StoreOps] as its retrieval and its only dependency; and the server of a daemon
    that watches sources, whose dependencies are the store and the producer of
    [Producer]. *)
From Stdlib Require Import ZArith Lia Bool.
From Stdlib Require Import String Ascii.
From stdpp Require Import base tactics option list gmap strings.
From S2P Require Import Prelude GoStrings StoreTypes StorePlans StoreOps Watch Forward Producer Durable DurableSpec Auth AuthSpec Api ApiSpec.
Open Scope Z_scope.

(** The store with its log, and the authentication state. *)
Definition World : Type := (W * ((Durable.fs * nat) * string))%type.

Definition on_store {A} (m : st W A) : st World A := fun w =>
  let '(a, s) := m (fst w) in (a, (s, snd w)).
Definition on_auth {A} (m : st ((Durable.fs * nat) * string) A) : st World A := fun w =>
  let '(a, s) := m (snd w) in (a, (fst w, s)).

Section Wiring.
Context `{Auth.Pbkdf2} `{Auth.AuthCodec} `{Api.ApiCodec} (E : Env) (O : Durable.OS) (m : Auth.Manager).

Definition store_retrieval : @Api.Retrieval World :=
  Api.mkRetrieval (fun q => on_store (StoreOps.Search E q)) (fun q => on_store (HybridSearch E q))
    (fun f n => on_store (Summaries E f n)).
Definition file_verifier : @Api.Verifier World := fun header => on_auth (Auth.VerifyBearer O m header).
Definition storeReadiness : @Api.Readiness World := Api.mkReadiness "store" (on_store (Ready E)).

Definition readonly_config : @Api.Config World := Api.mkConfig true None (Some store_retrieval) true.
Definition readonly_server : result (@Api.Server World) :=
  Api.New readonly_config (Some file_verifier) [Some storeReadiness].

(** The server starts. *)
Lemma readonly_server_starts :
  readonly_server = Ok (Api.mkServer readonly_config file_verifier [storeReadiness]).
Proof. reflexivity. Qed.

(** A request without a credential that the file accepts never reaches the
    store: its state and the log of its calls stay what they were. *)
Lemma unauthenticated_never_reaches_store s r w e w' :
  readonly_server = Ok s -> Api.rq_Path r <> "/live" ->
  Auth.VerifyBearer O m (Api.rq_Authorization r) (snd w) = (Fail e, w') ->
  fst (snd (Api.serve s r w)) = fst w.
Proof.
  intros Hs Hp Hv. rewrite readonly_server_starts in Hs. injection Hs as <-.
  set (s := Api.mkServer _ _ _).
  assert (refused s r w) as Hr.
  { right. exists e, (fst w, w'). unfold s. cbn [Api.sv_verifier]. unfold file_verifier, on_auth. by rewrite Hv. }
  assert (only_verified s r w (Api.serve s r w)) as [_ [->| ->]]; [by apply serve_refused|done|].
  unfold s. cbn [Api.sv_verifier]. unfold file_verifier, on_auth. by rewrite Hv.
Qed.
End Wiring.

(** ** A daemon that watches sources *)

(** The producer with its log beside the store and the authentication state. *)
Definition Watching : Type := (World * (Producer * list wevent))%type.

Definition on_world {A} (m : st World A) : st Watching A := fun w =>
  let '(a, s) := m (fst w) in (a, (s, snd w)).
Definition on_producer {A} (m : WM Producer A) : st Watching (result A) := fun w =>
  let '(a, s) := m (snd w) in (a, (fst w, s)).

Section Watching.
Context `{Auth.Pbkdf2} `{Auth.AuthCodec} `{Api.ApiCodec} `{Sources} `{ForwardCodec} `{UnicodeTables}.
Context (E : Env) (WE : WEnv) (O : Durable.OS) (m : Auth.Manager).

(** [watcherReadiness]; [None] is a nil producer. *)
Definition watcherReadiness (producer : option (WM Producer unit)) : @Api.Readiness Watching :=
  Api.mkReadiness "watcher"
    match producer with
    | None => fun w => (Fail (errors_New "watch producer is required"), w)
    | Some ready => on_producer ready
    end.
(** [storeReadiness]; [None] is a nil store, and the store of [StoreOps] has a
    method [Ready]. *)
Definition watched_store (live : option (st World (result unit))) : @Api.Readiness Watching :=
  Api.mkReadiness "store"
    match live with
    | None => fun w => (Fail (errors_New "Spanner store is required"), w)
    | Some ready => on_world ready
    end.

Definition watched_retrieval : @Api.Retrieval Watching :=
  Api.mkRetrieval (fun q => on_world (on_store (StoreOps.Search E q))) (fun q => on_world (on_store (HybridSearch E q)))
    (fun f n => on_world (on_store (Summaries E f n))).
Definition watching_config (auth : bool) : @Api.Config Watching := Api.mkConfig auth None (Some watched_retrieval) false.
Definition watching_server (auth : bool) (store : option (st World (result unit))) (producer : option (WM Producer unit)) :
  result (@Api.Server Watching) :=
  Api.New (watching_config auth) (Some (fun header => on_world (on_auth (Auth.VerifyBearer O m header))))
    [Some (watched_store store); Some (watcherReadiness producer)].

(** The server starts whatever its dependencies are. *)
Lemma watching_server_starts auth store producer :
  exists s, watching_server auth store producer = Ok s /\
    Api.sv_dependencies s = [watched_store store; watcherReadiness producer] /\ Api.ReadOnly (Api.sv_config s) = false.
Proof. eexists. split; [destruct auth; reflexivity|]. by split. Qed.

(** The roots a readiness check passed are open and were all verified, in order. *)
Lemma verify_roots_ok {S} roots (w w' : S * list wevent) :
  verify_roots WE roots w = (Ok tt, w') ->
  Forall (fun r => pr_closed r = false) roots /\
  w' = (fst w, rev (map (fun r => WVerify (pr_path r) None) roots) ++ snd w).
Proof.
  revert w. induction roots as [|r roots IH]; intros w; [intros [= ->]; by destruct w'|].
  cbn [verify_roots]. unfold Verify, st_try. destruct (pr_closed r) eqn:Ec; [done|].
  unfold w_err, w_call. destruct (e_verify WE (snd w) (pr_path r)) eqn:Ev; cbn [err_result]; [done|].
  intros [Hf ->]%IH. split; [by constructor|]. cbn [fst snd map rev]. by rewrite <- app_assoc.
Qed.

(** A daemon that watches sources answers its health endpoint with 200 only when
    the store answered its probe and the last scan of an open producer succeeded,
    with every pinned root open and verified during this very request. *)
Theorem watching_health_verified auth s r w :
  watching_server auth (Some (on_store (Ready E))) (Some (Ready_ WE)) = Ok s ->
  Api.rs_Status (fst (Api.handleReadiness s r w)) = 200 ->
  fst (Ready E (fst (fst w))) = Ok tt /\
  let p := fst (snd w) in
  p_closed p = false /\ p_ready p = true /\ Forall (fun root => pr_closed root = false) (p_roots p) /\
  snd (snd (snd (Api.handleReadiness s r w))) = rev (map (fun root => WVerify (pr_path root) None) (p_roots p)) ++ snd (snd w).
Proof.
  intros Hs Hr. pose proof (readiness_exact _ _ _ s r w Hs) as [Hx _]. destruct (Hx Hr) as [_ Ha]. clear Hx Hr.
  destruct (watching_server_starts auth (Some (on_store (Ready E))) (Some (Ready_ WE))) as (s'&Hs'&Hd&_).
  rewrite Hs in Hs'. injection Hs' as <-. unfold Api.handleReadiness. rewrite Hd in Ha |- *. clear Hs Hd.
  destruct Ha as (w1&Hsto&w2&Hwat&_). cbn [Api.poll]. rewrite Hsto, Hwat. cbn [fst snd].
  cbn [watched_store watcherReadiness Api.dep_Ready] in Hsto, Hwat. unfold on_world, on_store in Hsto. unfold on_producer in Hwat.
  destruct (Ready E (fst (fst w))) as [a s1]. injection Hsto as -> <-. cbn [fst snd] in Hwat.
  split; [done|]. destruct (Ready_ WE (snd w)) as [b s2] eqn:Er. injection Hwat as -> <-.
  unfold Ready_, st_bind, w_get in Er. cbn beta iota zeta in Er.
  destruct (p_closed (fst (snd w))); [done|]. destruct (p_ready (fst (snd w))); [|done]. cbn [orb negb] in Er.
  apply verify_roots_ok in Er as [Hf ->]. done.
Qed.

(** Without a store or without a producer such a daemon is never healthy. *)
Theorem missing_dependency_unhealthy auth store producer s r w :
  watching_server auth store producer = Ok s -> store = None \/ producer = None ->
  Api.rs_Status (fst (Api.handleReadiness s r w)) <> 200.
Proof.
  intros Hs Hn Hr. pose proof (readiness_exact _ _ _ s r w Hs) as [Hx _]. destruct (Hx Hr) as [_ Ha].
  destruct (watching_server_starts auth store producer) as (s'&Hs'&Hd&_).
  rewrite Hs in Hs'. injection Hs' as <-. rewrite Hd in Ha. destruct Ha as (w1&Hsto&w2&Hwat&_).
  destruct Hn as [-> | ->]; [done|]. cbn in Hwat. done.
Qed.
End Watching.
