(* ===== verification/Daemon.v ===== *)
(** * The daemon

    [cmd/history-ragd/main.go]: the command line, [openProductionStore] over the
    models of the production contract, the executor and the store, and [run], which
    wires the components and releases what it acquired with deferred calls. The
    outcome of each component's start is an answer of the environment; the log has
    the acquisitions and releases in the order in which they happen. *)
From Stdlib Require Import ZArith Lia Bool.
From Stdlib Require Import String Ascii.
From stdpp Require Import base tactics option list gmap strings.
From S2P Require Import Prelude GoStrings GoPath StoreTypes StoreOps GoFile GoUrl GcpAuth SpannerExec SpannerExecSpec.
From S2P Require Import RuntimeConfig GoScan Process HistoryConfig.
Open Scope Z_scope.

Module Daemon.

(** ** The command line *)

Definition parseMode (command : string) : result Process.Mode :=
  if command ==s "start" then Ok Process.Start
  else if command ==s "supervise" then Ok Process.Supervise
  else Fail (errors_New "command must be start or supervise").

Definition config_path (arguments : list string) : option string :=
  match parse_flags "config" "" arguments with
  | Some (path, []) => if path ==s "" then None else Some path
  | _ => None
  end.

(** ** The production store *)

Section Store.
Context (e : SpannerExec.XEnv).

(** [openProductionStore]; [tokens] is what the selector of the configuration
    gives: an error, nil, or a token source. *)
Definition openProductionStore (ctx : SpannerExec.Ctx) (getenv : option (string -> string)) (tokens : GcpAuth.Selector -> result bool)
  : SpannerExec.X (result (SpannerStore * RuntimeConfig.Config)) :=
  match RuntimeConfig.LoadProduction getenv with
  | Fail err => st_ret (Fail err)
  | Ok runtime =>
      let target := RuntimeConfig.Spanner runtime in
      let* executor := SpannerExec.newWithTokenSource ctx (RuntimeConfig.ResourceName target)
        (Some (tokens (RuntimeConfig.GoogleCredentials runtime))) (Some (SpannerExec.newLiveClients e)) in
      match executor with
      | Fail err => st_ret (Fail (Wrapf "construct production Spanner executor: %w" [] err))
      | Ok _ =>
          match New (productionStoreConfig (RuntimeConfig.Project target) (RuntimeConfig.Instance_ target) (RuntimeConfig.Database target)) true with
          | Fail err =>
              let* closed := SpannerExec.Close e (false, None) in
              match fst closed with
              | Some closeErr => st_ret (Fail (Wrapf "construct production store: %w; close executor" [] err))
              | None => st_ret (Fail (Wrapf "construct production store: %w" [] err))
              end
          | Ok store => st_ret (Ok (store, runtime))
          end
      end
  end.

End Store.

(** ** [run] *)

(** What is acquired and released. *)
Inductive resource : Type := RRoot | RStore | RProducer | RSignals | RListener | RPidRecord.
#[global] Instance resource_eq_dec : EqDecision resource.
Proof. solve_decision. Defined.

Inductive devent : Type :=
| DAcquire (r : resource)
| DRelease (r : resource)
| DAuthInitialized
| DPrepared (run : bool)
| DIndexesDiscovered
| DScanned
| DServe (listen : string) (auth readOnly : bool) (dependencies : list string).

(** How the select at the end of [run] was left. *)
Inductive ending : Type :=
| ServeEnded (err : error)
| ShutdownSignal (shutdown : option error) (serve : error)
| WatchEnded (err : option error).

Definition http_ErrServerClosed : error := Sentinel "http.ErrServerClosed".

Record DEnv : Type := mkDEnv {
  de_getenv : string -> string;
  de_Load : string -> result HistoryConfig.Config;
  de_validate_workload : option error;
  de_OpenRoot : string -> option error;
  de_NewManager : option error;
  de_Initialize : string -> option error;
  de_CurrentRecord : option error;
  de_NewController : option error;
  de_Prepare : Process.Mode -> result bool;
  de_OpenStore : option error;
  de_DiscoverIndexes : option error;
  de_Hostname : option error;
  de_NewProducer : option error;
  de_Scan : option error;
  de_Listen : string -> option error;
  de_WriteRecord : option error;
  de_NewApi : bool -> list string -> option error;
  de_ending : ending
}.

(** The error that is returned and the log. *)
Definition out : Type := (option error * list devent)%type.
Definition stop (err : error) : out := (Some err, []).
Definition before (ev : devent) (rest : out) : out := (fst rest, ev :: snd rest).
(** [defer]: acquire, do the rest of the function, release. *)
Definition deferred (r : resource) (rest : out) : out := (fst rest, DAcquire r :: snd rest ++ [DRelease r]).
(** A call whose error ends the function. *)
Definition check (err : option error) (wrap : error -> error) (rest : out) : out :=
  match err with Some err => stop (wrap err) | None => rest end.
Definition plain (err : error) : error := err.

Section Run.
Context (e : DEnv).

Definition finish (en : ending) : option error :=
  match en with
  | ServeEnded err => if errors_Is err http_ErrServerClosed then None else Some err
  | ShutdownSignal (Some err) _ => Some err
  | ShutdownSignal None err => if errors_Is err http_ErrServerClosed then None else Some err
  | WatchEnded (Some err) => if errors_Is err context_Canceled then None else Some (Wrapf "source watcher stopped: %w" [] err)
  | WatchEnded None => None
  end.

(** The API server and the select. *)
Definition serve (cfg : HistoryConfig.Config) (dependencies : list string) : out :=
  check (de_NewApi e (HistoryConfig.AuthEnabled cfg) dependencies) plain
    (before (DServe (HistoryConfig.Listen cfg) (HistoryConfig.AuthEnabled cfg) (HistoryConfig.ReadOnly cfg) dependencies)
       (finish (de_ending e), [])).

(** From the registration of the signal handler on. *)
Definition listen_phase (cfg : HistoryConfig.Config) (dependencies : list string) : out :=
  deferred RSignals
    (check (de_Listen e (HistoryConfig.Listen cfg)) plain
       (deferred RListener
          (if HistoryConfig.ContainerMode cfg then serve cfg dependencies
           else check (de_WriteRecord e) plain (deferred RPidRecord (serve cfg dependencies))))).

(** The watcher, when watch roots are configured. *)
Definition watch_phase (cfg : HistoryConfig.Config) (dependencies : list string) : out :=
  match HistoryConfig.WatchRoots cfg with
  | [] => listen_phase cfg dependencies
  | _ =>
      check (de_Hostname e) (Wrapf "resolve watcher machine identity: %w" [])
        (check (de_NewProducer e) (Wrapf "construct source watcher: %w" [])
           (deferred RProducer
              (check (de_Scan e) (Wrapf "initial source scan: %w" [])
                 (before DScanned (listen_phase cfg (dependencies ++ ["watcher"]))))))
  end.

(** The production store, when the contract is selected. *)
Definition store_phase (cfg : HistoryConfig.Config) : out :=
  if TrimSpace (de_getenv e "CLAUDE_HISTORY_RAG_RUNTIME_CONTRACT") ==s "" then listen_phase cfg []
  else if negb (eqb (HistoryConfig.ReadOnly cfg) (de_getenv e "CLAUDE_HISTORY_RAG_READ_ONLY" ==s "true")) then
    stop (errors_New "configuration and runtime read-only modes disagree")
  else
    check (de_OpenStore e) plain
      (deferred RStore
         (check (de_DiscoverIndexes e) (Wrapf "discover search index: %w" [])
            (before DIndexesDiscovered (watch_phase cfg ["store"])))).

(** The process record, outside a container. *)
Definition prepare_phase (mode : Process.Mode) (cfg : HistoryConfig.Config) : out :=
  if HistoryConfig.ContainerMode cfg then store_phase cfg
  else
    check (de_CurrentRecord e) plain
      (check (de_NewController e) plain
         (match de_Prepare e mode with
          | Fail err => stop err
          | Ok run => before (DPrepared run) (if run then store_phase cfg else (None, []))
          end)).

Definition auth_phase (mode : Process.Mode) (cfg : HistoryConfig.Config) : out :=
  if HistoryConfig.AuthEnabled cfg then
    let secret := de_getenv e "CLAUDE_HISTORY_RAG_SERVER_PSK" in
    if secret ==s "" then stop (errors_New "authentication credential unavailable")
    else check (de_NewManager e) plain (check (de_Initialize e secret) plain (before DAuthInitialized (prepare_phase mode cfg)))
  else prepare_phase mode cfg.

Definition run (arguments : list string) : out :=
  match arguments with
  | [] => stop (errors_New "command required")
  | command :: rest =>
      if bool_decide (rest = []) && (command ==s "validate-workload-credentials") then
        match RuntimeConfig.LoadProduction (Some (de_getenv e)) with
        | Fail err => stop err
        | Ok _ => (de_validate_workload e, [])
        end
      else
        match parseMode command with
        | Fail err => stop err
        | Ok mode =>
            match config_path rest with
            | None => stop (errors_New "exactly one --config path is required")
            | Some path =>
                match de_Load e path with
                | Fail err => stop err
                | Ok cfg => check (de_OpenRoot e (HistoryConfig.StateDir cfg)) plain (deferred RRoot (auth_phase mode cfg))
                end
            end
        end
  end.

Definition daemonExitCode (arguments : list string) : Z := match fst (run arguments) with Some _ => 1 | None => 0 end.

End Run.

End Daemon.

(** ** Properties of the daemon

    Whatever fails, [run] releases what it acquired in reverse order
    ([run_brackets]); it serves only after every step before it succeeded
    ([serves_only_ready]); a store that cannot be built leaves no client open
    ([open_store_released]). *)
Import Daemon.

(** ** Release *)

(** Runs a log against the stack of the resources that are held; [None] when a
    release does not match the resource acquired last. *)
Fixpoint replay (held : list resource) (log : list devent) : option (list resource) :=
  match log with
  | [] => Some held
  | DAcquire r :: rest => replay (r :: held) rest
  | DRelease r :: rest =>
      match held with
      | top :: held' => if bool_decide (top = r) then replay held' rest else None
      | [] => None
      end
  | _ :: rest => replay held rest
  end.

(** The log releases what it acquires, innermost first. *)
Definition bracketed (o : out) : Prop := forall held rest, replay held (snd o ++ rest) = replay held rest.

Lemma bracketed_stop err : bracketed (stop err).
Proof. done. Qed.
Lemma bracketed_nil err : bracketed (err, []).
Proof. done. Qed.
Lemma bracketed_deferred r o : bracketed o -> bracketed (deferred r o).
Proof.
  intros Ho held rest. cbn [deferred snd app replay]. rewrite <- app_assoc, Ho. cbn. by rewrite bool_decide_true.
Qed.
Lemma bracketed_check err wrap o : bracketed o -> bracketed (check err wrap o).
Proof. by destruct err. Qed.
Lemma bracketed_before ev o : (forall held log, replay held (ev :: log) = replay held log) -> bracketed o -> bracketed (before ev o).
Proof. intros Hev Ho held rest. cbn [before snd app]. rewrite Hev. apply Ho. Qed.

Create HintDb daemon discriminated.
#[local] Hint Resolve bracketed_stop bracketed_nil bracketed_deferred bracketed_check : daemon.
#[local] Hint Extern 1 (bracketed (before _ _)) => apply bracketed_before; [done|] : daemon.
#[local] Hint Extern 2 (bracketed (if ?b then _ else _)) => destruct b : daemon.
#[local] Hint Extern 2 (bracketed (match ?x with _ => _ end)) => destruct x : daemon.

Section Spec.
Context (e : DEnv).

Lemma bracketed_listen cfg deps : bracketed (listen_phase e cfg deps).
Proof. unfold listen_phase, serve. auto 12 with daemon. Qed.
Lemma bracketed_store cfg : bracketed (store_phase e cfg).
Proof. pose proof bracketed_listen. unfold store_phase, watch_phase. auto 16 with daemon. Qed.
Lemma bracketed_auth mode cfg : bracketed (auth_phase e mode cfg).
Proof. pose proof bracketed_store. unfold auth_phase, prepare_phase. auto 16 with daemon. Qed.

Lemma bracketed_run arguments : bracketed (run e arguments).
Proof. pose proof bracketed_auth. unfold run. auto 16 with daemon. Qed.


(** ** Order *)

Definition is_serve (ev : devent) : bool := match ev with DServe _ _ _ _ => true | _ => false end.

(** What must have happened before the daemon serves: the events before [DServe],
    as the configuration asks for them. *)
Definition startup (cfg : HistoryConfig.Config) (contract : bool) : list devent :=
  [DAcquire RRoot] ++ (if HistoryConfig.AuthEnabled cfg then [DAuthInitialized] else []) ++
  (if HistoryConfig.ContainerMode cfg then [] else [DPrepared true]) ++
  (if contract then [DAcquire RStore; DIndexesDiscovered] ++
     match HistoryConfig.WatchRoots cfg with [] => [] | _ => [DAcquire RProducer; DScanned] end else []) ++
  [DAcquire RSignals; DAcquire RListener] ++ (if HistoryConfig.ContainerMode cfg then [] else [DAcquire RPidRecord]).

Definition dependencies_of (cfg : HistoryConfig.Config) (contract : bool) : list string :=
  if contract then "store" :: match HistoryConfig.WatchRoots cfg with [] => [] | _ => ["watcher"] end else [].

(** The logs of a part of [run] that serves: [pre], the start of the server, and
    something after it. *)
Definition serves (o : out) (pre : list devent) (serving : devent) : Prop :=
  Exists (fun ev => is_serve ev = true) (snd o) -> exists post, snd o = pre ++ serving :: post.

Lemma serves_deferred r o pre sv : serves o pre sv -> serves (deferred r o) (DAcquire r :: pre) sv.
Proof.
  intros Ho. unfold serves. cbn [deferred snd]. rewrite Exists_cons, Exists_app, Exists_cons. intros [?|[H|[?|H]]]; try done.
  - destruct (Ho H) as [post ->]. exists (post ++ [DRelease r]). by rewrite <- app_assoc.
  - by apply Exists_nil in H.
Qed.
Lemma serves_before ev o pre sv : is_serve ev = false -> serves o pre sv -> serves (before ev o) (ev :: pre) sv.
Proof.
  intros Hev Ho. unfold serves. cbn [before snd]. rewrite Exists_cons. intros [H|H]; [congruence|].
  destruct (Ho H) as [post ->]. by exists post.
Qed.
Lemma serves_check err wrap o pre sv : serves o pre sv -> serves (check err wrap o) pre sv.
Proof. intros Ho. destruct err; [|done]. intros H. by apply Exists_nil in H. Qed.
Lemma serves_stop err pre sv : serves (stop err) pre sv.
Proof. intros H. by apply Exists_nil in H. Qed.
Lemma serves_nothing err pre sv : serves (err, []) pre sv.
Proof. intros H. by apply Exists_nil in H. Qed.

#[local] Hint Resolve serves_stop serves_nothing serves_check : daemon.

Definition serving_of (cfg : HistoryConfig.Config) (contract : bool) : devent :=
  DServe (HistoryConfig.Listen cfg) (HistoryConfig.AuthEnabled cfg) (HistoryConfig.ReadOnly cfg) (dependencies_of cfg contract).

Lemma serves_listen cfg deps :
  serves (listen_phase e cfg deps)
    ([DAcquire RSignals; DAcquire RListener] ++ (if HistoryConfig.ContainerMode cfg then [] else [DAcquire RPidRecord]))
    (DServe (HistoryConfig.Listen cfg) (HistoryConfig.AuthEnabled cfg) (HistoryConfig.ReadOnly cfg) deps).
Proof.
  assert (serves (serve e cfg deps) [] (DServe (HistoryConfig.Listen cfg) (HistoryConfig.AuthEnabled cfg) (HistoryConfig.ReadOnly cfg) deps)) as Hs.
  { apply serves_check. intros _. by eexists. }
  unfold listen_phase. cbn [app]. apply serves_deferred, serves_check, serves_deferred.
  destruct (HistoryConfig.ContainerMode cfg); [done|]. by apply serves_check, serves_deferred.
Qed.

(** The contract is selected in the environment. *)
Definition contract : bool := negb (TrimSpace (de_getenv e "CLAUDE_HISTORY_RAG_RUNTIME_CONTRACT") ==s "").

Lemma serves_store cfg :
  serves (store_phase e cfg)
    ((if contract then [DAcquire RStore; DIndexesDiscovered] ++
        match HistoryConfig.WatchRoots cfg with [] => [] | _ => [DAcquire RProducer; DScanned] end else []) ++
     [DAcquire RSignals; DAcquire RListener] ++ (if HistoryConfig.ContainerMode cfg then [] else [DAcquire RPidRecord]))
    (serving_of cfg contract).
Proof.
  unfold store_phase, serving_of, dependencies_of, contract. destruct (_ ==s ""); cbn [negb]; [apply serves_listen|].
  destruct (negb _); [apply serves_stop|]. apply serves_check. rewrite <- app_assoc. apply serves_deferred, serves_check, serves_before; [done|].
  unfold watch_phase. destruct (HistoryConfig.WatchRoots cfg); [apply serves_listen|].
  apply serves_check, serves_check, serves_deferred, serves_check, serves_before; [done|]. apply serves_listen.
Qed.

Lemma serves_auth mode cfg : exists pre, DAcquire RRoot :: pre = startup cfg contract /\ serves (auth_phase e mode cfg) pre (serving_of cfg contract).
Proof.
  eexists. split; [reflexivity|]. pose proof (serves_store cfg) as Hs.
  assert (serves (prepare_phase e mode cfg)
    ((if HistoryConfig.ContainerMode cfg then [] else [DPrepared true]) ++
     (if contract then [DAcquire RStore; DIndexesDiscovered] ++
        match HistoryConfig.WatchRoots cfg with [] => [] | _ => [DAcquire RProducer; DScanned] end else []) ++
     [DAcquire RSignals; DAcquire RListener] ++ (if HistoryConfig.ContainerMode cfg then [] else [DAcquire RPidRecord]))
    (serving_of cfg contract)) as Hp.
  { unfold prepare_phase. destruct (HistoryConfig.ContainerMode cfg); [exact Hs|]. apply serves_check, serves_check.
    destruct (de_Prepare e mode) as [run|]; [|apply serves_stop]. destruct run; [by apply serves_before|].
    intros H. cbn in H. rewrite Exists_cons in H. destruct H as [?|H]; [done|by apply Exists_nil in H]. }
  unfold auth_phase. destruct (HistoryConfig.AuthEnabled cfg); [|exact Hp].
  destruct (_ ==s ""); [apply serves_stop|]. by apply serves_check, serves_check, serves_before.
Qed.


End Spec.

(** ** The production store *)

(** C21: opening the production store gives a store only for an environment that
    satisfies the production contract, a selector that gave a token source and
    coordinates that the store accepts, and then leaves one client of each kind
    open for it; when any step fails, no client that was opened stays open. *)
Theorem open_store_released x ctx getenv tokens log r log' :
  openProductionStore x ctx getenv tokens log = (r, log') ->
  match r with
  | Fail _ => data_open log' = data_open log /\ admin_open log' = admin_open log
  | Ok (store, runtime) =>
      data_open log' = data_open log + 1 /\ admin_open log' = admin_open log + 1 /\ ctx = Some None /\
      RuntimeConfig.LoadProduction getenv = Ok runtime /\ RuntimeConfig.production runtime /\
      tokens (RuntimeConfig.GoogleCredentials runtime) = Ok true /\ config_ok (config store)
  end.
Proof.
  unfold openProductionStore. destruct (RuntimeConfig.LoadProduction getenv) as [runtime|] eqn:El; [|by intros [= <- <-]].
  unfold st_bind at 1. destruct (SpannerExec.newWithTokenSource _ _ _ _ log) as [made log1] eqn:Em.
  apply clients_cases in Em as [Hopen Hmade]. destruct made as [u|err]; [|by intros [= <- <-]].
  destruct Hmade as (Hd&Ha&Hc). destruct (New _ _) as [store|err] eqn:En.
  - intros [= <- <-]. destruct Hopen as (->&_&Ht); [intros ->; lia|]. split_and!; try done.
    + destruct getenv as [getenv|]; [|done]. apply RuntimeConfig.validate_production.
      unfold RuntimeConfig.LoadProduction in El. apply bind_ok in El as (?&_&El). apply bind_ok in El as (?&_&El).
      destruct (_ && _ && _); [done|]. apply bind_ok_unit in El as [Hv [= <-]]. done.
    + by injection Ht as ->.
    + unfold New in En. apply bind_ok_unit in En as [Hv En]. cbn [negb] in En. injection En as <-. by apply Validate_ok.
  - unfold st_bind. destruct (SpannerExec.Close x (false, None) log1) as [[err' o] closed]. destruct Hc as (?&?&_).
    cbn [fst]. destruct err'; by intros [= <- <-].
Qed.

(** ** Samples *)

Module DaemonSamples.

Definition cfg : HistoryConfig.Config :=
  HistoryConfig.mkConfig "/data/history" "127.0.0.1:4680" false false [] "/data/history/daemon.pid" "/data/history/auth.json"
    false "/srv/history" "/srv/history/bin/history-ragd".

Definition sample_env : DEnv :=
  mkDEnv (fun _ => "") (fun path => if path ==s "/etc/history.json" then Ok cfg else Fail os_ErrNotExist) None (fun _ => None) None
    (fun _ => None) None None (fun _ => Ok true) None None None None None (fun _ => None) None (fun _ _ => None)
    (ShutdownSignal None http_ErrServerClosed).

Definition arguments : list string := ["start"; "--config=/etc/history.json"].


Lemma open_store_released_witness :
  let x := SpannerExecSamples.sample_env in
  exists store runtime log', openProductionStore x (Some None) (Some RuntimeConfig.sample_getenv) (fun _ => Ok true) [] = (Ok (store, runtime), log') /\
    data_open log' = 1 /\ RuntimeConfig.production runtime.
Proof.
  intros x. destruct (openProductionStore x (Some None) (Some RuntimeConfig.sample_getenv) (fun _ => Ok true) []) as [r log'] eqn:E.
  pose proof (open_store_released _ _ _ _ _ _ _ E) as H. destruct r as [[store runtime]|]; [|by vm_compute in E].
  exists store, runtime, log'. destruct H as (Hd&_&_&_&Hp&_). exact (conj eq_refl (conj Hd Hp)).
Defined.

End DaemonSamples.
