(* ===== verification/ClientSurface.v ===== *)
(** * The client-side surface

    [internal/history/mcptools/tools.go], [statusmetrics/status.go],
    [apiclient/client.go] and [clientregistry/registry.go]: the MCP tools and
    the status reporter over the store, the ingestion client, and the registry
    that opens the client's state. *)
From Stdlib Require Import ZArith Lia Bool.
From Stdlib Require Import String Ascii.
From stdpp Require Import base tactics option list gmap strings sorting.
From S2P Require Import Prelude GoStrings GoPath StoreTypes StorePlans StoreOps Watch AtomicFile UploadQueue CursorState.
Open Scope Z_scope.

(** ** MCP tools *)

Module McpTools.

Definition ErrUnsupported : error := Sentinel "unsupported MCP tool".
Definition ErrInvalid : error := Sentinel "invalid MCP request".
Definition MaxQueryBytes : Z := 4096.

Definition SearchConversations : string := "search_conversations".
Definition SearchFileChanges : string := "search_file_changes".
Definition GetSessionSummary : string := "get_session_summary".
Definition GetIndexStatus : string := "get_index_status".
Definition GetServerStatus : string := "get_server_status".

Definition Names : list string :=
  [GetIndexStatus; GetServerStatus; GetSessionSummary; SearchConversations; SearchFileChanges].

Definition Valid (tool : string) : bool := existsb (fun v => v ==s tool) Names.

(** [Service]; [Store] is a [SpannerStore] or nil, [Ready] a function or nil. *)
Record Service : Type := mkService { has_Store : bool; s_Ready : option (M unit) }.

Section Tools.
Context (E : Env) (s : Service).

Definition tool_query (tool text : string) (limit : Z) : Query :=
  mkQuery text [] limit ""
    (if tool ==s SearchFileChanges then with_chunk_type empty_filter "file_change" else empty_filter).

Definition Search (tool text : string) (limit : Z) : M (list Result) :=
  if negb (has_Store s) || (len text =? 0) || (MaxQueryBytes <? len text) || (limit <? 1) || (100 <? limit)
  then fail ErrInvalid
  else if (tool !=s SearchConversations) && (tool !=s SearchFileChanges) then fail ErrUnsupported
  else StoreOps.Search E (tool_query tool text limit).

Definition Status (tool : string) : M Stats :=
  if negb (has_Store s) then fail ErrInvalid
  else if (tool !=s GetIndexStatus) && (tool !=s GetServerStatus) then fail ErrUnsupported
  else
    let? _ := match s_Ready s with Some ready => ready | None => ret tt end in
    Stats_ E.
End Tools.

Lemma no_mode_refused config q ready : q_Mode q = "" -> is_ok (BuildSearchPlan config q ready) = false.
Proof.
  intros Hm. unfold BuildSearchPlan. destruct (Validate config); [|done]. cbn [mbind result_bind].
  destruct (validateLimit _ _); [|done]. cbn [mbind result_bind].
  destruct (validateVector _); [|done]. cbn [mbind result_bind].
  unfold chooseVectorMode. rewrite Hm. done.
Qed.

(** Whatever the environment answers, a query without a mode finds nothing. *)
Lemma search_without_mode E q w : q_Mode q = "" -> is_ok (fst (StoreOps.Search E q w)) = false.
Proof.
  intros Hm. unfold StoreOps.Search, st_try. destruct (contextError E w) as [[[]|e] w1]; [|done].
  destruct (ensureQueryVector E q w1) as [[q'|e] w2] eqn:Eq; [|done].
  assert (q_Mode q' = "") as Hm'.
  { unfold ensureQueryVector, ret, st_bind, st_try, lift in Eq. destruct (q_Vector q); [|by simplify_eq].
    cbn in Eq. repeat (case_match; simplify_eq; try done). }
  unfold st_bind, get_store, vectorIndexReady, lift.
  pose proof (no_mode_refused (config (ws w2)) q' (vectorIndexAvailable (ws w2)) Hm') as Hp.
  by destruct (BuildSearchPlan _ _ _).
Qed.

(** The MCP search tools never return a result: the query they build names
    no search mode, which the store refuses, so every search ends in an error
    whatever the tool, the text, the limit and the store's answers. *)
Theorem mcp_search_always_fails E s tool text limit w :
  is_ok (fst (Search E s tool text limit w)) = false.
Proof.
  unfold Search. destruct (_ || _); [done|]. destruct (_ && _); [done|]. by apply search_without_mode.
Qed.

(** The store does accept the same query with a mode. *)
Example moded_query_planned :
  is_ok (BuildSearchPlan (productionStoreConfig "p" "i" "d")
    (mkQuery "hello" (repeat (float_of_int 1) 3072) 5 SearchAuto empty_filter) false) = true.
Proof. vm_compute. reflexivity. Qed.
End McpTools.

(** ** Status reporter *)

Module StatusMetrics.

Definition ErrUnavailable : error := Sentinel "status unavailable".

Record Snapshot_ : Type := mkSnapshot {
  Available : bool;
  Backend : string;
  Total : Z;
  Embedded : Z;
  Awaiting : Z;
  QueueDepth : Z;
  At : Time;
  Error : string
}.

(** [Reporter]; the provider is a store operation or nil. *)
Record Reporter : Type := mkReporter { provider : option (M Stats); queue : Z }.

Definition NewReporter (p : option (M Stats)) : Reporter := mkReporter p 0.

Definition SetQueueDepth (depth : Z) (r : Reporter) : option error * Reporter :=
  if depth <? 0 then (Some ErrUnavailable, r) else (None, mkReporter (provider r) depth).

(** [Snapshot] at the time [now]. *)
Definition Snapshot (now : Time) (r : Reporter) : st W Snapshot_ := fun w =>
  let unavailable := mkSnapshot false "" 0 0 0 (queue r) (UTC now) "unavailable" in
  match provider r with
  | None => (unavailable, w)
  | Some stats =>
      match stats w with
      | (Fail _, w') => (unavailable, w')
      | (Ok s, w') =>
          (mkSnapshot true (s_Backend s) (s_TotalChunks s) (s_EmbeddedChunks s) (s_AwaitingEmbedding s) (queue r)
             (UTC now) "", w')
      end
  end.

(** A snapshot carries the queue depth that was set last, and names no error but
    "unavailable". *)
Lemma snapshot_bounded now r w :
  let s := fst (Snapshot now r w) in
  QueueDepth s = queue r /\ (Error s = "" <-> Available s = true) /\ (Error s = "" \/ Error s = "unavailable").
Proof.
  unfold Snapshot. destruct (provider r) as [p|]; [destruct (p w) as [[]]|]; simpl; repeat split; auto; done.
Qed.
End StatusMetrics.

(** ** Ingestion client *)

Module ApiClient.

Definition MaxResponseBytes : Z := 1048576.
Definition ErrConfig : error := Sentinel "invalid API client config".
Definition ErrResponse : error := Sentinel "invalid API response".

Record ClientConfig : Type := mkClientConfig { Endpoint : string; Token : string; Timeout : Z }.
Record Client : Type := mkClient { endpoint : string; token : string; timeout : Z }.
Record Result : Type := mkResult { RecordID : string; Accepted : bool }.

(** What [Upload] reads of an [ingest.EncodedRequest]. *)
Record EncodedRequest : Type := mkEncoded { er_Body : string; er_RecordID : string; er_SHA256 : string }.

Record Request : Type := mkRequest { rq_URL : string; rq_Headers : list (string * string); rq_Body : string }.
(** A response: its status, its body, and the error that reading it ends with. *)
Record Response : Type := mkResponse { rs_StatusCode : Z; rs_Body : string; rs_ReadError : option error }.

(** [url.Parse] (scheme and host), [http.NewRequestWithContext], the HTTP
    exchange, and [json.Unmarshal] into a [Result]. *)
Class ApiEnv : Type := {
  url_Parse : string -> option (string * string);
  new_request_error : string -> option error;
  http_Do : Request -> result Response;
  result_Unmarshal : string -> option Result
}.

(** [strings.TrimRight(s, "/")]. *)
Definition TrimRightSlash (s : string) : string := srev (strip_slashes (srev s)).

Section Client.
Context `{ApiEnv}.

Definition NewClient (c : ClientConfig) : result Client :=
  match url_Parse (Endpoint c) with
  | None => Fail ErrConfig
  | Some (scheme, host) =>
      if (scheme !=s "https") || (host ==s "") || (Token c ==s "") || (Timeout c <=? 0) then Fail ErrConfig
      else Ok (mkClient (TrimRightSlash (Endpoint c)) (Token c) (Timeout c))
  end.

Definition upload_request (c : Client) (p : EncodedRequest) : Request :=
  mkRequest (endpoint c +:+ "/v1/history/ingest")
    [("Authorization", "Bearer " +:+ token c); ("Content-Type", "application/json");
     ("Idempotency-Key", er_RecordID p); ("X-Request-SHA256", hex_encode (er_SHA256 p))] (er_Body p).

(** [Upload]; [None] is a nil client. *)
Definition Upload (c : option Client) (p : EncodedRequest) : result Result :=
  match c with
  | None => Fail ErrConfig
  | Some c =>
      match new_request_error (rq_URL (upload_request c p)) with
      | Some e => Fail e
      | None =>
          resp ← http_Do (upload_request c p);
          let data := slice (rs_Body resp) 0 (MaxResponseBytes + 1) in
          match rs_ReadError resp with Some e => Fail e | None =>
          if MaxResponseBytes <? len data then Fail ErrResponse
          else if (rs_StatusCode resp =? 429) || (500 <=? rs_StatusCode resp)
          then Fail (Errorf "retryable HTTP %d" [FInt (rs_StatusCode resp)])
          else if (rs_StatusCode resp <? 200) || (299 <? rs_StatusCode resp)
          then Fail (Errorf "HTTP %d" [FInt (rs_StatusCode resp)])
          else match result_Unmarshal data with
               | None => Fail ErrResponse
               | Some out => if negb (Accepted out) || (RecordID out !=s er_RecordID p) then Fail ErrResponse else Ok out
               end
          end
      end
  end.

(** An upload that succeeds was answered with a 2xx status and an accepting body
    for this very record, at most [MaxResponseBytes] long. *)
Lemma upload_ok c p out :
  Upload (Some c) p = Ok out ->
  exists resp, http_Do (upload_request c p) = Ok resp /\ 200 <= rs_StatusCode resp <= 299 /\
    len (rs_Body resp) <= MaxResponseBytes /\ result_Unmarshal (rs_Body resp) = Some out /\
    Accepted out = true /\ RecordID out = er_RecordID p.
Proof.
  unfold Upload. destruct (new_request_error _); [done|]. intros Hu. apply bind_ok in Hu as (resp&Hd&Hu).
  exists resp. split; [done|]. destruct (rs_ReadError resp); [done|].
  destruct (Z.ltb_spec MaxResponseBytes (len (slice (rs_Body resp) 0 (MaxResponseBytes + 1)))) as [|Hl]; [done|].
  pose proof (slice_whole (rs_Body resp) MaxResponseBytes ltac:(done) Hl) as Es. rewrite Es in Hl.
  rewrite Es in Hu. break_all Hu. to_prop. repeat split; try done; lia.
Qed.
End Client.
End ApiClient.

(** ** Client registry *)

Module ClientRegistry.

Definition ErrInvalid : error := Sentinel "invalid native client registry".

Record RegistryConfig : Type := mkRegistryConfig {
  c_MachineID : string;
  c_StateDir : string;
  c_Sources : list string;
  c_QueueCapacity : Z;
  c_API : ApiClient.ClientConfig
}.

(** [Registry]; the three pointers may be nil. *)
Record Registry : Type := mkRegistry {
  r_Sources : list string;
  r_Watch : Watch.Registry;
  r_Cursor : option Cursor.State;
  r_Queue : option UploadQueue.Queue;
  r_API : option ApiClient.Client
}.

Definition supported (s : string) : bool :=
  (s ==s SourceClaude) || (s ==s SourceCodex) || (s ==s SourceChatGPT) || (s ==s SourceGemini) ||
  (s ==s SourceAntigravity) || (s ==s SourceClaudeApp).

(** The loop over the sources: each is supported and none is repeated. *)
Fixpoint check_sources (seen : list string) (sources : list string) : bool :=
  match sources with
  | [] => true
  | s :: rest => negb (existsb (String.eqb s) seen) && supported s && check_sources (s :: seen) rest
  end.

Section Registry.
Context `{Cursor.CursorCodec} `{QueueCodec} `{ApiClient.ApiEnv}.

(** [Open]; [read] gives the outcome of reading a file. *)
Definition Open (read : string -> result string) (c : RegistryConfig) : result Registry :=
  if (c_MachineID c ==s "") || negb (IsAbs (c_StateDir c)) || (Clean (c_StateDir c) !=s c_StateDir c) ||
     (c_QueueCapacity c <? 1)
  then Fail ErrInvalid
  else if negb (Z.of_nat (length (c_Sources c)) =? 6) then Fail ErrInvalid
  else if negb (check_sources [] (c_Sources c)) then Fail ErrInvalid
  else
    let sources := sort_Strings (c_Sources c) in
    let cursor_path := GoPath.Join2 (c_StateDir c) "cursor.json" in
    let queue_path := GoPath.Join2 (c_StateDir c) "queue.json" in
    state ← Cursor.OpenState cursor_path (read cursor_path);
    queue ← Open_ queue_path (c_QueueCapacity c) (read queue_path);
    api ← ApiClient.NewClient (c_API c);
    Ok (mkRegistry sources (Watch.mkRegistry (c_MachineID c) 0) (Some state) (Some queue) (Some api)).

(** [Supports] and [Close]; [None] is a nil registry. *)
Definition Supports (r : option Registry) (s : string) : bool :=
  match r with
  | None => false
  | Some r => existsb (fun v => v ==s s) (r_Sources r)
  end.

Definition Close (r : option Registry) : option error :=
  match r with
  | None => None
  | Some r =>
      match r_Cursor r, r_Queue r, r_API r with
      | Some _, Some _, Some _ => None
      | _, _, _ => Some (Wrapf "%w: incomplete registry" [] ErrInvalid)
      end
  end.

(** *** What an opened registry supports *)

Definition six_kinds : list string :=
  [SourceClaude; SourceCodex; SourceChatGPT; SourceGemini; SourceAntigravity; SourceClaudeApp].

Lemma supported_six s : supported s = true <-> List.In s six_kinds.
Proof.
  unfold supported, six_kinds. rewrite !orb_true_iff, !String.eqb_eq. simpl. split; intros; intuition congruence.
Qed.

Lemma check_sources_ok seen l :
  check_sources seen l = true ->
  List.NoDup l /\ incl l six_kinds /\ (forall s, List.In s l -> ~ List.In s seen).
Proof.
  revert seen. induction l as [|s l IH]; intros seen; simpl; [repeat split; [constructor|easy|easy]|].
  intros Hc. to_prop. apply IH in H3 as (Hn&Hi&Hs).
  assert (~ List.In s seen) as Hns.
  { intros Hin. assert (existsb (String.eqb s) seen = true) as Hx; [|congruence].
    apply existsb_exists. exists s. split; [done|apply String.eqb_refl]. }
  split; [constructor; [intros Hin; apply (Hs s Hin); by left|done]|]. split.
  - intros x [<-|Hx]; [by apply supported_six|auto].
  - intros x [<-|Hx]; [done|]. intros Hin. apply (Hs x Hx). by right.
Qed.

(** A registry that opens supports exactly the six source kinds, can be
    closed, and its cursor and queue live in the configured state directory with
    the configured capacity. *)
Theorem registry_supports_six read c r :
  Open read c = Ok r ->
  (forall s, Supports (Some r) s = supported s) /\ Close (Some r) = None /\
  (exists st q, r_Cursor r = Some st /\ r_Queue r = Some q /\ q_capacity q = c_QueueCapacity c /\
     Cursor.cs_path st = Join2 (c_StateDir c) "cursor.json" /\ q_path q = Join2 (c_StateDir c) "queue.json").
Proof.
  unfold Open. destruct (_ || _); [done|]. destruct (Z.eqb_spec (Z.of_nat (length (c_Sources c))) 6) as [H6|]; [|done].
  cbn [negb]. destruct (check_sources [] (c_Sources c)) eqn:Ec; [|done]. cbn [negb].
  rewrite !bind_ok. intros (st&Hst&Hr). apply bind_ok in Hr as (q&Hq&Hr). apply bind_ok in Hr as (api&_&Hr).
  injection Hr as <-. split; [|split; [done|]].
  - intros s. apply check_sources_ok in Ec as (Hn&Hi&_).
    assert (forall x, List.In x (sort_Strings (c_Sources c)) <-> List.In x six_kinds) as Hiff.
    { intros x. rewrite <- !list_elem_of_In, sort_Strings_perm, !list_elem_of_In. split; [apply Hi|].
      apply (NoDup_length_incl Hn); [simpl; lia|done]. }
    apply eq_true_iff_eq. rewrite supported_six, <- Hiff. cbn [Supports r_Sources]. rewrite existsb_exists. split.
    + intros (x&Hx&->%String.eqb_eq). done.
    + intros Hx. exists s. split; [done|apply String.eqb_refl].
  - exists st, q. repeat split.
    + unfold Open_ in Hq. by break_all Hq.
    + unfold Cursor.OpenState in Hst. by break_all Hst.
    + unfold Open_ in Hq. by break_all Hq.
Qed.
End Registry.

(** A registry over an empty state directory. *)
Module RegistrySamples.
#[local] Instance cursor_codec : Cursor.CursorCodec := {|
  Cursor.cursor_Marshal _ _ := Ok "{}"; Cursor.cursor_Unmarshal _ := None |}.
#[local] Instance queue_codec : QueueCodec := {| queue_Marshal _ _ := Ok "{}"; queue_Unmarshal _ := None |}.
#[local] Instance api_env : ApiClient.ApiEnv := {|
  ApiClient.url_Parse s := if HasPrefix s "https://" then Some ("https", slice_from s 8) else None;
  ApiClient.new_request_error _ := None;
  ApiClient.http_Do _ := Fail (errors_New "unreachable");
  ApiClient.result_Unmarshal _ := None |}.

Definition config : RegistryConfig :=
  mkRegistryConfig "m1" "/state" ["gemini"; "claude"; "codex"; "chatgpt"; "claudeapp"; "antigravity"] 10
    (ApiClient.mkClientConfig "https://api.test/" "secret" second).
Definition registry : Registry :=
  mkRegistry ["antigravity"; "chatgpt"; "claude"; "claudeapp"; "codex"; "gemini"] (Watch.mkRegistry "m1" 0)
    (Some (Cursor.mkState "/state/cursor.json" ∅)) (Some (mkQueue "/state/queue.json" 10 ∅))
    (Some (ApiClient.mkClient "https://api.test" "secret" second)).

Lemma registry_supports_six_witness :
  (forall s, Supports (Some registry) s = supported s) /\ Close (Some registry) = None /\
  (exists st q, r_Cursor registry = Some st /\ r_Queue registry = Some q /\ q_capacity q = 10 /\
     Cursor.cs_path st = "/state/cursor.json" /\ q_path q = "/state/queue.json").
Proof. apply (registry_supports_six (fun _ => Fail os_ErrNotExist) config). vm_compute. reflexivity. Defined.
End RegistrySamples.
End ClientRegistry.
